(** * The block-blob store of storage/blobstore.c, as a shallow embedding

    The C code is translated function by function into a state-and-error
    monad over an explicit [world]: the file tree below the store, the
    kernel's descriptor table, the process-global lock registry
    ([locks_list]), the thread-local [_blobstore_errno], the C [errno] and a
    clock.  The helpers that the file calls but does not define (diskutil,
    dmsetup, libc's qsort and random) are an interface, [External], whose
    behaviour the theorems quantify over.

    Modelling conventions, used throughout:
    - one process with one thread: mutexes are not modelled and a POSIX
      record lock never conflicts (it conflicts between processes only);
    - memory allocation does not fail, and every path fits its buffer;
    - a path names a node literally: no [.], [..] or doubled slashes;
    - permissions are not modelled: [unlink] removes any regular file,
      [rmdir] any empty directory, and a file can be created wherever its
      directory exists;
    - the data inside a blob is not tracked beyond the bytes of the file
      that backs it; block devices live in the external state. *)

From Stdlib Require Import ZArith Ascii Lia.
From Stdlib Require String.
From Stdlib Require Import Sorting.Sorted Sorting.Permutation.
From stdpp Require Import gmap strings list fin_maps pretty.

Local Open Scope Z_scope.

(** ** Constants of blobstore.c *)

Definition BLOBSTORE_METADATA_FILE : string := ".blobstore".
Definition BLOBSTORE_METADATA_TIMEOUT_MS : Z := 999.
Definition BLOBSTORE_SLEEP_INTERVAL_MS : Z := 99.
Definition BLOBSTORE_MAX_CONCURRENT : nat := 99.
Definition BLOBSTORE_NO_TIMEOUT : Z := -1.
Definition DM_PATH : string := "/dev/mapper/".
Definition MIN_BLOCKS_SNAPSHOT : Z := 32.
Definition EUCA_ZERO : string := "euca-zero".
Definition EUCA_ZERO_SIZE : string := "2199023255552".

(** The metadata files of a blob ([blockblob_path_t]) and their suffixes. *)
Inductive blockblob_path_t :=
  | BLOCKBLOB_PATH_NONE
  | BLOCKBLOB_PATH_BLOCKS
  | BLOCKBLOB_PATH_DM
  | BLOCKBLOB_PATH_DEPS
  | BLOCKBLOB_PATH_LOOPBACK
  | BLOCKBLOB_PATH_SIG
  | BLOCKBLOB_PATH_REFS.

Definition blobstore_metadata_suffixes (t : blockblob_path_t) : string :=
  match t with
  | BLOCKBLOB_PATH_NONE => "none"
  | BLOCKBLOB_PATH_BLOCKS => "blocks"
  | BLOCKBLOB_PATH_DM => "dm"
  | BLOCKBLOB_PATH_DEPS => "deps"
  | BLOCKBLOB_PATH_LOOPBACK => "loopback"
  | BLOCKBLOB_PATH_SIG => "sig"
  | BLOCKBLOB_PATH_REFS => "refs"
  end.

(** The six kinds in the order of the loops [for (i=1; i<BLOCKBLOB_PATH_TOTAL; i++)]. *)
Definition blockblob_paths : list blockblob_path_t :=
  [BLOCKBLOB_PATH_BLOCKS; BLOCKBLOB_PATH_DM; BLOCKBLOB_PATH_DEPS;
   BLOCKBLOB_PATH_LOOPBACK; BLOCKBLOB_PATH_SIG; BLOCKBLOB_PATH_REFS].

(** ** What blobstore.h declares

    The header is not part of the sources at hand; its enumerations are
    rendered as inductive types and its numeric constants are the fields of
    [Header], constrained only where a proof needs it. *)

(** Modelled from the spec: the error enumeration of blobstore.h, in the
    order of the spec's taxonomy; [BLOBSTORE_ERROR_OK] is the value 0 that
    [if (saved_errno)] tests. *)
Inductive blobstore_error_t :=
  | BLOBSTORE_ERROR_OK
  | BLOBSTORE_ERROR_NOENT
  | BLOBSTORE_ERROR_NOMEM
  | BLOBSTORE_ERROR_ACCES
  | BLOBSTORE_ERROR_EXIST
  | BLOBSTORE_ERROR_INVAL
  | BLOBSTORE_ERROR_NOSPC
  | BLOBSTORE_ERROR_AGAIN
  | BLOBSTORE_ERROR_MFILE
  | BLOBSTORE_ERROR_BADF
  | BLOBSTORE_ERROR_SIGNATURE
  | BLOBSTORE_ERROR_UNKNOWN.

Global Instance blobstore_error_eq_dec : EqDecision blobstore_error_t.
Proof. solve_decision. Defined.

(** Modelled from the spec: the store descriptor's enumerations. *)
Inductive blobstore_format_t := BLOBSTORE_FORMAT_ANY | BLOBSTORE_FORMAT_FILES | BLOBSTORE_FORMAT_DIRECTORY.
Inductive blobstore_revocation_t := BLOBSTORE_REVOCATION_ANY | BLOBSTORE_REVOCATION_NONE | BLOBSTORE_REVOCATION_LRU.
Inductive blobstore_snapshot_t := BLOBSTORE_SNAPSHOT_ANY | BLOBSTORE_SNAPSHOT_NONE | BLOBSTORE_SNAPSHOT_DM.

Global Instance blobstore_format_eq_dec : EqDecision blobstore_format_t.
Proof. solve_decision. Defined.
Global Instance blobstore_revocation_eq_dec : EqDecision blobstore_revocation_t.
Proof. solve_decision. Defined.
Global Instance blobstore_snapshot_eq_dec : EqDecision blobstore_snapshot_t.
Proof. solve_decision. Defined.

(** The flag and status bits and the one array bound of blobstore.h. *)
Class Header := {
  BLOBSTORE_FLAG_RDWR : Z;
  BLOBSTORE_FLAG_RDONLY : Z;
  BLOBSTORE_FLAG_CREAT : Z;
  BLOBSTORE_FLAG_EXCL : Z;
  BLOCKBLOB_STATUS_OPENED : Z;
  BLOCKBLOB_STATUS_MAPPED : Z;
  BLOCKBLOB_STATUS_BACKED : Z;
  MAX_BLOCKMAP_SIZE : Z;
  BLOBSTORE_MAX_PATH : Z;
  (** the numbering of the descriptor's enumerations, as the descriptor
      file stores them; an integer outside an enumeration is read as the
      value these pick *)
  int_of_format : blobstore_format_t → Z;
  format_of_int : Z → blobstore_format_t;
  int_of_revocation : blobstore_revocation_t → Z;
  revocation_of_int : Z → blobstore_revocation_t;
  int_of_snapshot : blobstore_snapshot_t → Z;
  snapshot_of_int : Z → blobstore_snapshot_t;
}.

(** [struct blobstore]. *)
Record blobstore := {
  bs_id : string;
  bs_path : string;
  limit_blocks : Z;
  revocation_policy : blobstore_revocation_t;
  snapshot_policy : blobstore_snapshot_t;
  format : blobstore_format_t;
  bs_fd : Z;
}.

(** [struct blockblob]; the [next] pointer of the scanner's linked list is
    the tail of a Rocq list. *)
Record blockblob := {
  store : blobstore;
  bb_id : string;
  blocks_path : string;
  device_path : string;
  dm_name : string;
  size_blocks : Z;
  in_use : Z;
  last_accessed : Z;
  last_modified : Z;
  snapshot_type : blobstore_snapshot_t;
  bb_fd : Z;
}.

(** ** Machine integers *)

Definition wrap64 (z : Z) : Z := z mod 2 ^ 64.
Definition wrap32 (z : Z) : Z := z mod 2 ^ 32.
(** The value a two's complement conversion to [int] yields. *)
Definition to_int (z : Z) : Z := (z + 2 ^ 31) mod 2 ^ 32 - 2 ^ 31.
(** The value a conversion to [long long] yields. *)
Definition to_llong (z : Z) : Z := (z + 2 ^ 63) mod 2 ^ 64 - 2 ^ 63.

(** ** C strings *)

Definition slash : ascii := "/"%char.
Definition newline : ascii := "010"%char.

(** [str_take n s] is [s] cut by writing a NUL at index [n]. *)
Fixpoint str_take (n : nat) (s : string) : string :=
  match n, s with
  | O, _ => ""
  | S n', String c s' => String c (str_take n' s')
  | S _, EmptyString => ""
  end.

Fixpoint str_drop (n : nat) (s : string) : string :=
  match n, s with
  | O, _ => s
  | S n', String _ s' => str_drop n' s'
  | S _, EmptyString => ""
  end.

(** The string before the last slash, if there is a slash. *)
Fixpoint dirname_aux (s : string) : option string :=
  match s with
  | EmptyString => None
  | String c s' =>
      match dirname_aux s' with
      | Some d => Some (String c d)
      | None => if decide (c = slash) then Some "" else None
      end
  end.

Definition dirname (s : string) : string := default "" (dirname_aux s).

Fixpoint str_contains (c : ascii) (s : string) : bool :=
  match s with
  | EmptyString => false
  | String c' s' => bool_decide (c' = c) || str_contains c s'
  end.

(** What [strlen], [strcmp] and friends see of a buffer: the bytes before the first NUL. *)
Fixpoint cstr (s : string) : string :=
  match s with
  | EmptyString => ""
  | String c s' => if decide (c = "000"%char) then "" else String c (cstr s')
  end.

(** The number of bytes of a buffer or of a file. *)
Definition nbytes (s : string) : Z := Z.of_nat (String.length s).

(** A Rocq string that is passed where the C code has a [char *] stands for
    the C string itself, so it should hold no NUL; only what is read from a
    file may. *)
Definition c_string (s : string) : Prop := cstr s = s.

Definition strlen (s : string) : Z := nbytes s.

(** [strncmp (s1, s2, n) == 0]; the end of a Rocq string is its NUL. *)
Fixpoint strncmp (s1 s2 : string) (n : nat) : bool :=
  match n with
  | O => true
  | S n' =>
      match s1, s2 with
      | String c1 s1', String c2 s2' =>
          if decide (c1 = c2) then
            if decide (c1 = "000"%char) then true else strncmp s1' s2' n'
          else false
      | EmptyString, EmptyString => true
      | EmptyString, String c2 _ => bool_decide (c2 = "000"%char)
      | String c1 _, EmptyString => bool_decide (c1 = "000"%char)
      end
  end.

(** [strstr buf key]: the rest of [buf] from the first occurrence of [key]. *)
Fixpoint strstr (buf key : string) : option string :=
  if String.prefix key buf then Some buf
  else match buf with
       | EmptyString => None
       | String _ buf' => strstr buf' key
       end.

(** [strrchr s c]: the parts before and from the last occurrence of [c]. *)
Fixpoint strrchr (s : string) (c : ascii) : option (string * string) :=
  match s with
  | EmptyString => None
  | String c' s' =>
      match strrchr s' c with
      | Some (pre, post) => Some (String c' pre, post)
      | None => if decide (c' = c) then Some ("", s) else None
      end
  end.

(** ** The file tree *)

Inductive node :=
  | File (data : string) (mtime : Z)
  | Dir.

Global Instance node_eq_dec : EqDecision node.
Proof. solve_decision. Defined.

Definition is_file (o : option node) : bool :=
  match o with Some (File _ _) => true | _ => false end.
Definition is_dir (o : option node) : bool :=
  match o with Some Dir => true | _ => false end.

(** A directory is empty when no node has it as its parent. *)
Definition dir_empty (fs : gmap string node) (d : string) : bool :=
  bool_decide (map_Forall (λ p _, dirname p ≠ d) fs).

(** The directory a new entry goes into exists; the root and the working
    directory (the empty [dirname]) always do. *)
Definition parent_ok (fs : gmap string node) (p : string) : bool :=
  bool_decide (dirname p = "") || is_dir (fs !! dirname p).

(** The C library's [errno], as far as the code looks at it. *)
Inductive errno_t :=
  | E_OK | ENOENT | ENOMEM | EACCES | EEXIST | EINVAL | ENOSPC | EAGAIN
  | EISDIR | ENOTDIR | ENOTEMPTY | EBADF.

Global Instance errno_eq_dec : EqDecision errno_t.
Proof. solve_decision. Defined.

(** A directory above [p] is a regular file; [fuel] bounds the number of
    directories looked at. *)
Fixpoint under_file (fs : gmap string node) (fuel : nat) (p : string) : bool :=
  match fuel with
  | O => false
  | S fuel' =>
      let d := dirname p in
      negb (bool_decide (d = "")) && (is_file (fs !! d) || under_file fs fuel' d)
  end.

(** The [errno] of a system call on a path that is not there: the kernel
    says [ENOTDIR] when the path leads through a regular file, and [ENOENT]
    otherwise. *)
Definition lookup_errno (fs : gmap string node) (p : string) : errno_t :=
  if under_file fs (String.length p) p then ENOTDIR else ENOENT.

(** [fcntl.h], Linux values. *)
Definition O_RDONLY : Z := 0.
Definition O_RDWR : Z := 2.
Definition O_CREAT : Z := 64.
Definition O_EXCL : Z := 128.

Inductive lock_type := F_RDLCK | F_WRLCK.
Global Instance lock_type_eq_dec : EqDecision lock_type.
Proof. solve_decision. Defined.

(** ** The helpers outside blobstore.c

    Every call to a helper is also appended to a log, so that a theorem can
    say which helpers a function did or did not invoke. *)
Inductive ext_call :=
  | CallLoop (file : string)
  | CallUnloop (dev : string)
  | CallDd (src : option string) (dst : string) (count seek skip : Z)
  | CallDmCreate (name table : string)
  | CallDmRemove (name : string)
  | CallDmSuspend (name : string)
  | CallDmResume (name : string).

Class External (E : Type) := {
  (** [diskutil_loop]: the loop device now bound to the file, or failure *)
  ext_loop : E → string → E * option string;
  ext_unloop : E → string → E * bool;
  (** [diskutil_dd2 (in, out, bs, count, seek, skip)]: true on success *)
  ext_dd : E → option string → string → Z → Z → Z → E * bool;
  (** [dmsetup create name] with the table on its input, and the other verbs *)
  ext_dm_create : E → string → string → E * bool;
  ext_dm_remove : E → string → E * bool;
  ext_dm_suspend : E → string → E * bool;
  ext_dm_resume : E → string → E * bool;
  (** [stat] on a path outside the modelled tree: [None] when it does not
      exist, else whether it is a block device *)
  ext_stat : E → string → option bool;
  (** [diskutil_init]: zero on success *)
  ext_init : E → E * Z;
  (** three calls of [random] after [srandom], printed by [gen_id] *)
  ext_gen_id : E → E * string;
  (** libc's [qsort] on an array of pointers *)
  ext_qsort : (blockblob → blockblob → Z) → list blockblob → list blockblob;
  (** [st_atime] of a file: the file system keeps the time of the last
      access, by rules that depend on how it is mounted *)
  ext_atime : E → string → Z;
  (** the bytes that an array on the stack holds before the function
      writes to it *)
  ext_stack : E → string;
}.

(** ** The lock registry's entries *)

(** [pthread_rwlock_t], held by threads of this process. *)
Record rwlock := { rw_readers : nat; rw_writer : bool }.

Definition pthread_rwlock_init : rwlock := {| rw_readers := 0; rw_writer := false |}.

Definition pthread_rwlock_trywrlock (l : rwlock) : option rwlock :=
  if rw_writer l || negb (bool_decide (rw_readers l = 0%nat)) then None
  else Some {| rw_readers := 0; rw_writer := true |}.

Definition pthread_rwlock_tryrdlock (l : rwlock) : option rwlock :=
  if rw_writer l then None
  else Some {| rw_readers := S (rw_readers l); rw_writer := false |}.

Definition pthread_rwlock_unlock (l : rwlock) : rwlock :=
  if rw_writer l then {| rw_readers := rw_readers l; rw_writer := false |}
  else {| rw_readers := pred (rw_readers l); rw_writer := false |}.

(** [struct _blobstore_filelock]; the [next] pointer is the tail of [locks_list]. *)
Record blobstore_filelock := {
  l_path : string;
  l_type : lock_type;
  l_refs : Z;
  l_next_fd : nat;
  l_fd : list Z;
  l_fd_status : list Z;
  l_lock : rwlock;
}.

Definition set_refs (r : Z) (l : blobstore_filelock) : blobstore_filelock :=
  {| l_path := l_path l; l_type := l_type l; l_refs := r; l_next_fd := l_next_fd l;
     l_fd := l_fd l; l_fd_status := l_fd_status l; l_lock := l_lock l |}.

Definition set_lock (k : rwlock) (l : blobstore_filelock) : blobstore_filelock :=
  {| l_path := l_path l; l_type := l_type l; l_refs := l_refs l; l_next_fd := l_next_fd l;
     l_fd := l_fd l; l_fd_status := l_fd_status l; l_lock := k |}.

Definition set_status (i : nat) (s : Z) (l : blobstore_filelock) : blobstore_filelock :=
  {| l_path := l_path l; l_type := l_type l; l_refs := l_refs l; l_next_fd := l_next_fd l;
     l_fd := l_fd l; l_fd_status := <[i:=s]> (l_fd_status l); l_lock := l_lock l |}.

(** The three statements that register a descriptor. *)
Definition push_fd (fd : Z) (l : blobstore_filelock) : blobstore_filelock :=
  {| l_path := l_path l; l_type := l_type l; l_refs := l_refs l;
     l_next_fd := S (l_next_fd l);
     l_fd := <[l_next_fd l:=fd]> (l_fd l);
     l_fd_status := <[l_next_fd l:=1]> (l_fd_status l);
     l_lock := l_lock l |}.

(** [calloc] and the initialisation of a new entry. *)
Definition new_filelock (path : string) (t : lock_type) : blobstore_filelock :=
  {| l_path := path; l_type := t; l_refs := 0; l_next_fd := 0;
     l_fd := replicate BLOBSTORE_MAX_CONCURRENT 0;
     l_fd_status := replicate BLOBSTORE_MAX_CONCURRENT 0;
     l_lock := pthread_rwlock_init |}.

(** ** The world and the monad of C functions *)

Section Blobstore.
Context `{HDR : Header} {E : Type} `{EXT : !External E}.

(** An open file description: the path it was opened on and its offset. *)
Record world := {
  w_fs : gmap string node;
  w_fdt : gmap Z (string * Z);
  locks_list : list blobstore_filelock;
  _blobstore_errno : blobstore_error_t;
  _do_print_errors : bool;
  errno : errno_t;
  w_time : Z;
  w_ext : E;
  w_calls : list ext_call;
}.

Definition set_fs (f : gmap string node) (w : world) : world :=
  {| w_fs := f; w_fdt := w_fdt w; locks_list := locks_list w;
     _blobstore_errno := _blobstore_errno w; _do_print_errors := _do_print_errors w;
     errno := errno w; w_time := w_time w; w_ext := w_ext w; w_calls := w_calls w |}.
Definition set_fdt (t : gmap Z (string * Z)) (w : world) : world :=
  {| w_fs := w_fs w; w_fdt := t; locks_list := locks_list w;
     _blobstore_errno := _blobstore_errno w; _do_print_errors := _do_print_errors w;
     errno := errno w; w_time := w_time w; w_ext := w_ext w; w_calls := w_calls w |}.
Definition set_locks (ll : list blobstore_filelock) (w : world) : world :=
  {| w_fs := w_fs w; w_fdt := w_fdt w; locks_list := ll;
     _blobstore_errno := _blobstore_errno w; _do_print_errors := _do_print_errors w;
     errno := errno w; w_time := w_time w; w_ext := w_ext w; w_calls := w_calls w |}.
Definition set_blobstore_errno (e : blobstore_error_t) (w : world) : world :=
  {| w_fs := w_fs w; w_fdt := w_fdt w; locks_list := locks_list w;
     _blobstore_errno := e; _do_print_errors := _do_print_errors w;
     errno := errno w; w_time := w_time w; w_ext := w_ext w; w_calls := w_calls w |}.
Definition set_print (b : bool) (w : world) : world :=
  {| w_fs := w_fs w; w_fdt := w_fdt w; locks_list := locks_list w;
     _blobstore_errno := _blobstore_errno w; _do_print_errors := b;
     errno := errno w; w_time := w_time w; w_ext := w_ext w; w_calls := w_calls w |}.
Definition set_errno (e : errno_t) (w : world) : world :=
  {| w_fs := w_fs w; w_fdt := w_fdt w; locks_list := locks_list w;
     _blobstore_errno := _blobstore_errno w; _do_print_errors := _do_print_errors w;
     errno := e; w_time := w_time w; w_ext := w_ext w; w_calls := w_calls w |}.
Definition set_time (t : Z) (w : world) : world :=
  {| w_fs := w_fs w; w_fdt := w_fdt w; locks_list := locks_list w;
     _blobstore_errno := _blobstore_errno w; _do_print_errors := _do_print_errors w;
     errno := errno w; w_time := t; w_ext := w_ext w; w_calls := w_calls w |}.
Definition set_ext (e : E) (c : ext_call) (w : world) : world :=
  {| w_fs := w_fs w; w_fdt := w_fdt w; locks_list := locks_list w;
     _blobstore_errno := _blobstore_errno w; _do_print_errors := _do_print_errors w;
     errno := errno w; w_time := w_time w; w_ext := e; w_calls := w_calls w ++ [c] |}.

(** A call returns a value in a new world, or never returns ([Hang]: a wait
    without timeout for a lock that this thread holds), or leaves defined
    behaviour ([Fault]: a failed [assert], a freed registry entry that is
    still linked, a buffer read before it was written). *)
Inductive outcome (A : Type) :=
  | Ret (w : world) (a : A)
  | Hang
  | Fault.
Global Arguments Ret {A} w a.
Global Arguments Hang {A}.
Global Arguments Fault {A}.

Definition M (A : Type) : Type := world → outcome A.

Global Instance M_ret : MRet M := λ A a w, Ret w a.
Global Instance M_bind : MBind M := λ A B f m w,
  match m w with
  | Ret w' a => f a w'
  | Hang => Hang
  | Fault => Fault
  end.

Definition get_world : M world := λ w, Ret w w.
Definition put_world (w' : world) : M unit := λ _, Ret w' tt.
Definition modify (f : world → world) : M unit := λ w, Ret (f w) tt.
Definition fault {A} : M A := λ _, Fault.
Definition hang {A} : M A := λ _, Hang.

(** *** Errors *)

Definition _err_on : M unit := modify (set_print true).
Definition _err_off : M unit := modify (set_print false).

(** [err]: the message goes to the terminal, which is not modelled. *)
Definition err (error : blobstore_error_t) : M unit :=
  modify (set_blobstore_errno error).

Definition propagate_system_errno (default_errno : blobstore_error_t) : M unit :=
  w ← get_world;
  let e := match errno w with
           | ENOENT => BLOBSTORE_ERROR_NOENT
           | ENOMEM => BLOBSTORE_ERROR_NOMEM
           | EACCES => BLOBSTORE_ERROR_ACCES
           | EEXIST => BLOBSTORE_ERROR_EXIST
           | EINVAL => BLOBSTORE_ERROR_INVAL
           | ENOSPC => BLOBSTORE_ERROR_NOSPC
           | EAGAIN => BLOBSTORE_ERROR_AGAIN
           | _ => default_errno
           end in
  modify (set_blobstore_errno e);;
  err e.

(** *** System calls *)

Definition time_usec : M Z := λ w, Ret w (w_time w).
Definition usleep (usec : Z) : M unit := modify (λ w, set_time (w_time w + usec) w).

Definition fail_with {A} (e : errno_t) (r : A) : M A :=
  modify (set_errno e);; mret r.

(** The lowest descriptor that is not open. *)
Fixpoint lowest_free (t : gmap Z (string * Z)) (from : Z) (fuel : nat) : Z :=
  match fuel with
  | O => from
  | S fuel' => if decide (is_Some (t !! from)) then lowest_free t (from + 1) fuel' else from
  end.

Definition alloc_fd (path : string) : M Z := λ w,
  let fd := lowest_free (w_fdt w) 0 (size (w_fdt w)) in
  Ret (set_fdt (<[fd := (path, 0)]> (w_fdt w)) w) fd.

Definition has_flag (flags bit : Z) : bool := negb (Z.land flags bit =? 0).

(** [open (path, o_flags, mode)]; permissions are not modelled. *)
Definition sys_open (path : string) (o_flags : Z) (mode : Z) : M Z :=
  w ← get_world;
  match w_fs w !! path with
  | Some Dir =>
      if has_flag o_flags O_CREAT && has_flag o_flags O_EXCL then fail_with EEXIST (-1)
      else if has_flag o_flags O_RDWR || has_flag o_flags O_CREAT then fail_with EISDIR (-1)
      else alloc_fd path
  | Some (File _ _) =>
      if has_flag o_flags O_CREAT && has_flag o_flags O_EXCL then fail_with EEXIST (-1)
      else alloc_fd path
  | None =>
      if has_flag o_flags O_CREAT then
        if parent_ok (w_fs w) path then
          modify (set_fs (<[path := File "" (w_time w)]> (w_fs w)));; alloc_fd path
        else fail_with (lookup_errno (w_fs w) path) (-1)
      else fail_with (lookup_errno (w_fs w) path) (-1)
  end.

Definition sys_close (fd : Z) : M Z :=
  w ← get_world;
  match w_fdt w !! fd with
  | Some _ => modify (set_fdt (delete fd (w_fdt w)));; mret 0
  | None => fail_with EBADF (-1)
  end.

(** [stat]: the kind of the node and, for a file, its size and times. *)
Inductive stat_t :=
  | StReg (st_size st_mtime : Z)
  | StDir
  | StBlk
  | StOther.

Definition st_size_of (s : stat_t) : Z :=
  match s with StReg n _ => n | _ => 0 end.
Definition st_mtime_of (s : stat_t) : Z :=
  match s with StReg _ t => t | _ => 0 end.
Definition S_ISBLK (s : stat_t) : bool :=
  match s with StBlk => true | _ => false end.
Definition S_ISDIR (s : stat_t) : bool :=
  match s with StDir => true | _ => false end.

Definition sys_stat (path : string) : M (option stat_t) :=
  w ← get_world;
  match w_fs w !! path with
  | Some (File d t) => mret (Some (StReg (nbytes d) t))
  | Some Dir => mret (Some StDir)
  | None =>
      match ext_stat (w_ext w) path with
      | Some true => mret (Some StBlk)
      | Some false => mret (Some StOther)
      | None => fail_with (lookup_errno (w_fs w) path) None
      end
  end.

Definition sys_fstat (fd : Z) : M (option stat_t) :=
  w ← get_world;
  match w_fdt w !! fd with
  | Some (path, _) =>
      match w_fs w !! path with
      | Some (File d t) => mret (Some (StReg (nbytes d) t))
      | Some Dir => mret (Some StDir)
      | None => fail_with EBADF None
      end
  | None => fail_with EBADF None
  end.

Definition sys_unlink (path : string) : M Z :=
  w ← get_world;
  match w_fs w !! path with
  | Some (File _ _) => modify (set_fs (delete path (w_fs w)));; mret 0
  | Some Dir => fail_with EISDIR (-1)
  | None => fail_with (lookup_errno (w_fs w) path) (-1)
  end.

Definition sys_rmdir (path : string) : M Z :=
  w ← get_world;
  match w_fs w !! path with
  | Some Dir =>
      if dir_empty (w_fs w) path then modify (set_fs (delete path (w_fs w)));; mret 0
      else fail_with ENOTEMPTY (-1)
  | Some (File _ _) => fail_with ENOTDIR (-1)
  | None => fail_with (lookup_errno (w_fs w) path) (-1)
  end.

Definition sys_mkdir (path : string) (mode : Z) : M Z :=
  w ← get_world;
  match w_fs w !! path with
  | Some _ => fail_with EEXIST (-1)
  | None =>
      if parent_ok (w_fs w) path then modify (set_fs (<[path := Dir]> (w_fs w)));; mret 0
      else fail_with (lookup_errno (w_fs w) path) (-1)
  end.

(** [lseek]: the new offset, or -1. *)
Definition sys_lseek_set (fd : Z) (off : Z) : M Z :=
  w ← get_world;
  match w_fdt w !! fd with
  | Some (path, _) =>
      if off <? 0 then fail_with EINVAL (-1)
      else modify (set_fdt (<[fd := (path, off)]> (w_fdt w)));; mret off
  | None => fail_with EBADF (-1)
  end.

Definition sys_lseek_cur (fd : Z) (delta : Z) : M Z :=
  w ← get_world;
  match w_fdt w !! fd with
  | Some (path, pos) =>
      if pos + delta <? 0 then fail_with EINVAL (-1)
      else modify (set_fdt (<[fd := (path, pos + delta)]> (w_fdt w)));; mret (pos + delta)
  | None => fail_with EBADF (-1)
  end.

Fixpoint zeros (n : nat) : string :=
  match n with
  | O => ""
  | S n' => String "000"%char (zeros n')
  end.

(** The bytes of a file after [buf] is written at offset [pos]; a gap reads as zeros. *)
Definition write_at (d : string) (pos : nat) (buf : string) : string :=
  str_take pos d +:+ zeros (pos - String.length d) +:+ buf
    +:+ str_drop (pos + String.length buf) d.

Definition sys_write (fd : Z) (buf : string) : M Z :=
  w ← get_world;
  match w_fdt w !! fd with
  | Some (path, pos) =>
      match w_fs w !! path with
      | Some (File d _) =>
          modify (set_fs (<[path := File (write_at d (Z.to_nat pos) buf) (w_time w)]> (w_fs w)));;
          modify (λ w', set_fdt (<[fd := (path, pos + nbytes buf)]> (w_fdt w')) w');;
          mret (nbytes buf)
      | _ => fail_with EBADF (-1)
      end
  | None => fail_with EBADF (-1)
  end.

(** [read (fd, buf, size)]: the bytes read. *)
Definition sys_read (fd : Z) (size : Z) : M (option string) :=
  w ← get_world;
  match w_fdt w !! fd with
  | Some (path, pos) =>
      match w_fs w !! path with
      | Some (File d _) =>
          let got := str_take (Z.to_nat size) (str_drop (Z.to_nat pos) d) in
          modify (set_fdt (<[fd := (path, pos + nbytes got)]> (w_fdt w)));;
          mret (Some got)
      | Some Dir => fail_with EISDIR None
      | None => fail_with EBADF None
      end
  | None => fail_with EBADF None
  end.

Definition sys_ftruncate0 (fd : Z) : M Z :=
  w ← get_world;
  match w_fdt w !! fd with
  | Some (path, _) =>
      match w_fs w !! path with
      | Some (File _ _) =>
          modify (set_fs (<[path := File "" (w_time w)]> (w_fs w)));; mret 0
      | _ => fail_with EINVAL (-1)
      end
  | None => fail_with EBADF (-1)
  end.

(** [fcntl (fd, F_SETLK, ...)] on the whole file.  With a single process
    no other lock can be in the way. *)
Definition sys_fcntl_setlk (fd : Z) (t : lock_type) : M Z := mret 0.

(** Loops over a list with an effect per element. *)
Fixpoint for_each {A} (f : A → M unit) (xs : list A) : M unit :=
  match xs with
  | [] => mret tt
  | x :: xs' => f x;; for_each f xs'
  end.

(** ** The FileLock registry *)

(** [close_and_free_filelock]: all descriptors of the entry are closed at once. *)
Definition close_and_free_filelock (l : blobstore_filelock) : M unit :=
  for_each (λ fd, sys_close fd;; mret tt) (take (l_next_fd l) (l_fd l)).

(** The search of [close_and_unlock] for the entry and slot of a descriptor. *)
Inductive fd_search :=
  | FoundAt (j index : nat)
  | NotFound
  | AssertFailed.

Fixpoint search_fd (fd : Z) (ll : list blobstore_filelock) (j : nat) : fd_search :=
  match ll with
  | [] => NotFound
  | l :: ll' =>
      if decide (l_next_fd l ≤ BLOBSTORE_MAX_CONCURRENT)%nat then
        match list_find (λ x, x = fd) (take (l_next_fd l) (l_fd l)) with
        | Some (index, _) => FoundAt j index
        | None => search_fd fd ll' (S j)
        end
      else AssertFailed
  end.

Definition close_and_unlock (fd : Z) : M Z :=
  if fd <? 0 then err BLOBSTORE_ERROR_BADF;; mret (-1)
  else
    w ← get_world;
    match search_fd fd (locks_list w) 0 with
    | AssertFailed => fault
    | NotFound => err BLOBSTORE_ERROR_BADF;; mret (-1)
    | FoundAt j index =>
        match locks_list w !! j with
        | None => fault
        | Some l =>
            if decide (default 0 (l_fd_status l !! index) = 1) then
              let l := set_refs (l_refs l - 1) (set_status index 0 l) in
              if l_refs l =? 0 then
                modify (set_locks (delete j (locks_list w)));;
                close_and_free_filelock l;;
                mret 0
              else
                modify (set_locks (<[j:=l]> (locks_list w)));;
                mret 0
            else err BLOBSTORE_ERROR_BADF;; mret (-1)
        end
    end.

(** The first statement of [open_and_lock]: the kind of lock and the flags for [open]. *)
Definition lock_mode (flags : Z) : option (lock_type * Z) :=
  if has_flag flags BLOBSTORE_FLAG_RDONLY then Some (F_RDLCK, Z.lor 0 O_RDONLY)
  else if has_flag flags BLOBSTORE_FLAG_RDWR || has_flag flags BLOBSTORE_FLAG_CREAT then
    let o_flags := Z.lor 0 O_RDWR in
    let o_flags :=
      if has_flag flags BLOBSTORE_FLAG_CREAT then
        let o_flags := Z.lor o_flags O_CREAT in
        if has_flag flags BLOBSTORE_FLAG_EXCL then Z.lor o_flags O_EXCL else o_flags
      else o_flags in
    Some (F_WRLCK, o_flags)
  else None.

Fixpoint find_lock (path : string) (ll : list blobstore_filelock) : option nat :=
  match ll with
  | [] => None
  | l :: ll' => if decide (path = l_path l) then Some O else S <$> find_lock path ll'
  end.

Inductive lock_result :=
  | Locked
  | Failed (pthread_rwlock_acquired : bool).

(** The loop [for (;;)] of [open_and_lock] on the entry at index [i].  It
    ends by the deadline unless the timeout is [BLOBSTORE_NO_TIMEOUT];
    [fuel] bounds the iterations and running out of it stands for a loop
    that does not end. *)
Fixpoint lock_loop (fuel : nat) (i : nat) (t : lock_type) (fd timeout_usec deadline : Z)
    (acquired : bool) : M lock_result :=
  match fuel with
  | O => hang
  | S fuel' =>
      w ← get_world;
      match locks_list w !! i with
      | None => fault
      | Some l =>
          let try := match t with
                     | F_WRLCK => pthread_rwlock_trywrlock (l_lock l)
                     | F_RDLCK => pthread_rwlock_tryrdlock (l_lock l)
                     end in
          let continue (acquired : bool) : M lock_result :=
            now ← time_usec;
            if negb (timeout_usec =? BLOBSTORE_NO_TIMEOUT) && (deadline <=? now) then
              err BLOBSTORE_ERROR_AGAIN;; mret (Failed acquired)
            else
              usleep BLOBSTORE_SLEEP_INTERVAL_MS;;
              lock_loop fuel' i t fd timeout_usec deadline acquired in
          match try with
          | Some k =>
              modify (set_locks (<[i:=set_lock k l]> (locks_list w)));;
              modify (set_errno E_OK);;
              rc ← sys_fcntl_setlk fd t;
              if rc =? 0 then mret Locked
              else
                w' ← get_world;
                if decide (errno w' = EAGAIN) then continue true
                else propagate_system_errno BLOBSTORE_ERROR_UNKNOWN;; mret (Failed true)
          | None => continue acquired
          end
      end
  end.

(** The code after the label [error:].  An entry that this call did not
    create is unlinked through its own [next] field, that is not at all,
    and freed all the same. *)
Definition open_and_lock_error (i : nat) (is_new acquired : bool) (fd : Z) : M Z :=
  w ← get_world;
  match locks_list w !! i with
  | None => fault
  | Some l =>
      let l := if acquired then set_lock (pthread_rwlock_unlock (l_lock l)) l else l in
      (if 0 <=? fd then sys_close fd;; mret tt else mret tt);;
      let l := set_refs (l_refs l - 1) l in
      if l_refs l =? 0 then
        if is_new then
          modify (λ w, set_locks (delete i (locks_list w)) w);;
          close_and_free_filelock l;;
          mret (-1)
        else fault
      else
        modify (λ w, set_locks (<[i:=l]> (locks_list w)) w);;
        mret (-1)
  end.

Definition lock_fuel (timeout_usec : Z) : nat :=
  (Z.to_nat (timeout_usec / BLOBSTORE_SLEEP_INTERVAL_MS) + 2)%nat.

Definition open_and_lock (path : string) (flags : Z) (timeout_usec : Z) (mode : Z) : M Z :=
  now ← time_usec;
  let deadline := now + timeout_usec in
  match lock_mode flags with
  | None => err BLOBSTORE_ERROR_INVAL;; mret (-1)
  | Some (lt, o_flags) =>
      w ← get_world;
      let '(i, is_new, ll) :=
        match find_lock path (locks_list w) with
        | Some i => (i, false, locks_list w)
        | None => (length (locks_list w), true, locks_list w ++ [new_filelock path lt])
        end in
      modify (set_locks ll);;
      match ll !! i with
      | None => fault
      | Some l =>
          if decide (l_next_fd l = BLOBSTORE_MAX_CONCURRENT) then
            err BLOBSTORE_ERROR_MFILE;; mret (-1)
          else if decide (l_type l ≠ lt) then
            err BLOBSTORE_ERROR_INVAL;; mret (-1)
          else
            modify (set_locks (<[i:=set_refs (l_refs l + 1) l]> ll));;
            fd ← sys_open path o_flags mode;
            if fd =? -1 then
              propagate_system_errno BLOBSTORE_ERROR_UNKNOWN;;
              open_and_lock_error i is_new false fd
            else
              r ← lock_loop (lock_fuel timeout_usec) i lt fd timeout_usec deadline false;
              match r with
              | Locked =>
                  modify (λ w, set_locks (alter (push_fd fd) i (locks_list w)) w);;
                  mret fd
              | Failed acquired => open_and_lock_error i is_new acquired fd
              end
      end
  end.

(** ** The path resolver and the metadata codec *)

(** [set_blockblob_metadata_path]: the return value and, when it is 0, what
    was written to the caller's buffer. *)
Definition set_blockblob_metadata_path (path_t : blockblob_path_t) (bs : blobstore)
    (bb_id : string) : M (Z * option string) :=
  let base := bs_path bs +:+ "/" +:+ bb_id in
  match path_t with
  | BLOCKBLOB_PATH_NONE => err BLOBSTORE_ERROR_INVAL;; mret (-1, None)
  | _ =>
      let name := blobstore_metadata_suffixes path_t in
      match format bs with
      | BLOBSTORE_FORMAT_FILES => mret (0, Some (base +:+ "." +:+ name))
      | BLOBSTORE_FORMAT_DIRECTORY => mret (0, Some (base +:+ "/" +:+ name))
      | BLOBSTORE_FORMAT_ANY => err BLOBSTORE_ERROR_INVAL;; mret (-1, None)
      end
  end.

(** The callers ignore the return value and go on with their buffer, which
    is an automatic array that nothing else has written. *)
Definition metadata_path (path_t : blockblob_path_t) (bs : blobstore) (bb_id : string) : M string :=
  r ← set_blockblob_metadata_path path_t bs bb_id;
  match r.2 with
  | Some path => mret path
  | None => fault
  end.

(** [fopen (path, "w")] or ["w+"], the writes and [fclose], in one step;
    a write to an open stream does not fail. *)
Definition stdio_write (path : string) (content : string) : M bool :=
  w ← get_world;
  match w_fs w !! path with
  | Some Dir => fail_with EISDIR false
  | Some (File _ _) =>
      modify (set_fs (<[path := File content (w_time w)]> (w_fs w)));; mret true
  | None =>
      if parent_ok (w_fs w) path then
        modify (set_fs (<[path := File content (w_time w)]> (w_fs w)));; mret true
      else fail_with (lookup_errno (w_fs w) path) false
  end.

Definition write_blockblob_metadata_path (path_t : blockblob_path_t) (bs : blobstore)
    (bb_id : string) (str : string) : M Z :=
  path ← metadata_path path_t bs bb_id;
  ok ← stdio_write path str;
  if (ok : bool) then mret 0
  else propagate_system_errno BLOBSTORE_ERROR_UNKNOWN;; mret (-1).

(** [fd_to_buf]: the size read, or -1, and the bytes now at the start of [buf]. *)
Definition fd_to_buf (fd : Z) (buf : string) (size_buf : Z) : M (Z * string) :=
  r ← sys_lseek_set fd 0;
  if r =? -1 then err BLOBSTORE_ERROR_ACCES;; mret (-1, buf)
  else
    sb ← sys_fstat fd;
    match sb with
    | None => err BLOBSTORE_ERROR_ACCES;; mret (-1, buf)
    | Some sb =>
        got ← sys_read fd size_buf;
        match got with
        | None => err BLOBSTORE_ERROR_NOENT;; mret (-1, buf)
        | Some data =>
            if nbytes data =? st_size_of sb then mret (st_size_of sb, data)
            else err BLOBSTORE_ERROR_NOENT;; mret (-1, data)
        end
    end.

Definition read_blockblob_metadata_path (path_t : blockblob_path_t) (bs : blobstore)
    (bb_id : string) (str : string) (str_size : Z) : M (Z * string) :=
  path ← metadata_path path_t bs bb_id;
  fd ← sys_open path O_RDONLY 0;
  if fd =? -1 then propagate_system_errno BLOBSTORE_ERROR_UNKNOWN;; mret (-1, str)
  else
    r ← fd_to_buf fd str str_size;
    sys_close fd;;
    if r.1 <? 1 then err BLOBSTORE_ERROR_NOENT;; mret (-1, r.2)
    else mret r.

(** The text that the loop of [fprintf (fp, "%s\n", array [i])] produces. *)
Fixpoint array_text (array : list string) : string :=
  match array with
  | [] => ""
  | e :: array' => e +:+ String newline (array_text array')
  end.

Definition write_array_blockblob_metadata_path (path_t : blockblob_path_t) (bs : blobstore)
    (bb_id : string) (array : list string) : M Z :=
  path ← metadata_path path_t bs bb_id;
  ok ← stdio_write path (array_text array);
  if (ok : bool) then mret 0
  else propagate_system_errno BLOBSTORE_ERROR_UNKNOWN;; mret (-1).

(** The loop [for (i=0; !feof(fp); i++)] around [getline].  [line] is what
    the current [getline] has read so far, [None] at the start of a call: a
    call that meets the end of the file at once returns -1 and ends the
    loop, one that meets it after some bytes returns them and sets the
    end-of-file indicator.  The newline at the end of a line is chopped
    off. *)
Fixpoint read_lines (s : string) (line : option string) : list string :=
  match s with
  | EmptyString =>
      match line with
      | None => []
      | Some l => [cstr l]
      end
  | String c s' =>
      let l := default "" line in
      if decide (c = newline) then cstr l :: read_lines s' None
      else read_lines s' (Some (l +:+ String c ""))
  end.

(** [read_array_blockblob_metadata_path]: the return value, and the lines
    ([*array] with [*array_size] their number) when it is 0. *)
Definition read_array_blockblob_metadata_path (path_t : blockblob_path_t) (bs : blobstore)
    (bb_id : string) : M (Z * list string) :=
  path ← metadata_path path_t bs bb_id;
  w ← get_world;
  match w_fs w !! path with
  | None => mret (0, [])
  | Some (File d _) => mret (0, read_lines d None)
  | Some Dir =>
      modify (set_errno EISDIR);;
      propagate_system_errno BLOBSTORE_ERROR_UNKNOWN;;
      mret (-1, [])
  end.

Definition update_entry_blockblob_metadata_path (path_t : blockblob_path_t) (bs : blobstore)
    (bb_id : string) (entry : string) (removing : bool) : M Z :=
  r ← read_array_blockblob_metadata_path path_t bs bb_id;
  if r.1 =? -1 then mret (-1)
  else
    let entries := r.2 in
    let found := fst <$> list_find (λ e, e = entry) entries in
    match found, removing with
    | None, false =>
        rc ← write_array_blockblob_metadata_path path_t bs bb_id (entries ++ [entry]);
        if rc =? -1 then mret (-1) else mret 0
    | Some j, true =>
        let entries_size := pred (length entries) in
        let entries :=
          if negb (bool_decide (entries_size = 0%nat)) && negb (bool_decide (j = entries_size)) then
            <[j := default "" (entries !! entries_size)]> entries
          else entries in
        rc ← write_array_blockblob_metadata_path path_t bs bb_id (take entries_size entries);
        if rc =? -1 then mret (-1) else mret 0
    | _, _ => mret 0
    end.

(** The number of bytes on which two strings agree from their ends. *)
Fixpoint common_prefix_len (a b : string) : nat :=
  match a, b with
  | String x a', String y b' => if decide (x = y) then S (common_prefix_len a' b') else O
  | _, _ => O
  end.

Definition matched_suffix (suffix rel_path : string) : nat :=
  common_prefix_len (String.rev suffix) (String.rev rel_path).

(** [typeof_blockblob_metadata_path]: the kind of file that [path] is (0
    when it is none of the six) and the blob id. *)
Fixpoint typeof_loop (bs : blobstore) (rel_path : string) (kinds : list (Z * blockblob_path_t))
    : Z * string :=
  match kinds with
  | [] => (0, "")
  | (i, k) :: kinds' =>
      let suffix :=
        (if decide (format bs = BLOBSTORE_FORMAT_DIRECTORY) then "/" else ".")
          +:+ blobstore_metadata_suffixes k in
      let s_len := String.length suffix in
      let p_len := String.length rel_path in
      let matched := matched_suffix suffix rel_path in
      if bool_decide (matched = s_len) && bool_decide (matched < p_len)%nat then
        if BLOBSTORE_MAX_PATH - 1 <? Z.of_nat (p_len - s_len) then (-1, "")
        else (i, str_take (p_len - s_len) rel_path)
      else typeof_loop bs rel_path kinds'
  end.

Definition typeof_blockblob_metadata_path (bs : blobstore) (path : string) : M (Z * string) :=
  if String.prefix (bs_path bs) path then
    let rel_path := str_drop (S (String.length (bs_path bs))) path in
    mret (typeof_loop bs rel_path (zip (Z.of_nat <$> seq 1 6) blockblob_paths))
  else fault.

(** The second loop of [delete_blockblob_files], at index [i]: each slash
    is overwritten by a NUL and the directory that the buffer now names is
    removed, until one removal fails. *)
Fixpoint rmdir_loop (i : nat) (path : string) (count : Z) : M Z :=
  match i with
  | O => mret count
  | S i' =>
      if decide (String.get i path = Some slash) then
        let path := str_take i path in
        rc ← sys_rmdir path;
        if rc =? 0 then rmdir_loop i' path (count + 1)
        else mret count
      else rmdir_loop i' path count
  end.

Fixpoint unlink_loop (bs : blobstore) (bb_id : string) (kinds : list blockblob_path_t)
    (count : Z) : M Z :=
  match kinds with
  | [] => mret count
  | path_t :: kinds' =>
      path ← metadata_path path_t bs bb_id;
      rc ← sys_unlink path;
      unlink_loop bs bb_id kinds' (if rc =? 0 then count + 1 else count)
  end.

Definition delete_blockblob_files (bs : blobstore) (bb_id : string) : M Z :=
  count ← unlink_loop bs bb_id blockblob_paths 0;
  let path := bs_path bs +:+ "/" +:+ bb_id
                +:+ (if decide (format bs = BLOBSTORE_FORMAT_DIRECTORY) then "/" else "") in
  rmdir_loop (String.length path - 1) path count.

(** [ensure_directories_exist], the loop body at each index of [idxs]:
    [path_copy] is cut at a slash, or is the whole path at its last byte. *)
Fixpoint ensure_loop (idxs : list nat) (path : string) (is_file_path : bool) (mode : Z)
    (ret : Z) : M Z :=
  match idxs with
  | [] => mret ret
  | i :: idxs' =>
      let c := String.get i path in
      let try_dir : option string :=
        if bool_decide (c = Some slash) && bool_decide (0 < i)%nat then Some (str_take i path)
        else if negb (bool_decide (c = Some slash)) && bool_decide (S i = String.length path) then
          if is_file_path then None else Some path
        else None in
      match try_dir with
      | Some path_copy =>
          sb ← sys_stat path_copy;
          match sb with
          | None =>
              rc ← sys_mkdir path_copy mode;
              if rc =? -1 then mret (-1)
              else ensure_loop idxs' path is_file_path mode 1
          | Some _ => ensure_loop idxs' path is_file_path mode ret
          end
      | None => ensure_loop idxs' path is_file_path mode ret
      end
  end.

Definition ensure_directories_exist (path : string) (is_file_path : bool) (mode : Z) : M Z :=
  let len := String.length path in
  if bool_decide (0 < len)%nat then ensure_loop (seq 0 len) path is_file_path mode 0
  else mret (-1).

Definition BLOBSTORE_DEFAULT_UMASK : Z := 448.
Definition PATH_MAX : Z := 4096.

Definition ensure_blockblob_metadata_path (bs : blobstore) (bb_id : string) : M Z :=
  let base := bs_path bs +:+ "/" +:+ bb_id in
  ensure_directories_exist base
    (negb (bool_decide (format bs = BLOBSTORE_FORMAT_DIRECTORY))) BLOBSTORE_DEFAULT_UMASK.

Definition check_in_use (bs : blobstore) (bb_id : string) (timeout_usec : Z) : M Z :=
  buf ← metadata_path BLOCKBLOB_PATH_BLOCKS bs bb_id;
  _err_off;;
  fd ← open_and_lock buf BLOBSTORE_FLAG_RDWR timeout_usec timeout_usec;
  in_use ← (if fd =? -1 then mret (Z.lor 0 BLOCKBLOB_STATUS_OPENED)
            else close_and_unlock fd;; mret 0);
  r ← read_blockblob_metadata_path BLOCKBLOB_PATH_REFS bs bb_id buf PATH_MAX;
  let in_use := if 0 <? r.1 then Z.lor in_use BLOCKBLOB_STATUS_MAPPED else in_use in
  r ← read_blockblob_metadata_path BLOCKBLOB_PATH_DEPS bs bb_id buf PATH_MAX;
  let in_use := if 0 <? r.1 then Z.lor in_use BLOCKBLOB_STATUS_BACKED else in_use in
  _err_on;;
  mret in_use.

Definition with_device (dev dm : string) (bb : blockblob) : blockblob :=
  {| store := store bb; bb_id := bb_id bb; blocks_path := blocks_path bb;
     device_path := dev; dm_name := dm; size_blocks := size_blocks bb;
     in_use := in_use bb; last_accessed := last_accessed bb;
     last_modified := last_modified bb; snapshot_type := snapshot_type bb;
     bb_fd := bb_fd bb |}.
Definition with_size (n : Z) (bb : blockblob) : blockblob :=
  {| store := store bb; bb_id := bb_id bb; blocks_path := blocks_path bb;
     device_path := device_path bb; dm_name := dm_name bb; size_blocks := n;
     in_use := in_use bb; last_accessed := last_accessed bb;
     last_modified := last_modified bb; snapshot_type := snapshot_type bb;
     bb_fd := bb_fd bb |}.
Definition with_fd (fd : Z) (bb : blockblob) : blockblob :=
  {| store := store bb; bb_id := bb_id bb; blocks_path := blocks_path bb;
     device_path := device_path bb; dm_name := dm_name bb; size_blocks := size_blocks bb;
     in_use := in_use bb; last_accessed := last_accessed bb;
     last_modified := last_modified bb; snapshot_type := snapshot_type bb;
     bb_fd := fd |}.
Definition with_in_use (u : Z) (bb : blockblob) : blockblob :=
  {| store := store bb; bb_id := bb_id bb; blocks_path := blocks_path bb;
     device_path := device_path bb; dm_name := dm_name bb; size_blocks := size_blocks bb;
     in_use := u; last_accessed := last_accessed bb;
     last_modified := last_modified bb; snapshot_type := snapshot_type bb;
     bb_fd := bb_fd bb |}.
Definition with_store (bs : blobstore) (bb : blockblob) : blockblob :=
  {| store := bs; bb_id := bb_id bb; blocks_path := blocks_path bb;
     device_path := device_path bb; dm_name := dm_name bb; size_blocks := size_blocks bb;
     in_use := in_use bb; last_accessed := last_accessed bb;
     last_modified := last_modified bb; snapshot_type := snapshot_type bb;
     bb_fd := bb_fd bb |}.
Definition with_bs_fd (fd : Z) (bs : blobstore) : blobstore :=
  {| bs_id := bs_id bs; bs_path := bs_path bs; limit_blocks := limit_blocks bs;
     revocation_policy := revocation_policy bs; snapshot_policy := snapshot_policy bs;
     format := format bs; bs_fd := fd |}.

(** [set_device_path]: the device is the last line of the dm file, or else
    what the loopback file holds. *)
Definition set_device_path (bb : blockblob) : M blockblob :=
  _err_off;;
  r ← read_array_blockblob_metadata_path BLOCKBLOB_PATH_DM (store bb) (bb_id bb);
  _err_on;;
  match last r.2 with
  | Some dm => mret (with_device (DM_PATH +:+ dm) dm bb)
  | None =>
      _err_off;;
      r ← read_blockblob_metadata_path BLOCKBLOB_PATH_LOOPBACK (store bb) (bb_id bb) "" PATH_MAX;
      _err_on;;
      mret (with_device (cstr r.2) (dm_name bb) bb)
  end.

(** The entries of a directory.  [readdir] promises no order; the model
    lists them in the order of the map's keys. *)
Definition readdir (fs : gmap string node) (dir_path : string) : list string :=
  filter (λ p, dirname p = dir_path) (map_to_list fs).*1.

(** [walk_bs], with the blobs found below [dir_path] in discovery order.
    [fuel] bounds the depth of the recursion into directories. *)
Fixpoint walk_bs (fuel : nat) (bs : blobstore) (dir_path : string) : M (list blockblob) :=
  match fuel with
  | O => fault
  | S fuel' =>
      w ← get_world;
      if is_dir (w_fs w !! dir_path) then
        (fix entries (es : list string) : M (list blockblob) :=
           match es with
           | [] => mret []
           | entry_path :: es' =>
               let entry_name := str_drop (S (String.length dir_path)) entry_path in
               if bool_decide (entry_name = ".") || bool_decide (entry_name = "..")
                  || bool_decide (entry_name = BLOBSTORE_METADATA_FILE) then entries es'
               else
                 sb ← sys_stat entry_path;
                 match sb with
                 | None => entries es'
                 | Some sb =>
                     if S_ISDIR sb then
                       found ← walk_bs fuel' bs entry_path;
                       rest ← entries es';
                       mret (found ++ rest)
                     else
                       ty ← typeof_blockblob_metadata_path bs entry_path;
                       if ty.1 =? 1 then
                         ws ← get_world;
                         bb ← set_device_path
                                {| store := bs; bb_id := ty.2; blocks_path := entry_path;
                                   device_path := ""; dm_name := "";
                                   size_blocks := st_size_of sb / 512; in_use := 0;
                                   last_accessed := ext_atime (w_ext ws) entry_path;
                                   last_modified := st_mtime_of sb;
                                   snapshot_type := BLOBSTORE_SNAPSHOT_ANY; bb_fd := 0 |};
                         u ← check_in_use bs (bb_id bb) 0;
                         rest ← entries es';
                         mret (with_in_use u bb :: rest)
                       else entries es'
                 end
           end) (readdir (w_fs w) dir_path)
      else mret []
  end.

Definition scan_blobstore (bs : blobstore) : M (list blockblob) :=
  w ← get_world;
  walk_bs (S (size (w_fs w))) bs (bs_path bs).

(** ** LRU revocation *)

Definition compare_bbs (bb1 bb2 : blockblob) : Z :=
  to_int (last_modified bb1 - last_modified bb2).

(** The last loop of [purge_blockblobs_lru] over the sorted array.  Its
    [printf] reports each blob that it purged with the total purged so far;
    these reports are collected in [reported]. *)
Fixpoint purge_loop (bs : blobstore) (bb_array : list blockblob) (need_blocks : Z)
    (purged : Z) (reported : list (blockblob * Z)) : M (Z * list (blockblob * Z)) :=
  match bb_array with
  | [] => mret (purged, reported)
  | bb :: bb_array' =>
      r ← (if Z.land (in_use bb) (Z.lnot BLOCKBLOB_STATUS_BACKED) =? 0 then
             n ← delete_blockblob_files bs (bb_id bb);
             if 0 <? n then
               let purged := to_llong (purged + size_blocks bb) in
               mret (purged, reported ++ [(bb, purged)])
             else mret (purged, reported)
           else mret (purged, reported));
      if need_blocks <=? r.1 then mret r
      else purge_loop bs bb_array' need_blocks r.1 r.2
  end.

(** [purge_blockblobs_lru] with the reports of its [printf]. *)
Definition purge_blockblobs_lru_log (bs : blobstore) (bb_list : list blockblob)
    (need_blocks : Z) : M (Z * list (blockblob * Z)) :=
  if bool_decide (length bb_list = 0%nat) then mret (0, [])
  else purge_loop bs (ext_qsort compare_bbs bb_list) need_blocks 0 [].

Definition purge_blockblobs_lru (bs : blobstore) (bb_list : list blockblob)
    (need_blocks : Z) : M Z :=
  r ← purge_blockblobs_lru_log bs bb_list need_blocks;
  mret r.1.

(** ** The blobstore handle *)

Definition meta_path_of (bs : blobstore) : string :=
  bs_path bs +:+ "/" +:+ BLOBSTORE_METADATA_FILE.

(** [blobstore_lock]: the descriptor, and the handle with its [fd] field set. *)
Definition blobstore_lock (bs : blobstore) (timeout_usec : Z) : M (blobstore * Z) :=
  fd ← open_and_lock (meta_path_of bs) BLOBSTORE_FLAG_RDWR timeout_usec 0;
  if fd =? -1 then mret (bs, fd) else mret (with_bs_fd fd bs, fd).

Definition blobstore_unlock (bs : blobstore) : M (blobstore * Z) :=
  rc ← close_and_unlock (bs_fd bs);
  mret (with_bs_fd (-1) bs, rc).

Fixpoint until_newline (s : string) : string :=
  match s with
  | EmptyString => ""
  | String c s' => if decide (c = newline) then "" else String c (until_newline s')
  end.

Definition get_val (buf key : string) : option string :=
  let full_key := key +:+ ": " in
  rest ← strstr buf full_key;
  Some (until_newline (str_drop (String.length full_key) rest)).

Fixpoint skip_space (s : string) : string :=
  match s with
  | String c s' => if Ascii.is_space c then skip_space s' else s
  | EmptyString => ""
  end.

Fixpoint parse_digits (s : string) (acc : Z) : Z :=
  match s with
  | String c s' =>
      match Ascii.is_nat c with
      | Some d => parse_digits s' (acc * 10 + Z.of_nat d)
      | None => acc
      end
  | EmptyString => acc
  end.

(** [strtoll (s, NULL, 10)]; [None] when the value is out of range, which
    sets [errno]. *)
Definition strtoll (s : string) : option Z :=
  let s := skip_space s in
  let '(neg, s) := match s with
                   | String "-" s' => (true, s')
                   | String "+" s' => (false, s')
                   | _ => (false, s)
                   end in
  let v := parse_digits s 0 in
  let v := if neg : bool then - v else v in
  if (- 2 ^ 63 <=? v) && (v <? 2 ^ 63) then Some v else None.

Definition with_metadata (id : string) (limit : Z) (r : blobstore_revocation_t)
    (s : blobstore_snapshot_t) (f : blobstore_format_t) (bs : blobstore) : blobstore :=
  {| bs_id := id; bs_path := bs_path bs; limit_blocks := limit;
     revocation_policy := r; snapshot_policy := s; format := f; bs_fd := bs_fd bs |}.

(** Whether [get_val] stays within an array [arr] that need not hold a NUL:
    [strstr] and the scan for the end of the value go on to the match and
    to the newline, or to the first NUL. *)
Definition reads_within (arr key : string) : bool :=
  negb (bool_decide (cstr arr = arr))
  || match strstr arr (key +:+ ": ") with
     | Some rest => str_contains newline (str_drop (String.length (key +:+ ": ")) rest)
     | None => false
     end.

(** [read_store_metadata]: the return value and the handle as filled in.
    The array [buf] is not cleared and [fd_to_buf] puts no NUL after the
    bytes that it read, so [get_val] is given these bytes followed by what
    the array held before; a search that comes to the end of the array
    reads beyond it. *)
Definition read_store_metadata (bs : blobstore) : M (Z * blobstore) :=
  r ← fd_to_buf (bs_fd bs) "" 1024;
  if r.1 =? -1 then mret (-1, bs)
  else if r.1 <? 30 then err BLOBSTORE_ERROR_NOENT;; mret (-1, bs)
  else
    w ← get_world;
    let arr := str_take 1024 (r.2 +:+ str_drop (String.length r.2) (ext_stack (w_ext w))) in
    let buf := cstr arr in
    let field (key : string) (k : Z → M (Z * blobstore)) : M (Z * blobstore) :=
      if reads_within arr key then
        match get_val buf key with
        | None => mret (-1, bs)
        | Some val =>
            match strtoll val with
            | None => err BLOBSTORE_ERROR_NOENT;; mret (-1, bs)
            | Some n => k n
            end
        end
      else fault in
    if reads_within arr "id" then
      match get_val buf "id" with
      | None => mret (-1, bs)
      | Some id =>
          field "limit" (λ limit,
          field "revocation" (λ revocation,
          field "snapshot" (λ snapshot,
          field "format" (λ fmt,
            mret (0, with_metadata id (wrap64 limit) (revocation_of_int (to_int revocation))
                       (snapshot_of_int (to_int snapshot)) (format_of_int (to_int fmt)) bs)))))
      end
    else fault.

Definition store_metadata_text (bs : blobstore) : string :=
  "id: " +:+ bs_id bs +:+ String newline
  ("limit: " +:+ pretty (to_llong (limit_blocks bs)) +:+ String newline
  ("revocation: " +:+ pretty (int_of_revocation (revocation_policy bs)) +:+ String newline
  ("snapshot: " +:+ pretty (int_of_snapshot (snapshot_policy bs)) +:+ String newline
  ("format: " +:+ pretty (int_of_format (format bs)) +:+ String newline "")))).

(** What [snprintf] leaves in a buffer of [size] bytes before its NUL: the
    text, cut after [size - 1] bytes. *)
Definition snprintf (size : nat) (text : string) : string := str_take (pred size) text.

Definition write_store_metadata (bs : blobstore) : M Z :=
  rc ← sys_ftruncate0 (bs_fd bs);
  if rc =? -1 then err BLOBSTORE_ERROR_NOENT;; mret (-1)
  else
    let buf := snprintf 1024 (store_metadata_text bs) in
    len ← sys_write (bs_fd bs) buf;
    if len =? strlen buf then mret 0
    else err BLOBSTORE_ERROR_NOENT;; mret (-1).

Definition blobstore_init : M Z :=
  w ← get_world;
  let r := ext_init (w_ext w) in
  modify (λ w, {| w_fs := w_fs w; w_fdt := w_fdt w; locks_list := locks_list w;
                  _blobstore_errno := _blobstore_errno w;
                  _do_print_errors := _do_print_errors w; errno := errno w;
                  w_time := w_time w; w_ext := r.1; w_calls := w_calls w |});;
  if r.2 =? 0 then mret r.2
  else err BLOBSTORE_ERROR_UNKNOWN;; mret r.2.

Definition gen_id : M string :=
  w ← get_world;
  let r := ext_gen_id (w_ext w) in
  modify (λ w, {| w_fs := w_fs w; w_fdt := w_fdt w; locks_list := locks_list w;
                  _blobstore_errno := _blobstore_errno w;
                  _do_print_errors := _do_print_errors w; errno := errno w;
                  w_time := w_time w; w_ext := r.1; w_calls := w_calls w |});;
  mret r.2.

Definition blobstore_open (path : string) (limit : Z) (fmt : blobstore_format_t)
    (revocation : blobstore_revocation_t) (snapshot : blobstore_snapshot_t)
    : M (option blobstore) :=
  rc ← blobstore_init;
  if negb (rc =? 0) then mret None
  else
    let bs := {| bs_id := ""; bs_path := path; limit_blocks := 0;
                 revocation_policy := revocation_of_int 0;
                 snapshot_policy := snapshot_of_int 0;
                 format := format_of_int 0; bs_fd := 0 |} in
    let meta_path := meta_path_of bs in
    let free (bs : blobstore) : M (option blobstore) :=
      close_and_unlock (bs_fd bs);; mret None in
    modify (set_blobstore_errno BLOBSTORE_ERROR_OK);;
    _err_off;;
    fd ← open_and_lock meta_path (Z.lor BLOBSTORE_FLAG_CREAT BLOBSTORE_FLAG_EXCL) 0 384;
    _err_on;;
    let bs := with_bs_fd fd bs in
    bs ← (if fd =? -1 then mret bs
          else
            id ← gen_id;
            let bs :=
              with_metadata id limit
                (if decide (revocation = BLOBSTORE_REVOCATION_ANY) then BLOBSTORE_REVOCATION_NONE
                 else revocation)
                (if decide (snapshot = BLOBSTORE_SNAPSHOT_ANY) then BLOBSTORE_SNAPSHOT_DM
                 else snapshot)
                (if decide (fmt = BLOBSTORE_FORMAT_ANY) then BLOBSTORE_FORMAT_FILES else fmt)
                bs in
            write_store_metadata bs;;
            close_and_unlock (bs_fd bs);;
            mret bs);
    w ← get_world;
    let e := _blobstore_errno w in
    if negb (bool_decide (e = BLOBSTORE_ERROR_OK)) && negb (bool_decide (e = BLOBSTORE_ERROR_EXIST))
       && negb (bool_decide (e = BLOBSTORE_ERROR_AGAIN)) then
      err e;; free bs
    else
      fd ← open_and_lock meta_path BLOBSTORE_FLAG_RDONLY BLOBSTORE_METADATA_TIMEOUT_MS 0;
      let bs := with_bs_fd fd bs in
      if fd =? -1 then free bs
      else
        r ← read_store_metadata bs;
        if negb (r.1 =? 0) then free bs
        else
          let bs := r.2 in
          if negb (limit =? 0) && negb (limit =? limit_blocks bs) then
            err BLOBSTORE_ERROR_INVAL;; free bs
          else if negb (bool_decide (snapshot = BLOBSTORE_SNAPSHOT_ANY))
                  && negb (bool_decide (snapshot = snapshot_policy bs)) then
            err BLOBSTORE_ERROR_INVAL;; free bs
          else if negb (bool_decide (fmt = BLOBSTORE_FORMAT_ANY))
                  && negb (bool_decide (fmt = format bs)) then
            err BLOBSTORE_ERROR_INVAL;; free bs
          else if negb (bool_decide (revocation = BLOBSTORE_REVOCATION_ANY))
                  && negb (bool_decide (revocation = revocation_policy bs)) then
            err BLOBSTORE_ERROR_INVAL;; free bs
          else
            close_and_unlock (bs_fd bs);;
            mret (Some (with_bs_fd (-1) bs)).

Definition blobstore_close (bs : blobstore) : M Z := mret 0.

Definition blobstore_delete (bs : blobstore) : M Z := mret (-1).

Definition blobstore_get_error : M blobstore_error_t :=
  w ← get_world; mret (_blobstore_errno w).

(** ** The life of a blob *)

(** The code after the label [unlock:] of [blockblob_open]. *)
Definition bb_open_unlock (bs : blobstore) : M unit :=
  w ← get_world;
  let saved_errno := _blobstore_errno w in
  r ← blobstore_unlock bs;
  (if r.2 =? -1 then err BLOBSTORE_ERROR_UNKNOWN else mret tt);;
  if decide (saved_errno = BLOBSTORE_ERROR_OK) then mret tt
  else modify (set_blobstore_errno saved_errno).

(** The code after the label [clean:], down to the return of NULL. *)
Definition bb_open_clean (bs : blobstore) (bb : blockblob) (created_directory : Z)
    (created_blob : bool) : M (option blockblob) :=
  w ← get_world;
  let saved_errno := _blobstore_errno w in
  (if bb_fd bb =? -1 then mret tt else close_and_unlock (bb_fd bb);; mret tt);;
  (if negb (created_directory =? 0) || created_blob then
     delete_blockblob_files bs (bb_id bb);; mret tt
   else mret tt);;
  (if decide (saved_errno = BLOBSTORE_ERROR_OK) then mret tt
   else modify (set_blobstore_errno saved_errno));;
  bb_open_unlock bs;;
  mret None.

(** The sums of the loop over the scanned blobs: purgeable and pinned blocks. *)
Fixpoint blocks_sums (bbs : list blockblob) (blocks_allocated blocks_inuse : Z) : Z * Z :=
  match bbs with
  | [] => (blocks_allocated, blocks_inuse)
  | abb :: bbs' =>
      if Z.land (in_use abb) (Z.lnot BLOCKBLOB_STATUS_BACKED) =? 0 then
        blocks_sums bbs' (to_llong (blocks_allocated + size_blocks abb)) blocks_inuse
      else
        blocks_sums bbs' blocks_allocated (to_llong (blocks_inuse + size_blocks abb))
  end.

(** The branch [if (sb.st_size == 0)] of [blockblob_open], a new blob;
    [false] stands for [goto clean]. *)
Definition bb_open_new (bs : blobstore) (bb : blockblob) (sig : option string) : M bool :=
  modify (set_blobstore_errno BLOBSTORE_ERROR_OK);;
  bbs ← scan_blobstore bs;
  w ← get_world;
  if bool_decide (bbs = []) && negb (bool_decide (_blobstore_errno w = BLOBSTORE_ERROR_OK))
  then mret false
  else
    let '(blocks_allocated, blocks_inuse) := blocks_sums bbs 0 0 in
    let blocks_free := to_llong (limit_blocks bs - (blocks_allocated + blocks_inuse)) in
    room ← (if wrap64 blocks_free <? size_blocks bb then
              if negb (bool_decide (revocation_policy bs = BLOBSTORE_REVOCATION_LRU))
                 || (wrap64 (blocks_free + blocks_allocated) <? size_blocks bb) then
                err BLOBSTORE_ERROR_NOSPC;; mret false
              else
                let blocks_needed := to_llong (size_blocks bb - blocks_free) in
                _err_off;;
                blocks_freed ← purge_blockblobs_lru bs bbs blocks_needed;
                _err_on;;
                if blocks_freed <? blocks_needed then err BLOBSTORE_ERROR_NOSPC;; mret false
                else mret true
            else mret true);
    if negb room then mret false
    else
      off ← sys_lseek_cur (bb_fd bb) (to_llong (wrap64 (size_blocks bb * 512) - 1));
      if off =? -1 then propagate_system_errno BLOBSTORE_ERROR_UNKNOWN;; mret false
      else
        n ← sys_write (bb_fd bb) (String "000"%char "");
        if negb (n =? 1) then propagate_system_errno BLOBSTORE_ERROR_UNKNOWN;; mret false
        else
          match sig with
          | Some sig =>
              rc ← write_blockblob_metadata_path BLOCKBLOB_PATH_SIG bs (bb_id bb) sig;
              mret (rc =? 0)
          | None => mret true
          end.

(** The branch [else] of the same test, a blob that existed: the size and
    the signature are verified; [None] stands for [goto clean]. *)
Definition bb_open_existing (bs : blobstore) (bb : blockblob) (sig : option string)
    (sb : stat_t) : M (option blockblob) :=
  sized ← (if size_blocks bb =? 0 then mret (Some (with_size (st_size_of sb / 512) bb))
           else if negb (size_blocks bb =? st_size_of sb / 512) then
             err BLOBSTORE_ERROR_INVAL;; mret None
           else mret (Some bb));
  match sized, sig with
  | None, _ => mret None
  | Some bb, None => mret (Some bb)
  | Some bb, Some sig =>
      r ← read_blockblob_metadata_path BLOCKBLOB_PATH_SIG bs (bb_id bb) "" 1024;
      let sig_size := r.1 in
      if negb (sig_size =? strlen sig) || negb (strncmp sig r.2 (Z.to_nat sig_size)) then
        err BLOBSTORE_ERROR_SIGNATURE;; mret None
      else mret (Some bb)
  end.

Definition call_ext {A} (f : E → E * A) (c : ext_call) : M A :=
  w ← get_world;
  let r := f (w_ext w) in
  modify (set_ext r.1 c);;
  mret r.2.

(** The loopback device of an opened blob is checked or attached, and the
    device path set; [None] stands for [goto clean]. *)
Definition bb_open_loopback (bs : blobstore) (bb : blockblob) : M (option blockblob) :=
  _err_off;;
  r ← read_blockblob_metadata_path BLOCKBLOB_PATH_LOOPBACK bs (bb_id bb) "" PATH_MAX;
  _err_on;;
  let lo_dev := cstr r.2 in
  ok ← (if 0 <? strlen lo_dev then
          sb ← sys_stat lo_dev;
          match sb with
          | None => err BLOBSTORE_ERROR_UNKNOWN;; mret false
          | Some sb =>
              if S_ISBLK sb then mret true
              else err BLOBSTORE_ERROR_UNKNOWN;; mret false
          end
        else
          dev ← call_ext (λ e, ext_loop e (blocks_path bb)) (CallLoop (blocks_path bb));
          match dev with
          | None => err BLOBSTORE_ERROR_UNKNOWN;; mret false
          | Some lo_dev =>
              write_blockblob_metadata_path BLOCKBLOB_PATH_LOOPBACK bs (bb_id bb) lo_dev;;
              mret true
          end);
  if (ok : bool) then bb ← set_device_path bb; mret (Some bb)
  else mret None.

(** The handle that [calloc] returns, with the fields that are set before
    the store is locked. *)
Definition new_blockblob (bs : blobstore) (id blocks_path : string) (size_blocks : Z)
    : blockblob :=
  {| store := bs; bb_id := id; blocks_path := blocks_path;
     device_path := ""; dm_name := ""; size_blocks := size_blocks;
     in_use := 0; last_accessed := 0; last_modified := 0;
     snapshot_type := snapshot_of_int 0; bb_fd := 0 |}.

Definition blockblob_open (bs : blobstore) (id : option string) (size_blocks : Z)
    (flags : Z) (sig : option string) (timeout : Z) : M (option blockblob) :=
  if negb (Z.land flags (Z.lnot (Z.lor BLOBSTORE_FLAG_CREAT BLOBSTORE_FLAG_EXCL)) =? 0) then
    err BLOBSTORE_ERROR_INVAL;; mret None
  else if bool_decide (id = None) && negb (has_flag flags BLOBSTORE_FLAG_CREAT) then
    err BLOBSTORE_ERROR_INVAL;; mret None
  else if (size_blocks =? 0) && has_flag flags BLOBSTORE_FLAG_CREAT then
    err BLOBSTORE_ERROR_INVAL;; mret None
  else if negb (size_blocks =? 0) && has_flag flags BLOBSTORE_FLAG_CREAT
          && (limit_blocks bs <? size_blocks) then
    err BLOBSTORE_ERROR_NOSPC;; mret None
  else
    bb_id ← match id with Some id => mret id | None => gen_id end;
    p ← set_blockblob_metadata_path BLOCKBLOB_PATH_BLOCKS bs bb_id;
    let bb := new_blockblob bs bb_id (default "" p.2) size_blocks in
    lk ← blobstore_lock bs (to_llong timeout);
    if lk.2 =? -1 then mret None
    else
      let bs := lk.1 in
      created_directory ← ensure_blockblob_metadata_path bs bb_id;
      if created_directory =? -1 then
        propagate_system_errno BLOBSTORE_ERROR_UNKNOWN;;
        bb_open_unlock bs;;
        mret None
      else
        fd ← open_and_lock (blocks_path bb) (Z.lor flags BLOBSTORE_FLAG_RDWR)
               (to_llong timeout) 384;
        let bb := with_fd fd bb in
        if fd =? -1 then bb_open_clean bs bb created_directory false
        else
          sb ← sys_fstat fd;
          match sb with
          | None =>
              propagate_system_errno BLOBSTORE_ERROR_UNKNOWN;;
              bb_open_clean bs bb created_directory false
          | Some sb =>
              let created_blob := st_size_of sb =? 0 in
              opened ← (if created_blob then
                          ok ← bb_open_new bs bb sig;
                          mret (if ok : bool then Some bb else None)
                        else bb_open_existing bs bb sig sb);
              match opened with
              | None => bb_open_clean bs bb created_directory created_blob
              | Some bb =>
                  looped ← bb_open_loopback bs bb;
                  match looped with
                  | None => bb_open_clean bs bb created_directory created_blob
                  | Some bb =>
                      r ← blobstore_unlock bs;
                      (if r.2 =? -1 then err BLOBSTORE_ERROR_UNKNOWN else mret tt);;
                      mret (Some (with_store r.1 bb))
                  end
              end
          end.

Definition loop_remove (bs : blobstore) (bb_id : string) : M Z :=
  _err_off;;
  r ← read_blockblob_metadata_path BLOCKBLOB_PATH_LOOPBACK bs bb_id "" PATH_MAX;
  _err_on;;
  let path := cstr r.2 in
  if 0 <? strlen path then
    ok ← call_ext (λ e, ext_unloop e path) (CallUnloop path);
    if (ok : bool) then
      path ← metadata_path BLOCKBLOB_PATH_LOOPBACK bs bb_id;
      sys_unlink path;;
      mret 0
    else err BLOBSTORE_ERROR_UNKNOWN;; mret (-1)
  else mret 0.

(** A handle is a pointer in C; [None] is the NULL pointer. *)
Definition blockblob_close (bb : option blockblob) : M Z :=
  match bb with
  | None => err BLOBSTORE_ERROR_INVAL;; mret (-1)
  | Some bb =>
      in_use ← check_in_use (store bb) (bb_id bb) 0;
      ret ← (if Z.land in_use (Z.lor BLOCKBLOB_STATUS_MAPPED BLOCKBLOB_STATUS_BACKED) =? 0
             then loop_remove (store bb) (bb_id bb)
             else mret 0);
      rc ← close_and_unlock (bb_fd bb);
      mret (Z.lor ret rc)
  end.

(** ** The device-mapper adapter *)

Definition dm_suspend_resume (dev_name : string) : M Z :=
  ok ← call_ext (λ e, ext_dm_suspend e dev_name) (CallDmSuspend dev_name);
  if (ok : bool) then
    ok ← call_ext (λ e, ext_dm_resume e dev_name) (CallDmResume dev_name);
    if (ok : bool) then mret 0
    else err BLOBSTORE_ERROR_UNKNOWN;; mret (-1)
  else err BLOBSTORE_ERROR_UNKNOWN;; mret (-1).

(** The names in the order of removal: from the last to the first, a name
    that occurs again further on left out. *)
Fixpoint dev_names_removable (dev_names : list string) : list string :=
  match dev_names with
  | [] => []
  | name :: dev_names' =>
      dev_names_removable dev_names'
        ++ (if bool_decide (name ∈ dev_names') then [] else [name])
  end.

Fixpoint dm_remove_loop (names : list string) (ret : Z) : M Z :=
  match names with
  | [] => mret ret
  | name :: names' =>
      ok ← call_ext (λ e, ext_dm_remove e name) (CallDmRemove name);
      if (ok : bool) then dm_remove_loop names' ret
      else
        usleep 100;;
        ok ← call_ext (λ e, ext_dm_remove e name) (CallDmRemove name);
        if (ok : bool) then dm_remove_loop names' ret
        else err BLOBSTORE_ERROR_UNKNOWN;; dm_remove_loop names' (-1)
  end.

Definition dm_delete_devices (dev_names : list string) : M Z :=
  if bool_decide (length dev_names < 1)%nat then mret 0
  else dm_remove_loop (dev_names_removable dev_names) 0.

(** [dm_create_devices] on the devices from index [i] on; [all] are the
    names of the whole array, for the removal after a failure. *)
Fixpoint dm_create_loop (all : list string) (i : nat) (devs : list (string * string)) : M Z :=
  match devs with
  | [] => mret 0
  | (name, table) :: devs' =>
      ok ← call_ext (λ e, ext_dm_create e name table) (CallDmCreate name table);
      if (ok : bool) then dm_create_loop all (S i) devs'
      else
        err BLOBSTORE_ERROR_UNKNOWN;;
        _err_off;;
        dm_delete_devices (take (S i) all);;
        _err_on;;
        mret (-1)
  end.

Definition dm_create_devices (dev_names dm_tables : list string) : M Z :=
  dm_create_loop dev_names 0 (zip dev_names dm_tables).

Definition dev_zero : string := DM_PATH +:+ EUCA_ZERO.

Definition dm_get_zero : M (option string) :=
  sb ← sys_stat dev_zero;
  sb ← match sb with
       | Some sb => mret (Some sb)
       | None =>
           dm_create_devices [EUCA_ZERO] ["0 " +:+ EUCA_ZERO_SIZE +:+ " zero"];;
           sb ← sys_stat dev_zero;
           match sb with
           | Some sb => mret (Some sb)
           | None => err BLOBSTORE_ERROR_UNKNOWN;; mret None
           end
       end;
  match sb with
  | None => mret None
  | Some sb =>
      if S_ISBLK sb then mret (Some dev_zero)
      else err BLOBSTORE_ERROR_UNKNOWN;; mret None
  end.

(** ** Deleting a blob *)

(** The body of the loop over the lines of the deps file. *)
Definition delete_ref (bs : blobstore) (my_ref : string) (line : string) : M unit :=
  match strrchr line " "%char with
  | None => if strlen line <? 1 then mret tt else fault
  | Some (store_path, sp_blob_id) =>
      let blob_id := str_drop 1 sp_blob_id in
      if (strlen store_path <? 1) || (strlen blob_id <? 1) then mret tt
      else
        dep_bs ← (if decide (bs_path bs = store_path) then mret (Some bs)
                  else blobstore_open store_path 0 BLOBSTORE_FORMAT_ANY
                         BLOBSTORE_REVOCATION_ANY BLOBSTORE_SNAPSHOT_ANY);
        match dep_bs with
        | None => mret tt
        | Some dep_bs =>
            update_entry_blockblob_metadata_path BLOCKBLOB_PATH_REFS dep_bs blob_id my_ref true;;
            u ← check_in_use dep_bs blob_id 0;
            (if u =? 0 then loop_remove dep_bs blob_id;; mret tt else mret tt);;
            (if decide (bs_path bs = store_path) then mret tt
             else blobstore_close dep_bs;; mret tt)
        end
  end.

(** The code after the label [unlock:] of [blockblob_delete]. *)
Definition bb_delete_unlock (bs : blobstore) (ret : Z) : M Z :=
  w ← get_world;
  let saved_errno := _blobstore_errno w in
  r ← blobstore_unlock bs;
  (if r.2 =? -1 then err BLOBSTORE_ERROR_UNKNOWN else mret tt);;
  (if decide (saved_errno = BLOBSTORE_ERROR_OK) then mret tt
   else modify (set_blobstore_errno saved_errno));;
  mret ret.

Definition blockblob_delete (bb : option blockblob) (timeout_usec : Z) : M Z :=
  match bb with
  | None => err BLOBSTORE_ERROR_INVAL;; mret (-1)
  | Some bb =>
      lk ← blobstore_lock (store bb) timeout_usec;
      if lk.2 =? -1 then mret (-1)
      else
        let bs := lk.1 in
        u ← check_in_use bs (bb_id bb) timeout_usec;
        if negb (Z.land u (Z.lnot (Z.lor BLOCKBLOB_STATUS_OPENED BLOCKBLOB_STATUS_BACKED)) =? 0)
        then err BLOBSTORE_ERROR_AGAIN;; bb_delete_unlock bs (-1)
        else
          dm ← read_array_blockblob_metadata_path BLOCKBLOB_PATH_DM bs (bb_id bb);
          if dm.1 =? -1 then bb_delete_unlock bs (-1)
          else
            rc ← dm_delete_devices dm.2;
            if rc =? -1 then bb_delete_unlock bs (-1)
            else
              deps ← read_array_blockblob_metadata_path BLOCKBLOB_PATH_DEPS bs (bb_id bb);
              if deps.1 =? -1 then bb_delete_unlock bs (-1)
              else
                let my_ref := bs_path bs +:+ " " +:+ bb_id bb in
                for_each (delete_ref bs my_ref) deps.2;;
                rc ← loop_remove bs (bb_id bb);
                let ret := if rc =? -1 then -1 else 0 in
                rc ← close_and_unlock (bb_fd bb);
                let ret := Z.lor ret rc in
                n ← delete_blockblob_files bs (bb_id bb);
                let ret := Z.lor ret (if n <? 1 then -1 else 0) in
                bb_delete_unlock bs ret
  end.

(** ** The composition engine *)

(** Modelled from the spec: the block map entry of blobstore.h.  The source
    type is given with the member of the union [source] that it selects; a
    pointer may be NULL. *)
Inductive blockmap_relation_t := BLOBSTORE_COPY | BLOBSTORE_MAP | BLOBSTORE_SNAPSHOT.

Inductive blockmap_source :=
  | BLOBSTORE_DEVICE (source_device_path : option string)
  | BLOBSTORE_BLOCKBLOB (source_blob : option blockblob)
  | BLOBSTORE_ZERO.

Record blockmap := {
  relation_type : blockmap_relation_t;
  source : blockmap_source;
  first_block_src : Z;
  first_block_dst : Z;
  len_blocks : Z;
}.

Global Instance blockmap_relation_eq_dec : EqDecision blockmap_relation_t.
Proof. solve_decision. Defined.

Definition is_zero_source (s : blockmap_source) : bool :=
  match s with BLOBSTORE_ZERO => true | _ => false end.

(** The first loop of [blockblob_clone]: every entry is verified.  The
    result is [None] for [return -1], else the zero device if one was
    asked for. *)
Fixpoint clone_verify (bb : blockblob) (map : list blockmap) (zero_dev : option string)
    : M (option (option string)) :=
  match map with
  | [] => mret (Some zero_dev)
  | m :: map' =>
      if negb (bool_decide (relation_type m = BLOBSTORE_COPY))
         && negb (bool_decide (snapshot_policy (store bb) = BLOBSTORE_SNAPSHOT_DM)) then
        err BLOBSTORE_ERROR_INVAL;; mret None
      else
        match source m with
        | BLOBSTORE_DEVICE None => err BLOBSTORE_ERROR_INVAL;; mret None
        | BLOBSTORE_DEVICE (Some path) =>
            sb ← sys_stat path;
            match sb with
            | None => propagate_system_errno BLOBSTORE_ERROR_NOENT;; mret None
            | Some sb =>
                if S_ISBLK sb then clone_verify bb map' zero_dev
                else err BLOBSTORE_ERROR_INVAL;; mret None
            end
        | BLOBSTORE_BLOCKBLOB None => err BLOBSTORE_ERROR_INVAL;; mret None
        | BLOBSTORE_BLOCKBLOB (Some sbb) =>
            if bb_fd sbb =? -1 then err BLOBSTORE_ERROR_INVAL;; mret None
            else
              sb ← sys_fstat (bb_fd sbb);
              match sb with
              | None => propagate_system_errno BLOBSTORE_ERROR_NOENT;; mret None
              | Some sb =>
                  if st_size_of sb / 512 <? size_blocks sbb then
                    err BLOBSTORE_ERROR_INVAL;; mret None
                  else
                    sb ← sys_stat (device_path sbb);
                    match sb with
                    | None => propagate_system_errno BLOBSTORE_ERROR_NOENT;; mret None
                    | Some sb =>
                        if negb (S_ISBLK sb) then err BLOBSTORE_ERROR_INVAL;; mret None
                        else if size_blocks sbb <? wrap64 (first_block_src m + len_blocks m) then
                          err BLOBSTORE_ERROR_INVAL;; mret None
                        else if size_blocks bb <? wrap64 (first_block_dst m + len_blocks m) then
                          err BLOBSTORE_ERROR_INVAL;; mret None
                        else if bool_decide (relation_type m = BLOBSTORE_SNAPSHOT)
                                && (len_blocks m <? MIN_BLOCKS_SNAPSHOT) then
                          err BLOBSTORE_ERROR_INVAL;; mret None
                        else clone_verify bb map' zero_dev
                    end
              end
        | BLOBSTORE_ZERO =>
            if negb (bool_decide (relation_type m = BLOBSTORE_COPY)) then
              z ← dm_get_zero;
              match z with
              | None => mret None
              | Some z => clone_verify bb map' (Some z)
              end
            else clone_verify bb map' zero_dev
        end
  end.

Fixpoint str_map (f : ascii → ascii) (s : string) : string :=
  match s with
  | EmptyString => ""
  | String c s' => String (f c) (str_map f s')
  end.

(** ["euca-%s"] with the slashes of the id replaced by hyphens. *)
Definition dm_base_of (bb : blockblob) : string :=
  str_map (λ c, if decide (c = slash) then "-"%char else c) ("euca-" +:+ bb_id bb).

Definition lld (z : Z) : string := pretty (to_llong z).

(** [dev[0]=='e' ? DM_PATH : ""] *)
Definition dm_prefix (dev : string) : string :=
  match dev with
  | String "e" _ => DM_PATH
  | _ => ""
  end.

(** [while (len_blocks % granularity) granularity /= 2], from 16. *)
Fixpoint granularity_loop (fuel : nat) (len : Z) (granularity : Z) : Z :=
  match fuel with
  | O => granularity
  | S fuel' =>
      if len mod granularity =? 0 then granularity
      else granularity_loop fuel' len (granularity / 2)
  end.

Record clone_state := {
  cs_devs : list (string * string);
  main_dm_table : string;
  mapped_or_snapshotted : Z;
}.

(** The second loop: the copies are made and the tables computed.  [None]
    stands for [ret = -1; goto free]. *)
Fixpoint clone_exec (bb : blockblob) (dm_base : string) (i : nat) (map : list blockmap)
    (zero_dev : option string) (st : clone_state) : M (option clone_state) :=
  match map with
  | [] => mret (Some st)
  | m :: map' =>
      let dev : option string :=
        match source m with
        | BLOBSTORE_DEVICE p => p
        | BLOBSTORE_BLOCKBLOB sbb => device_path <$> sbb
        | BLOBSTORE_ZERO => zero_dev
        end in
      let map_segment (devs : list (string * string)) (dev : option string)
          (first_block_src : Z) : M (option clone_state) :=
        match dev with
        | None => fault
        | Some dev =>
            let buf := lld (first_block_dst m) +:+ " " +:+ lld (len_blocks m) +:+ " linear "
                       +:+ dm_prefix dev +:+ dev +:+ " " +:+ lld first_block_src
                       +:+ String newline "" in
            clone_exec bb dm_base (S i) map' zero_dev
              {| cs_devs := devs; main_dm_table := main_dm_table st +:+ buf;
                 mapped_or_snapshotted := mapped_or_snapshotted st + 1 |}
        end in
      match relation_type m with
      | BLOBSTORE_COPY =>
          ok ← call_ext
                 (λ e, ext_dd e dev (device_path bb) (len_blocks m) (first_block_dst m)
                         (first_block_src m))
                 (CallDd dev (device_path bb) (len_blocks m) (first_block_dst m)
                    (first_block_src m));
          if (ok : bool) then
            let buf := lld (first_block_dst m) +:+ " " +:+ lld (len_blocks m) +:+ " linear "
                       +:+ device_path bb +:+ " " +:+ lld (first_block_dst m)
                       +:+ String newline "" in
            clone_exec bb dm_base (S i) map' zero_dev
              {| cs_devs := cs_devs st; main_dm_table := main_dm_table st +:+ buf;
                 mapped_or_snapshotted := mapped_or_snapshotted st |}
          else err BLOBSTORE_ERROR_INVAL;; mret None
      | BLOBSTORE_SNAPSHOT =>
          let granularity := granularity_loop 5 (len_blocks m) 16 in
          let backing_dev := dm_base +:+ "-p" +:+ pretty i +:+ "-back" in
          let devs := cs_devs st ++
            [(backing_dev, "0 " +:+ lld (len_blocks m) +:+ " linear " +:+ device_path bb
                           +:+ " " +:+ lld (first_block_dst m) +:+ String newline "")] in
          match dev with
          | None => fault
          | Some dev =>
              let '(snapshotted_dev, devs) :=
                if (0 <? first_block_src m)
                   && negb (is_zero_source (source m)) then
                  let real := dm_base +:+ "-p" +:+ pretty i +:+ "-real" in
                  (real, devs ++
                     [(real, "0 " +:+ lld (len_blocks m) +:+ " linear " +:+ dev +:+ " "
                             +:+ lld (first_block_src m) +:+ String newline "")])
                else (dev, devs) in
              let snap := dm_base +:+ "-p" +:+ pretty i +:+ "-snap" in
              let devs := devs ++
                [(snap, "0 " +:+ lld (len_blocks m) +:+ " snapshot "
                        +:+ dm_prefix snapshotted_dev +:+ snapshotted_dev +:+ " " +:+ DM_PATH
                        +:+ backing_dev +:+ " p " +:+ pretty granularity +:+ String newline "")] in
              map_segment devs (Some snap) 0
          end
      | BLOBSTORE_MAP => map_segment (cs_devs st) dev (first_block_src m)
      end
  end.

(** The loop that records the references, [None] for [goto cleanup]. *)
Fixpoint clone_record_refs (bb : blockblob) (my_ref : string) (map : list blockmap) : M bool :=
  match map with
  | [] => mret true
  | m :: map' =>
      match source m, relation_type m with
      | BLOBSTORE_BLOCKBLOB sbb, (BLOBSTORE_MAP | BLOBSTORE_SNAPSHOT) =>
          match sbb with
          | None => fault
          | Some sbb =>
              rc ← update_entry_blockblob_metadata_path BLOCKBLOB_PATH_REFS (store sbb)
                     (bb_id sbb) my_ref false;
              if rc =? -1 then mret false
              else
                let dep_ref := bs_path (store sbb) +:+ " " +:+ bb_id sbb in
                rc ← update_entry_blockblob_metadata_path BLOCKBLOB_PATH_DEPS (store bb)
                       (bb_id bb) dep_ref false;
                if rc =? -1 then mret false
                else clone_record_refs bb my_ref map'
          end
      | _, _ => clone_record_refs bb my_ref map'
      end
  end.

(** [blockblob_clone]: the return value and the destination handle, whose
    [dm_name] and [device_path] the call may change. *)
Definition blockblob_clone (bb : option blockblob) (map : option (list blockmap))
    : M (option blockblob * Z) :=
  match bb, map with
  | None, _ => err BLOBSTORE_ERROR_INVAL;; mret (None, -1)
  | Some bb, None => err BLOBSTORE_ERROR_INVAL;; mret (Some bb, -1)
  | Some bb, Some map =>
      let map_size := Z.of_nat (length map) in
      if (map_size <? 1) || (MAX_BLOCKMAP_SIZE <? map_size) then
        err BLOBSTORE_ERROR_INVAL;; mret (Some bb, -1)
      else
        v ← clone_verify bb map None;
        match v with
        | None => mret (Some bb, -1)
        | Some zero_dev =>
            let dm_base := dm_base_of bb in
            x ← clone_exec bb dm_base 0 map zero_dev
                  {| cs_devs := []; main_dm_table := ""; mapped_or_snapshotted := 0 |};
            match x with
            | None => mret (Some bb, -1)
            | Some st =>
                if mapped_or_snapshotted st =? 0 then mret (Some bb, 0)
                else
                  let devs := cs_devs st ++ [(dm_base, main_dm_table st)] in
                  let bb := with_device (DM_PATH +:+ dm_base) dm_base bb in
                  rc ← dm_create_devices devs.*1 devs.*2;
                  if negb (rc =? 0) then mret (Some bb, -1)
                  else
                    rc ← write_array_blockblob_metadata_path BLOCKBLOB_PATH_DM (store bb)
                           (bb_id bb) devs.*1;
                    if rc =? -1 then dm_delete_devices devs.*1;; mret (Some bb, -1)
                    else
                      let my_ref := bs_path (store bb) +:+ " " +:+ bb_id bb in
                      ok ← clone_record_refs bb my_ref map;
                      if (ok : bool) then mret (Some bb, 0)
                      else dm_delete_devices devs.*1;; mret (Some bb, -1)
            end
        end
  end.

(** ** Accessors *)

Definition blockblob_get_dev (bb : option blockblob) : M (option string) :=
  match bb with
  | None => err BLOBSTORE_ERROR_INVAL;; mret None
  | Some bb => mret (Some (device_path bb))
  end.

Definition blockblob_get_file (bb : option blockblob) : M (option string) :=
  match bb with
  | None => err BLOBSTORE_ERROR_INVAL;; mret None
  | Some bb =>
      if negb (bool_decide (snapshot_type bb = BLOBSTORE_SNAPSHOT_ANY))
         && negb (bool_decide (snapshot_type bb = BLOBSTORE_SNAPSHOT_DM)) then
        err BLOBSTORE_ERROR_INVAL;; mret None
      else mret (Some (blocks_path bb))
  end.

Definition blockblob_get_size (bb : option blockblob) : M Z :=
  match bb with
  | None => err BLOBSTORE_ERROR_INVAL;; mret 0
  | Some bb => mret (size_blocks bb)
  end.

(** ** Notions that the properties are stated with *)

(** The descriptors among [fds] whose status is 1, "open". *)
Definition helds (fds sts : list Z) : list Z :=
  (filter (λ p : Z * Z, p.2 = 1) (zip fds sts)).*1.

(** The slots of an entry that are in use, and the descriptors in them
    that [close_and_unlock] has not yet been called on. *)
Definition table_fds (l : blobstore_filelock) : list Z := take (l_next_fd l) (l_fd l).
Definition held_fds (l : blobstore_filelock) : list Z :=
  helds (table_fds l) (take (l_next_fd l) (l_fd_status l)).

(** What holds of an entry between two calls: the bound that
    [close_and_unlock] asserts, the arrays of [BLOBSTORE_MAX_CONCURRENT]
    slots, and a reference count that is the number of descriptors held,
    which is not zero. *)
Definition wf_filelock (l : blobstore_filelock) : Prop :=
  (l_next_fd l ≤ BLOBSTORE_MAX_CONCURRENT)%nat
  ∧ length (l_fd l) = BLOBSTORE_MAX_CONCURRENT
  ∧ length (l_fd_status l) = BLOBSTORE_MAX_CONCURRENT
  ∧ l_refs l = Z.of_nat (length (held_fds l))
  ∧ 0 < l_refs l.

(** What holds of the registry between two calls: one entry per path, and
    the descriptors in the tables are distinct descriptors that the kernel
    has open. *)
Definition wf_registry (w : world) : Prop :=
  NoDup (l_path <$> locks_list w)
  ∧ Forall wf_filelock (locks_list w)
  ∧ NoDup (locks_list w ≫= table_fds)
  ∧ Forall (λ fd, 0 ≤ fd ∧ is_Some (w_fdt w !! fd)) (locks_list w ≫= table_fds).

Global Instance wf_filelock_dec l : Decision (wf_filelock l).
Proof. unfold wf_filelock. apply _. Defined.
Global Instance wf_registry_dec w : Decision (wf_registry w).
Proof. unfold wf_registry. apply _. Defined.

(** The descriptors that [open_and_lock] has returned for [path] and that
    are still held. *)
Definition descriptors_held (w : world) (path : string) : list Z :=
  match find_lock path (locks_list w) with
  | Some i => from_option held_fds [] (locks_list w !! i)
  | None => []
  end.

(** [close_and_unlock] on each descriptor of a list, in its order. *)
Definition close_all (fds : list Z) : M unit :=
  for_each (λ fd, close_and_unlock fd;; mret tt) fds.

(** The path of a metadata file, for a format that has one. *)
Definition sidecar_path (path_t : blockblob_path_t) (bs : blobstore) (bb_id : string) : string :=
  (bs_path bs +:+ "/" +:+ bb_id)
    +:+ (if decide (format bs = BLOBSTORE_FORMAT_DIRECTORY) then "/" else ".")
    +:+ blobstore_metadata_suffixes path_t.

(** The buffer that the second loop of [delete_blockblob_files] starts from. *)
Definition blob_dir_path (bs : blobstore) (bb_id : string) : string :=
  bs_path bs +:+ "/" +:+ bb_id
    +:+ (if decide (format bs = BLOBSTORE_FORMAT_DIRECTORY) then "/" else "").

(** [d] is a directory above [p]: its parent, or above its parent. *)
Inductive ancestor (d : string) : string → Prop :=
  | ancestor_parent p : dirname p ≠ "" → d = dirname p → ancestor d p
  | ancestor_up p : dirname p ≠ "" → ancestor d (dirname p) → ancestor d p.

(** In a well-formed tree the parent of every node is a directory. *)
Definition wf_fs (fs : gmap string node) : Prop :=
  map_Forall (λ p _, dirname p = "" ∨ fs !! dirname p = Some Dir) fs.

Global Instance wf_fs_dec fs : Decision (wf_fs fs).
Proof. unfold wf_fs. apply _. Defined.

(** A blob that [purge_blockblobs_lru] may delete. *)
Definition purgeable (bb : blockblob) : Prop :=
  Z.land (in_use bb) (Z.lnot BLOCKBLOB_STATUS_BACKED) = 0.

(** The totals of the reports add up the sizes, from [purged] on. *)
Fixpoint running_totals (purged : Z) (reported : list (blockblob * Z)) : Prop :=
  match reported with
  | [] => True
  | (bb, total) :: reported' =>
      total = purged + size_blocks bb ∧ running_totals total reported'
  end.

(** Before each purge the total was below [need_blocks]. *)
Definition stops_at_need (need_blocks : Z) (reported : list (blockblob * Z)) : Prop :=
  Forall (λ r, r.2 - size_blocks r.1 < need_blocks) reported.

(** The paths of the sidecar files of the blobs [bbs] in the store [bs]. *)
Definition sidecars_of (bs : blobstore) (bbs : list blockblob) : list string :=
  bb ← bbs; (λ k, sidecar_path k bs (bb_id bb)) <$> blockblob_paths.

Definition sum_sizes (bbs : list blockblob) : Z :=
  foldr (λ bb s, size_blocks bb + s) 0 bbs.

(** The purge of [bb] took something away that the purges of the blobs
    [before] it had left: a sidecar that was a file, or the directory of
    the blob. *)
Definition purge_removed (bs : blobstore) (w w' : world) (before : list blockblob)
    (bb : blockblob) : Prop :=
  (∃ p, p ∈ sidecars_of bs [bb] ∧ is_file (w_fs w !! p) = true
      ∧ p ∉ sidecars_of bs before)
  ∨ (dirname (blob_dir_path bs (bb_id bb)) ≠ ""
     ∧ is_dir (w_fs w !! dirname (blob_dir_path bs (bb_id bb))) = true
     ∧ is_dir (w_fs w' !! dirname (blob_dir_path bs (bb_id bb))) = false).

(** [bb] was counted: [delete_blockblob_files] ran on it, in a state whose
    files are those of [w] less the sidecars of the blobs counted [before]
    it, and returned a number above zero. *)
Definition purge_counted (bs : blobstore) (w : world) (before : list blockblob)
    (bb : blockblob) : Prop :=
  ∃ w0 w1 n, delete_blockblob_files bs (bb_id bb) w0 = Ret w1 n ∧ 0 < n
    ∧ ∀ p, is_file (w_fs w0 !! p)
           = is_file (w_fs w !! p) && bool_decide (p ∉ sidecars_of bs before).

(** What the C standard asks of a comparison function on the elements of
    an array, a total order, and what [qsort] then promises. *)
Definition consistent_on (cmp : blockblob → blockblob → Z) (l : list blockblob) : Prop :=
  (∀ x y, x ∈ l → y ∈ l → 0 ≤ cmp x y → cmp y x ≤ 0)
  ∧ (∀ x y z, x ∈ l → y ∈ l → z ∈ l → cmp x y ≤ 0 → cmp y z ≤ 0 → cmp x z ≤ 0).

Definition qsort_contract
    (qsort : (blockblob → blockblob → Z) → list blockblob → list blockblob) : Prop :=
  ∀ cmp l, qsort cmp l ≡ₚ l
           ∧ (consistent_on cmp l → StronglySorted (λ a b, cmp a b ≤ 0) (qsort cmp l)).

(** A call to a helper that copies. *)
Definition is_copy_call (c : ext_call) : Prop :=
  match c with CallDd _ _ _ _ _ => True | _ => False end.

(** The value that a call returns, if it returns. *)
Definition value_of {A} (o : outcome A) : option A :=
  match o with Ret _ a => Some a | _ => None end.

(** ** Relations between the state before and after a call *)

(** A relation that every step that leaves the tree and the registry alone
    is in. *)
Class Frame (R : relation world) := {
  frame_refl w : R w w;
  frame_trans w1 w2 w3 : R w1 w2 → R w2 w3 → R w1 w3;
  frame_quiet w w' : w_fs w' = w_fs w → locks_list w' = locks_list w → R w w'
}.

(** A relation on the tree alone. *)
Class FsFrame (R : relation world) := {
  fs_frame_frame :: Frame R;
  frame_same w w' : w_fs w' = w_fs w → R w w'
}.

(** Whenever [m] returns, the states before and after are related. *)
Definition keeps (R : relation world) {A} (m : M A) : Prop :=
  ∀ w w' a, m w = Ret w' a → R w w'.

(** The tree is as it was. *)
Definition fs_same (w w' : world) : Prop := w_fs w' = w_fs w.

(** The registry is as it was. *)
Definition locks_same (w w' : world) : Prop := locks_list w' = locks_list w.

(** No entry of the registry has more descriptors than its table holds. *)
Definition bounded (ll : list blobstore_filelock) : Prop :=
  Forall (λ l, (l_next_fd l ≤ BLOBSTORE_MAX_CONCURRENT)%nat) ll.

(** The tree stays well formed, and no directory appears. *)
Definition fs_step (w w' : world) : Prop :=
  (wf_fs (w_fs w) → wf_fs (w_fs w'))
  ∧ ∀ p, is_dir (w_fs w' !! p) = true → is_dir (w_fs w !! p) = true.

(** The file tree and the log of helper calls are as before. *)
Definition same_disk (w w' : world) : Prop :=
  w_fs w' = w_fs w ∧ w_calls w' = w_calls w.

(** The file tree is as before, and the helper calls made since are copies. *)
Definition only_copies (w w' : world) : Prop :=
  w_fs w' = w_fs w ∧ ∃ calls, w_calls w' = w_calls w ++ calls ∧ Forall is_copy_call calls.

(** From a state in which [P] holds, [m] returns, and [P] holds again. *)
Definition returns_on (P : world → Prop) {A} (m : M A) : Prop :=
  ∀ w, P w → ∃ w' a, m w = Ret w' a ∧ P w'.

Definition registry_bounded (w : world) : Prop := bounded (locks_list w).

(** The descriptor counts of the entries of the registry are as they were. *)
Definition counts_same (w w' : world) : Prop :=
  l_next_fd <$> locks_list w' = l_next_fd <$> locks_list w.

(** A property of the registry alone. *)
Class LocksOnly (P : world → Prop) :=
  locks_only w w' : locks_list w' = locks_list w → P w → P w'.

(** The values of the enumeration [blockblob_path_t]. *)
Definition int_of_path_t (t : blockblob_path_t) : Z :=
  match t with
  | BLOCKBLOB_PATH_NONE => 0
  | BLOCKBLOB_PATH_BLOCKS => 1
  | BLOCKBLOB_PATH_DM => 2
  | BLOCKBLOB_PATH_DEPS => 3
  | BLOCKBLOB_PATH_LOOPBACK => 4
  | BLOCKBLOB_PATH_SIG => 5
  | BLOCKBLOB_PATH_REFS => 6
  end.

(** The numbering of an enumeration of the header is by [int]s, and reading
    the number of a value back gives the value. *)
Definition numbered {A} (to_z : A → Z) (of_z : Z → A) : Prop :=
  ∀ a, - 2 ^ 31 ≤ to_z a < 2 ^ 31 ∧ of_z (to_z a) = a.

(** A value that can stand in a line of the descriptor file of a store. *)
Definition plain (s : string) : Prop :=
  str_contains ":"%char s = false ∧ str_contains newline s = false.

(** The read-write lock of an entry is held the way that the type of the
    entry says: by a writer, or by readers only. *)
Definition lock_agrees (l : blobstore_filelock) : Prop :=
  rw_writer (l_lock l) = bool_decide (l_type l = F_WRLCK).

Global Instance lock_agrees_dec l : Decision (lock_agrees l).
Proof. unfold lock_agrees. apply _. Defined.

(** The registry as the calls of one thread leave it. *)
Definition registry_ok (w : world) : Prop :=
  wf_registry w ∧ Forall lock_agrees (locks_list w).

Global Instance registry_ok_dec w : Decision (registry_ok w).
Proof. unfold registry_ok. apply _. Defined.

(** What [propagate_system_errno] makes of the [errno] of the C library. *)
Definition error_of_errno (default_errno : blobstore_error_t) (e : errno_t)
    : blobstore_error_t :=
  match e with
  | ENOENT => BLOBSTORE_ERROR_NOENT
  | ENOMEM => BLOBSTORE_ERROR_NOMEM
  | EACCES => BLOBSTORE_ERROR_ACCES
  | EEXIST => BLOBSTORE_ERROR_EXIST
  | EINVAL => BLOBSTORE_ERROR_INVAL
  | ENOSPC => BLOBSTORE_ERROR_NOSPC
  | EAGAIN => BLOBSTORE_ERROR_AGAIN
  | _ => default_errno
  end.

(** The read-write lock of a new entry once it is taken. *)
Definition taken (lt : lock_type) : rwlock :=
  match lt with
  | F_RDLCK => {| rw_readers := 1; rw_writer := false |}
  | F_WRLCK => {| rw_readers := 0; rw_writer := true |}
  end.

(** The descriptors in the table of the entry of [path]: those that
    [open_and_lock] has returned for it since the entry was made, whether
    [close_and_unlock] has been called on them or not. *)
Definition descriptors_kept (w : world) (path : string) : list Z :=
  match find_lock path (locks_list w) with
  | Some i => from_option table_fds [] (locks_list w !! i)
  | None => []
  end.

(** Nothing has changed but the clock and the error variables [errno],
    [_blobstore_errno] and [_do_print_errors]. *)
Definition errors_only (w w' : world) : Prop :=
  w_fs w' = w_fs w ∧ w_fdt w' = w_fdt w ∧ locks_list w' = locks_list w
  ∧ w_ext w' = w_ext w ∧ w_calls w' = w_calls w.

(** What [read_blockblob_metadata_path] makes of the node at the path of a
    sidecar: the number of bytes and the bytes of a file that is not empty
    and fits the buffer, else -1. *)
Definition sidecar_read (o : option node) (str : string) (str_size : Z) : Z * string :=
  match o with
  | Some (File d _) =>
      if nbytes d <=? str_size then
        if 1 <=? nbytes d then (nbytes d, d) else (-1, d)
      else (-1, str_take (Z.to_nat str_size) d)
  | _ => (-1, str)
  end.

(** What [check_in_use] answers in a state. *)
Definition in_use_of (w : world) (bs : blobstore) (bb_id : string) : Z :=
  let blocks := sidecar_path BLOCKBLOB_PATH_BLOCKS bs bb_id in
  let in_use :=
    if bool_decide (descriptors_held w blocks = []) && is_file (w_fs w !! blocks) then 0
    else Z.lor 0 BLOCKBLOB_STATUS_OPENED in
  let in_use :=
    if 0 <? (sidecar_read (w_fs w !! sidecar_path BLOCKBLOB_PATH_REFS bs bb_id) "" PATH_MAX).1
    then Z.lor in_use BLOCKBLOB_STATUS_MAPPED else in_use in
  if 0 <? (sidecar_read (w_fs w !! sidecar_path BLOCKBLOB_PATH_DEPS bs bb_id) "" PATH_MAX).1
  then Z.lor in_use BLOCKBLOB_STATUS_BACKED else in_use.

(** A sidecar that [read_blockblob_metadata_path] can read into a buffer of
    [PATH_MAX] bytes: a file of at least one byte and no more than that. *)
Definition readable (w : world) (path_t : blockblob_path_t) (bs : blobstore) (bb_id : string)
    : Prop :=
  ∃ d t, w_fs w !! sidecar_path path_t bs bb_id = Some (File d t) ∧ 1 ≤ nbytes d ≤ PATH_MAX.

(** The request of [blobstore_open] agrees with the store that is there:
    a limit of 0 and the values [..._ANY] agree with every store. *)
Definition agrees (limit : Z) (fmt : blobstore_format_t) (revocation : blobstore_revocation_t)
    (snapshot : blobstore_snapshot_t) (bs : blobstore) : bool :=
  ((limit =? 0) || (limit =? limit_blocks bs))
  && (bool_decide (snapshot = BLOBSTORE_SNAPSHOT_ANY)
      || bool_decide (snapshot = snapshot_policy bs))
  && (bool_decide (fmt = BLOBSTORE_FORMAT_ANY) || bool_decide (fmt = format bs))
  && (bool_decide (revocation = BLOBSTORE_REVOCATION_ANY)
      || bool_decide (revocation = revocation_policy bs)).

(** The handle of a store that [blobstore_open] has made. *)
Definition new_store (id path : string) (limit : Z) (fmt : blobstore_format_t)
    (revocation : blobstore_revocation_t) (snapshot : blobstore_snapshot_t) : blobstore :=
  {| bs_id := id; bs_path := path; limit_blocks := limit;
     revocation_policy :=
       if decide (revocation = BLOBSTORE_REVOCATION_ANY) then BLOBSTORE_REVOCATION_NONE
       else revocation;
     snapshot_policy :=
       if decide (snapshot = BLOBSTORE_SNAPSHOT_ANY) then BLOBSTORE_SNAPSHOT_DM else snapshot;
     format := if decide (fmt = BLOBSTORE_FORMAT_ANY) then BLOBSTORE_FORMAT_FILES else fmt;
     bs_fd := -1 |}.

(** The directory that the loop of [ensure_directories_exist] looks at
    when it is at byte [i] of [path]. *)
Definition try_dir_at (path : string) (is_file_path : bool) (i : nat) : option string :=
  let c := String.get i path in
  if bool_decide (c = Some slash) && bool_decide (0 < i)%nat then Some (str_take i path)
  else if negb (bool_decide (c = Some slash)) && bool_decide (S i = String.length path) then
    if is_file_path then None else Some path
  else None.

(** [stat (path)] finds something: a node of the file tree or a device. *)
Definition stat_ok (w : world) (path : string) : Prop :=
  is_Some (w_fs w !! path) ∨ is_Some (ext_stat (w_ext w) path).

(** The file tree [fs'] is [fs] with some directories added. *)
Definition only_new_dirs (fs fs' : gmap string node) : Prop :=
  ∀ p, fs' !! p = fs !! p ∨ (fs !! p = None ∧ fs' !! p = Some Dir).

(** What [dmsetup remove] makes of the names [names], tried one after the
    other from the state [e] of the devices, a name being tried a second
    time when the first try fails: the state that is left, the number of
    tries that each name took, and whether the second try of some name
    failed. *)
Fixpoint dm_removals (e : E) (names : list string) : E * list nat * bool :=
  match names with
  | [] => (e, [], false)
  | name :: names' =>
      let r1 := ext_dm_remove e name in
      if r1.2 then
        let rest := dm_removals r1.1 names' in
        (rest.1.1, 1%nat :: rest.1.2, rest.2)
      else
        let r2 := ext_dm_remove r1.1 name in
        let rest := dm_removals r2.1 names' in
        (rest.1.1, 2%nat :: rest.1.2, negb r2.2 || rest.2)
  end.

(** What [dmsetup create] makes of the devices [devs], made one after the
    other from the state [e] until one cannot be made: the state that is
    left and the index of the device that could not be made, if there is
    one. *)
Fixpoint dm_creations (e : E) (devs : list (string * string)) : E * option nat :=
  match devs with
  | [] => (e, None)
  | (name, table) :: devs' =>
      let r := ext_dm_create e name table in
      if r.2 then
        let rest := dm_creations r.1 devs' in (rest.1, S <$> rest.2)
      else (r.1, Some 0%nat)
  end.

(** The calls of [dmsetup remove] for names that took the given tries. *)
Definition dm_remove_calls (names : list string) (tries : list nat) : list ext_call :=
  flat_map (λ nk : string * nat, replicate nk.2 (CallDmRemove nk.1)) (zip names tries).

End Blobstore.

Global Arguments world : clear implicits.
Global Arguments outcome : clear implicits.
Global Arguments M : clear implicits.

(** ** A concrete header and a concrete environment

    They serve to run the model on examples.  The flag and status bits are
    distinct bits, the enumerations are numbered from 0; the environment
    keeps the list of block devices that exist, and sorts by insertion. *)

Definition sample_format_of_int (z : Z) : blobstore_format_t :=
  if z =? 1 then BLOBSTORE_FORMAT_FILES
  else if z =? 2 then BLOBSTORE_FORMAT_DIRECTORY else BLOBSTORE_FORMAT_ANY.
Definition sample_revocation_of_int (z : Z) : blobstore_revocation_t :=
  if z =? 1 then BLOBSTORE_REVOCATION_NONE
  else if z =? 2 then BLOBSTORE_REVOCATION_LRU else BLOBSTORE_REVOCATION_ANY.
Definition sample_snapshot_of_int (z : Z) : blobstore_snapshot_t :=
  if z =? 1 then BLOBSTORE_SNAPSHOT_NONE
  else if z =? 2 then BLOBSTORE_SNAPSHOT_DM else BLOBSTORE_SNAPSHOT_ANY.

Definition sample_header : Header := {|
  BLOBSTORE_FLAG_RDWR := 1;
  BLOBSTORE_FLAG_RDONLY := 2;
  BLOBSTORE_FLAG_CREAT := 4;
  BLOBSTORE_FLAG_EXCL := 8;
  BLOCKBLOB_STATUS_OPENED := 2;
  BLOCKBLOB_STATUS_MAPPED := 8;
  BLOCKBLOB_STATUS_BACKED := 16;
  MAX_BLOCKMAP_SIZE := 32;
  BLOBSTORE_MAX_PATH := 1024;
  int_of_format := λ f, match f with
                        | BLOBSTORE_FORMAT_ANY => 0
                        | BLOBSTORE_FORMAT_FILES => 1
                        | BLOBSTORE_FORMAT_DIRECTORY => 2
                        end;
  format_of_int := sample_format_of_int;
  int_of_revocation := λ r, match r with
                            | BLOBSTORE_REVOCATION_ANY => 0
                            | BLOBSTORE_REVOCATION_NONE => 1
                            | BLOBSTORE_REVOCATION_LRU => 2
                            end;
  revocation_of_int := sample_revocation_of_int;
  int_of_snapshot := λ s, match s with
                          | BLOBSTORE_SNAPSHOT_ANY => 0
                          | BLOBSTORE_SNAPSHOT_NONE => 1
                          | BLOBSTORE_SNAPSHOT_DM => 2
                          end;
  snapshot_of_int := sample_snapshot_of_int;
|}.

(** Two sorts by insertion from the right.  The stable one puts an element
    before its equals, as glibc's merge sort does; the other one puts it
    after them, and so reverses the elements that compare equal. *)
Fixpoint sample_insert (stable : bool) (cmp : blockblob → blockblob → Z) (x : blockblob)
    (l : list blockblob) : list blockblob :=
  match l with
  | [] => [x]
  | y :: l' => if (if stable then cmp x y <=? 0 else cmp x y <? 0)
               then x :: y :: l' else y :: sample_insert stable cmp x l'
  end.

Definition sample_qsort (stable : bool) (cmp : blockblob → blockblob → Z)
    (l : list blockblob) : list blockblob :=
  foldr (sample_insert stable cmp) [] l.

Definition sample_ext_with (qsort : (blockblob → blockblob → Z) → list blockblob → list blockblob)
    : External (list string) := {|
  ext_loop := λ devs file,
    let dev := "/dev/loop" +:+ pretty (length devs) in (dev :: devs, Some dev);
  ext_unloop := λ devs dev,
    if bool_decide (dev ∈ devs) then (filter (λ d, d ≠ dev) devs, true) else (devs, false);
  ext_dd := λ devs src dst count seek skip,
    (devs, match src with
           | Some src => bool_decide (src ∈ devs) && bool_decide (dst ∈ devs)
           | None => false
           end);
  ext_dm_create := λ devs name table,
    if bool_decide ((DM_PATH +:+ name) ∈ devs) then (devs, false)
    else ((DM_PATH +:+ name) :: devs, true);
  ext_dm_remove := λ devs name,
    if bool_decide ((DM_PATH +:+ name) ∈ devs)
    then (filter (λ d, d ≠ DM_PATH +:+ name) devs, true) else (devs, false);
  ext_dm_suspend := λ devs name, (devs, bool_decide ((DM_PATH +:+ name) ∈ devs));
  ext_dm_resume := λ devs name, (devs, bool_decide ((DM_PATH +:+ name) ∈ devs));
  ext_stat := λ devs path, if bool_decide (path ∈ devs) then Some true else None;
  ext_init := λ devs, (devs, 0);
  ext_gen_id := λ devs, (devs, "0000002a0000002a0000002a");
  ext_qsort := qsort;
  ext_atime := λ devs path, 0;
  ext_stack := λ devs, "";
|}.

Definition sample_ext : External (list string) := sample_ext_with (sample_qsort true).
Definition reversing_ext : External (list string) := sample_ext_with (sample_qsort false).

(** A world with the given files, nothing open and nothing locked. *)
Definition sample_world (fs : gmap string node) (devs : list string) : world (list string) := {|
  w_fs := fs; w_fdt := ∅; locks_list := []; _blobstore_errno := BLOBSTORE_ERROR_OK;
  _do_print_errors := true; errno := E_OK; w_time := 0; w_ext := devs; w_calls := [] |}.

(** The world after a call, when the call returns. *)
Definition world_after {E A} (o : outcome E A) (w : world E) : world E :=
  match o with Ret w' _ => w' | _ => w end.

(** ** Sample scenarios *)

Section samples.
#[local] Existing Instance sample_header.
#[local] Existing Instance sample_ext.

Definition sample_store : blobstore := {|
  bs_id := "store"; bs_path := "/s"; limit_blocks := 30;
  revocation_policy := BLOBSTORE_REVOCATION_NONE; snapshot_policy := BLOBSTORE_SNAPSHOT_DM;
  format := BLOBSTORE_FORMAT_FILES; bs_fd := -1 |}.

Definition sample_blob (id : string) (size mtime : Z) (dev : string) (fd : Z) : blockblob := {|
  store := sample_store; bb_id := id; blocks_path := "/s/" +:+ id +:+ ".blocks";
  device_path := dev; dm_name := ""; size_blocks := size; in_use := 0;
  last_accessed := 0; last_modified := mtime;
  snapshot_type := BLOBSTORE_SNAPSHOT_ANY; bb_fd := fd |}.

(** [n] calls of [open_and_lock] on a path, one after the other. *)
Fixpoint open_many (n : nat) (path : string) (flags : Z) (w : world (list string))
    : world (list string) :=
  match n with
  | O => w
  | S n' =>
      let w' := open_many n' path flags w in
      world_after (open_and_lock path flags 0 0 w') w'
  end.

(** A file, and the world in which it has been opened 99 times for reading. *)
Definition sample_file_world : world (list string) :=
  sample_world {[ "/tmp" := Dir; "/tmp/f3" := File "" 0 ]} [].
Definition sample_full_world : world (list string) :=
  open_many BLOBSTORE_MAX_CONCURRENT "/tmp/f3" 2 sample_file_world.

(** An empty store, the store with a blob "B1" of 10 blocks just created
    and still open, and the store after the blob is closed. *)
Definition sample_store_world : world (list string) :=
  sample_world {[ "/s" := Dir; "/s/.blobstore" := File "x" 0 ]} [].
Definition sample_created : outcome (list string) (option blockblob) :=
  blockblob_open sample_store (Some "B1") 10 4
    (Some "sig") 0 sample_store_world.
Definition sample_created_world : world (list string) :=
  world_after sample_created sample_store_world.
Definition sample_created_blob : blockblob :=
  default (sample_blob "B1" 10 0 "" 0) (default None (value_of sample_created)).
Definition sample_closed_world : world (list string) :=
  world_after (blockblob_close
                 (Some sample_created_blob) sample_created_world)
    sample_created_world.

(** The steps of [blockblob_open] on the closed blob "B1", up to [fstat]. *)
Definition sample_locked : outcome (list string) (blobstore * Z) :=
  blobstore_lock sample_store (to_llong 0) sample_closed_world.
Definition sample_lk : blobstore * Z := default (sample_store, -1) (value_of sample_locked).
Definition sample_w1 : world (list string) := world_after sample_locked sample_closed_world.
Definition sample_w2 : world (list string) :=
  world_after (ensure_blockblob_metadata_path sample_lk.1 "B1" sample_w1)
    sample_w1.
Definition sample_opened : outcome (list string) Z :=
  open_and_lock "/s/B1.blocks" (Z.lor 0 BLOBSTORE_FLAG_RDWR)
    (to_llong 0) 384 sample_w2.
Definition sample_fd : Z := default (-1) (value_of sample_opened).
Definition sample_w3 : world (list string) := world_after sample_opened sample_w2.
Definition sample_w4 : world (list string) :=
  world_after (sys_fstat sample_fd sample_w3) sample_w3.
Definition sample_sb : stat_t :=
  default StOther (default None (value_of (sys_fstat sample_fd sample_w3))).

(** A destination of 10 blocks on a loopback device, and a map that copies
    20 blocks to it from a device. *)
Definition sample_clone_world : world (list string) :=
  sample_world {[ "/s" := Dir ]} ["/dev/loop0"; "/dev/sdb"].
Definition sample_dst : blockblob := sample_blob "b" 10 0 "/dev/loop0" 3.
Definition sample_map : list blockmap :=
  [ {| relation_type := BLOBSTORE_COPY; source := BLOBSTORE_DEVICE (Some "/dev/sdb");
       first_block_src := 0; first_block_dst := 0; len_blocks := 20 |} ].

(** Two purgeable blobs of 10 blocks: "old", last modified at time 0, and
    "new", last modified 2^31 + 1 seconds later. *)
Definition sample_old : blockblob := sample_blob "old" 10 0 "" (-1).
Definition sample_new : blockblob := sample_blob "new" 10 2147483649 "" (-1).
Definition sample_young : blockblob := sample_blob "new" 10 5 "" (-1).
Definition sample_twin : blockblob := sample_blob "new" 10 0 "" (-1).
Definition sample_purge_world : world (list string) :=
  sample_world {[ "/s" := Dir; "/s/.blobstore" := File "x" 0;
                  "/s/old.blocks" := File "o" 0; "/s/new.blocks" := File "n" 0 ]} [].
(** A store with a blob "B1" that three blobs refer to. *)
Definition sample_refs_world : world (list string) :=
  sample_world {[ "/s" := Dir; "/s/.blobstore" := File "x" 0;
                  "/s/B1.blocks" := File (zeros 512) 0;
                  "/s/B1.refs" := File (array_text ["/s B2"; "/s B3"; "/s B4"]) 0 ]} [].

(** The empty store with its descriptor file open at descriptor 3. *)
Definition sample_meta_world : world (list string) :=
  set_fdt {[ 3 := ("/s/.blobstore", 0) ]} sample_store_world.

(** A store with a blob "B1" of one block that the blob "B2" is mapped to. *)
Definition sample_mapped_world : world (list string) :=
  sample_world {[ "/s" := Dir; "/s/.blobstore" := File "x" 0;
                  "/s/B1.blocks" := File (zeros 512) 0;
                  "/s/B1.refs" := File "/s B2" 0 ]} [].

(** A directory that holds no store yet, and one that holds the sample
    store. *)
Definition sample_bare_world : world (list string) :=
  sample_world {[ "/s" := Dir ]} [].
Definition sample_kept_world : world (list string) :=
  sample_world {[ "/s" := Dir;
                  "/s/.blobstore" := File (store_metadata_text sample_store) 0 ]} [].


End samples.

(** * Properties *)

Section Proofs.
Context `{HDR : Header} {E : Type} `{EXT : !External E}.
Implicit Types (w : world E) (bs : blobstore) (bb : blockblob).
Implicit Types (path : string) (ll : list blobstore_filelock) (l : blobstore_filelock).
Implicit Types (fd : Z) (fds sts : list Z).

(** ** Flags *)

Lemma land_clear_bit (flags excl bit : Z) :
  Z.land excl bit = 0 → Z.land (Z.land flags (Z.lnot excl)) bit = Z.land flags bit.
Proof.
  intros Hd. apply Z.bits_inj'. intros n Hn.
  rewrite !Z.land_spec, Z.lnot_spec by done.
  assert (Hb : Z.testbit (Z.land excl bit) n = false) by (rewrite Hd; apply Z.bits_0).
  rewrite Z.land_spec in Hb.
  destruct (Z.testbit flags n), (Z.testbit excl n), (Z.testbit bit n); done.
Qed.

Lemma has_flag_clear (flags excl bit : Z) :
  Z.land excl bit = 0 → has_flag (Z.land flags (Z.lnot excl)) bit = has_flag flags bit.
Proof. intros Hd. unfold has_flag. by rewrite land_clear_bit. Qed.

Lemma lock_mode_without_creat (flags : Z) :
  has_flag flags BLOBSTORE_FLAG_CREAT = false →
  lock_mode flags =
    if has_flag flags BLOBSTORE_FLAG_RDONLY then Some (F_RDLCK, O_RDONLY)
    else if has_flag flags BLOBSTORE_FLAG_RDWR then Some (F_WRLCK, O_RDWR)
    else None.
Proof.
  intros Hc. unfold lock_mode. rewrite Hc.
  destruct (has_flag flags BLOBSTORE_FLAG_RDONLY); [done|].
  by destruct (has_flag flags BLOBSTORE_FLAG_RDWR).
Qed.


(** ** NULL handles *)

(** C10.  On a NULL handle [blockblob_close], [blockblob_delete],
    [blockblob_get_dev] and [blockblob_get_size] return -1, -1, NULL and 0,
    and the world they leave differs from the one they found in
    [_blobstore_errno] alone, which is [BLOBSTORE_ERROR_INVAL]. *)
Theorem null_handle_is_invalid w (timeout_usec : Z) :
  blockblob_close None w = Ret (set_blobstore_errno BLOBSTORE_ERROR_INVAL w) (-1)
  ∧ blockblob_delete None timeout_usec w
      = Ret (set_blobstore_errno BLOBSTORE_ERROR_INVAL w) (-1)
  ∧ blockblob_get_dev None w = Ret (set_blobstore_errno BLOBSTORE_ERROR_INVAL w) None
  ∧ blockblob_get_size None w = Ret (set_blobstore_errno BLOBSTORE_ERROR_INVAL w) 0.
Proof. done. Qed.

(** ** The preconditions of [blockblob_open] *)

(** C5.  [blockblob_open] tests its arguments first, and a call that fails
    a test returns NULL from a world that differs in [_blobstore_errno]
    alone: flags beyond [_CREAT] and [_EXCL] give [BLOBSTORE_ERROR_INVAL];
    so do a NULL id without [_CREAT] and a zero size with [_CREAT]; a size
    above the limit of the store with [_CREAT] gives
    [BLOBSTORE_ERROR_NOSPC].  The tests are made in this order, so the last
    is stated for flags that passed the first. *)
Theorem blockblob_open_preconditions w bs (id : option string)
    (size flags : Z) (sig : option string) (timeout : Z) :
  let call := blockblob_open bs id size flags sig timeout w in
  let fails e := call = Ret (set_blobstore_errno e w) None in
  (Z.land flags (Z.lnot (Z.lor BLOBSTORE_FLAG_CREAT BLOBSTORE_FLAG_EXCL)) ≠ 0 →
   fails BLOBSTORE_ERROR_INVAL)
  ∧ (id = None → has_flag flags BLOBSTORE_FLAG_CREAT = false → fails BLOBSTORE_ERROR_INVAL)
  ∧ (size = 0 → has_flag flags BLOBSTORE_FLAG_CREAT = true → fails BLOBSTORE_ERROR_INVAL)
  ∧ (Z.land flags (Z.lnot (Z.lor BLOBSTORE_FLAG_CREAT BLOBSTORE_FLAG_EXCL)) = 0 →
     0 ≤ limit_blocks bs → limit_blocks bs < size →
     has_flag flags BLOBSTORE_FLAG_CREAT = true → fails BLOBSTORE_ERROR_NOSPC).
Proof.
  intros call fails. subst call fails. unfold blockblob_open.
  destruct (Z.eqb_spec (Z.land flags (Z.lnot (Z.lor BLOBSTORE_FLAG_CREAT BLOBSTORE_FLAG_EXCL))) 0)
    as [Hf|Hf]; simpl.
  - split; [done|]. split; [|split].
    + intros -> ->. done.
    + intros -> ->. simpl. by destruct (bool_decide (id = None)).
    + intros _ Hl Hs ->. rewrite andb_false_r. simpl.
      destruct (Z.eqb_spec size 0) as [->|_]; [lia|]. simpl.
      destruct (Z.ltb_spec (limit_blocks bs) size); [done|lia].
  - split; [done|]. split; [done|]. split; [done|]. done.
Qed.

(** ** The registry *)

Lemma set_locks_same w : set_locks (locks_list w) w = w.
Proof. by destruct w. Qed.

Lemma helds_length_le (fds sts : list Z) : (length (helds fds sts) ≤ length fds)%nat.
Proof.
  unfold helds. rewrite length_fmap.
  etrans; [apply length_filter|]. rewrite length_zip. lia.
Qed.

Lemma held_fds_full l :
  (l_next_fd l ≤ BLOBSTORE_MAX_CONCURRENT)%nat →
  length (held_fds l) = BLOBSTORE_MAX_CONCURRENT →
  l_next_fd l = BLOBSTORE_MAX_CONCURRENT.
Proof.
  intros Hle Hlen. pose proof (helds_length_le (table_fds l) (take (l_next_fd l) (l_fd_status l))) as H.
  unfold held_fds in Hlen. rewrite Hlen in H. unfold table_fds in H.
  rewrite length_take in H. lia.
Qed.

Lemma open_and_lock_table_full w path flags timeout_usec mode i l :
  find_lock path (locks_list w) = Some i →
  locks_list w !! i = Some l →
  l_next_fd l = BLOBSTORE_MAX_CONCURRENT →
  is_Some (lock_mode flags) →
  open_and_lock path flags timeout_usec mode w
    = Ret (set_blobstore_errno BLOBSTORE_ERROR_MFILE w) (-1).
Proof.
  intros Hf Hl Hn [[lt o] Hm]. unfold open_and_lock. simpl.
  unfold mbind, M_bind. simpl. rewrite Hm. simpl. rewrite Hf. simpl. rewrite Hl.
  rewrite decide_True by done. simpl. by rewrite set_locks_same.
Qed.


(** *** The search for a path *)
Lemma find_lock_Some path ll i :
  find_lock path ll = Some i →
  ∃ l, ll !! i = Some l ∧ l_path l = path.
Proof.
  revert i. induction ll as [|l0 ll IH]; intros i; simpl; [done|].
  destruct (decide (path = l_path l0)) as [->|Hne].
  - intros [= <-]. eauto.
  - destruct (find_lock path ll) as [k|] eqn:Hk; simpl; [|done].
    intros [= <-]. simpl. eauto.
Qed.

Lemma find_lock_None path ll :
  find_lock path ll = None ↔ path ∉ l_path <$> ll.
Proof.
  induction ll as [|l0 ll IH]; simpl.
  - split; [intros _; apply not_elem_of_nil|done].
  - destruct (decide (path = l_path l0)) as [->|Hne].
    + split; [done|]. intros []. left.
    + rewrite not_elem_of_cons. destruct (find_lock path ll); simpl.
      * split; [done|]. intros [_ H]. by apply IH in H.
      * split; [|done]. intros _. split; [done|]. by apply IH.
Qed.

Lemma find_lock_lookup path ll i l :
  NoDup (l_path <$> ll) → ll !! i = Some l → find_lock (l_path l) ll = Some i.
Proof.
  revert i. induction ll as [|l0 ll IH]; intros i Hnd Hl; [done|].
  simpl in Hnd. apply NoDup_cons in Hnd as [Hnot Hnd]. simpl.
  destruct i as [|i]; simpl in Hl.
  - injection Hl as ->. by rewrite decide_True.
  - rewrite decide_False.
    + by rewrite (IH i Hnd Hl).
    + intros Heq. apply Hnot. rewrite <- Heq. apply list_elem_of_fmap.
      exists l. split; [done|]. by eapply list_elem_of_lookup_2.
Qed.

Lemma find_lock_insert path ll i l l' :
  ll !! i = Some l → l_path l' = l_path l →
  find_lock path (<[i:=l']> ll) = find_lock path ll.
Proof.
  revert i. induction ll as [|l0 ll IH]; intros i Hl Hp; [done|].
  destruct i as [|i]; simpl in *.
  - injection Hl as ->. by rewrite Hp.
  - by rewrite (IH i Hl Hp).
Qed.

Lemma find_lock_delete path ll i :
  NoDup (l_path <$> ll) → find_lock path ll = Some i →
  find_lock path (delete i ll) = None.
Proof.
  revert i. induction ll as [|l0 ll IH]; intros i Hnd; [done|].
  simpl in Hnd. apply NoDup_cons in Hnd as [Hnot Hnd]. simpl.
  destruct (decide (path = l_path l0)) as [->|Hne].
  - intros [= <-]. simpl. by apply find_lock_None.
  - destruct (find_lock path ll) as [k|] eqn:Hk; simpl; [|done].
    intros [= <-]. simpl. rewrite decide_False by done. by rewrite (IH k).
Qed.

(** *** The search for a descriptor *)
Lemma list_find_NoDup fds i fd :
  NoDup fds → fds !! i = Some fd → list_find (λ x, x = fd) fds = Some (i, fd).
Proof.
  intros Hnd Hi. apply list_find_Some. split; [done|]. split; [done|].
  intros j y Hj Hlt ->. pose proof (NoDup_lookup _ _ _ _ Hnd Hi Hj). lia.
Qed.

Lemma search_fd_found ll k j l index fd :
  Forall wf_filelock ll →
  NoDup (ll ≫= table_fds) →
  ll !! j = Some l → table_fds l !! index = Some fd →
  search_fd fd ll k = FoundAt (k + j) index.
Proof.
  revert k j. induction ll as [|l0 ll IH]; intros k j Hwf Hnd Hj Hi; [done|].
  apply Forall_cons in Hwf as [Hwf0 Hwf]. destruct Hwf0 as (Hle & _).
  rewrite bind_cons in Hnd. apply NoDup_app in Hnd as (Hnd0 & Hdisj & Hnd).
  simpl. rewrite decide_True by done.
  destruct j as [|j]; simpl in Hj.
  - injection Hj as ->. fold (table_fds l).
    rewrite (list_find_NoDup _ _ _ Hnd0 Hi). by rewrite Nat.add_0_r.
  - fold (table_fds l0).
    assert (Hnone : list_find (λ x, x = fd) (table_fds l0) = None).
    { apply list_find_None. apply Forall_forall. intros x Hx ->.
      apply (Hdisj _ Hx). apply list_elem_of_bind. exists l. split.
      - by eapply list_elem_of_lookup_2.
      - by eapply list_elem_of_lookup_2. }
    rewrite Hnone. rewrite (IH (S k) j) by done. f_equal. lia.
Qed.


(** *** The descriptors held *)
Lemma helds_cons x fds s sts :
  helds (x :: fds) (s :: sts) = if decide (s = 1) then x :: helds fds sts else helds fds sts.
Proof. unfold helds. simpl. rewrite filter_cons. simpl. by destruct (decide (s = 1)). Qed.

Lemma helds_nil_r fds : helds fds [] = [].
Proof. by destruct fds. Qed.

Lemma helds_nil_l sts : helds [] sts = [].
Proof. done. Qed.

Lemma helds_elem_of fds sts x : x ∈ helds fds sts → x ∈ fds.
Proof.
  revert sts. induction fds as [|y fds IH]; intros sts.
  { rewrite helds_nil_l. by intros ?%elem_of_nil. }
  destruct sts as [|s sts].
  { rewrite helds_nil_r. by intros ?%elem_of_nil. }
  rewrite helds_cons. destruct (decide (s = 1)).
  - intros [->|H]%elem_of_cons; [left|right; eauto].
  - intros H. right. eauto.
Qed.

Lemma helds_NoDup fds sts : NoDup fds → NoDup (helds fds sts).
Proof.
  revert sts. induction fds as [|y fds IH]; intros sts Hnd.
  { rewrite helds_nil_l. constructor. }
  destruct sts as [|s sts].
  { rewrite helds_nil_r. constructor. }
  apply NoDup_cons in Hnd as [Hy Hnd]. rewrite helds_cons. destruct (decide (s = 1)); [|eauto].
  apply NoDup_cons. split; [|eauto]. intros H%helds_elem_of. done.
Qed.

Lemma helds_lookup fds sts x :
  x ∈ helds fds sts → ∃ index, fds !! index = Some x ∧ sts !! index = Some 1.
Proof.
  revert sts. induction fds as [|y fds IH]; intros sts.
  { rewrite helds_nil_l. by intros ?%elem_of_nil. }
  destruct sts as [|s sts].
  { rewrite helds_nil_r. by intros ?%elem_of_nil. }
  rewrite helds_cons. destruct (decide (s = 1)) as [->|].
  - intros [->|H]%elem_of_cons; [by exists 0%nat|].
    destruct (IH _ H) as (i & ? & ?). by exists (S i).
  - intros H. destruct (IH _ H) as (i & ? & ?). by exists (S i).
Qed.

Lemma filter_ne_id fds x : x ∉ fds → filter (λ y, y ≠ x) fds = fds.
Proof.
  induction fds as [|y fds IH]; [done|]. intros [Hne Hnot]%not_elem_of_cons.
  rewrite filter_cons. rewrite decide_True by done. by rewrite IH.
Qed.

Lemma helds_clear fds sts index x :
  NoDup fds → fds !! index = Some x → sts !! index = Some 1 →
  helds fds (<[index:=0]> sts) = filter (λ y, y ≠ x) (helds fds sts) ∧ x ∈ helds fds sts.
Proof.
  revert sts index. induction fds as [|y fds IH]; intros [|s sts] index Hnd Hi Hs; try done.
  apply NoDup_cons in Hnd as [Hy Hnd].
  destruct index as [|index]; simpl in *.
  - injection Hi as ->. injection Hs as ->. rewrite !helds_cons. simpl.
    rewrite filter_cons. rewrite decide_False by (by intros H; apply H).
    split; [|left]. symmetry. apply filter_ne_id. by intros H%helds_elem_of.
  - destruct (IH sts index Hnd Hi Hs) as [Heq Hin]. rewrite !helds_cons.
    destruct (decide (s = 1)).
    + rewrite filter_cons. rewrite decide_True.
      * split; [by rewrite Heq|by right].
      * intros ->. apply Hy. by eapply list_elem_of_lookup_2.
    + split; [done|done].
Qed.

Lemma length_filter_ne fds x :
  NoDup fds → x ∈ fds → S (length (filter (λ y, y ≠ x) fds)) = length fds.
Proof.
  induction fds as [|y fds IH]; intros Hnd Hin; [by apply elem_of_nil in Hin|].
  apply NoDup_cons in Hnd as [Hy Hnd]. rewrite filter_cons.
  destruct (decide (y = x)) as [->|Hne].
  - rewrite decide_False by (by intros H; apply H). by rewrite filter_ne_id.
  - rewrite decide_True by done. simpl. f_equal. apply IH; [done|].
    apply elem_of_cons in Hin as [->|]; done.
Qed.


Lemma bind_eq {A B} (m : M E A) (f : A → M E B) w :
  (m ≫= f) w = match m w with Ret w' a => f a w' | Hang => Hang | Fault => Fault end.
Proof. done. Qed.

Lemma ret_eq {A} (a : A) w : mret (M:=M E) a w = Ret w a.
Proof. done. Qed.

Lemma for_each_cons {A} (f : A → M E unit) x xs w :
  for_each f (x :: xs) w
  = match f x w with Ret w' _ => for_each f xs w' | Hang => Hang | Fault => Fault end.
Proof. done. Qed.

Lemma sys_close_eq fd w :
  sys_close fd w = match w_fdt w !! fd with
                   | Some _ => Ret (set_fdt (delete fd (w_fdt w)) w) 0
                   | None => Ret (set_errno EBADF w) (-1)
                   end.
Proof. unfold sys_close. rewrite bind_eq. simpl. by destruct (w_fdt w !! fd). Qed.

Lemma close_fds_frame fds w :
  ∃ w', for_each (λ fd, sys_close fd;; mret tt) fds w = Ret w' tt
        ∧ locks_list w' = locks_list w ∧ w_fs w' = w_fs w
        ∧ (∀ fd, fd ∉ fds → w_fdt w' !! fd = w_fdt w !! fd).
Proof.
  revert w. induction fds as [|x fds IH]; intros w.
  { by exists w. }
  rewrite for_each_cons, bind_eq, sys_close_eq.
  destruct (w_fdt w !! x) eqn:Hx; rewrite ret_eq.
  - destruct (IH (set_fdt (delete x (w_fdt w)) w)) as (w' & -> & Hl & Hf & Ht).
    exists w'. split; [done|]. split; [done|]. split; [done|].
    intros fd [Hne Hnot]%not_elem_of_cons. rewrite (Ht fd Hnot). simpl.
    by rewrite lookup_delete_ne.
  - destruct (IH (set_errno EBADF w)) as (w' & -> & Hl & Hf & Ht).
    exists w'. split; [done|]. split; [done|]. split; [done|].
    intros fd [Hne Hnot]%not_elem_of_cons. by rewrite (Ht fd Hnot).
Qed.

Lemma table_fds_set l r index s :
  table_fds (set_refs r (set_status index s l)) = table_fds l.
Proof. done. Qed.

Lemma held_fds_clear l r index fd :
  NoDup (table_fds l) → table_fds l !! index = Some fd →
  l_fd_status l !! index = Some 1 →
  held_fds (set_refs r (set_status index 0 l)) = filter (λ y, y ≠ fd) (held_fds l)
  ∧ fd ∈ held_fds l.
Proof.
  intros Hnd Hi Hs. unfold held_fds. rewrite table_fds_set. simpl.
  assert (Hlt : (index < l_next_fd l)%nat).
  { apply lookup_lt_Some in Hi. unfold table_fds in Hi. rewrite length_take in Hi. lia. }
  rewrite take_insert_lt by done. apply helds_clear; [done|done|].
  by rewrite lookup_take_lt.
Qed.

Lemma close_and_unlock_held w j l index fd :
  wf_registry w → locks_list w !! j = Some l →
  table_fds l !! index = Some fd → l_fd_status l !! index = Some 1 →
  ∃ w', close_and_unlock fd w = Ret w' 0 ∧ w_fs w' = w_fs w ∧ wf_registry w'
        ∧ locks_list w' =
            if decide (l_refs l = 1) then delete j (locks_list w)
            else <[j := set_refs (l_refs l - 1) (set_status index 0 l)]> (locks_list w).
Proof.
  intros (Hpaths & Hwf & Hnd & Hopen) Hj Hi Hs.
  assert (Hin : fd ∈ locks_list w ≫= table_fds).
  { apply list_elem_of_bind. exists l. split; by eapply list_elem_of_lookup_2. }
  assert (Hfd : 0 ≤ fd) by (rewrite Forall_forall in Hopen; by apply Hopen).
  unfold close_and_unlock. destruct (Z.ltb_spec fd 0); [lia|].
  rewrite bind_eq. simpl.
  rewrite (search_fd_found _ 0 j l index fd) by done. simpl. rewrite Hj.
  assert (Hlt : (index < l_next_fd l)%nat).
  { apply lookup_lt_Some in Hi. unfold table_fds in Hi. rewrite length_take in Hi. lia. }
  rewrite Hs. simpl.
  destruct (list_elem_of_split_length _ _ _ Hj) as (l1 & l2 & Hll & ->).
  rewrite Hll in Hpaths, Hwf, Hnd, Hopen.
  rewrite fmap_app, fmap_cons in Hpaths.
  apply NoDup_app in Hpaths as (Hp1 & Hp12 & Hp2). apply NoDup_cons in Hp2 as [Hp2a Hp2].
  apply Forall_app in Hwf as [Hwf1 Hwf2]. apply Forall_cons in Hwf2 as [Hwfl Hwf2].
  rewrite bind_app, bind_cons in Hnd, Hopen.
  apply NoDup_app in Hnd as (Hn1 & Hn12 & Hn2). apply NoDup_app in Hn2 as (Hnl & Hnl2 & Hn2).
  apply Forall_app in Hopen as [Ho1 Ho2]. apply Forall_app in Ho2 as [Hol Ho2].
  destruct Hwfl as (Hle & Hlen1 & Hlen2 & Hrefs & Hpos).
  destruct (held_fds_clear l (l_refs l - 1) index fd Hnl Hi Hs) as [Hheld Hfdin].
  pose proof (length_filter_ne _ _ (helds_NoDup _ _ Hnl) Hfdin) as Hlenf.
  fold (held_fds l) in Hlenf.
  destruct (Z.eqb_spec (l_refs l - 1) 0) as [H0|H0].
  - (* the entry is removed *)
    rewrite decide_True by lia.
    destruct (close_fds_frame (table_fds l) (set_locks (delete (length l1) (locks_list w)) w))
      as (w' & Hc & Hl' & Hf' & Ht').
    rewrite !bind_eq. simpl. unfold close_and_free_filelock. exists w'.
    change (take (l_next_fd (set_refs (l_refs l - 1) (set_status index 0 l)))
              (l_fd (set_refs (l_refs l - 1) (set_status index 0 l)))) with (table_fds l).
    rewrite bind_eq, Hc. split; [done|]. split; [done|]. split; [|by rewrite Hl'].
    unfold wf_registry. rewrite Hl'. simpl. rewrite Hll, delete_middle.
    rewrite fmap_app, bind_app. repeat split.
    + apply NoDup_app. split; [done|]. split; [|done].
      intros x Hx Hx2. apply (Hp12 x Hx). by right.
    + by apply Forall_app.
    + apply NoDup_app. split; [done|]. split; [|done].
      intros x Hx Hx2. apply (Hn12 x Hx). apply elem_of_app. by right.
    + apply Forall_app. split.
      * apply Forall_forall. intros x Hx. rewrite Forall_forall in Ho1.
        destruct (Ho1 x Hx) as [? ?]. split; [done|]. rewrite Ht'; [done|].
        intros Hxl. apply (Hn12 x Hx). apply elem_of_app. by left.
      * apply Forall_forall. intros x Hx. rewrite Forall_forall in Ho2.
        destruct (Ho2 x Hx) as [? ?]. split; [done|]. rewrite Ht'; [done|].
        intros Hxl. by apply (Hnl2 x Hxl).
  - (* the entry stays *)
    rewrite decide_False by lia. rewrite !bind_eq. simpl.
    eexists. split; [done|]. split; [done|]. split; [|done].
    unfold wf_registry. simpl. rewrite Hll.
    rewrite insert_app_r_alt by lia. rewrite Nat.sub_diag. simpl.
    rewrite fmap_app, bind_app, fmap_cons, bind_cons. rewrite table_fds_set. simpl.
    repeat split.
    + apply NoDup_app. split; [done|]. split; [done|]. by apply NoDup_cons.
    + apply Forall_app. split; [done|]. apply Forall_cons. split; [|done].
      repeat split; simpl; try done.
      * by rewrite length_insert.
      * rewrite Hheld. lia.
      * lia.
    + apply NoDup_app. split; [done|]. split; [done|]. by apply NoDup_app.
    + apply Forall_app. split; [done|]. by apply Forall_app.
Qed.


Lemma descriptors_held_inv w path fd :
  fd ∈ descriptors_held w path →
  ∃ i l index, find_lock path (locks_list w) = Some i ∧ locks_list w !! i = Some l
               ∧ table_fds l !! index = Some fd ∧ l_fd_status l !! index = Some 1.
Proof.
  unfold descriptors_held. destruct (find_lock path (locks_list w)) as [i|] eqn:Hf;
    [|by intros ?%elem_of_nil].
  destruct (locks_list w !! i) as [l|] eqn:Hl; simpl; [|by intros ?%elem_of_nil].
  intros (index & Hi & Hs)%helds_lookup. exists i, l, index.
  apply lookup_take_Some in Hs as [Hs _]. done.
Qed.

Lemma close_all_cons fd fds w :
  close_all (fd :: fds) w
  = match close_and_unlock fd w with
    | Ret w' _ => close_all fds w'
    | Hang => Hang
    | Fault => Fault
    end.
Proof.
  unfold close_all. rewrite for_each_cons, bind_eq.
  by destruct (close_and_unlock fd w).
Qed.

Lemma close_all_held path fds w i l :
  wf_registry w →
  find_lock path (locks_list w) = Some i → locks_list w !! i = Some l →
  fds ≡ₚ held_fds l →
  ∃ w', close_all fds w = Ret w' tt ∧ wf_registry w'
        ∧ find_lock path (locks_list w') = None ∧ w_fs w' = w_fs w.
Proof.
  revert w l. induction fds as [|fd fds IH]; intros w l Hwf Hf Hl Hp.
  { destruct Hwf as (_ & Hwf & _). rewrite Forall_forall in Hwf.
    destruct (Hwf l) as (_ & _ & _ & Hrefs & Hpos); [by eapply list_elem_of_lookup_2|].
    apply Permutation_length in Hp. simpl in Hp. lia. }
  assert (Hnd : NoDup (held_fds l)).
  { destruct Hwf as (_ & _ & Hnd & _). apply helds_NoDup.
    destruct (list_elem_of_split_length _ _ _ Hl) as (l1 & l2 & Hll & _).
    rewrite Hll, bind_app, bind_cons in Hnd.
    apply NoDup_app in Hnd as (_ & _ & Hnd). by apply NoDup_app in Hnd as (Hnd & _). }
  assert (Hin : fd ∈ held_fds l) by (rewrite <- Hp; left).
  destruct (helds_lookup _ _ _ Hin) as (index & Hi & Hs).
  apply lookup_take_Some in Hs as [Hs _].
  destruct (close_and_unlock_held w i l index fd Hwf Hl Hi Hs) as (w1 & Hc & Hfs & Hwf1 & Hll).
  rewrite close_all_cons, Hc.
  assert (Hnd' : NoDup (fd :: fds)) by (by rewrite Hp).
  apply NoDup_cons in Hnd' as [Hnotin Hndf].
  assert (Hrefs : l_refs l = Z.of_nat (length (held_fds l))).
  { destruct Hwf as (_ & Hwf & _). rewrite Forall_forall in Hwf.
    destruct (Hwf l) as (_ & _ & _ & Hrefs & Hpos); [by eapply list_elem_of_lookup_2|]. done. }
  pose proof (Permutation_length Hp) as Hlen. simpl in Hlen.
  destruct (decide (l_refs l = 1)) as [H1|H1].
  - destruct fds as [|? ?]; [|simpl in Hlen; lia].
    exists w1. split; [done|]. split; [done|]. split; [|done].
    rewrite Hll. apply find_lock_delete; [|done]. by destruct Hwf.
  - destruct (find_lock_Some _ _ _ Hf) as (l0 & Hl0 & Hpath).
    assert (l0 = l) as -> by congruence.
    destruct (IH w1 (set_refs (l_refs l - 1) (set_status index 0 l))) as (w' & Hc' & Hwf' & Hf' & Hfs').
    + done.
    + rewrite Hll. by erewrite find_lock_insert.
    + rewrite Hll. apply list_lookup_insert_eq. by eapply lookup_lt_Some.
    + assert (Hndt : NoDup (table_fds l)).
      { destruct Hwf as (_ & _ & Hnd2 & _).
        destruct (list_elem_of_split_length _ _ _ Hl) as (l1 & l2 & Hll2 & _).
        rewrite Hll2, bind_app, bind_cons in Hnd2.
        apply NoDup_app in Hnd2 as (_ & _ & Hnd2). by apply NoDup_app in Hnd2 as (Hnd2 & _). }
      destruct (held_fds_clear l (l_refs l - 1) index fd Hndt Hi Hs) as [-> _].
      rewrite <- Hp. rewrite filter_cons. rewrite decide_False by (by intros H; apply H).
      by rewrite filter_ne_id.
    + exists w'. split; [done|]. split; [done|]. split; [done|]. congruence.
Qed.

Lemma lowest_free_ge (t : gmap Z (string * Z)) from fuel : from ≤ lowest_free t from fuel.
Proof.
  revert from. induction fuel as [|fuel IH]; intros from; simpl; [lia|].
  destruct (decide (is_Some (t !! from))); [|lia]. specialize (IH (from + 1)). lia.
Qed.


Lemma sys_open_existing w path o mode d t :
  w_fs w !! path = Some (File d t) →
  has_flag o O_CREAT && has_flag o O_EXCL = false →
  sys_open path o mode w
  = let fd := lowest_free (w_fdt w) 0 (size (w_fdt w)) in
    Ret (set_fdt (<[fd := (path, 0)]> (w_fdt w)) w) fd.
Proof. intros Hp Hx. unfold sys_open. rewrite bind_eq. simpl. by rewrite Hp, Hx. Qed.

Lemma lock_fuel_S timeout_usec : ∃ n, lock_fuel timeout_usec = S n.
Proof. unfold lock_fuel. exists (S (Z.to_nat (timeout_usec / BLOBSTORE_SLEEP_INTERVAL_MS))). lia. Qed.

Lemma lock_loop_free w n i lt fd timeout_usec deadline acquired l k :
  locks_list w !! i = Some l →
  match lt with
  | F_WRLCK => pthread_rwlock_trywrlock (l_lock l)
  | F_RDLCK => pthread_rwlock_tryrdlock (l_lock l)
  end = Some k →
  lock_loop (S n) i lt fd timeout_usec deadline acquired w
  = Ret (set_errno E_OK (set_locks (<[i:=set_lock k l]> (locks_list w)) w)) Locked.
Proof.
  intros Hl Hk. simpl. rewrite bind_eq. simpl. rewrite Hl, Hk. done.
Qed.

Lemma find_lock_app_new path ll l :
  find_lock path ll = None → l_path l = path →
  find_lock path (ll ++ [l]) = Some (length ll).
Proof.
  intros Hn Hp. induction ll as [|l0 ll IH]; simpl in *.
  - by rewrite decide_True.
  - destruct (decide (path = l_path l0)); [done|].
    destruct (find_lock path ll); [done|]. by rewrite IH.
Qed.

Lemma open_and_lock_fresh w path flags timeout_usec mode lt o :
  find_lock path (locks_list w) = None →
  lock_mode flags = Some (lt, o) →
  is_file (w_fs w !! path) = true →
  has_flag o O_CREAT && has_flag o O_EXCL = false →
  ∃ w' fd, open_and_lock path flags timeout_usec mode w = Ret w' fd
           ∧ 0 ≤ fd ∧ descriptors_held w' path = [fd] ∧ w_fs w' = w_fs w.
Proof.
  intros Hf Hm Hfile Hex. unfold open_and_lock.
  rewrite bind_eq. simpl. rewrite Hm. rewrite bind_eq. simpl. rewrite Hf.
  rewrite bind_eq. simpl. rewrite list_lookup_middle by done.
  rewrite decide_False by done. rewrite decide_False by (by intros H; apply H).
  rewrite bind_eq. simpl.
  destruct (w_fs w !! path) as [[d t|]|] eqn:Hp; try done.
  rewrite bind_eq. erewrite sys_open_existing by done. simpl.
  set (fd := lowest_free (w_fdt w) 0 (size (w_fdt w))).
  assert (Hfd : 0 ≤ fd) by apply lowest_free_ge.
  destruct (Z.eqb_spec fd (-1)); [lia|].
  rewrite insert_app_r_alt by lia. rewrite Nat.sub_diag. simpl.
  destruct (lock_fuel_S timeout_usec) as [fuel ->].
  set (l := set_refs (0 + 1) (new_filelock path lt)).
  assert (∃ k, match lt with
               | F_WRLCK => pthread_rwlock_trywrlock (l_lock l)
               | F_RDLCK => pthread_rwlock_tryrdlock (l_lock l)
               end = Some k) as [k Hk] by (destruct lt; by eexists).
  rewrite bind_eq. erewrite lock_loop_free; [|by apply list_lookup_middle|done].
  simpl. rewrite insert_app_r_alt by lia. rewrite Nat.sub_diag. simpl.
  rewrite bind_eq. simpl. rewrite alter_app_r_alt by lia. rewrite Nat.sub_diag. simpl.
  eexists _, fd. split; [done|]. split; [done|]. split; [|done].
  unfold descriptors_held. simpl.
  rewrite find_lock_app_new by done. by rewrite list_lookup_middle.
Qed.

(** Some of the descriptors of an entry are closed, in any order, and not
    all of them: the entry stays where it is, with as many slots used as
    before and with the other descriptors held. *)
Lemma close_some_held path fds w i l :
  wf_registry w →
  find_lock path (locks_list w) = Some i → locks_list w !! i = Some l →
  NoDup fds → fds ⊆ held_fds l → (length fds < length (held_fds l))%nat →
  ∃ w' l', close_all fds w = Ret w' tt ∧ wf_registry w'
         ∧ find_lock path (locks_list w') = Some i ∧ locks_list w' !! i = Some l'
         ∧ l_next_fd l' = l_next_fd l
         ∧ (length (held_fds l') + length fds = length (held_fds l))%nat
         ∧ w_fs w' = w_fs w.
Proof.
  revert w l. induction fds as [|fd fds IH]; intros w l Hwf Hf Hl Hnd Hsub Hlen.
  { exists w, l. do 5 (split; [done|]). split; [simpl; lia|done]. }
  apply NoDup_cons in Hnd as [Hnotin Hnd].
  assert (Hin : fd ∈ held_fds l) by (apply Hsub; left).
  destruct (helds_lookup _ _ _ Hin) as (index & Hi & Hs).
  apply lookup_take_Some in Hs as [Hs _].
  destruct (close_and_unlock_held w i l index fd Hwf Hl Hi Hs) as (w1 & Hc & Hfs & Hwf1 & Hll).
  rewrite close_all_cons, Hc.
  assert (Hrefs : l_refs l = Z.of_nat (length (held_fds l))).
  { destruct Hwf as (_ & Hwf & _). rewrite Forall_forall in Hwf.
    destruct (Hwf l) as (_ & _ & _ & Hrefs & Hpos); [by eapply list_elem_of_lookup_2|]. done. }
  simpl in Hlen.
  rewrite decide_False in Hll by lia.
  assert (Hndt : NoDup (table_fds l)).
  { destruct Hwf as (_ & _ & Hnd2 & _).
    destruct (list_elem_of_split_length _ _ _ Hl) as (l1 & l2 & Hll2 & _).
    rewrite Hll2, bind_app, bind_cons in Hnd2.
    apply NoDup_app in Hnd2 as (_ & _ & Hnd2). by apply NoDup_app in Hnd2 as (Hnd2 & _). }
  destruct (held_fds_clear l (l_refs l - 1) index fd Hndt Hi Hs) as [Hheld _].
  pose proof (length_filter_ne (held_fds l) fd (helds_NoDup _ _ Hndt) Hin) as Hlen1.
  rewrite <- Hheld in Hlen1.
  destruct (find_lock_Some _ _ _ Hf) as (l0 & Hl0 & Hpath).
  assert (l0 = l) as -> by congruence.
  destruct (IH w1 (set_refs (l_refs l - 1) (set_status index 0 l)))
    as (w' & l' & Hc' & Hwf' & Hf' & Hl' & Hnext & Hlen' & Hfs'); [done| | |done| |lia|].
  - rewrite Hll. by erewrite find_lock_insert.
  - rewrite Hll. apply list_lookup_insert_eq. by eapply lookup_lt_Some.
  - intros x Hx. rewrite Hheld. apply list_elem_of_filter. split.
    + intros ->. done.
    + apply Hsub. by right.
  - exists w', l'. split; [done|]. split; [done|]. split; [done|]. split; [done|].
    split; [done|]. split; [simpl; lia|]. congruence.
Qed.

(** C1, as amended.  In a registry as the calls leave it, once
    [BLOBSTORE_MAX_CONCURRENT] descriptors of a path are held, a further
    [open_and_lock] of the path with a valid mode fails with
    [BLOBSTORE_ERROR_MFILE] and changes nothing else.  It goes on failing
    so while descriptors are closed, whichever and in whatever order, as
    long as one of them is still held, since a slot is never used twice;
    and once all of them are closed, in any order, the entry is gone and
    [open_and_lock] of the file returns a descriptor again. *)
Theorem lock_table_capacity w path (flags timeout_usec mode : Z) :
  wf_registry w →
  length (descriptors_held w path) = BLOBSTORE_MAX_CONCURRENT →
  is_Some (lock_mode flags) →
  open_and_lock path flags timeout_usec mode w
    = Ret (set_blobstore_errno BLOBSTORE_ERROR_MFILE w) (-1)
  ∧ (∀ fds, NoDup fds → fds ⊆ descriptors_held w path →
       (length fds < BLOBSTORE_MAX_CONCURRENT)%nat →
       ∃ w', close_all fds w = Ret w' tt
             ∧ (length (descriptors_held w' path) + length fds
                = BLOBSTORE_MAX_CONCURRENT)%nat
             ∧ open_and_lock path flags timeout_usec mode w'
               = Ret (set_blobstore_errno BLOBSTORE_ERROR_MFILE w') (-1))
  ∧ (∀ fds, fds ≡ₚ descriptors_held w path →
       ∃ w', close_all fds w = Ret w' tt
             ∧ descriptors_held w' path = []
             ∧ (∀ lt o, lock_mode flags = Some (lt, o) →
                  is_file (w_fs w !! path) = true →
                  has_flag o O_CREAT && has_flag o O_EXCL = false →
                  ∃ w'' fd, open_and_lock path flags timeout_usec mode w' = Ret w'' fd
                            ∧ 0 ≤ fd ∧ descriptors_held w'' path = [fd])).
Proof.
  intros Hwf Hlen Hmode.
  unfold descriptors_held in Hlen |- *.
  destruct (find_lock path (locks_list w)) as [i|] eqn:Hf; [|done].
  destruct (locks_list w !! i) as [l|] eqn:Hl; [|done]. simpl in Hlen |- *.
  assert (Hwfl : wf_filelock l).
  { destruct Hwf as (_ & Hwf & _). rewrite Forall_forall in Hwf.
    apply Hwf. by eapply list_elem_of_lookup_2. }
  destruct Hwfl as (Hle & _ & _ & Hrefs & _).
  pose proof (held_fds_full l Hle Hlen) as Hfull.
  split; [by eapply open_and_lock_table_full|]. split.
  - intros fds Hnd Hsub Hfew.
    destruct (close_some_held path fds w i l Hwf Hf Hl Hnd Hsub)
      as (w' & l' & Hc & _ & Hf' & Hl' & Hnext & Hlen' & _); [lia|].
    exists w'. split; [done|]. split.
    + unfold descriptors_held. rewrite Hf', Hl'. simpl. lia.
    + eapply (open_and_lock_table_full w' path flags timeout_usec mode i l');
        [done|done|congruence|done].
  - intros fds Hp.
    destruct (close_all_held path fds w i l Hwf Hf Hl Hp) as (w' & Hc & Hwf' & Hf' & Hfs).
    exists w'. split; [done|]. rewrite Hf'. split; [done|].
    intros lt o Hm Hfile Hx. rewrite <- Hfs in Hfile.
    destruct (open_and_lock_fresh w' path flags timeout_usec mode lt o Hf' Hm Hfile Hx)
      as (w'' & fd & Ho & Hfd & Hheld & _).
    exists w'', fd. split; [done|]. split; [done|].
    unfold descriptors_held in Hheld. done.
Qed.

(** ** The metadata codec *)
(** *** Strings *)
Lemma append_cons (c : ascii) (s t : string) : String c s +:+ t = String c (s +:+ t).
Proof. done. Qed.

Lemma append_nil_l (t : string) : "" +:+ t = t.
Proof. done. Qed.

Lemma append_nil_r (s : string) : s +:+ "" = s.
Proof. induction s as [|c s IH]; [done|]. by rewrite append_cons, IH. Qed.

Lemma append_assoc (a b c : string) : (a +:+ b) +:+ c = a +:+ (b +:+ c).
Proof. induction a as [|x a IH]; [done|]. by rewrite !append_cons, IH. Qed.

Lemma read_lines_entry (e rest : string) (line : option string) :
  str_contains newline e = false →
  read_lines (e +:+ String newline rest) line
  = cstr (default "" line +:+ e) :: read_lines rest None.
Proof.
  revert line. induction e as [|c e IH]; intros line Hn.
  - rewrite append_nil_l. simpl. by rewrite append_nil_r.
  - simpl in Hn. apply orb_false_iff in Hn as [Hc Hn]. apply bool_decide_eq_false in Hc.
    rewrite append_cons. simpl. rewrite decide_False by done. rewrite IH by done. simpl.
    by rewrite append_assoc, append_cons, append_nil_l.
Qed.

Lemma read_lines_array_text (array : list string) :
  Forall (λ e, c_string e ∧ str_contains newline e = false) array →
  read_lines (array_text array) None = array.
Proof.
  induction 1 as [|e array [Hc Hn] _ IH]; [done|].
  simpl. rewrite read_lines_entry by done. simpl. rewrite append_nil_l. by rewrite Hc, IH.
Qed.

Lemma set_blockblob_metadata_path_eq path_t bs bb_id w :
  set_blockblob_metadata_path path_t bs bb_id w
  = match set_blockblob_metadata_path path_t bs bb_id w with
    | Ret _ (rc, Some p) => Ret w (rc, Some p)
    | o => o
    end.
Proof.
  unfold set_blockblob_metadata_path. destruct path_t, (format bs); done.
Qed.

Lemma metadata_path_Ret path_t bs bb_id w w' p :
  metadata_path path_t bs bb_id w = Ret w' p →
  w' = w ∧ ∀ w2, metadata_path path_t bs bb_id w2 = Ret w2 p.
Proof.
  unfold metadata_path, set_blockblob_metadata_path.
  destruct path_t, (format bs); cbn; intros [= <- <-]; done.
Qed.

Lemma stdio_write_ok path content w w' :
  stdio_write path content w = Ret w' true →
  ∃ t, w_fs w' !! path = Some (File content t).
Proof.
  unfold stdio_write. rewrite bind_eq. cbn.
  destruct (w_fs w !! path) as [[d t|]|] eqn:Hp; cbn.
  - intros [= <-]. cbn. rewrite lookup_insert_eq. eauto.
  - intros [=].
  - destruct (parent_ok (w_fs w) path); cbn; intros [= <-]. cbn.
    rewrite lookup_insert_eq. eauto.
Qed.

(** C7, as amended.  For every kind of sidecar: when an array of C strings
    that hold no newline is written with
    [write_array_blockblob_metadata_path] and the call returns 0,
    [read_array_blockblob_metadata_path] returns 0 with the same entries in
    the same order, hence as many, and leaves the world as it is. *)
Theorem write_then_read_array w w' path_t bs (bb_id : string) (array : list string) :
  Forall (λ e, c_string e ∧ str_contains newline e = false) array →
  write_array_blockblob_metadata_path path_t bs bb_id array w = Ret w' 0 →
  read_array_blockblob_metadata_path path_t bs bb_id w' = Ret w' (0, array).
Proof.
  intros Harr. unfold write_array_blockblob_metadata_path, read_array_blockblob_metadata_path.
  rewrite !bind_eq.
  destruct (metadata_path path_t bs bb_id w) as [w1 p| |] eqn:Hp; try done.
  apply metadata_path_Ret in Hp as [-> Hp]. rewrite (Hp w'). rewrite !bind_eq.
  destruct (stdio_write p (array_text array) w) as [w2 [|]| |] eqn:Hw; try done.
  intros [= <-]. apply stdio_write_ok in Hw as [t Ht]. simpl.
  rewrite Ht. by rewrite read_lines_array_text.
Qed.

(** ** Clones that only copy *)
Lemma sys_stat_same_disk p w :
  ∃ w' r, sys_stat p w = Ret w' r ∧ same_disk w w'.
Proof.
  unfold sys_stat. rewrite bind_eq. simpl.
  destruct (w_fs w !! p) as [[]|]; [by eexists _, _..|].
  destruct (ext_stat (w_ext w) p) as [[]|]; by eexists _, _.
Qed.

Lemma sys_fstat_same_disk fd w :
  ∃ w' r, sys_fstat fd w = Ret w' r ∧ same_disk w w'.
Proof.
  unfold sys_fstat. rewrite bind_eq. simpl.
  destruct (w_fdt w !! fd) as [[p ?]|]; [|by eexists _, _].
  destruct (w_fs w !! p) as [[]|]; by eexists _, _.
Qed.

Lemma clone_verify_copy bb (map : list blockmap) zero_dev w :
  Forall (λ m, relation_type m = BLOBSTORE_COPY) map →
  ∃ w' r, clone_verify bb map zero_dev w = Ret w' r ∧ same_disk w w'
          ∧ (r = None ∨ r = Some zero_dev).
Proof.
  intros Hmap. revert w. induction Hmap as [|m map Hm _ IH]; intros w.
  { eexists _, _. split; [done|]. split; [done|]. by right. }
  simpl. rewrite Hm. simpl.
  destruct (source m) as [[path|]|[sbb|]|].
  - rewrite bind_eq. destruct (sys_stat_same_disk path w) as (w1 & [sb|] & -> & Hs1 & Hs2).
    + destruct (S_ISBLK sb).
      * destruct (IH w1) as (w' & r & -> & [? ?] & Hr). eexists _, _. split; [done|].
        split; [|done]. split; congruence.
      * eexists _, _. split; [done|]. split; [|by left]. done.
    + eexists _, _. split; [done|]. split; [|by left]. done.
  - eexists _, _. split; [done|]. split; [|by left]. done.
  - destruct (bb_fd sbb =? -1).
    { eexists _, _. split; [done|]. split; [|by left]. done. }
    rewrite bind_eq. destruct (sys_fstat_same_disk (bb_fd sbb) w) as (w1 & [sb|] & -> & Hs1 & Hs2);
      [|eexists _, _; split; [done|]; split; [|by left]; done].
    destruct (st_size_of sb / 512 <? size_blocks sbb);
      [eexists _, _; split; [done|]; split; [|by left]; done|].
    rewrite bind_eq.
    destruct (sys_stat_same_disk (device_path sbb) w1) as (w2 & [sb2|] & -> & Hs3 & Hs4);
      [|eexists _, _; split; [done|]; split; [|by left]; split; simpl; congruence].
    destruct (negb (S_ISBLK sb2));
      [eexists _, _; split; [done|]; split; [|by left]; split; simpl; congruence|].
    destruct (size_blocks sbb <? wrap64 (first_block_src m + len_blocks m));
      [eexists _, _; split; [done|]; split; [|by left]; split; simpl; congruence|].
    destruct (size_blocks bb <? wrap64 (first_block_dst m + len_blocks m));
      [eexists _, _; split; [done|]; split; [|by left]; split; simpl; congruence|].
    simpl.
    destruct (IH w2) as (w' & r & -> & [? ?] & Hr). eexists _, _. split; [done|].
    split; [|done]. split; congruence.
  - eexists _, _. split; [done|]. split; [|by left]. done.
  - apply IH.
Qed.


Lemma clone_exec_copy bb dm_base i (map : list blockmap) zero_dev st w :
  Forall (λ m, relation_type m = BLOBSTORE_COPY) map →
  ∃ w' r, clone_exec bb dm_base i map zero_dev st w = Ret w' r ∧ only_copies w w'
          ∧ (∀ st', r = Some st' → mapped_or_snapshotted st' = mapped_or_snapshotted st).
Proof.
  intros Hmap. revert i st w. induction Hmap as [|m map Hm _ IH]; intros i st w.
  { eexists _, _. split; [done|]. split; [|by intros ? [= <-]].
    split; [done|]. exists []. by rewrite app_nil_r. }
  simpl. rewrite Hm. rewrite bind_eq. unfold call_ext at 1. rewrite bind_eq. simpl.
  match goal with |- context [ext_dd ?a ?b ?c ?d ?e ?f] => destruct (ext_dd a b c d e f) as [e' [|]] end; simpl.
  - match goal with |- context [clone_exec _ _ _ _ _ ?s ?w0] =>
      destruct (IH (S i) s w0) as (w' & r & -> & [Hfs (calls & Hc & Hall)] & Hr) end.
    eexists _, _. split; [done|]. split; [|done].
    split; [done|]. simpl in Hc. eexists (_ :: calls). split.
    + rewrite Hc. by rewrite <- app_assoc.
    + by constructor.
  - eexists _, _. split; [done|]. split; [|done].
    split; [done|]. eexists [_]. split; [done|]. by repeat constructor.
Qed.

(** C8.  [blockblob_clone] with a map of [BLOBSTORE_COPY] entries alone
    returns with the handle as it was, so with its [device_path]; the file
    tree is as it was, so no dm, deps or refs file was written; and the
    helpers called were copies, so no device-mapper device was created. *)
Theorem clone_copies_only w bb (map : list blockmap) :
  Forall (λ m, relation_type m = BLOBSTORE_COPY) map →
  ∃ w' r, blockblob_clone (Some bb) (Some map) w = Ret w' (Some bb, r)
          ∧ w_fs w' = w_fs w
          ∧ ∃ calls, w_calls w' = w_calls w ++ calls ∧ Forall is_copy_call calls.
Proof.
  intros Hmap. unfold blockblob_clone.
  destruct ((Z.of_nat (length map) <? 1) || (MAX_BLOCKMAP_SIZE <? Z.of_nat (length map))).
  { eexists _, _. split; [done|]. split; [done|]. exists []. by rewrite app_nil_r. }
  rewrite bind_eq.
  destruct (clone_verify_copy bb map None w Hmap) as (w1 & v & -> & [Hfs1 Hc1] & Hv).
  destruct Hv as [->| ->].
  { eexists _, _. split; [done|]. split; [done|]. exists []. by rewrite app_nil_r. }
  rewrite bind_eq.
  match goal with |- context [clone_exec _ _ _ _ _ ?s _] =>
    destruct (clone_exec_copy bb (dm_base_of bb) 0 map None s w1 Hmap)
      as (w2 & x & -> & [Hfs2 (calls & Hc2 & Hall)] & Hx) end.
  destruct x as [st|].
  - rewrite (Hx st eq_refl). simpl.
    eexists _, _. split; [done|]. split; [congruence|]. exists calls. split; [congruence|done].
  - eexists _, _. split; [done|]. split; [congruence|]. exists calls. split; [congruence|done].
Qed.

(** ** Paths and the file tree *)
Implicit Types (fs : gmap string node) (p d s : string).


(** *** Paths *)

Lemma dirname_aux_no_slash s : str_contains slash s = false → dirname_aux s = None.
Proof.
  induction s as [|c s IH]; [done|]. simpl. intros [Hc Hs]%orb_false_iff.
  apply bool_decide_eq_false in Hc. rewrite IH by done. by rewrite decide_False.
Qed.

Lemma dirname_aux_app_no_slash p s :
  str_contains slash s = false → dirname_aux (p +:+ s) = dirname_aux p.
Proof.
  intros Hs. induction p as [|c p IH].
  - rewrite append_nil_l. by apply dirname_aux_no_slash.
  - rewrite append_cons. simpl. by rewrite IH.
Qed.

Lemma dirname_aux_app_slash p s :
  str_contains slash s = false → dirname_aux (p +:+ String slash s) = Some p.
Proof.
  intros Hs. induction p as [|c p IH].
  - rewrite append_nil_l. simpl. by rewrite dirname_aux_no_slash.
  - rewrite append_cons. simpl. by rewrite IH.
Qed.

Lemma dirname_aux_none p :
  (∀ k, String.get k p ≠ Some slash) → dirname_aux p = None.
Proof.
  induction p as [|c p IH]; [done|]. intros H. simpl.
  rewrite IH by (intros k; apply (H (S k))).
  rewrite decide_False; [done|]. intros ->. by apply (H 0%nat).
Qed.

Lemma dirname_aux_last_slash p j :
  String.get j p = Some slash →
  (∀ k, (j < k)%nat → String.get k p ≠ Some slash) →
  dirname_aux p = Some (str_take j p).
Proof.
  revert j. induction p as [|c p IH]; intros j Hj Hk; [by destruct j|].
  destruct j as [|j]; simpl in *.
  - injection Hj as ->. rewrite dirname_aux_none.
    + by rewrite decide_True.
    + intros k. apply (Hk (S k)). lia.
  - rewrite (IH j); [done|done|]. intros k Hlt. apply (Hk (S k)). lia.
Qed.

Lemma dirname_no_inner_slash p :
  (∀ k, (0 < k)%nat → String.get k p ≠ Some slash) → dirname p = "".
Proof.
  intros H. unfold dirname. destruct p as [|c p]; [done|]. simpl.
  rewrite dirname_aux_none by (intros k; apply (H (S k)); lia).
  by destruct (decide (c = slash)).
Qed.

Lemma get_str_take_ge p n k : (n ≤ k)%nat → String.get k (str_take n p) = None.
Proof.
  revert n k. induction p as [|c p IH]; intros [|n] k Hle; try done.
  destruct k as [|k]; [lia|]. simpl. apply IH. lia.
Qed.

Lemma str_take_nonempty p n c : String.get (S n) p = Some c → str_take (S n) p ≠ "".
Proof. by destruct p. Qed.

Lemma dirname_ne p : dirname p ≠ "" → dirname p ≠ p.
Proof.
  unfold dirname. intros Hne Heq.
  assert (H : ∀ q d, dirname_aux q = Some d → (String.length d < String.length q)%nat).
  { clear. induction q as [|c q IH]; intros d; [done|]. simpl.
    destruct (dirname_aux q) as [d'|] eqn:Hd.
    - intros [= <-]. simpl. specialize (IH d' eq_refl). lia.
    - destruct (decide (c = slash)); [|done]. intros [= <-]. simpl. lia. }
  destruct (dirname_aux p) as [d|] eqn:Hd; [|done]. simpl in *. subst d.
  specialize (H p p Hd). lia.
Qed.

(** *** Well-formed trees *)

Lemma dir_empty_false fs d p n :
  fs !! p = Some n → dirname p = d → dir_empty fs d = false.
Proof.
  intros Hp Hd. apply bool_decide_eq_false. intros H. by apply (H p n Hp).
Qed.

Lemma dir_empty_true fs d p n :
  dir_empty fs d = true → fs !! p = Some n → dirname p ≠ d.
Proof. intros H%bool_decide_eq_true Hp. by apply (H p n Hp). Qed.

Lemma wf_fs_parent fs p n :
  wf_fs fs → fs !! p = Some n → dirname p ≠ "" → fs !! dirname p = Some Dir.
Proof. intros Hwf Hp Hne. destruct (Hwf p n Hp); done. Qed.

Lemma wf_delete_file fs p :
  wf_fs fs → is_file (fs !! p) = true → wf_fs (delete p fs).
Proof.
  intros Hwf Hf q n Hq. apply lookup_delete_Some in Hq as [Hne Hq].
  destruct (Hwf q n Hq) as [?|Hd]; [by left|]. right.
  rewrite lookup_delete_ne; [done|]. intros Heq. rewrite <- Heq in Hd. by rewrite Hd in Hf.
Qed.

Lemma wf_delete_empty_dir fs d :
  wf_fs fs → dir_empty fs d = true → wf_fs (delete d fs).
Proof.
  intros Hwf He q n Hq. apply lookup_delete_Some in Hq as [Hne Hq].
  destruct (Hwf q n Hq) as [?|Hd]; [by left|]. right.
  rewrite lookup_delete_ne; [done|]. intros Heq. by apply (dir_empty_true fs d q n He Hq).
Qed.

Lemma wf_insert_new fs p n :
  wf_fs fs → parent_ok fs p = true → fs !! p = None → wf_fs (<[p:=n]> fs).
Proof.
  intros Hwf Hpar Hnone q m Hq.
  assert (Hkeep : ∀ d, fs !! d = Some Dir → <[p:=n]> fs !! d = Some Dir).
  { intros d Hd. rewrite lookup_insert_ne; [done|]. intros Heq. congruence. }
  apply lookup_insert_Some in Hq as [[<- <-]|[Hne Hq]].
  - unfold parent_ok in Hpar. apply orb_true_iff in Hpar as [Hp|Hp].
    + left. by apply bool_decide_eq_true in Hp.
    + right. apply Hkeep. by destruct (fs !! dirname p) as [[]|].
  - destruct (Hwf q m Hq) as [?|Hd]; [by left|]. right. by apply Hkeep.
Qed.

Lemma wf_insert_file fs p d t d' t' :
  wf_fs fs → fs !! p = Some (File d t) → wf_fs (<[p:=File d' t']> fs).
Proof.
  intros Hwf Hp q m Hq.
  assert (Hkeep : ∀ x, fs !! x = Some Dir → <[p:=File d' t']> fs !! x = Some Dir).
  { intros x Hx. rewrite lookup_insert_ne; [done|]. intros Heq. congruence. }
  apply lookup_insert_Some in Hq as [[<- <-]|[Hne Hq]].
  - destruct (Hwf p _ Hp) as [?|Hd]; [by left|]. right. by apply Hkeep.
  - destruct (Hwf q m Hq) as [?|Hd]; [by left|]. right. by apply Hkeep.
Qed.

Lemma nonempty_above fs p n d :
  wf_fs fs → fs !! p = Some n → ancestor d p → dir_empty fs d = false.
Proof.
  intros Hwf Hp Ha. revert n Hp. induction Ha as [p Hne ->|p Hne Ha IH]; intros n Hp.
  - by eapply dir_empty_false.
  - eapply IH. by eapply wf_fs_parent.
Qed.


(** *** [delete_blockblob_files] *)

Lemma metadata_path_valid path_t bs (bb_id : string) w :
  format bs ≠ BLOBSTORE_FORMAT_ANY → path_t ≠ BLOCKBLOB_PATH_NONE →
  metadata_path path_t bs bb_id w = Ret w (sidecar_path path_t bs bb_id).
Proof.
  intros Hf Hk. unfold metadata_path, set_blockblob_metadata_path, sidecar_path.
  destruct path_t, (format bs); done.
Qed.

Lemma sys_unlink_eq p w :
  sys_unlink p w = match w_fs w !! p with
                   | Some (File _ _) => Ret (set_fs (delete p (w_fs w)) w) 0
                   | Some Dir => Ret (set_errno EISDIR w) (-1)
                   | None => Ret (set_errno (lookup_errno (w_fs w) p) w) (-1)
                   end.
Proof. unfold sys_unlink. rewrite bind_eq. simpl. by destruct (w_fs w !! p) as [[]|]. Qed.

Lemma sys_rmdir_eq p w :
  sys_rmdir p w = match w_fs w !! p with
                  | Some Dir => if dir_empty (w_fs w) p
                                then Ret (set_fs (delete p (w_fs w)) w) 0
                                else Ret (set_errno ENOTEMPTY w) (-1)
                  | Some (File _ _) => Ret (set_errno ENOTDIR w) (-1)
                  | None => Ret (set_errno (lookup_errno (w_fs w) p) w) (-1)
                  end.
Proof.
  unfold sys_rmdir. rewrite bind_eq. simpl. destruct (w_fs w !! p) as [[]|]; try done.
  by destruct (dir_empty (w_fs w) p).
Qed.

Lemma is_file_delete fs p q :
  is_file (delete p fs !! q) = is_file (fs !! q) && bool_decide (q ≠ p).
Proof.
  destruct (decide (q = p)) as [->|Hne].
  - rewrite lookup_delete_eq. rewrite bool_decide_eq_false_2 by (by intros H; apply H).
    by rewrite andb_false_r.
  - rewrite lookup_delete_ne by done. rewrite bool_decide_eq_true_2 by done.
    by rewrite andb_true_r.
Qed.

Lemma bool_decide_not_elem_cons (p q : string) (l : list string) :
  bool_decide (p ∉ q :: l) = bool_decide (p ≠ q) && bool_decide (p ∉ l).
Proof.
  apply eq_true_iff_eq. rewrite andb_true_iff, !bool_decide_eq_true, not_elem_of_cons. done.
Qed.

Lemma unlink_loop_spec bs (bb_id : string) (kinds : list blockblob_path_t) (count : Z) w :
  format bs ≠ BLOBSTORE_FORMAT_ANY →
  Forall (λ k, k ≠ BLOCKBLOB_PATH_NONE) kinds →
  ∃ w' n, unlink_loop bs bb_id kinds count w = Ret w' n
    ∧ locks_list w' = locks_list w
    ∧ (wf_fs (w_fs w) → wf_fs (w_fs w'))
    ∧ (∀ p, is_file (w_fs w' !! p)
            = is_file (w_fs w !! p)
              && bool_decide (p ∉ (λ k, sidecar_path k bs bb_id) <$> kinds))
    ∧ (∀ p, is_dir (w_fs w' !! p) = is_dir (w_fs w !! p))
    ∧ count ≤ n
    ∧ (n = count ↔ Forall (λ k, is_file (w_fs w !! sidecar_path k bs bb_id) = false) kinds).
Proof.
  intros Hfmt Hk. revert count w. induction Hk as [|k kinds Hk _ IH]; intros count w.
  { exists w, count. split; [done|]. split; [done|]. split; [done|]. split.
    - intros p. rewrite fmap_nil. rewrite bool_decide_eq_true_2 by apply not_elem_of_nil.
      by rewrite andb_true_r.
    - split; [done|]. split; [lia|]. split; [by constructor|done]. }
  simpl. rewrite bind_eq, metadata_path_valid by done. rewrite bind_eq, sys_unlink_eq.
  set (q := sidecar_path k bs bb_id).
  destruct (w_fs w !! q) as [[dt t|]|] eqn:Hq; simpl.
  - destruct (IH (count + 1) (set_fs (delete q (w_fs w)) w))
      as (w' & n & -> & Hl & Hwf & Hfile & Hdir & Hle & Hn).
    simpl in *. exists w', n. split; [done|]. split; [done|]. split.
    { intros Hw. apply Hwf. apply wf_delete_file; [done|]. by rewrite Hq. }
    split.
    { intros p. rewrite Hfile, is_file_delete. rewrite <- andb_assoc. f_equal.
      fold q. by rewrite bool_decide_not_elem_cons. }
    split.
    { intros p. rewrite Hdir. destruct (decide (p = q)) as [->|Hne].
      - rewrite lookup_delete_eq, Hq. done.
      - by rewrite lookup_delete_ne. }
    split; [lia|]. split; [intros ->; lia|].
    intros [Hnf _]%Forall_cons. fold q in Hnf. by rewrite Hq in Hnf.
  - destruct (IH count (set_errno EISDIR w))
      as (w' & n & -> & Hl & Hwf & Hfile & Hdir & Hle & Hn).
    simpl in *. exists w', n. split; [done|]. split; [done|]. split; [done|]. split.
    { intros p. rewrite Hfile. fold q. rewrite bool_decide_not_elem_cons.
      destruct (decide (p = q)) as [->|Hne].
      - rewrite Hq. done.
      - by rewrite (bool_decide_eq_true_2 (p ≠ q)). }
    split; [done|]. split; [done|]. split.
    + intros Heq. constructor; [|by apply Hn]. fold q. by rewrite Hq.
    + intros [_ Hnf]%Forall_cons. by apply Hn.
  - destruct (IH count (set_errno (lookup_errno (w_fs w) q) w))
      as (w' & n & -> & Hl & Hwf & Hfile & Hdir & Hle & Hn).
    simpl in *. exists w', n. split; [done|]. split; [done|]. split; [done|]. split.
    { intros p. rewrite Hfile. fold q. rewrite bool_decide_not_elem_cons.
      destruct (decide (p = q)) as [->|Hne].
      - rewrite Hq. done.
      - by rewrite (bool_decide_eq_true_2 (p ≠ q)). }
    split; [done|]. split; [done|]. split.
    + intros Heq. constructor; [|by apply Hn]. fold q. by rewrite Hq.
    + intros [_ Hnf]%Forall_cons. by apply Hn.
Qed.


Lemma ancestor_inv d p :
  ancestor d p → dirname p ≠ "" ∧ (d = dirname p ∨ ancestor d (dirname p)).
Proof. destruct 1; auto. Qed.

Lemma rmdir_loop_S (i : nat) (path : string) (count : Z) :
  rmdir_loop (E:=E) (S i) path count
  = if decide (String.get (S i) path = Some slash) then
      rc ← sys_rmdir (str_take (S i) path);
      if rc =? 0 then rmdir_loop i (str_take (S i) path) (count + 1) else mret count
    else rmdir_loop i path count.
Proof. done. Qed.

Lemma rmdir_loop_spec (i : nat) (path : string) (count : Z) w :
  (∀ k, (i < k)%nat → String.get k path ≠ Some slash) →
  ∃ w' n, rmdir_loop i path count w = Ret w' n
    ∧ locks_list w' = locks_list w
    ∧ (∀ p, is_file (w_fs w' !! p) = is_file (w_fs w !! p))
    ∧ (∀ p, is_dir (w_fs w' !! p) = true → is_dir (w_fs w !! p) = true)
    ∧ count ≤ n
    ∧ (dirname path ≠ "" → is_dir (w_fs w !! dirname path) = false → n = count)
    ∧ (wf_fs (w_fs w) →
       wf_fs (w_fs w')
       ∧ ((dirname path ≠ "" → is_dir (w_fs w !! dirname path) = true) →
          ∀ d, ancestor d path → is_dir (w_fs w' !! d) = true →
               dir_empty (w_fs w') d = false)).
Proof.
  revert path count w. induction i as [|i IH]; intros path count w Hk.
  { exists w, count. do 4 (split; [done|]). split; [lia|]. split; [done|].
    intros Hw. split; [done|].
    intros _ d [Hne _]%ancestor_inv. by rewrite dirname_no_inner_slash in Hne. }
  rewrite rmdir_loop_S. destruct (decide (String.get (S i) path = Some slash)) as [Hs|Hs].
  - pose proof (dirname_aux_last_slash _ _ Hs Hk) as Hd.
    assert (Hdir : dirname path = str_take (S i) path) by (unfold dirname; by rewrite Hd).
    set (d := str_take (S i) path) in *.
    assert (Hdne : d ≠ "") by (by eapply str_take_nonempty).
    rewrite bind_eq, sys_rmdir_eq.
    destruct (w_fs w !! d) as [[dt t|]|] eqn:Hfd.
    + eexists _, count. simpl. do 4 (split; [done|]). split; [lia|]. split; [done|].
      intros Hw. split; [done|].
      intros Hpre. rewrite Hdir, Hfd in Hpre. by specialize (Hpre Hdne).
    + destruct (dir_empty (w_fs w) d) eqn:He; simpl.
      * destruct (IH d (count + 1) (set_fs (delete d (w_fs w)) w))
          as (w' & n & -> & Hl & Hfile & Hdirs & Hle & Hfirst & Hwf).
        { intros k Hlt. unfold d. rewrite get_str_take_ge by lia. done. }
        simpl in *. exists w', n. split; [done|]. split; [done|]. split.
        { intros p. rewrite Hfile. destruct (decide (p = d)) as [->|Hne].
          - by rewrite lookup_delete_eq, Hfd.
          - by rewrite lookup_delete_ne. }
        split.
        { intros p Hp. apply Hdirs in Hp. destruct (decide (p = d)) as [->|Hne].
          - by rewrite lookup_delete_eq in Hp.
          - by rewrite lookup_delete_ne in Hp. }
        split; [lia|]. split.
        { intros _ Hnd. rewrite Hdir, Hfd in Hnd. done. }
        intros Hw. destruct (Hwf (wf_delete_empty_dir _ _ Hw He)) as [Hw' Hpost].
        split; [done|]. intros _ x [_ [->|Ha]]%ancestor_inv Hx.
        { rewrite Hdir in Hx. apply Hdirs in Hx. by rewrite lookup_delete_eq in Hx. }
        rewrite Hdir in Ha. apply Hpost; [|done|done].
        intros Hdd. rewrite lookup_delete_ne by (by apply not_eq_sym, dirname_ne).
        by rewrite (wf_fs_parent _ _ _ Hw Hfd Hdd).
      * eexists _, count. simpl. do 4 (split; [done|]). split; [lia|]. split.
        { intros _ Hnd. rewrite Hdir, Hfd in Hnd. done. }
        intros Hw. split; [done|].
        intros _ x [_ [->|Ha]]%ancestor_inv Hx.
        { by rewrite Hdir. }
        rewrite Hdir in Ha. by eapply nonempty_above.
    + eexists _, count. simpl. do 4 (split; [done|]). split; [lia|]. split; [done|].
      intros Hw. split; [done|].
      intros Hpre. rewrite Hdir, Hfd in Hpre. by specialize (Hpre Hdne).
  - apply IH. intros k Hlt. destruct (decide (k = S i)) as [->|Hne]; [done|].
    apply Hk. lia.
Qed.


(** When the loop has removed a directory, the first one was the directory
    of the path: it was there and is not any more. *)
Lemma rmdir_loop_removed (i : nat) (path : string) (count : Z) w w' n :
  (∀ k, (i < k)%nat → String.get k path ≠ Some slash) →
  rmdir_loop i path count w = Ret w' n → count < n →
  dirname path ≠ "" ∧ is_dir (w_fs w !! dirname path) = true
  ∧ is_dir (w_fs w' !! dirname path) = false.
Proof.
  revert path count w. induction i as [|i IH]; intros path count w Hk Hrun Hn.
  { simpl in Hrun. rewrite ret_eq in Hrun. injection Hrun as _ <-. lia. }
  rewrite rmdir_loop_S in Hrun.
  destruct (decide (String.get (S i) path = Some slash)) as [Hs|Hs].
  - pose proof (dirname_aux_last_slash _ _ Hs Hk) as Hd.
    assert (Hdir : dirname path = str_take (S i) path) by (unfold dirname; by rewrite Hd).
    set (d := str_take (S i) path) in *.
    assert (Hdne : d ≠ "") by (by eapply str_take_nonempty).
    rewrite bind_eq, sys_rmdir_eq in Hrun.
    destruct (w_fs w !! d) as [[dt t|]|] eqn:Hfd.
    + simpl in Hrun. rewrite ret_eq in Hrun. injection Hrun as _ <-. lia.
    + destruct (dir_empty (w_fs w) d) eqn:He; simpl in Hrun.
      * destruct (rmdir_loop_spec i d (count + 1) (set_fs (delete d (w_fs w)) w))
          as (w'' & n' & Hrun' & _ & _ & Hdirs & _).
        { intros k Hlt. unfold d. rewrite get_str_take_ge by lia. done. }
        rewrite Hrun in Hrun'. injection Hrun' as <- <-.
        rewrite Hdir, Hfd. split; [done|]. split; [done|].
        destruct (is_dir (w_fs w' !! d)) eqn:Hw'; [|done].
        apply Hdirs in Hw'. simpl in Hw'. by rewrite lookup_delete_eq in Hw'.
      * rewrite ret_eq in Hrun. injection Hrun as _ <-. lia.
    + simpl in Hrun. rewrite ret_eq in Hrun. injection Hrun as _ <-. lia.
  - apply (IH path count w); [|done|done].
    intros k Hlt. destruct (decide (k = S i)) as [->|Hne]; [done|]. apply Hk. lia.
Qed.

(** A directory that the loop has removed lies above the path, and the
    count has gone up. *)
Lemma rmdir_loop_gone (i : nat) (path : string) (count : Z) w w' n (p : string) :
  (∀ k, (i < k)%nat → String.get k path ≠ Some slash) →
  rmdir_loop i path count w = Ret w' n →
  is_dir (w_fs w !! p) = true → is_dir (w_fs w' !! p) = false →
  ancestor p path ∧ count < n.
Proof.
  revert path count w. induction i as [|i IH]; intros path count w Hk Hrun Hp Hp'.
  { simpl in Hrun. rewrite ret_eq in Hrun. injection Hrun as <- _. congruence. }
  rewrite rmdir_loop_S in Hrun.
  destruct (decide (String.get (S i) path = Some slash)) as [Hs|Hs].
  - pose proof (dirname_aux_last_slash _ _ Hs Hk) as Hd.
    assert (Hdir : dirname path = str_take (S i) path) by (unfold dirname; by rewrite Hd).
    set (d := str_take (S i) path) in *.
    assert (Hdne : d ≠ "") by (by eapply str_take_nonempty).
    rewrite bind_eq, sys_rmdir_eq in Hrun.
    destruct (w_fs w !! d) as [[dt t|]|] eqn:Hfd.
    + simpl in Hrun. rewrite ret_eq in Hrun. injection Hrun as <- _. simpl in Hp'. congruence.
    + destruct (dir_empty (w_fs w) d) eqn:He; simpl in Hrun.
      * assert (Hk' : ∀ k, (i < k)%nat → String.get k d ≠ Some slash).
        { intros k Hlt. unfold d. rewrite get_str_take_ge by lia. done. }
        destruct (rmdir_loop_spec i d (count + 1) (set_fs (delete d (w_fs w)) w) Hk')
          as (w'' & n' & Hrun' & _ & _ & _ & Hle & _).
        rewrite Hrun in Hrun'. injection Hrun' as <- <-.
        destruct (decide (p = d)) as [->|Hne].
        { split; [|lia]. apply ancestor_parent; by rewrite Hdir. }
        destruct (IH d (count + 1) (set_fs (delete d (w_fs w)) w) Hk' Hrun) as [Ha Hlt];
          [simpl; by rewrite lookup_delete_ne|done|].
        split; [|lia]. apply ancestor_up; by rewrite Hdir.
      * rewrite ret_eq in Hrun. injection Hrun as <- _. simpl in Hp'. congruence.
    + simpl in Hrun. rewrite ret_eq in Hrun. injection Hrun as <- _. simpl in Hp'. congruence.
  - apply (IH path count w); [|done|done|done].
    intros k Hlt. destruct (decide (k = S i)) as [->|Hne]; [done|]. apply Hk. lia.
Qed.

Lemma suffix_no_slash k : str_contains slash (blobstore_metadata_suffixes k) = false.
Proof. by destruct k. Qed.

Lemma sidecar_dirname k bs (bb_id : string) :
  dirname (sidecar_path k bs bb_id) = dirname (blob_dir_path bs bb_id).
Proof.
  unfold sidecar_path, blob_dir_path, dirname.
  rewrite <- (append_assoc (bs_path bs) "/" (bb_id +:+ _)).
  rewrite <- (append_assoc (bs_path bs +:+ "/") bb_id).
  rewrite <- (append_assoc (bs_path bs) "/" bb_id).
  destruct (decide (format bs = BLOBSTORE_FORMAT_DIRECTORY)).
  - change ("/" +:+ blobstore_metadata_suffixes k)
      with (String slash (blobstore_metadata_suffixes k)).
    rewrite dirname_aux_app_slash by apply suffix_no_slash.
    change "/" with (String slash "") at 3. by rewrite dirname_aux_app_slash.
  - rewrite append_nil_r. rewrite dirname_aux_app_no_slash; [done|].
    simpl. apply suffix_no_slash.
Qed.

Lemma get_ge_length (s : string) k : (String.length s ≤ k)%nat → String.get k s = None.
Proof.
  revert k. induction s as [|c s IH]; intros k Hle; [by destruct k|].
  destruct k as [|k]; simpl in *; [lia|]. apply IH. lia.
Qed.

Lemma delete_blockblob_files_spec bs (bb_id : string) w :
  format bs ≠ BLOBSTORE_FORMAT_ANY →
  ∃ w' n, delete_blockblob_files bs bb_id w = Ret w' n
    ∧ locks_list w' = locks_list w
    ∧ (∀ p, is_file (w_fs w' !! p)
            = is_file (w_fs w !! p)
              && bool_decide (p ∉ (λ k, sidecar_path k bs bb_id) <$> blockblob_paths))
    ∧ (∀ p, is_dir (w_fs w' !! p) = true → is_dir (w_fs w !! p) = true)
    ∧ 0 ≤ n
    ∧ (n = 0 → ∀ p, is_file (w_fs w' !! p) = is_file (w_fs w !! p))
    ∧ (wf_fs (w_fs w) →
       wf_fs (w_fs w')
       ∧ (0 < n → ∀ d, ancestor d (blob_dir_path bs bb_id) →
                  is_dir (w_fs w' !! d) = true → dir_empty (w_fs w') d = false)).
Proof.
  intros Hfmt. unfold delete_blockblob_files. rewrite bind_eq.
  destruct (unlink_loop_spec bs bb_id blockblob_paths 0 w Hfmt)
    as (w1 & c1 & -> & Hl1 & Hwf1 & Hfile1 & Hdir1 & Hle1 & Hc1).
  { by repeat constructor. }
  fold (blob_dir_path bs bb_id).
  destruct (rmdir_loop_spec (String.length (blob_dir_path bs bb_id) - 1)
              (blob_dir_path bs bb_id) c1 w1)
    as (w2 & n & -> & Hl2 & Hfile2 & Hdir2 & Hle2 & Hfirst & Hwf2).
  { intros k Hlt. rewrite get_ge_length by lia. done. }
  exists w2, n. split; [done|]. split; [congruence|]. split.
  { intros p. by rewrite Hfile2, Hfile1. }
  split.
  { intros p Hp. apply Hdir2 in Hp. by rewrite Hdir1 in Hp. }
  split; [lia|]. split.
  { intros -> p. rewrite Hfile2, Hfile1.
    assert (c1 = 0) as Hc0 by lia. apply Hc1 in Hc0.
    destruct (bool_decide_reflect (p ∉ (λ k, sidecar_path k bs bb_id) <$> blockblob_paths))
      as [Hin|Hin]; [by rewrite andb_true_r|].
    rewrite andb_false_r. apply dec_stable in Hin.
    apply list_elem_of_fmap in Hin as (k & -> & Hk).
    rewrite Forall_forall in Hc0. by rewrite Hc0. }
  intros Hw. destruct (Hwf2 (Hwf1 Hw)) as [Hw2 Hpost]. split; [done|].
  intros Hn d Ha Hd. pose proof Ha as [Hne _]%ancestor_inv.
  destruct (is_dir (w_fs w1 !! dirname (blob_dir_path bs bb_id))) eqn:Hpar.
  { by apply Hpost. }
  exfalso. specialize (Hfirst Hne eq_refl). subst n.
  destruct (decide (c1 = 0)) as [->|Hc]; [lia|].
  assert (Hex : ¬ Forall (λ k, is_file (w_fs w !! sidecar_path k bs bb_id) = false) blockblob_paths).
  { intros H. apply Hc1 in H. done. }
  apply not_Forall_Exists in Hex; [|apply _].
  apply Exists_exists in Hex as (k & Hk & Hfile).
  simpl in Hfile. apply not_false_is_true in Hfile.
  destruct (w_fs w !! sidecar_path k bs bb_id) as [nd|] eqn:Hq; [|done].
  pose proof (wf_fs_parent _ _ _ Hw Hq) as Hp. rewrite sidecar_dirname in Hp.
  rewrite Hdir1, (Hp Hne) in Hpar. done.
Qed.

(** A call that counts something has removed something: a sidecar that
    was a file, or the directory of the blob. *)
Lemma delete_blockblob_files_removed bs (bb_id : string) w w' n :
  format bs ≠ BLOBSTORE_FORMAT_ANY →
  delete_blockblob_files bs bb_id w = Ret w' n → 0 < n →
  (∃ p, p ∈ (λ k, sidecar_path k bs bb_id) <$> blockblob_paths
      ∧ is_file (w_fs w !! p) = true)
  ∨ (dirname (blob_dir_path bs bb_id) ≠ ""
     ∧ is_dir (w_fs w !! dirname (blob_dir_path bs bb_id)) = true
     ∧ is_dir (w_fs w' !! dirname (blob_dir_path bs bb_id)) = false).
Proof.
  intros Hfmt Hrun Hn. unfold delete_blockblob_files in Hrun. rewrite bind_eq in Hrun.
  destruct (unlink_loop_spec bs bb_id blockblob_paths 0 w Hfmt)
    as (w1 & c1 & Hu & Hl1 & Hwf1 & Hfile1 & Hdir1 & Hle1 & Hc1).
  { by repeat constructor. }
  rewrite Hu in Hrun. fold (blob_dir_path bs bb_id) in Hrun.
  destruct (decide (c1 = 0)) as [->|Hc].
  - right.
    assert (Hk : ∀ k, (String.length (blob_dir_path bs bb_id) - 1 < k)%nat →
                      String.get k (blob_dir_path bs bb_id) ≠ Some slash).
    { intros k Hlt. rewrite get_ge_length by lia. done. }
    destruct (rmdir_loop_removed _ _ _ _ _ _ Hk Hrun Hn) as (H1 & H2 & H3).
    rewrite Hdir1 in H2. done.
  - left.
    assert (Hex : ¬ Forall (λ k, is_file (w_fs w !! sidecar_path k bs bb_id) = false)
                    blockblob_paths).
    { intros H. apply Hc1 in H. done. }
    apply not_Forall_Exists in Hex; [|apply _].
    apply Exists_exists in Hex as (k & Hk & Hfile).
    simpl in Hfile. apply not_false_is_true in Hfile.
    exists (sidecar_path k bs bb_id). split; [|done].
    apply list_elem_of_fmap. by exists k.
Qed.

(** A directory that the call has removed lies above the blob, and the
    call has counted it. *)
Lemma delete_blockblob_files_gone bs (bb_id : string) w w' n (p : string) :
  format bs ≠ BLOBSTORE_FORMAT_ANY →
  delete_blockblob_files bs bb_id w = Ret w' n →
  is_dir (w_fs w !! p) = true → is_dir (w_fs w' !! p) = false →
  ancestor p (blob_dir_path bs bb_id) ∧ 0 < n.
Proof.
  intros Hfmt Hrun Hp Hp'. unfold delete_blockblob_files in Hrun. rewrite bind_eq in Hrun.
  destruct (unlink_loop_spec bs bb_id blockblob_paths 0 w Hfmt)
    as (w1 & c1 & Hu & Hl1 & Hwf1 & Hfile1 & Hdir1 & Hle1 & Hc1).
  { by repeat constructor. }
  rewrite Hu in Hrun. fold (blob_dir_path bs bb_id) in Hrun.
  assert (Hk : ∀ k, (String.length (blob_dir_path bs bb_id) - 1 < k)%nat →
                    String.get k (blob_dir_path bs bb_id) ≠ Some slash).
  { intros k Hlt. rewrite get_ge_length by lia. done. }
  destruct (rmdir_loop_gone _ _ _ _ _ _ p Hk Hrun) as [Ha Hlt];
    [by rewrite Hdir1|done|].
  split; [done|lia].
Qed.


(** *** What a call leaves of the tree *)

Section keeps.
Context (R : relation (world E)) `{!Frame R}.

Lemma keeps_ret {A} (a : A) : keeps R (mret a).
Proof. intros w w' a' [= <- <-]. apply frame_refl. Qed.

Lemma keeps_bind {A B} (m : M E A) (f : A → M E B) :
  keeps R m → (∀ a, keeps R (f a)) → keeps R (m ≫= f).
Proof.
  intros Hm Hf w w' b. rewrite bind_eq. destruct (m w) as [w1 a| |] eqn:Hw; [|done..].
  intros Hb. eapply frame_trans; [by eapply Hm|by eapply Hf].
Qed.

Lemma keeps_modify (f : world E → world E) :
  (∀ w, w_fs (f w) = w_fs w) → (∀ w, locks_list (f w) = locks_list w) →
  keeps R (modify f).
Proof. intros Hf Hl w w' a [= <- <-]. by apply frame_quiet. Qed.

Lemma keeps_get_world : keeps R get_world.
Proof. intros w w' a [= <- <-]. apply frame_refl. Qed.

Lemma keeps_fault {A} : keeps R (A:=A) fault.
Proof. by intros w w' a. Qed.

Lemma keeps_hang {A} : keeps R (A:=A) hang.
Proof. by intros w w' a. Qed.

Lemma keeps_time_usec : keeps R time_usec.
Proof. intros w w' a [= <- <-]. apply frame_refl. Qed.

Lemma keeps_alloc_fd p : keeps R (alloc_fd p).
Proof. intros w w' a [= <- <-]. by apply frame_quiet. Qed.

End keeps.

Lemma keeps_modify_locks (R : relation (world E)) `{!FsFrame R} (f : world E → world E) :
  (∀ w, w_fs (f w) = w_fs w) → keeps R (modify f).
Proof. intros Hf w w' a [= <- <-]. by apply frame_same. Qed.

Ltac keeps_step :=
  lazymatch goal with
  | |- keeps _ (mbind _ _) => apply keeps_bind; [try apply _ .. | | intros ?]
  | |- keeps _ (mret _) => apply keeps_ret; apply _
  | |- keeps _ (modify _) =>
      first [ apply keeps_modify; [try apply _ .. | intros ?; reflexivity | intros ?; reflexivity]
            | apply keeps_modify_locks; [try apply _ .. | intros ?; reflexivity] ]
  | |- keeps _ get_world => apply keeps_get_world; apply _
  | |- keeps _ time_usec => apply keeps_time_usec; apply _
  | |- keeps _ fault => apply keeps_fault
  | |- keeps _ hang => apply keeps_hang
  | |- keeps _ (match ?x with _ => _ end) => destruct x
  | |- keeps _ (let _ := _ in _) => cbv zeta
  end.

Ltac keeps_tac := repeat first [ keeps_step | solve [eauto with keeps] ].

Create HintDb keeps.
#[local] Hint Extern 1 (Frame _) => apply _ : keeps.
#[local] Hint Extern 1 (FsFrame _) => apply _ : keeps.
#[local] Hint Resolve keeps_alloc_fd : keeps.

Section keeps_any.
Context (R : relation (world E)) `{!Frame R}.

Lemma keeps_err e : keeps R (err e).
Proof. unfold err. keeps_tac. Qed.
Hint Resolve keeps_err : keeps.
Lemma keeps_err_on : keeps R _err_on.
Proof. unfold _err_on. keeps_tac. Qed.
Hint Resolve keeps_err_on : keeps.
Lemma keeps_err_off : keeps R _err_off.
Proof. unfold _err_off. keeps_tac. Qed.
Hint Resolve keeps_err_off : keeps.
Lemma keeps_usleep n : keeps R (usleep n).
Proof. unfold usleep. keeps_tac. Qed.
Hint Resolve keeps_usleep : keeps.
Lemma keeps_fail_with {A} e (r : A) : keeps R (fail_with e r).
Proof. unfold fail_with. keeps_tac. Qed.
Hint Resolve keeps_fail_with : keeps.

Lemma keeps_propagate_system_errno e : keeps R (propagate_system_errno e).
Proof. unfold propagate_system_errno. keeps_tac. Qed.
Hint Resolve keeps_propagate_system_errno : keeps.

Lemma keeps_sys_close fd : keeps R (sys_close fd).
Proof.
  intros w w' a. unfold sys_close. rewrite bind_eq. simpl.
  destruct (w_fdt w !! fd); [|by apply keeps_fail_with].
  intros [= <- <-]. by apply frame_quiet.
Qed.
Hint Resolve keeps_sys_close : keeps.

Lemma keeps_sys_stat p : keeps R (sys_stat p).
Proof.
  intros w w' a. unfold sys_stat. rewrite bind_eq. simpl.
  destruct (w_fs w !! p) as [[d t|]|]; try (intros [= <- <-]; apply frame_refl).
  destruct (ext_stat (w_ext w) p) as [[]|]; try (intros [= <- <-]; apply frame_refl).
  by apply keeps_fail_with.
Qed.
Hint Resolve keeps_sys_stat : keeps.

Lemma keeps_sys_fstat fd : keeps R (sys_fstat fd).
Proof.
  intros w w' a. unfold sys_fstat. rewrite bind_eq. simpl.
  destruct (w_fdt w !! fd) as [[p off]|]; [|by apply keeps_fail_with].
  destruct (w_fs w !! p) as [[d t|]|]; try (intros [= <- <-]; apply frame_refl).
  by apply keeps_fail_with.
Qed.
Hint Resolve keeps_sys_fstat : keeps.

Lemma keeps_sys_lseek_set fd off : keeps R (sys_lseek_set fd off).
Proof.
  intros w w' a. unfold sys_lseek_set. rewrite bind_eq. simpl.
  destruct (w_fdt w !! fd) as [[p pos]|]; [|by apply keeps_fail_with].
  destruct (off <? 0); [by apply keeps_fail_with|].
  intros [= <- <-]. by apply frame_quiet.
Qed.
Hint Resolve keeps_sys_lseek_set : keeps.

Lemma keeps_sys_read fd size : keeps R (sys_read fd size).
Proof.
  intros w w' a. unfold sys_read. rewrite bind_eq. simpl.
  destruct (w_fdt w !! fd) as [[p pos]|]; [|by apply keeps_fail_with].
  destruct (w_fs w !! p) as [[d t|]|] eqn:Hp; try by apply keeps_fail_with.
  intros [= <- <-]. by apply frame_quiet.
Qed.
Hint Resolve keeps_sys_read : keeps.

Lemma keeps_sys_fcntl_setlk fd t : keeps R (sys_fcntl_setlk fd t).
Proof. unfold sys_fcntl_setlk. keeps_tac. Qed.
Hint Resolve keeps_sys_fcntl_setlk : keeps.


Lemma keeps_for_each {A} (f : A → M E unit) xs :
  (∀ x, keeps R (f x)) → keeps R (for_each f xs).
Proof. intros Hf. induction xs as [|x xs IH]; simpl; keeps_tac. Qed.
Hint Resolve keeps_for_each : keeps.

Lemma keeps_close_and_free_filelock l : keeps R (close_and_free_filelock l).
Proof. unfold close_and_free_filelock. apply keeps_for_each. intros fd. keeps_tac. Qed.
Hint Resolve keeps_close_and_free_filelock : keeps.

Lemma keeps_metadata_path path_t bs (bb_id : string) :
  keeps R (metadata_path path_t bs bb_id).
Proof. unfold metadata_path, set_blockblob_metadata_path. keeps_tac. Qed.
Hint Resolve keeps_metadata_path : keeps.

Lemma keeps_fd_to_buf fd buf size : keeps R (fd_to_buf fd buf size).
Proof. unfold fd_to_buf. keeps_tac. Qed.
Hint Resolve keeps_fd_to_buf : keeps.

Lemma keeps_read_array path_t bs (bb_id : string) :
  keeps R (read_array_blockblob_metadata_path path_t bs bb_id).
Proof. unfold read_array_blockblob_metadata_path. keeps_tac. Qed.
Hint Resolve keeps_read_array : keeps.

Lemma keeps_read_store_metadata bs : keeps R (read_store_metadata bs).
Proof. unfold read_store_metadata. keeps_tac. Qed.
Hint Resolve keeps_read_store_metadata : keeps.

Lemma keeps_blobstore_init : keeps R blobstore_init.
Proof. unfold blobstore_init. keeps_tac. Qed.
Hint Resolve keeps_blobstore_init : keeps.

Lemma keeps_gen_id : keeps R gen_id.
Proof. unfold gen_id. keeps_tac. Qed.
Hint Resolve keeps_gen_id : keeps.

Lemma keeps_blobstore_close bs : keeps R (blobstore_close bs).
Proof. unfold blobstore_close. keeps_tac. Qed.
Hint Resolve keeps_blobstore_close : keeps.

Lemma keeps_call_ext {A} (f : E → E * A) c : keeps R (call_ext f c).
Proof. unfold call_ext. keeps_tac. Qed.
Hint Resolve keeps_call_ext : keeps.

Lemma keeps_dm_remove_loop names ret : keeps R (dm_remove_loop names ret).
Proof. revert ret. induction names as [|name names IH]; intros ret; simpl; keeps_tac. Qed.
Hint Resolve keeps_dm_remove_loop : keeps.

Lemma keeps_dm_delete_devices names : keeps R (dm_delete_devices names).
Proof. unfold dm_delete_devices. keeps_tac. Qed.
Hint Resolve keeps_dm_delete_devices : keeps.

End keeps_any.

#[local] Hint Resolve keeps_err keeps_err_on keeps_err_off keeps_usleep keeps_fail_with
  keeps_propagate_system_errno keeps_sys_close keeps_sys_stat keeps_sys_fstat
  keeps_sys_lseek_set keeps_sys_read keeps_sys_fcntl_setlk keeps_for_each
  keeps_close_and_free_filelock keeps_metadata_path keeps_fd_to_buf keeps_read_array
  keeps_read_store_metadata keeps_blobstore_init keeps_gen_id keeps_blobstore_close
  keeps_call_ext keeps_dm_remove_loop keeps_dm_delete_devices
  : keeps.

Section keeps_fs.
Context (R : relation (world E)) `{!FsFrame R}.

Lemma keeps_close_and_unlock fd : keeps R (close_and_unlock fd).
Proof. unfold close_and_unlock. keeps_tac. Qed.
Hint Resolve keeps_close_and_unlock : keeps.

Lemma keeps_lock_loop fuel i t fd timeout_usec deadline acquired :
  keeps R (lock_loop fuel i t fd timeout_usec deadline acquired).
Proof.
  revert acquired. induction fuel as [|fuel IH]; intros acquired; simpl; keeps_tac.
Qed.
Hint Resolve keeps_lock_loop : keeps.

Lemma keeps_blobstore_unlock bs : keeps R (blobstore_unlock bs).
Proof. unfold blobstore_unlock. keeps_tac. Qed.
Hint Resolve keeps_blobstore_unlock : keeps.

Lemma keeps_bb_delete_unlock bs ret : keeps R (bb_delete_unlock bs ret).
Proof. unfold bb_delete_unlock. keeps_tac. Qed.
Hint Resolve keeps_bb_delete_unlock : keeps.

End keeps_fs.

#[local] Hint Resolve keeps_close_and_unlock keeps_lock_loop keeps_blobstore_unlock
  keeps_bb_delete_unlock
  : keeps.

(** *** The tree stays well formed *)

#[local] Instance fs_same_frame : Frame (fs_same (E:=E)).
Proof. split; unfold fs_same; [done|congruence|done]. Qed.

#[local] Instance fs_same_fs_frame : FsFrame (fs_same (E:=E)).
Proof. split; [apply _|done]. Qed.

Lemma fs_step_same w w' : w_fs w' = w_fs w → fs_step w w'.
Proof. intros Heq. unfold fs_step. rewrite Heq. by split. Qed.

#[local] Instance fs_step_frame : Frame (fs_step (E:=E)).
Proof.
  split.
  - by split.
  - intros w1 w2 w3 [H1 H1'] [H2 H2']. split; [tauto|]. intros p Hp. by apply H1', H2'.
  - intros w w' Heq _. by apply fs_step_same.
Qed.

#[local] Instance fs_step_fs_frame : FsFrame (fs_step (E:=E)).
Proof. split; [apply _|apply fs_step_same]. Qed.

#[local] Instance locks_same_frame : Frame (locks_same (E:=E)).
Proof. split; unfold locks_same; [done|congruence|done]. Qed.

Lemma is_dir_insert_file fs p q d t :
  is_dir (<[p:=File d t]> fs !! q) = true → is_dir (fs !! q) = true.
Proof.
  destruct (decide (p = q)) as [->|Hne].
  - by rewrite lookup_insert_eq.
  - by rewrite lookup_insert_ne.
Qed.

Lemma is_dir_delete fs p q :
  is_dir (delete p fs !! q) = true → is_dir (fs !! q) = true.
Proof.
  destruct (decide (p = q)) as [->|Hne].
  - by rewrite lookup_delete_eq.
  - by rewrite lookup_delete_ne.
Qed.

Lemma keeps_sys_open p o mode : keeps fs_step (E:=E) (sys_open p o mode).
Proof.
  intros w w' a. unfold sys_open. rewrite bind_eq. simpl.
  destruct (w_fs w !! p) as [[d t|]|] eqn:Hp.
  - destruct (_ && _); [by apply keeps_fail_with, _|by apply keeps_alloc_fd, _].
  - destruct (_ && _); [by apply keeps_fail_with, _|].
    destruct (_ || _); [by apply keeps_fail_with, _|by apply keeps_alloc_fd, _].
  - destruct (has_flag o O_CREAT); [|by apply keeps_fail_with, _].
    destruct (parent_ok (w_fs w) p) eqn:Hpar; [|by apply keeps_fail_with, _].
    intros [= <- <-]. split; simpl.
    + intros Hwf. by apply wf_insert_new.
    + intros q. apply is_dir_insert_file.
Qed.

Lemma keeps_sys_unlink p : keeps fs_step (E:=E) (sys_unlink p).
Proof.
  intros w w' a. unfold sys_unlink. rewrite bind_eq. simpl.
  destruct (w_fs w !! p) as [[d t|]|] eqn:Hp; try by apply keeps_fail_with, _.
  intros [= <- <-]. split; simpl.
  - intros Hwf. apply wf_delete_file; [done|]. by rewrite Hp.
  - intros q. apply is_dir_delete.
Qed.

Lemma keeps_sys_write fd buf : keeps fs_step (E:=E) (sys_write fd buf).
Proof.
  intros w w' a. unfold sys_write. rewrite bind_eq. simpl.
  destruct (w_fdt w !! fd) as [[p pos]|]; [|by apply keeps_fail_with, _].
  destruct (w_fs w !! p) as [[d t|]|] eqn:Hp; try by apply keeps_fail_with, _.
  intros [= <- <-]. split; simpl.
  - intros Hwf. by eapply wf_insert_file.
  - intros q. apply is_dir_insert_file.
Qed.

Lemma keeps_sys_ftruncate0 fd : keeps fs_step (E:=E) (sys_ftruncate0 fd).
Proof.
  intros w w' a. unfold sys_ftruncate0. rewrite bind_eq. simpl.
  destruct (w_fdt w !! fd) as [[p pos]|]; [|by apply keeps_fail_with, _].
  destruct (w_fs w !! p) as [[d t|]|] eqn:Hp; try by apply keeps_fail_with, _.
  intros [= <- <-]. split; simpl.
  - intros Hwf. by eapply wf_insert_file.
  - intros q. apply is_dir_insert_file.
Qed.

Lemma keeps_stdio_write p content : keeps fs_step (E:=E) (stdio_write p content).
Proof.
  intros w w' a. unfold stdio_write. rewrite bind_eq. simpl.
  destruct (w_fs w !! p) as [[d t|]|] eqn:Hp.
  - intros [= <- <-]. split; simpl.
    + intros Hwf. by eapply wf_insert_file.
    + intros q. apply is_dir_insert_file.
  - by apply keeps_fail_with, _.
  - destruct (parent_ok (w_fs w) p) eqn:Hpar; [|by apply keeps_fail_with, _].
    intros [= <- <-]. split; simpl.
    + intros Hwf. by apply wf_insert_new.
    + intros q. apply is_dir_insert_file.
Qed.

#[local] Hint Resolve keeps_sys_open keeps_sys_unlink keeps_sys_write
  keeps_sys_ftruncate0 keeps_stdio_write : keeps.

Lemma keeps_open_and_lock_error i is_new acquired fd :
  keeps fs_step (E:=E) (open_and_lock_error i is_new acquired fd).
Proof. unfold open_and_lock_error. keeps_tac. Qed.
#[local] Hint Resolve keeps_open_and_lock_error : keeps.

Lemma keeps_open_and_lock p flags timeout_usec mode :
  keeps fs_step (E:=E) (open_and_lock p flags timeout_usec mode).
Proof. unfold open_and_lock. keeps_tac. Qed.
#[local] Hint Resolve keeps_open_and_lock : keeps.

Lemma keeps_write_array path_t bs (bb_id : string) array :
  keeps fs_step (E:=E) (write_array_blockblob_metadata_path path_t bs bb_id array).
Proof. unfold write_array_blockblob_metadata_path. keeps_tac. Qed.
#[local] Hint Resolve keeps_write_array : keeps.

Lemma keeps_read_blockblob_metadata_path path_t bs (bb_id : string) str size :
  keeps fs_step (E:=E) (read_blockblob_metadata_path path_t bs bb_id str size).
Proof. unfold read_blockblob_metadata_path. keeps_tac. Qed.
#[local] Hint Resolve keeps_read_blockblob_metadata_path : keeps.

Lemma keeps_update_entry path_t bs (bb_id : string) entry removing :
  keeps fs_step (E:=E) (update_entry_blockblob_metadata_path path_t bs bb_id entry removing).
Proof. unfold update_entry_blockblob_metadata_path. keeps_tac. Qed.

Lemma keeps_check_in_use bs (bb_id : string) timeout_usec :
  keeps fs_step (check_in_use (E:=E) bs bb_id timeout_usec).
Proof. unfold check_in_use. keeps_tac. Qed.

Lemma keeps_blobstore_lock bs timeout_usec :
  keeps fs_step (blobstore_lock (E:=E) bs timeout_usec).
Proof. unfold blobstore_lock. keeps_tac. Qed.
#[local] Hint Resolve keeps_update_entry keeps_check_in_use keeps_blobstore_lock : keeps.

Lemma keeps_write_store_metadata bs : keeps fs_step (write_store_metadata (E:=E) bs).
Proof. unfold write_store_metadata. keeps_tac. Qed.
#[local] Hint Resolve keeps_write_store_metadata : keeps.

Lemma keeps_blobstore_open p limit fmt revocation snapshot :
  keeps fs_step (blobstore_open (E:=E) p limit fmt revocation snapshot).
Proof. unfold blobstore_open. keeps_tac. Qed.
#[local] Hint Resolve keeps_blobstore_open : keeps.

Lemma keeps_loop_remove bs (bb_id : string) : keeps fs_step (loop_remove (E:=E) bs bb_id).
Proof. unfold loop_remove. keeps_tac. Qed.
#[local] Hint Resolve keeps_loop_remove : keeps.

Lemma keeps_delete_ref bs my_ref line : keeps fs_step (delete_ref (E:=E) bs my_ref line).
Proof. unfold delete_ref. keeps_tac. Qed.
#[local] Hint Resolve keeps_delete_ref : keeps.


Lemma bind_Ret_inv {A B} (m : M E A) (f : A → M E B) w w' b :
  (m ≫= f) w = Ret w' b → ∃ w1 a, m w = Ret w1 a ∧ f a w1 = Ret w' b.
Proof. rewrite bind_eq. destruct (m w) as [w1 a| |]; [|done..]. by exists w1, a. Qed.

Ltac inv_bind H :=
  let w1 := fresh "w" in
  let a := fresh "a" in
  let H1 := fresh "H" in
  apply bind_Ret_inv in H as (w1 & a & H1 & H).

Lemma bb_delete_unlock_inv bs ret w w' a :
  bb_delete_unlock bs ret w = Ret w' a → a = ret ∧ w_fs w' = w_fs w.
Proof.
  intros H. split; [|by apply (keeps_bb_delete_unlock fs_same) in H].
  unfold bb_delete_unlock in H. do 4 inv_bind H. by injection H.
Qed.

Lemma check_in_use_any bs (bb_id : string) timeout_usec w :
  format bs = BLOBSTORE_FORMAT_ANY → check_in_use bs bb_id timeout_usec w = Fault.
Proof.
  intros Hfmt. unfold check_in_use, metadata_path, set_blockblob_metadata_path.
  rewrite !bind_eq. simpl. by rewrite Hfmt.
Qed.

Lemma node_gone fs p : is_file (fs !! p) = false → is_dir (fs !! p) = false → fs !! p = None.
Proof. by destruct (fs !! p) as [[]|]. Qed.

(** C4.  When [blockblob_delete] returns 0 on a well-formed tree, no file is
    left at the path of any of the six sidecars of the blob (and nothing at
    all, unless a directory was in its place from the start), and every
    directory above the blob's path that is still there has an entry in it:
    the empty ones were removed. *)
Theorem blockblob_delete_removes_files w w' bb timeout_usec :
  wf_fs (w_fs w) →
  blockblob_delete (Some bb) timeout_usec w = Ret w' 0 →
  (∀ k, k ∈ blockblob_paths →
        is_file (w_fs w' !! sidecar_path k (store bb) (bb_id bb)) = false
        ∧ (is_dir (w_fs w !! sidecar_path k (store bb) (bb_id bb)) = false →
           w_fs w' !! sidecar_path k (store bb) (bb_id bb) = None))
  ∧ ∀ d, ancestor d (blob_dir_path (store bb) (bb_id bb)) →
         is_dir (w_fs w' !! d) = true → dir_empty (w_fs w') d = false.
Proof.
  intros Hwf H. unfold blockblob_delete in H.
  inv_bind H. rename a into lk. apply keeps_blobstore_lock in H0 as Hs1.
  destruct (lk.2 =? -1); [by injection H|].
  assert (Hbs : bs_path lk.1 = bs_path (store bb) ∧ format lk.1 = format (store bb)).
  { unfold blobstore_lock in H0. inv_bind H0. by destruct (a =? -1); injection H0 as <- <-. }
  destruct Hbs as [Hpath Hfmt].
  assert (Hside : ∀ k, sidecar_path k lk.1 (bb_id bb) = sidecar_path k (store bb) (bb_id bb)).
  { intros k. unfold sidecar_path. by rewrite Hpath, Hfmt. }
  assert (Hblob : blob_dir_path lk.1 (bb_id bb) = blob_dir_path (store bb) (bb_id bb)).
  { unfold blob_dir_path. by rewrite Hpath, Hfmt. }
  set (bs := lk.1) in *. clearbody bs.
  inv_bind H. rename a into u. apply keeps_check_in_use in H1 as Hs2.
  assert (Hany : format bs ≠ BLOBSTORE_FORMAT_ANY).
  { intros Hany. by rewrite check_in_use_any in H1. }
  destruct (negb _).
  { inv_bind H. by apply bb_delete_unlock_inv in H as [? _]. }
  inv_bind H. rename a into dm. apply (keeps_read_array fs_step) in H2 as Hs3.
  destruct (dm.1 =? -1); [by apply bb_delete_unlock_inv in H as [? _]|].
  inv_bind H. apply (keeps_dm_delete_devices fs_step) in H3 as Hs4.
  destruct (a =? -1); [by apply bb_delete_unlock_inv in H as [? _]|].
  inv_bind H. rename a0 into deps. apply (keeps_read_array fs_step) in H4 as Hs5.
  destruct (deps.1 =? -1); [by apply bb_delete_unlock_inv in H as [? _]|].
  inv_bind H. apply (keeps_for_each fs_step) in H5 as Hs6; [|intros x; apply keeps_delete_ref].
  inv_bind H. apply keeps_loop_remove in H6 as Hs7.
  inv_bind H. apply (keeps_close_and_unlock fs_step) in H7 as Hs8.
  inv_bind H. rename a3 into n.
  apply bb_delete_unlock_inv in H as [Hret Hfs].
  assert (Hs : fs_step w w7).
  { repeat (eapply frame_trans; [eassumption|]). apply frame_refl. }
  destruct Hs as [Hwf8 Hdir8].
  destruct (delete_blockblob_files_spec bs (bb_id bb) w7 Hany)
    as (w9' & n' & Hdel & _ & Hfile & Hdir & _ & _ & Hpost).
  rewrite H8 in Hdel. injection Hdel as <- <-.
  destruct (Hpost (Hwf8 Hwf)) as [_ Hanc].
  assert (Hn : 0 < n).
  { destruct (n <? 1) eqn:Hlt; [|lia]. by rewrite Z.lor_m1_r in Hret. }
  rewrite Hfs. split.
  - intros k Hk. rewrite <- Hside.
    assert (Hgone : is_file (w_fs w8 !! sidecar_path k bs (bb_id bb)) = false).
    { rewrite Hfile. apply andb_false_intro2, bool_decide_eq_false.
      intros Hnot. apply Hnot, list_elem_of_fmap. by exists k. }
    split; [done|]. intros Hnd. apply node_gone; [done|].
    destruct (is_dir (w_fs w8 !! _)) eqn:Hd; [|done].
    apply Hdir, Hdir8 in Hd. congruence.
  - rewrite <- Hblob. by apply Hanc.
Qed.


(** ** LRU revocation *)

Lemma to_llong_id z : - 2 ^ 63 ≤ z < 2 ^ 63 → to_llong z = z.
Proof. intros Hz. unfold to_llong. rewrite Z.mod_small; lia. Qed.

Lemma to_int_id z : - 2 ^ 31 ≤ z < 2 ^ 31 → to_int z = z.
Proof. intros Hz. unfold to_int. rewrite Z.mod_small; lia. Qed.

Lemma sum_sizes_nonneg (l : list blockblob) :
  Forall (λ bb, 0 ≤ size_blocks bb) l → 0 ≤ sum_sizes l.
Proof. induction 1 as [|bb l Hbb _ IH]; simpl; [done|]. unfold sum_sizes in *. simpl. lia. Qed.

Lemma sum_sizes_cons bb (l : list blockblob) :
  sum_sizes (bb :: l) = size_blocks bb + sum_sizes l.
Proof. done. Qed.

Lemma sum_sizes_perm (l1 l2 : list blockblob) : l1 ≡ₚ l2 → sum_sizes l1 = sum_sizes l2.
Proof.
  induction 1 as [|x l1 l2 _ IH|x y l|l1 l2 l3 _ IH1 _ IH2];
    rewrite ?sum_sizes_cons; [done|lia|lia|congruence].
Qed.

Lemma bool_decide_not_elem_app p (l1 l2 : list string) :
  bool_decide (p ∉ l1 ++ l2) = bool_decide (p ∉ l1) && bool_decide (p ∉ l2).
Proof.
  apply eq_true_iff_eq. rewrite andb_true_iff, !bool_decide_eq_true, not_elem_of_app. done.
Qed.

Lemma sidecars_of_cons bs bb (bbs : list blockblob) :
  sidecars_of bs (bb :: bbs)
  = ((λ k, sidecar_path k bs (bb_id bb)) <$> blockblob_paths) ++ sidecars_of bs bbs.
Proof. done. Qed.

Lemma sum_sizes_nil : sum_sizes [] = 0.
Proof. done. Qed.

Lemma sidecars_of_nil bs : sidecars_of bs [] = [].
Proof. done. Qed.

Lemma purge_loop_cons bs bb (bb_array : list blockblob) need_blocks purged reported :
  purge_loop (E:=E) bs (bb :: bb_array) need_blocks purged reported
  = (r ← (if Z.land (in_use bb) (Z.lnot BLOCKBLOB_STATUS_BACKED) =? 0 then
            n ← delete_blockblob_files bs (bb_id bb);
            if 0 <? n then
              let purged := to_llong (purged + size_blocks bb) in
              mret (purged, reported ++ [(bb, purged)])
            else mret (purged, reported)
          else mret (purged, reported));
     if need_blocks <=? r.1 then mret r
     else purge_loop bs bb_array need_blocks r.1 r.2).
Proof. done. Qed.

Lemma purge_loop_spec bs (bb_array : list blockblob) need_blocks purged reported w :
  format bs ≠ BLOBSTORE_FORMAT_ANY →
  Forall (λ bb, 0 ≤ size_blocks bb) bb_array →
  - 2 ^ 63 ≤ purged → purged + sum_sizes bb_array < 2 ^ 63 →
  purged < need_blocks →
  ∃ w' new examined rest,
    purge_loop bs bb_array need_blocks purged reported w
    = Ret w' (purged + sum_sizes new.*1, reported ++ new)
    ∧ running_totals purged new
    ∧ Forall purgeable new.*1
    ∧ bb_array = examined ++ rest
    ∧ sublist new.*1 examined
    ∧ stops_at_need need_blocks new
    ∧ (∀ p, is_file (w_fs w' !! p)
            = is_file (w_fs w !! p) && bool_decide (p ∉ sidecars_of bs new.*1))
    ∧ (∀ bb, bb ∈ examined → purgeable bb →
             ∀ p, p ∈ sidecars_of bs [bb] → is_file (w_fs w' !! p) = false)
    ∧ (rest ≠ [] → need_blocks ≤ purged + sum_sizes new.*1)
    ∧ (need_blocks ≤ purged + sum_sizes new.*1 → last examined = last new.*1)
    ∧ (∀ p, is_dir (w_fs w' !! p) = true → is_dir (w_fs w !! p) = true)
    ∧ (∀ before bb after, new.*1 = before ++ bb :: after →
         purge_counted bs w before bb ∧ purge_removed bs w w' before bb)
    ∧ (∀ d, is_dir (w_fs w !! d) = true → is_dir (w_fs w' !! d) = false →
            ∃ bb, bb ∈ new.*1 ∧ ancestor d (blob_dir_path bs (bb_id bb))).
Proof.
  intros Hfmt Hsize. revert purged reported w.
  induction Hsize as [|bb bb_array Hbb Hsize IH]; intros purged reported w Hlo Hhi Hneed.
  { exists w, [], [], []. rewrite fmap_nil, sum_sizes_nil, Z.add_0_r, app_nil_r.
    split; [done|]. split; [done|]. split; [constructor|]. split; [done|]. split; [done|].
    split; [constructor|]. split; [intros p; by rewrite andb_true_r|].
    split; [intros b Hb; by apply elem_of_nil in Hb|]. split; [done|]. split; [lia|].
    split; [done|]. split; [intros before b after Heq; by destruct before|].
    intros d Hd Hd'. congruence. }
  rewrite sum_sizes_cons in Hhi. pose proof (sum_sizes_nonneg _ Hsize) as Hsum.
  assert (Hown : ∀ p w1, p ∈ sidecars_of bs [bb] →
            (∀ q, is_file (w_fs w1 !! q)
                  = is_file (w_fs w !! q)
                    && bool_decide (q ∉ (λ k, sidecar_path k bs (bb_id bb)) <$> blockblob_paths)) →
            is_file (w_fs w1 !! p) = false).
  { intros p w1 Hin Hf. rewrite sidecars_of_cons, sidecars_of_nil, app_nil_r in Hin.
    rewrite Hf. rewrite (bool_decide_eq_false_2 (p ∉ _ <$> _)) by (by intros H; apply H).
    by rewrite andb_false_r. }
  rewrite purge_loop_cons, bind_eq.
  destruct (Z.land (in_use bb) (Z.lnot BLOCKBLOB_STATUS_BACKED) =? 0) eqn:Hp.
  - apply Z.eqb_eq in Hp. rewrite bind_eq.
    destruct (delete_blockblob_files_spec bs (bb_id bb) w Hfmt)
      as (w1 & n & Hdel & _ & Hfile & Hdirs & Hn & Hn0 & _).
    rewrite Hdel.
    destruct (0 <? n) eqn:Hpos.
    + apply Z.ltb_lt in Hpos.
      assert (Hrem1 : ∀ w', (∀ p, is_dir (w_fs w' !! p) = true → is_dir (w_fs w1 !! p) = true) →
                purge_removed bs w w' [] bb).
      { intros w' Hmono.
        destruct (delete_blockblob_files_removed bs (bb_id bb) w w1 n Hfmt Hdel Hpos)
          as [(p & Hin & Hf)|(Hd1 & Hd2 & Hd3)].
        - left. exists p. rewrite sidecars_of_cons, !sidecars_of_nil, app_nil_r.
          split; [done|]. split; [done|]. by intros ?%elem_of_nil.
        - right. split; [done|]. split; [done|].
          destruct (is_dir (w_fs w' !! _)) eqn:Hw'; [|done]. apply Hmono in Hw'. congruence. }
      assert (Hcnt1 : purge_counted bs w [] bb).
      { exists w, w1, n. split; [done|]. split; [done|]. intros p.
        rewrite sidecars_of_nil, bool_decide_eq_true_2, andb_true_r; [done|].
        by intros ?%elem_of_nil. }
      rewrite to_llong_id by lia. rewrite ret_eq. cbn [fst snd].
      destruct (need_blocks <=? purged + size_blocks bb) eqn:Hstop.
      * apply Z.leb_le in Hstop.
        exists w1, [(bb, purged + size_blocks bb)], [bb], bb_array.
        rewrite fmap_cons, fmap_nil, sum_sizes_cons, sum_sizes_nil, Z.add_0_r. cbn [fst snd].
        split; [done|]. split; [done|]. split; [by repeat constructor|].
        split; [done|]. split; [done|].
        split; [constructor; [cbn [fst snd]; lia|constructor]|].
        split; [intros p; by rewrite Hfile, sidecars_of_cons, sidecars_of_nil, app_nil_r|].
        split.
        { intros b Hb _ p Hin. apply list_elem_of_singleton in Hb as ->. by eapply Hown. }
        split; [done|]. split; [done|]. split; [done|]. split.
        { intros before b after Heq. destruct before as [|x before].
          - injection Heq as <- _. split; [done|]. by apply Hrem1.
          - injection Heq as _ Heq. by destruct before. }
        intros d Hd Hd'.
        destruct (delete_blockblob_files_gone bs (bb_id bb) w w1 n d Hfmt Hdel Hd Hd')
          as [Ha _].
        exists bb. split; [left|done].
      * apply Z.leb_gt in Hstop.
        destruct (IH (purged + size_blocks bb) (reported ++ [(bb, purged + size_blocks bb)]) w1)
          as (w' & new & examined & rest & -> & Htot & Hpur & Hsplit & Hsub & Hstops & Hfiles
              & Hall & Hrest & Hlast & Hmono & Hrem & Hgone); [lia..|].
        exists w', ((bb, purged + size_blocks bb) :: new), (bb :: examined), rest.
        rewrite fmap_cons, sum_sizes_cons, <- app_assoc, Z.add_assoc. cbn [fst snd].
        split; [done|]. split; [done|]. split; [by constructor|].
        split; [by rewrite Hsplit|]. split; [by apply sublist_skip|].
        split; [constructor; [cbn [fst snd]; lia|done]|].
        split.
        { intros p. rewrite Hfiles, Hfile, sidecars_of_cons, bool_decide_not_elem_app.
          by rewrite andb_assoc. }
        split.
        { intros b Hb Hpb p Hin. apply elem_of_cons in Hb as [->|Hb]; [|by eapply Hall].
          rewrite Hfiles. by rewrite (Hown p w1). }
        split; [done|]. split; [intros Hge; by rewrite !last_cons, Hlast|].
        split; [intros p Hp'; by apply Hdirs, Hmono|]. split.
        { intros before b after Heq. destruct before as [|x before].
          - injection Heq as <- _. split; [done|]. by apply Hrem1.
          - injection Heq as <- Heq.
            destruct (Hrem before b after Heq) as [(w0 & w2 & m & Hd0 & Hm & Hf0) Hrm].
            split.
            { exists w0, w2, m. split; [done|]. split; [done|]. intros p.
              by rewrite Hf0, Hfile, sidecars_of_cons, bool_decide_not_elem_app, andb_assoc. }
            destruct Hrm as [(p & Hin & Hf & Hnot)|(Hd1 & Hd2 & Hd3)].
            + left. exists p. split; [done|]. rewrite Hfile in Hf.
              apply andb_true_iff in Hf as [Hf Hb']. split; [done|].
              apply bool_decide_eq_true in Hb'.
              rewrite sidecars_of_cons. intros [?|?]%elem_of_app; done.
            + right. split; [done|]. split; [by apply Hdirs|done]. }
        intros d Hd Hd'. destruct (is_dir (w_fs w1 !! d)) eqn:Hd1.
        -- destruct (Hgone d Hd1 Hd') as (b & Hb & Ha). exists b. split; [by right|done].
        -- destruct (delete_blockblob_files_gone bs (bb_id bb) w w1 n d Hfmt Hdel Hd Hd1)
             as [Ha _].
           exists bb. split; [left|done].
    + apply Z.ltb_ge in Hpos. assert (n = 0) as -> by lia. rewrite ret_eq. cbn [fst snd].
      rewrite (proj2 (Z.leb_gt _ _)) by done.
      destruct (IH purged reported w1)
        as (w' & new & examined & rest & -> & Htot & Hpur & Hsplit & Hsub & Hstops & Hfiles
            & Hall & Hrest & Hlast & Hmono & Hrem & Hgone); [lia..|].
      exists w', new, (bb :: examined), rest.
      split; [done|]. split; [done|]. split; [done|].
      split; [by rewrite Hsplit|]. split; [by apply sublist_cons|]. split; [done|].
      split; [intros p; by rewrite Hfiles, Hn0|].
      split.
      { intros b Hb Hpb p Hin. apply elem_of_cons in Hb as [->|Hb]; [|by eapply Hall].
        rewrite Hfiles. by rewrite (Hown p w1). }
      split; [done|]. split.
      { intros Hge. rewrite last_cons, (Hlast Hge).
        destruct (last new.*1) eqn:Hl; [done|]. apply last_None in Hl.
        rewrite Hl, sum_sizes_nil in Hge. lia. }
      split; [intros p Hp'; by apply Hdirs, Hmono|]. split.
      { intros before b after Heq.
        destruct (Hrem before b after Heq) as [(w0 & w2 & m & Hd0 & Hm & Hf0) Hrm].
        split.
        { exists w0, w2, m. split; [done|]. split; [done|]. intros p.
          by rewrite Hf0, Hn0. }
        destruct Hrm as [(p & Hin & Hf & Hnot)|(Hd1 & Hd2 & Hd3)].
        - left. exists p. split; [done|]. by rewrite <- Hn0.
        - right. split; [done|]. split; [by apply Hdirs|done]. }
      intros d Hd Hd'. destruct (is_dir (w_fs w1 !! d)) eqn:Hd1; [by apply Hgone|].
      destruct (delete_blockblob_files_gone bs (bb_id bb) w w1 0 d Hfmt Hdel Hd Hd1)
        as [_ Hlt]. lia.
  - rewrite ret_eq. cbn [fst snd]. rewrite (proj2 (Z.leb_gt _ _)) by done.
    destruct (IH purged reported w)
      as (w' & new & examined & rest & -> & Htot & Hpur & Hsplit & Hsub & Hstops & Hfiles
          & Hall & Hrest & Hlast & Hmono & Hrem & Hgone); [lia..|].
    exists w', new, (bb :: examined), rest.
    split; [done|]. split; [done|]. split; [done|].
    split; [by rewrite Hsplit|]. split; [by apply sublist_cons|]. split; [done|].
    split; [done|]. split.
    { intros b Hb Hpb p Hin. apply elem_of_cons in Hb as [->|Hb]; [|by eapply Hall].
      unfold purgeable in Hpb. apply Z.eqb_neq in Hp. done. }
    split; [done|]. split.
    { intros Hge. rewrite last_cons, (Hlast Hge).
      destruct (last new.*1) eqn:Hl; [done|]. apply last_None in Hl.
      rewrite Hl, sum_sizes_nil in Hge. lia. }
    done.
Qed.


Lemma StronglySorted_elem_impl {A} (R R' : A → A → Prop) (l : list A) :
  (∀ a b, a ∈ l → b ∈ l → R a b → R' a b) → StronglySorted R l → StronglySorted R' l.
Proof.
  intros HR Hs. induction Hs as [|a l Hs IH Hall]; constructor.
  - apply IH. intros x y Hx Hy. apply HR; by apply elem_of_cons; right.
  - rewrite Forall_forall in Hall |- *. intros b Hb. apply HR; [|by apply elem_of_cons; right|eauto].
    apply elem_of_cons. by left.
Qed.

Lemma compare_bbs_small (a b : blockblob) :
  0 ≤ last_modified a < 2 ^ 31 → 0 ≤ last_modified b < 2 ^ 31 →
  compare_bbs a b = last_modified a - last_modified b.
Proof. intros Ha Hb. unfold compare_bbs. apply to_int_id. lia. Qed.

Lemma compare_bbs_consistent (l : list blockblob) :
  Forall (λ bb, 0 ≤ last_modified bb < 2 ^ 31) l → consistent_on compare_bbs l.
Proof.
  rewrite Forall_forall. intros Hl. split.
  - intros x y Hx Hy. rewrite !compare_bbs_small by auto. lia.
  - intros x y z Hx Hy Hz. rewrite !compare_bbs_small by auto. lia.
Qed.

(** C3, as amended.  Given a [qsort] that keeps its contract, sizes that
    do not overflow and a need above zero, [purge_blockblobs_lru] goes
    through a leading part [examined] of the sorted array and leaves the
    [rest] untouched.  The sorted array is ascending in [last_modified] for
    time stamps from 0 to below 2^31 (no order is promised among equal
    ones).  Every purgeable blob of [examined] is deleted, none is skipped:
    none of its sidecars is a file afterwards.  The blobs counted are
    purgeable blobs of [examined], in this order, and each one is a blob on
    which [delete_blockblob_files] returned a number above zero, having
    removed one of its files that the blobs counted before it had left, or
    its directory.  The number returned is the sum of their sizes.  The
    scan stops only when this total has reached [need_blocks], and then at
    the blob that brought it there: before each counted blob the total was
    below [need_blocks], a non-empty [rest] means the need was met, and
    when it was met the last blob examined is the last one counted.  The
    files removed are the sidecars of the counted blobs, and each directory
    removed lies on the path of one of them. *)
Theorem purge_blockblobs_lru_order bs (bb_list : list blockblob) need_blocks w :
  qsort_contract ext_qsort →
  format bs ≠ BLOBSTORE_FORMAT_ANY →
  0 < need_blocks →
  Forall (λ bb, 0 ≤ size_blocks bb) bb_list →
  sum_sizes bb_list < 2 ^ 63 →
  ∃ w' reported,
    purge_blockblobs_lru_log bs bb_list need_blocks w
    = Ret w' (sum_sizes reported.*1, reported)
    ∧ purge_blockblobs_lru bs bb_list need_blocks w = Ret w' (sum_sizes reported.*1)
    ∧ running_totals 0 reported
    ∧ Forall purgeable reported.*1
    ∧ sublist reported.*1 (ext_qsort compare_bbs bb_list)
    ∧ ext_qsort compare_bbs bb_list ≡ₚ bb_list
    ∧ (Forall (λ bb, 0 ≤ last_modified bb < 2 ^ 31) bb_list →
       StronglySorted (λ a b, last_modified a ≤ last_modified b)
         (ext_qsort compare_bbs bb_list))
    ∧ stops_at_need need_blocks reported
    ∧ (∀ p, is_file (w_fs w' !! p)
            = is_file (w_fs w !! p) && bool_decide (p ∉ sidecars_of bs reported.*1))
    ∧ (sum_sizes reported.*1 < need_blocks →
       ∀ bb, bb ∈ bb_list → purgeable bb →
             ∀ p, p ∈ sidecars_of bs [bb] → is_file (w_fs w' !! p) = false)
    ∧ (∃ examined rest,
         ext_qsort compare_bbs bb_list = examined ++ rest
         ∧ sublist reported.*1 examined
         ∧ (∀ bb, bb ∈ examined → purgeable bb →
                  ∀ p, p ∈ sidecars_of bs [bb] → is_file (w_fs w' !! p) = false)
         ∧ (rest ≠ [] → need_blocks ≤ sum_sizes reported.*1)
         ∧ (need_blocks ≤ sum_sizes reported.*1 → last examined = last reported.*1)
         ∧ (sum_sizes reported.*1 < need_blocks → rest = []))
    ∧ (∀ before bb after, reported.*1 = before ++ bb :: after →
         purge_counted bs w before bb ∧ purge_removed bs w w' before bb)
    ∧ (∀ p, is_dir (w_fs w' !! p) = true → is_dir (w_fs w !! p) = true)
    ∧ (∀ d, is_dir (w_fs w !! d) = true → is_dir (w_fs w' !! d) = false →
            ∃ bb, bb ∈ reported.*1 ∧ ancestor d (blob_dir_path bs (bb_id bb))).
Proof.
  intros Hq Hfmt Hneed Hsize Hsum.
  destruct (Hq compare_bbs bb_list) as [Hperm Hsorted].
  assert (Hord : Forall (λ bb, 0 ≤ last_modified bb < 2 ^ 31) bb_list →
                 StronglySorted (λ a b, last_modified a ≤ last_modified b)
                   (ext_qsort compare_bbs bb_list)).
  { intros Ht. eapply StronglySorted_elem_impl; [|by apply Hsorted, compare_bbs_consistent].
    intros a b Ha Hb. rewrite Hperm in Ha, Hb. rewrite Forall_forall in Ht.
    rewrite compare_bbs_small by auto. lia. }
  unfold purge_blockblobs_lru, purge_blockblobs_lru_log. rewrite bind_eq.
  destruct (bool_decide_reflect (length bb_list = 0%nat)) as [Hnil|Hnil].
  { apply nil_length_inv in Hnil. subst bb_list. apply Permutation_nil_r in Hperm.
    exists w, []. rewrite Hperm. rewrite !ret_eq. cbn [fst snd].
    rewrite fmap_nil, sum_sizes_nil.
    split; [done|]. split; [done|]. split; [done|]. split; [constructor|].
    split; [done|]. split; [done|]. split; [intros _; constructor|].
    split; [constructor|]. split; [intros p; by rewrite andb_true_r|].
    split; [intros _ bb Hbb; by apply elem_of_nil in Hbb|].
    split.
    { exists [], []. split; [done|]. split; [done|].
      split; [intros bb Hbb; by apply elem_of_nil in Hbb|]. split; [done|].
      split; [lia|done]. }
    split; [intros before bb after Heq; by destruct before|]. split; [done|].
    intros d Hd Hd'. congruence. }
  destruct (purge_loop_spec bs (ext_qsort compare_bbs bb_list) need_blocks 0 [] w)
    as (w' & new & examined & rest & -> & Htot & Hpur & Hsplit & Hsub & Hstops & Hfiles
        & Hall & Hrest & Hlast & Hmono & Hrem & Hgone).
  - done.
  - by rewrite Hperm.
  - lia.
  - rewrite (sum_sizes_perm _ _ Hperm). lia.
  - done.
  - exists w', new. rewrite ret_eq, app_nil_l, Z.add_0_l. cbn [fst snd].
    rewrite Z.add_0_l in Hrest, Hlast.
    assert (Hnone : sum_sizes new.*1 < need_blocks → rest = []).
    { intros Hlt. destruct rest as [|x rest]; [done|]. 
      assert (need_blocks ≤ sum_sizes new.*1) by (by apply Hrest). lia. }
    split; [done|]. split; [done|]. split; [done|]. split; [done|].
    split; [rewrite Hsplit; by apply sublist_inserts_r|].
    split; [done|]. split; [done|]. split; [done|]. split; [done|].
    split.
    { intros Hlt bb Hbb. apply Hall. rewrite <- Hperm, Hsplit, (Hnone Hlt), app_nil_r in Hbb.
      done. }
    split; [by exists examined, rest|]. done.
Qed.

(** ** Calls that return *)

Section returns.
Context (P : world E → Prop).

Lemma returns_ret {A} (a : A) : returns_on P (mret a).
Proof. intros w HP. by exists w, a. Qed.

Lemma returns_bind {A B} (m : M E A) (f : A → M E B) :
  returns_on P m → (∀ a, returns_on P (f a)) → returns_on P (m ≫= f).
Proof.
  intros Hm Hf w HP. rewrite bind_eq. destruct (Hm w HP) as (w1 & a & -> & HP1).
  by apply Hf.
Qed.

Lemma returns_modify `{!LocksOnly P} (f : world E → world E) :
  (∀ w, locks_list (f w) = locks_list w) → returns_on P (modify f).
Proof. intros Hf w HP. exists (f w), tt. split; [done|]. by apply (locks_only w). Qed.

Lemma returns_get_world : returns_on P get_world.
Proof. intros w HP. by exists w, w. Qed.

Lemma returns_time_usec : returns_on P time_usec.
Proof. intros w HP. by exists w, (w_time w). Qed.

Lemma returns_alloc_fd `{!LocksOnly P} p : returns_on P (alloc_fd p).
Proof. intros w HP. eexists _, _. split; [done|]. by apply (locks_only w). Qed.

Lemma returns_Ret {A} (m : M E A) w w' a :
  returns_on P m → P w → m w = Ret w' a → P w'.
Proof. intros Hm HP Hw. destruct (Hm w HP) as (w1 & a1 & Hw1 & HP1). congruence. Qed.

End returns.

Create HintDb returns.

Ltac returns_step :=
  lazymatch goal with
  | |- returns_on _ (mbind _ _) => apply returns_bind; [|intros ?]
  | |- returns_on _ (mret _) => apply returns_ret
  | |- returns_on _ (modify _) => apply returns_modify; [try apply _ .. | intros ?; reflexivity]
  | |- returns_on _ get_world => apply returns_get_world
  | |- returns_on _ time_usec => apply returns_time_usec
  | |- returns_on _ (match ?x with _ => _ end) => destruct x
  | |- returns_on _ (let _ := _ in _) => cbv zeta
  end.

Ltac returns_tac := repeat first [ returns_step | solve [eauto with returns] ].

#[local] Hint Extern 1 (_ ≠ _) => discriminate : returns.
#[local] Hint Extern 1 (LocksOnly _) => apply _ : returns.
#[local] Hint Resolve returns_alloc_fd : returns.

Section returns_any.
Context (P : world E → Prop) `{!LocksOnly P}.

Lemma returns_err e : returns_on P (err e).
Proof. unfold err. returns_tac. Qed.
Lemma returns_err_on : returns_on P _err_on.
Proof. unfold _err_on. returns_tac. Qed.
Lemma returns_err_off : returns_on P _err_off.
Proof. unfold _err_off. returns_tac. Qed.
Lemma returns_usleep n : returns_on P (usleep n).
Proof. unfold usleep. returns_tac. Qed.
Lemma returns_fail_with {A} e (r : A) : returns_on P (fail_with e r).
Proof. unfold fail_with. returns_tac. Qed.
Hint Resolve returns_err returns_err_on returns_err_off returns_usleep
  returns_fail_with : returns.

Lemma returns_propagate_system_errno e : returns_on P (propagate_system_errno e).
Proof. unfold propagate_system_errno. returns_tac. Qed.
Lemma returns_sys_open p o mode : returns_on P (sys_open p o mode).
Proof. unfold sys_open. returns_tac. Qed.
Lemma returns_sys_close fd : returns_on P (sys_close fd).
Proof. unfold sys_close. returns_tac. Qed.
Lemma returns_sys_stat p : returns_on P (sys_stat p).
Proof. unfold sys_stat. returns_tac. Qed.
Lemma returns_sys_fstat fd : returns_on P (sys_fstat fd).
Proof. unfold sys_fstat. returns_tac. Qed.
Lemma returns_sys_unlink p : returns_on P (sys_unlink p).
Proof. unfold sys_unlink. returns_tac. Qed.
Lemma returns_sys_rmdir p : returns_on P (sys_rmdir p).
Proof. unfold sys_rmdir. returns_tac. Qed.
Lemma returns_sys_mkdir p mode : returns_on P (sys_mkdir p mode).
Proof. unfold sys_mkdir. returns_tac. Qed.
Lemma returns_sys_lseek_set fd off : returns_on P (sys_lseek_set fd off).
Proof. unfold sys_lseek_set. returns_tac. Qed.
Lemma returns_sys_read fd size : returns_on P (sys_read fd size).
Proof. unfold sys_read. returns_tac. Qed.
Lemma returns_stdio_write p content : returns_on P (stdio_write p content).
Proof. unfold stdio_write. returns_tac. Qed.
Lemma returns_call_ext {A} (f : E → E * A) c : returns_on P (call_ext f c).
Proof. unfold call_ext. returns_tac. Qed.
Hint Resolve returns_propagate_system_errno returns_sys_open returns_sys_close
  returns_sys_stat returns_sys_fstat returns_sys_unlink returns_sys_rmdir returns_sys_mkdir
  returns_sys_lseek_set returns_sys_read returns_stdio_write returns_call_ext : returns.

Lemma returns_for_each {A} (f : A → M E unit) xs :
  (∀ x, returns_on P (f x)) → returns_on P (for_each f xs).
Proof. intros Hf. induction xs as [|x xs IH]; simpl; returns_tac. Qed.

Lemma returns_close_and_free_filelock l : returns_on P (close_and_free_filelock l).
Proof. unfold close_and_free_filelock. apply returns_for_each. intros fd. returns_tac. Qed.

Lemma returns_metadata_path path_t bs (bb_id : string) :
  format bs ≠ BLOBSTORE_FORMAT_ANY → path_t ≠ BLOCKBLOB_PATH_NONE →
  returns_on P (metadata_path path_t bs bb_id).
Proof. intros Hf Hk w HP. eexists _, _. by rewrite metadata_path_valid. Qed.
Hint Resolve returns_close_and_free_filelock returns_metadata_path : returns.

Lemma returns_fd_to_buf fd buf size : returns_on P (fd_to_buf fd buf size).
Proof. unfold fd_to_buf. returns_tac. Qed.
Hint Resolve returns_fd_to_buf : returns.

Lemma returns_read_blockblob_metadata_path path_t bs (bb_id : string) str size :
  format bs ≠ BLOBSTORE_FORMAT_ANY → path_t ≠ BLOCKBLOB_PATH_NONE →
  returns_on P (read_blockblob_metadata_path path_t bs bb_id str size).
Proof. intros Hf Hk. unfold read_blockblob_metadata_path. returns_tac. Qed.
Hint Resolve returns_read_blockblob_metadata_path : returns.

Lemma returns_unlink_loop bs (bb_id : string) kinds count :
  format bs ≠ BLOBSTORE_FORMAT_ANY → Forall (λ k, k ≠ BLOCKBLOB_PATH_NONE) kinds →
  returns_on P (unlink_loop bs bb_id kinds count).
Proof.
  intros Hf Hk. revert count. induction Hk as [|k kinds Hk _ IH]; intros count; simpl;
    returns_tac.
Qed.

Lemma returns_rmdir_loop i path count : returns_on P (rmdir_loop i path count).
Proof.
  revert path count. induction i as [|i IH]; intros path count; [simpl; returns_tac|].
  rewrite rmdir_loop_S. returns_tac.
Qed.
Hint Resolve returns_rmdir_loop : returns.

Lemma returns_delete_blockblob_files bs (bb_id : string) :
  format bs ≠ BLOBSTORE_FORMAT_ANY → returns_on P (delete_blockblob_files bs bb_id).
Proof.
  intros Hf. unfold delete_blockblob_files. returns_step; [|returns_tac].
  apply returns_unlink_loop; [done|]. by repeat constructor.
Qed.

Lemma returns_ensure_loop idxs path is_file_path mode ret :
  returns_on P (ensure_loop idxs path is_file_path mode ret).
Proof.
  revert ret. induction idxs as [|i idxs IH]; intros ret; simpl; returns_tac.
Qed.
Hint Resolve returns_ensure_loop : returns.

Lemma returns_ensure_blockblob_metadata_path bs (bb_id : string) :
  returns_on P (ensure_blockblob_metadata_path bs bb_id).
Proof.
  unfold ensure_blockblob_metadata_path, ensure_directories_exist. returns_tac.
Qed.

Lemma returns_bb_open_existing bs bb sig sb :
  format bs ≠ BLOBSTORE_FORMAT_ANY → returns_on P (bb_open_existing bs bb sig sb).
Proof. intros Hf. unfold bb_open_existing. returns_tac. Qed.

End returns_any.

#[local] Hint Resolve returns_err returns_err_on returns_err_off returns_usleep
  returns_fail_with returns_propagate_system_errno returns_sys_open returns_sys_close
  returns_sys_stat returns_sys_fstat returns_sys_unlink returns_sys_rmdir returns_sys_mkdir
  returns_sys_lseek_set returns_sys_read returns_stdio_write returns_call_ext
  returns_for_each returns_close_and_free_filelock returns_metadata_path
  returns_fd_to_buf returns_read_blockblob_metadata_path returns_rmdir_loop
  returns_delete_blockblob_files returns_ensure_loop
  returns_ensure_blockblob_metadata_path returns_bb_open_existing : returns.

#[local] Instance registry_bounded_locks_only : LocksOnly (registry_bounded (E:=E)).
Proof. intros w w' Heq. unfold registry_bounded. by rewrite Heq. Qed.

#[local] Instance locks_are_locks_only ll : LocksOnly (λ w : world E, locks_list w = ll).
Proof. intros w w' Heq. by rewrite Heq. Qed.

#[local] Abbreviation returns := (returns_on (registry_bounded (E:=E))).

(** *** The registry stays bounded *)

Lemma search_fd_bounded fd ll j : bounded ll → search_fd fd ll j ≠ AssertFailed.
Proof.
  intros Hb. revert j. induction Hb as [|l ll Hl _ IH]; intros j; simpl; [done|].
  rewrite decide_True by done. by destruct (list_find _ _) as [[]|].
Qed.

Lemma search_fd_lookup fd ll k j index :
  search_fd fd ll k = FoundAt j index → ∃ l, ll !! (j - k)%nat = Some l ∧ (k ≤ j)%nat.
Proof.
  revert k. induction ll as [|l ll IH]; intros k; simpl; [done|].
  destruct (decide _); [|done].
  destruct (list_find _ _) as [[i x]|].
  - intros [= <- <-]. exists l. by rewrite Nat.sub_diag.
  - intros (l' & Hl' & Hle)%IH. exists l'. split; [|lia].
    replace (j - k)%nat with (S (j - S k)) by lia. done.
Qed.

Lemma bounded_insert ll j l l' :
  bounded ll → ll !! j = Some l → l_next_fd l' = l_next_fd l → bounded (<[j:=l']> ll).
Proof.
  intros Hb Hj Heq. apply Forall_insert; [done|]. rewrite Heq.
  by eapply (Forall_lookup_1 _ _ _ _ Hb).
Qed.

Lemma bounded_delete ll j : bounded ll → bounded (delete j ll).
Proof. apply Forall_delete. Qed.

Lemma returns_close_and_unlock fd : returns (close_and_unlock fd).
Proof.
  unfold close_and_unlock. destruct (fd <? 0); [returns_tac|].
  intros w HP. rewrite bind_eq. simpl.
  destruct (search_fd fd (locks_list w) 0) as [j index| |] eqn:Hs.
  - apply search_fd_lookup in Hs as (l & Hl & _). rewrite Nat.sub_0_r in Hl. rewrite Hl.
    destruct (decide _); [|by eexists _, _].
    destruct (_ =? 0).
    + rewrite bind_eq. simpl. rewrite bind_eq.
      destruct (returns_close_and_free_filelock registry_bounded
                  (set_refs (l_refs l - 1) (set_status index 0 l))
                  (set_locks (delete j (locks_list w)) w)) as (w1 & [] & -> & HP1).
      { by apply bounded_delete. }
      by eexists _, _.
    + eexists _, _. split; [done|]. by eapply bounded_insert.
  - by eexists _, _.
  - by apply search_fd_bounded in Hs.
Qed.
#[local] Hint Resolve returns_close_and_unlock : returns.

Lemma returns_blobstore_unlock bs : returns (blobstore_unlock bs).
Proof. unfold blobstore_unlock. returns_tac. Qed.
#[local] Hint Resolve returns_blobstore_unlock : returns.

Lemma returns_bb_open_unlock bs : returns (bb_open_unlock bs).
Proof. unfold bb_open_unlock. returns_tac. Qed.
#[local] Hint Resolve returns_bb_open_unlock : returns.

(** The code after the label [clean:] returns NULL and leaves the error
    that was set before it. *)
Lemma bb_open_clean_spec bs bb created_directory created_blob w :
  registry_bounded w → format bs ≠ BLOBSTORE_FORMAT_ANY →
  _blobstore_errno w ≠ BLOBSTORE_ERROR_OK →
  ∃ w', bb_open_clean bs bb created_directory created_blob w = Ret w' None
        ∧ _blobstore_errno w' = _blobstore_errno w.
Proof.
  intros HP Hf He. unfold bb_open_clean. rewrite bind_eq. simpl. rewrite bind_eq.
  set (e := _blobstore_errno w) in *.
  assert (H1 : returns (if bb_fd bb =? -1 then mret tt
                        else close_and_unlock (bb_fd bb);; mret tt)) by returns_tac.
  destruct (H1 w HP) as (w1 & [] & -> & HP1). rewrite bind_eq.
  assert (H2 : returns (if negb (created_directory =? 0) || created_blob
                        then delete_blockblob_files bs (bb_id bb);; mret tt
                        else mret tt)) by returns_tac.
  destruct (H2 w1 HP1) as (w2 & [] & -> & HP2). rewrite bind_eq.
  rewrite decide_False by done. simpl. rewrite bind_eq.
  unfold bb_open_unlock. rewrite bind_eq. simpl. rewrite bind_eq.
  destruct (returns_blobstore_unlock bs (set_blobstore_errno e w2) HP2) as (w3 & r & -> & HP3).
  rewrite bind_eq.
  assert (H4 : returns (if r.2 =? -1 then err BLOBSTORE_ERROR_UNKNOWN else mret tt))
    by returns_tac.
  destruct (H4 w3 HP3) as (w4 & [] & -> & HP4).
  rewrite decide_False by done. simpl. by eexists.
Qed.


(** *** [open_and_lock] keeps the registry bounded *)

Lemma lock_loop_counts fuel i lt fd timeout_usec deadline acquired w w' r :
  lock_loop fuel i lt fd timeout_usec deadline acquired w = Ret w' r → counts_same w w'.
Proof.
  revert acquired w. induction fuel as [|fuel IH]; intros acquired w H; [done|].
  simpl in H. rewrite bind_eq in H. simpl in H.
  destruct (locks_list w !! i) as [l|] eqn:Hl; [|done].
  assert (Hcont : ∀ acq,
    (now ← time_usec;
     if negb (timeout_usec =? BLOBSTORE_NO_TIMEOUT) && (deadline <=? now) then
       err BLOBSTORE_ERROR_AGAIN;; mret (Failed acq)
     else usleep BLOBSTORE_SLEEP_INTERVAL_MS;;
          lock_loop fuel i lt fd timeout_usec deadline acq) w = Ret w' r →
    counts_same w w').
  { intros acq Hc. rewrite bind_eq in Hc. simpl in Hc.
    destruct (_ && _).
    - by injection Hc as <- <-.
    - rewrite bind_eq in Hc. simpl in Hc. apply IH in Hc. exact Hc. }
  destruct (match lt with
            | F_RDLCK => pthread_rwlock_tryrdlock (l_lock l)
            | F_WRLCK => pthread_rwlock_trywrlock (l_lock l)
            end) as [k|]; [|by eapply Hcont].
  injection H as <- <-. unfold counts_same. simpl.
  rewrite list_fmap_insert. apply list_insert_id. by rewrite list_lookup_fmap, Hl.
Qed.

Lemma open_and_lock_error_bounded i is_new acquired fd w w' r :
  open_and_lock_error i is_new acquired fd w = Ret w' r →
  registry_bounded w → registry_bounded w'.
Proof.
  unfold open_and_lock_error. intros H HP. rewrite bind_eq in H. simpl in H.
  destruct (locks_list w !! i) as [l|] eqn:Hl; [|done]. rewrite bind_eq in H.
  assert (H1 : returns_on (λ w1 : world E, locks_list w1 = locks_list w)
                 (if 0 <=? fd then sys_close fd;; mret tt else mret tt)) by returns_tac.
  destruct (H1 w eq_refl) as (w1 & [] & Hw1 & Hl1). rewrite Hw1 in H. clear H1 Hw1.
  set (l' := set_refs _ _) in H.
  assert (Hn : l_next_fd l' = l_next_fd l) by (unfold l'; by destruct acquired).
  destruct (_ - 1 =? 0).
  - destruct is_new; [|done]. rewrite bind_eq in H. simpl in H.
    rewrite bind_eq in H.
    destruct (close_and_free_filelock l' _) as [w2 []| |] eqn:H2; [|done..].
    injection H as <- <-.
    eapply (returns_Ret _ _ _ _ _ (returns_close_and_free_filelock registry_bounded l') _ H2).
    Unshelve. unfold registry_bounded. simpl. rewrite Hl1. by apply bounded_delete.
  - injection H as <- <-. unfold registry_bounded. simpl. rewrite Hl1.
    by eapply bounded_insert.
Qed.

Lemma bounded_app_new ll path lt : bounded ll → bounded (ll ++ [new_filelock path lt]).
Proof.
  intros Hb. apply Forall_app. split; [done|]. constructor; [|constructor].
  simpl. unfold BLOBSTORE_MAX_CONCURRENT. lia.
Qed.

Lemma open_and_lock_bounded path flags timeout_usec mode w w' r :
  open_and_lock path flags timeout_usec mode w = Ret w' r →
  registry_bounded w → registry_bounded w'.
Proof.
  unfold open_and_lock. intros H HP. rewrite bind_eq in H. simpl in H.
  destruct (lock_mode flags) as [[lt o_flags]|]; [|by injection H as <- <-].
  rewrite bind_eq in H. simpl in H.
  set (sel := match find_lock path (locks_list w) with
              | Some i => (i, false, locks_list w)
              | None => (length (locks_list w), true, locks_list w ++ [new_filelock path lt])
              end) in H.
  assert (Hll : bounded sel.2).
  { unfold sel. destruct (find_lock _ _); [done|]. by apply bounded_app_new. }
  destruct sel as [[i is_new] ll]. simpl in Hll. rewrite bind_eq in H. simpl in H.
  destruct (ll !! i) as [l|] eqn:Hl; [|done].
  destruct (decide (l_next_fd l = BLOBSTORE_MAX_CONCURRENT)) as [|Hfull];
    [by injection H as <- <-|].
  destruct (decide (l_type l ≠ lt)); [by injection H as <- <-|].
  rewrite bind_eq in H. simpl in H. rewrite bind_eq in H.
  set (ll1 := <[i:=set_refs (l_refs l + 1) l]> ll) in H.
  assert (Hll1 : bounded ll1) by (by eapply bounded_insert).
  assert (Hi : l_next_fd <$> ll1 !! i = Some (l_next_fd l)).
  { unfold ll1. rewrite list_lookup_insert_eq; [done|]. by eapply lookup_lt_Some. }
  destruct (returns_sys_open (λ w1 : world E, locks_list w1 = ll1) path o_flags mode
              (set_locks ll1 (set_locks ll w)) eq_refl) as (w1 & fd & Hw1 & Hl1).
  rewrite Hw1 in H. clear Hw1.
  destruct (fd =? -1).
  - rewrite bind_eq in H.
    destruct (returns_propagate_system_errno (λ w1 : world E, locks_list w1 = ll1)
                BLOBSTORE_ERROR_UNKNOWN w1 Hl1) as (w2 & [] & Hw2 & Hl2).
    rewrite Hw2 in H. eapply open_and_lock_error_bounded; [done|].
    unfold registry_bounded. by rewrite Hl2.
  - rewrite bind_eq in H.
    destruct (lock_loop _ _ _ _ _ _ _ w1) as [w2 res| |] eqn:Hloop; [|done..].
    apply lock_loop_counts in Hloop. unfold counts_same in Hloop. rewrite Hl1 in Hloop.
    assert (Hb2 : registry_bounded w2).
    { unfold registry_bounded, bounded. apply (Forall_fmap _ (λ n, (n ≤ _)%nat)).
      rewrite Hloop. by apply Forall_fmap. }
    destruct res as [|acq]; [|by eapply open_and_lock_error_bounded].
    injection H as <- <-. unfold registry_bounded, bounded. simpl.
    apply (Forall_fmap _ (λ n, (n ≤ BLOBSTORE_MAX_CONCURRENT)%nat)).
    rewrite Forall_lookup. intros j nf Hj. rewrite list_lookup_fmap in Hj.
    destruct (decide (j = i)) as [->|Hne].
    + rewrite list_lookup_alter_eq in Hj.
      assert (Hc : l_next_fd <$> locks_list w2 !! i = Some (l_next_fd l)).
      { by rewrite <- list_lookup_fmap, Hloop, list_lookup_fmap. }
      destruct (locks_list w2 !! i) as [l2|]; [|done]. simpl in Hj, Hc.
      injection Hj as <-. injection Hc as Hc. simpl. rewrite Hc.
      assert (l_next_fd l ≤ BLOBSTORE_MAX_CONCURRENT)%nat
        by (by eapply (Forall_lookup_1 _ _ _ _ Hll)). lia.
    + rewrite list_lookup_alter_ne in Hj by done. rewrite <- list_lookup_fmap in Hj.
      unfold registry_bounded, bounded in Hb2.
      apply (Forall_fmap _ (λ n, (n ≤ BLOBSTORE_MAX_CONCURRENT)%nat)) in Hb2.
      by eapply (Forall_lookup_1 _ _ _ _ Hb2).
Qed.

Lemma blobstore_lock_bounded bs timeout_usec w w' r :
  blobstore_lock bs timeout_usec w = Ret w' r → registry_bounded w → registry_bounded w'.
Proof.
  unfold blobstore_lock. intros H HP. rewrite bind_eq in H.
  destruct (open_and_lock _ _ _ _ w) as [w1 fd| |] eqn:Ho; [|done..].
  apply open_and_lock_bounded in Ho; [|done]. by destruct (fd =? -1); injection H as <- <-.
Qed.

(** *** Reading a sidecar back *)

Lemma str_take_length n s : String.length (str_take n s) = (n `min` String.length s)%nat.
Proof.
  revert s. induction n as [|n IH]; intros [|c s]; simpl; try done. by rewrite IH.
Qed.

Lemma str_take_all n s : (String.length s ≤ n)%nat → str_take n s = s.
Proof.
  revert s. induction n as [|n IH]; intros [|c s] Hle; simpl in *; try done; [lia|].
  rewrite IH; [done|lia].
Qed.

Lemma strncmp_eq s1 s2 :
  c_string s1 → String.length s1 = String.length s2 →
  strncmp s1 s2 (String.length s1) = true → s1 = s2.
Proof.
  revert s2. induction s1 as [|c1 s1 IH]; intros [|c2 s2] Hc Hlen Hcmp; try done.
  unfold c_string in Hc. simpl in *.
  destruct (decide (c1 = "000"%char)); [done|]. injection Hc as Hc.
  destruct (decide (c1 = c2)) as [->|]; [|done]. f_equal. apply IH; [done|lia|done].
Qed.

Lemma nbytes_str_take n s : nbytes (str_take n s) = nbytes s → str_take n s = s.
Proof.
  unfold nbytes. rewrite str_take_length. intros Hn. apply str_take_all. lia.
Qed.

Lemma fd_to_buf_inv fd buf size w w' r :
  fd_to_buf fd buf size w = Ret w' r → 0 < r.1 →
  ∃ p off d t, w_fdt w !! fd = Some (p, off) ∧ w_fs w !! p = Some (File d t)
               ∧ r = (nbytes d, d).
Proof.
  intros H Hpos. unfold fd_to_buf in H. rewrite bind_eq in H.
  destruct (sys_lseek_set fd 0 w) as [w1 rc| |] eqn:Hseek; [|done..].
  unfold sys_lseek_set in Hseek. rewrite bind_eq in Hseek. simpl in Hseek.
  destruct (w_fdt w !! fd) as [[p off]|] eqn:Hfd.
  2: { injection Hseek as <- <-. simpl in H. injection H as <- <-. simpl in Hpos. lia. }
  injection Hseek as <- <-. simpl in H. rewrite bind_eq in H.
  unfold sys_fstat in H. rewrite bind_eq in H. simpl in H. rewrite lookup_insert_eq in H.
  destruct (w_fs w !! p) as [[d t|]|] eqn:Hp; simpl in H.
  - rewrite bind_eq in H. unfold sys_read in H. rewrite bind_eq in H. simpl in H.
    rewrite lookup_insert_eq, Hp in H. simpl in H.
    destruct (_ =? _) eqn:Heq.
    + injection H as <- <-. apply Z.eqb_eq, nbytes_str_take in Heq.
      exists p, off, d, t. by rewrite Heq.
    + injection H as <- <-. simpl in Hpos. lia.
  - rewrite bind_eq in H. unfold sys_read in H. rewrite bind_eq in H. simpl in H.
    rewrite lookup_insert_eq, Hp in H. simpl in H.
    injection H as <- <-. simpl in Hpos. lia.
  - injection H as <- <-. simpl in Hpos. lia.
Qed.

Lemma read_blockblob_metadata_path_inv path_t bs (bb_id : string) str size w w' r :
  format bs ≠ BLOBSTORE_FORMAT_ANY → path_t ≠ BLOCKBLOB_PATH_NONE →
  read_blockblob_metadata_path path_t bs bb_id str size w = Ret w' r →
  0 < r.1 →
  ∃ t, w_fs w !! sidecar_path path_t bs bb_id = Some (File r.2 t) ∧ r.1 = nbytes r.2.
Proof.
  intros Hf Hk H Hpos. unfold read_blockblob_metadata_path in H.
  rewrite bind_eq, metadata_path_valid in H by done.
  set (p := sidecar_path path_t bs bb_id) in *.
  rewrite bind_eq in H.
  destruct (sys_open p O_RDONLY 0 w) as [w1 fd| |] eqn:Hopen; [|done..].
  destruct (fd =? -1) eqn:Hfd.
  { rewrite bind_eq in H.
    destruct (propagate_system_errno _ w1) as [w2 []| |]; [|done..].
    injection H as <- <-. simpl in Hpos. lia. }
  rewrite bind_eq in H.
  destruct (fd_to_buf fd str size w1) as [w2 r0| |] eqn:Hbuf; [|done..].
  rewrite bind_eq in H. destruct (sys_close fd w2) as [w3 rc| |]; [|done..].
  destruct (r0.1 <? 1) eqn:Hlt.
  { injection H as <- <-. simpl in Hpos. lia. }
  injection H as <- <-.
  apply fd_to_buf_inv in Hbuf as (q & off & d & t & Hq & Hd & ->); [|done].
  simpl. exists t. split; [|done].
  unfold sys_open in Hopen. rewrite bind_eq in Hopen. simpl in Hopen.
  destruct (w_fs w !! p) as [[d0 t0|]|] eqn:Hp.
  - injection Hopen as <- <-. simpl in Hq, Hd. rewrite lookup_insert_eq in Hq.
    injection Hq as <- <-. by rewrite <- Hd, Hp.
  - injection Hopen as <- <-. simpl in Hq, Hd. rewrite lookup_insert_eq in Hq.
    injection Hq as <- <-. by rewrite Hp in Hd.
  - injection Hopen as <- <-. apply Z.eqb_neq in Hfd. done.
Qed.

(** ** Opening a blob that exists *)

Lemma read_blockblob_metadata_path_range path_t bs (bb_id : string) str size w w' r :
  read_blockblob_metadata_path path_t bs bb_id str size w = Ret w' r →
  r.1 = -1 ∨ 1 ≤ r.1.
Proof.
  intros H. unfold read_blockblob_metadata_path in H. rewrite bind_eq in H.
  destruct (metadata_path _ _ _ w) as [w0 p| |]; [|done..]. rewrite bind_eq in H.
  destruct (sys_open p O_RDONLY 0 w0) as [w1 fd| |]; [|done..].
  destruct (fd =? -1).
  { rewrite bind_eq in H.
    destruct (propagate_system_errno _ w1) as [w2 []| |]; [|done..].
    injection H as <- <-. by left. }
  rewrite bind_eq in H.
  destruct (fd_to_buf fd str size w1) as [w2 r0| |]; [|done..].
  rewrite bind_eq in H. destruct (sys_close fd w2) as [w3 rc| |]; [|done..].
  destruct (r0.1 <? 1) eqn:Hlt; injection H as <- <-; [by left|].
  right. apply Z.ltb_ge in Hlt. lia.
Qed.

Section returns_more.
Context (P : world E → Prop) `{!LocksOnly P}.

Lemma returns_read_array path_t bs (bb_id : string) :
  format bs ≠ BLOBSTORE_FORMAT_ANY → path_t ≠ BLOCKBLOB_PATH_NONE →
  returns_on P (read_array_blockblob_metadata_path path_t bs bb_id).
Proof. intros Hf Hk. unfold read_array_blockblob_metadata_path. returns_tac. Qed.
Hint Resolve returns_read_array : returns.

Lemma returns_write_blockblob_metadata_path path_t bs (bb_id : string) str :
  format bs ≠ BLOBSTORE_FORMAT_ANY → path_t ≠ BLOCKBLOB_PATH_NONE →
  returns_on P (write_blockblob_metadata_path path_t bs bb_id str).
Proof. intros Hf Hk. unfold write_blockblob_metadata_path. returns_tac. Qed.
Hint Resolve returns_write_blockblob_metadata_path : returns.

Lemma returns_set_device_path bb :
  format (store bb) ≠ BLOBSTORE_FORMAT_ANY → returns_on P (set_device_path bb).
Proof. intros Hf. unfold set_device_path. returns_tac. Qed.
Hint Resolve returns_set_device_path : returns.

Lemma returns_bb_open_loopback bs bb :
  format bs ≠ BLOBSTORE_FORMAT_ANY → format (store bb) ≠ BLOBSTORE_FORMAT_ANY →
  returns_on P (bb_open_loopback bs bb).
Proof. intros Hf Hs. unfold bb_open_loopback. returns_tac. Qed.

End returns_more.


Lemma bb_open_existing_Some bs bb sig sb w w' bb1 :
  bb_open_existing bs bb sig sb w = Ret w' (Some bb1) →
  bb1 = if size_blocks bb =? 0 then with_size (st_size_of sb / 512) bb else bb.
Proof.
  unfold bb_open_existing. intros H. rewrite bind_eq in H.
  assert (Hsig : ∀ b w0,
    match sig with
    | None => mret (Some b)
    | Some sig =>
        r ← read_blockblob_metadata_path BLOCKBLOB_PATH_SIG bs (bb_id b) "" 1024;
        if negb (r.1 =? strlen sig) || negb (strncmp sig r.2 (Z.to_nat r.1)) then
          err BLOBSTORE_ERROR_SIGNATURE;; mret None
        else mret (Some b)
    end w0 = Ret w' (Some bb1) → bb1 = b).
  { intros b w0 Hb. destruct sig as [s|]; [|by injection Hb].
    rewrite bind_eq in Hb.
    destruct (read_blockblob_metadata_path _ _ _ _ _ w0) as [w1 r| |]; [|done..].
    destruct (_ || _); [done|]. by injection Hb. }
  destruct (size_blocks bb =? 0).
  - rewrite ret_eq in H. by apply Hsig in H.
  - destruct (negb _); [by rewrite bind_eq in H|].
    rewrite ret_eq in H. by apply Hsig in H.
Qed.

Lemma set_device_path_size bb w w' bb' :
  set_device_path bb w = Ret w' bb' → size_blocks bb' = size_blocks bb.
Proof.
  unfold set_device_path. intros H. rewrite bind_eq in H. simpl in H. rewrite bind_eq in H.
  destruct (read_array_blockblob_metadata_path _ _ _ _) as [w1 r| |]; [|done..].
  rewrite bind_eq in H. simpl in H.
  destruct (last r.2); [by injection H as <- <-|].
  rewrite bind_eq in H. simpl in H. rewrite bind_eq in H.
  destruct (read_blockblob_metadata_path _ _ _ _ _ _) as [w2 r2| |]; [|done..].
  rewrite bind_eq in H. simpl in H. by injection H as <- <-.
Qed.

Lemma bb_open_loopback_size bs bb w w' bb' :
  bb_open_loopback bs bb w = Ret w' (Some bb') → size_blocks bb' = size_blocks bb.
Proof.
  unfold bb_open_loopback. intros H. rewrite bind_eq in H. simpl in H. rewrite bind_eq in H.
  destruct (read_blockblob_metadata_path _ _ _ _ _ _) as [w1 r| |]; [|done..].
  rewrite bind_eq in H. simpl in H. rewrite bind_eq in H.
  match type of H with match ?m ?w with _ => _ end = _ =>
    destruct (m w) as [w2 ok| |]; [|done..] end.
  destruct ok; [|done]. rewrite bind_eq in H.
  destruct (set_device_path bb w2) as [w3 bb3| |] eqn:Hdev; [|done..].
  injection H as <- <-. by eapply set_device_path_size.
Qed.

Lemma set_blockblob_metadata_path_valid path_t bs (bb_id : string) w :
  format bs ≠ BLOBSTORE_FORMAT_ANY → path_t ≠ BLOCKBLOB_PATH_NONE →
  set_blockblob_metadata_path path_t bs bb_id w
  = Ret w (0, Some (sidecar_path path_t bs bb_id)).
Proof.
  intros Hf Hk. unfold set_blockblob_metadata_path, sidecar_path.
  destruct path_t, (format bs); done.
Qed.


(** * Further properties of the code *)

(** ** The path resolver and its inverse *)

Lemma rev_app_append (a b : string) : String.rev_app a b = String.rev a +:+ b.
Proof.
  unfold String.rev. revert b. induction a as [|c a IH]; intros b; simpl; [done|].
  rewrite (IH (String c b)), (IH (String c "")), append_assoc. done.
Qed.

Lemma rev_append (a b : string) : String.rev (a +:+ b) = String.rev b +:+ String.rev a.
Proof.
  induction a as [|c a IH]; simpl.
  - by rewrite append_nil_r.
  - unfold String.rev in *. simpl. rewrite !(rev_app_append _ (String c "")).
    fold (String.rev (a +:+ b)). unfold String.rev. rewrite IH.
    by rewrite append_assoc.
Qed.

Lemma length_append (a b : string) :
  String.length (a +:+ b) = (String.length a + String.length b)%nat.
Proof. induction a as [|c a IH]; simpl; [done|]. by rewrite IH. Qed.

Lemma length_rev (a : string) : String.length (String.rev a) = String.length a.
Proof.
  induction a as [|c a IH]; [done|]. unfold String.rev in *. simpl.
  rewrite rev_app_append, length_append. unfold String.rev. rewrite IH. simpl. lia.
Qed.

Lemma common_prefix_len_self (a b : string) :
  common_prefix_len a (a +:+ b) = String.length a.
Proof. induction a as [|c a IH]; simpl; [by destruct b|]. by rewrite decide_True, IH. Qed.

Lemma common_prefix_len_le (a b : string) : (common_prefix_len a b ≤ String.length a)%nat.
Proof.
  revert b. induction a as [|c a IH]; intros [|d b]; simpl; try lia.
  destruct (decide (c = d)); [|lia]. specialize (IH b). lia.
Qed.

Lemma matched_suffix_append (suffix x t : string) :
  matched_suffix suffix (x +:+ t)
  = common_prefix_len (String.rev suffix) (String.rev t +:+ String.rev x).
Proof. unfold matched_suffix. by rewrite rev_append. Qed.

Lemma prefix_append (s t : string) : String.prefix s (s +:+ t) = true.
Proof.
  induction s as [|c s IH]; simpl; [by destruct t|].
  destruct (ascii_dec c c); done.
Qed.

Lemma str_drop_append (s t : string) : str_drop (String.length s) (s +:+ t) = t.
Proof. induction s as [|c s IH]; simpl; [by destruct t|done]. Qed.

Lemma str_take_append (s t : string) : str_take (String.length s) (s +:+ t) = s.
Proof. induction s as [|c s IH]; simpl; [by destruct t|]. by rewrite IH. Qed.

Lemma typeof_loop_cons bs (rel_path : string) i k kinds :
  typeof_loop bs rel_path ((i, k) :: kinds)
  = let suffix := (if decide (format bs = BLOBSTORE_FORMAT_DIRECTORY) then "/" else ".")
                    +:+ blobstore_metadata_suffixes k in
    if bool_decide (matched_suffix suffix rel_path = String.length suffix)
       && bool_decide (matched_suffix suffix rel_path < String.length rel_path)%nat
    then if BLOBSTORE_MAX_PATH - 1 <? Z.of_nat (String.length rel_path - String.length suffix)
         then (-1, "")
         else (i, str_take (String.length rel_path - String.length suffix) rel_path)
    else typeof_loop bs rel_path kinds.
Proof. done. Qed.

(** A kind whose suffix the path does not end in is passed over. *)
Lemma typeof_loop_miss bs (id : string) i k k' kinds :
  k ≠ k' → k ≠ BLOCKBLOB_PATH_NONE → k' ≠ BLOCKBLOB_PATH_NONE →
  let sep := if decide (format bs = BLOBSTORE_FORMAT_DIRECTORY) then "/" else "." in
  typeof_loop bs (id +:+ sep +:+ blobstore_metadata_suffixes k) ((i, k') :: kinds)
  = typeof_loop bs (id +:+ sep +:+ blobstore_metadata_suffixes k) kinds.
Proof.
  intros Hne Hk Hk' sep. rewrite typeof_loop_cons. cbv zeta. fold sep.
  rewrite matched_suffix_append.
  assert (Hm : common_prefix_len (String.rev (sep +:+ blobstore_metadata_suffixes k'))
                 (String.rev (sep +:+ blobstore_metadata_suffixes k) +:+ String.rev id)
               ≠ String.length (sep +:+ blobstore_metadata_suffixes k')).
  { subst sep. generalize (String.rev id). intros r.
    destruct (decide (format bs = BLOBSTORE_FORMAT_DIRECTORY));
      destruct k, k'; try done; vm_compute; discriminate. }
  by rewrite (bool_decide_eq_false_2 _ Hm).
Qed.

(** The kind whose suffix the path ends in. *)
Lemma typeof_loop_hit bs (id : string) i k kinds :
  k ≠ BLOCKBLOB_PATH_NONE →
  let sep := if decide (format bs = BLOBSTORE_FORMAT_DIRECTORY) then "/" else "." in
  typeof_loop bs (id +:+ sep +:+ blobstore_metadata_suffixes k) ((i, k) :: kinds)
  = if decide (id = "") then
      typeof_loop bs (id +:+ sep +:+ blobstore_metadata_suffixes k) kinds
    else if BLOBSTORE_MAX_PATH - 1 <? Z.of_nat (String.length id) then (-1, "")
    else (i, id).
Proof.
  intros Hk sep. rewrite typeof_loop_cons. cbv zeta. fold sep.
  assert (Hs : String.length (sep +:+ blobstore_metadata_suffixes k) ≠ 0%nat).
  { subst sep. by destruct (decide (format bs = BLOBSTORE_FORMAT_DIRECTORY)). }
  remember (sep +:+ blobstore_metadata_suffixes k) as sfx eqn:Hsfx. clear Hsfx.
  rewrite matched_suffix_append, common_prefix_len_self, length_rev.
  rewrite bool_decide_eq_true_2 by done. rewrite length_append.
  replace (String.length id + String.length sfx - String.length sfx)%nat
    with (String.length id) by lia.
  rewrite str_take_append.
  destruct (decide (id = "")) as [->|Hid].
  - rewrite bool_decide_eq_false_2; [done|]. simpl. lia.
  - rewrite bool_decide_eq_true_2; [done|]. destruct id; [done|]. simpl. lia.
Qed.

(** X1.  [typeof_blockblob_metadata_path] undoes
    [set_blockblob_metadata_path]: the path that is built for a kind of
    file and a blob id is recognised as that kind, with that id, whatever
    characters the id holds.  Two ids are not given back: the empty one,
    whose path is taken for no blob file at all (0), and one that does not
    fit the caller's buffer of [BLOBSTORE_MAX_PATH] bytes (-1). *)
Theorem typeof_inverts_set_path bs (k : blockblob_path_t) (id : string) w :
  format bs ≠ BLOBSTORE_FORMAT_ANY → k ≠ BLOCKBLOB_PATH_NONE →
  ∃ p, set_blockblob_metadata_path k bs id w = Ret w (0, Some p)
     ∧ typeof_blockblob_metadata_path bs p w
       = Ret w (if decide (id = "") then (0, "")
                else if BLOBSTORE_MAX_PATH - 1 <? Z.of_nat (String.length id) then (-1, "")
                else (int_of_path_t k, id)).
Proof.
  intros Hf Hk. exists (sidecar_path k bs id). split.
  { unfold set_blockblob_metadata_path, sidecar_path.
    destruct k; try done; destruct (format bs); done. }
  unfold typeof_blockblob_metadata_path, sidecar_path.
  rewrite !append_assoc, prefix_append.
  change ("/" +:+ ?x) with (String slash x).
  assert (Hd : ∀ s t, str_drop (S (String.length s)) (s +:+ String slash t) = t).
  { intros s t. induction s as [|c s IH]; [done|]. apply IH. }
  rewrite Hd, ret_eq. f_equal.
  set (sep := if decide (format bs = BLOBSTORE_FORMAT_DIRECTORY) then "/" else ".").
  change (zip (Z.of_nat <$> seq 1 6) blockblob_paths)
    with [(1, BLOCKBLOB_PATH_BLOCKS); (2, BLOCKBLOB_PATH_DM); (3, BLOCKBLOB_PATH_DEPS);
          (4, BLOCKBLOB_PATH_LOOPBACK); (5, BLOCKBLOB_PATH_SIG); (6, BLOCKBLOB_PATH_REFS)].
  destruct k; try done;
    repeat first [ rewrite typeof_loop_miss by done
                 | rewrite typeof_loop_hit by done ];
    fold sep; destruct (decide (id = "")); done.
Qed.

(** ** The descriptor file of a store *)

(** *** Decimal numbers *)

Lemma is_nat_pretty_N_char (d : N) :
  (d < 10)%N → Ascii.is_nat (pretty_N_char d) = Some (N.to_nat d).
Proof.
  intros Hd. destruct d as [|p]; [done|].
  do 4 (destruct p as [p|p|]; try lia; try done).
Qed.

Lemma parse_digits_pretty_N_go (x : N) :
  ∀ s, parse_digits (pretty_N_go x s) 0 = parse_digits s (Z.of_N x).
Proof.
  induction x as [x IH] using (well_founded_induction N.lt_wf_0). intros s.
  destruct (decide (x = 0%N)) as [->|Hx]; [by rewrite pretty_N_go_0|].
  rewrite pretty_N_go_step by lia. rewrite IH by (apply N.div_lt; lia). simpl.
  rewrite is_nat_pretty_N_char by (apply N.mod_lt; lia). f_equal.
  rewrite N_nat_Z. pose proof (N.div_mod x 10). lia.
Qed.

Lemma str_contains_pretty_N_go (c : ascii) (x : N) :
  Ascii.is_nat c = None →
  ∀ s, str_contains c (pretty_N_go x s) = str_contains c s.
Proof.
  intros Hc. induction x as [x IH] using (well_founded_induction N.lt_wf_0). intros s.
  destruct (decide (x = 0%N)) as [->|Hx]; [by rewrite pretty_N_go_0|].
  rewrite pretty_N_go_step by lia. rewrite IH by (apply N.div_lt; lia). simpl.
  rewrite bool_decide_eq_false_2; [done|]. intros Heq. rewrite <- Heq in Hc.
  rewrite is_nat_pretty_N_char in Hc by (apply N.mod_lt; lia). done.
Qed.

Lemma pretty_N_go_head (x : N) :
  (0 < x)%N → ∀ s, ∃ c (d : nat) s', pretty_N_go x s = String c s' ∧ Ascii.is_nat c = Some d.
Proof.
  induction x as [x IH] using (well_founded_induction N.lt_wf_0). intros Hx s.
  rewrite pretty_N_go_step by lia.
  destruct (decide (x `div` 10 = 0)%N) as [H0|H0].
  - rewrite H0, pretty_N_go_0. eexists _, _, _. split; [done|].
    apply is_nat_pretty_N_char. apply N.mod_lt. lia.
  - apply IH; [apply N.div_lt; lia|by apply N.neq_0_lt_0].
Qed.

Lemma pretty_N_head (x : N) :
  ∃ c (d : nat) s', pretty x = String c s' ∧ Ascii.is_nat c = Some d.
Proof.
  unfold pretty, pretty_N. destruct (decide (x = 0%N)) as [->|Hx].
  - by exists "0"%char, 0%nat, "".
  - apply pretty_N_go_head. lia.
Qed.

Lemma parse_digits_pretty_N (x : N) : parse_digits (pretty x) 0 = Z.of_N x.
Proof.
  unfold pretty, pretty_N. destruct (decide (x = 0%N)) as [->|Hx]; [done|].
  by rewrite parse_digits_pretty_N_go.
Qed.

Lemma str_contains_pretty_N (c : ascii) (x : N) :
  Ascii.is_nat c = None → str_contains c (pretty x) = false.
Proof.
  intros Hc. unfold pretty, pretty_N. destruct (decide (x = 0%N)) as [->|Hx].
  - simpl. rewrite bool_decide_eq_false_2; [done|]. by intros <-.
  - by rewrite str_contains_pretty_N_go.
Qed.

Lemma pretty_Z_cases (z : Z) :
  pretty z = if decide (0 ≤ z) then pretty (Z.to_N z) else "-" +:+ pretty (Z.to_N (- z)).
Proof. by destruct z. Qed.

Lemma str_contains_pretty_Z (c : ascii) (z : Z) :
  Ascii.is_nat c = None → c ≠ "-"%char → str_contains c (pretty z) = false.
Proof.
  intros Hc Hm. rewrite pretty_Z_cases. destruct (decide (0 ≤ z)).
  - by apply str_contains_pretty_N.
  - simpl. rewrite bool_decide_eq_false_2 by done. by apply str_contains_pretty_N.
Qed.

Lemma strtoll_digit (c : ascii) (d : nat) (s : string) :
  Ascii.is_nat c = Some d →
  strtoll (String c s)
  = let v := parse_digits (String c s) 0 in
    if (- 2 ^ 63 <=? v) && (v <? 2 ^ 63) then Some v else None.
Proof.
  intros Hc. destruct c as [[] [] [] [] [] [] [] []]; try discriminate Hc; reflexivity.
Qed.

(** [strtoll] reads back the number that [%lld] or [%d] has printed. *)
Lemma strtoll_pretty (z : Z) : - 2 ^ 63 ≤ z < 2 ^ 63 → strtoll (pretty z) = Some z.
Proof.
  intros Hz. rewrite pretty_Z_cases. destruct (decide (0 ≤ z)) as [Hp|Hn].
  - destruct (pretty_N_head (Z.to_N z)) as (c & d & s' & Heq & Hc).
    pose proof (parse_digits_pretty_N (Z.to_N z)) as Hv. rewrite Heq in Hv |- *.
    rewrite (strtoll_digit c d) by done. cbv zeta. rewrite Hv, Z2N.id by done.
    destruct (Z.leb_spec (- 2 ^ 63) z); [|lia]. by destruct (Z.ltb_spec z (2 ^ 63)); [|lia].
  - pose proof (parse_digits_pretty_N (Z.to_N (- z))) as Hv.
    change (strtoll ("-" +:+ ?s)) with
      (let v := - parse_digits s 0 in
       if (- 2 ^ 63 <=? v) && (v <? 2 ^ 63) then Some v else None).
    cbv zeta. rewrite Hv, Z2N.id by lia. rewrite Z.opp_involutive.
    destruct (Z.leb_spec (- 2 ^ 63) z); [|lia]. by destruct (Z.ltb_spec z (2 ^ 63)); [|lia].
Qed.

(** *** Keys and values *)

Lemma strstr_eq (buf key : string) :
  strstr buf key = if String.prefix key buf then Some buf
                   else match buf with
                        | EmptyString => None
                        | String _ buf' => strstr buf' key
                        end.
Proof. by destruct buf. Qed.

Lemma strstr_here (buf key : string) :
  String.prefix key buf = true → strstr buf key = Some buf.
Proof. intros H. by rewrite strstr_eq, H. Qed.

Lemma strstr_skip_char (c : ascii) (s key : string) :
  String.prefix key (String c s) = false → strstr (String c s) key = strstr s key.
Proof. intros H. by rewrite strstr_eq, H. Qed.

Lemma prefix_line (key a rest : string) :
  str_contains newline key = false → str_contains ":"%char key = true →
  str_contains ":"%char a = false →
  String.prefix key (a +:+ String newline rest) = false.
Proof.
  revert a. induction key as [|c key IH]; intros a Hn Hc Ha; [done|].
  simpl in Hn, Hc. apply orb_false_iff in Hn as [Hcn Hn].
  destruct a as [|x a]; simpl.
  - destruct (ascii_dec c newline) as [->|]; [|done].
    by rewrite bool_decide_eq_true_2 in Hcn.
  - simpl in Ha. apply orb_false_iff in Ha as [Hx Ha].
    destruct (ascii_dec c x) as [->|]; [|done].
    rewrite Hx in Hc. by apply IH.
Qed.

Lemma strstr_skip_line (key a rest : string) :
  str_contains newline key = false → str_contains ":"%char key = true →
  str_contains ":"%char a = false →
  strstr (a +:+ String newline rest) key = strstr rest key.
Proof.
  intros Hn Hc. induction a as [|x a IH]; intros Ha.
  - by rewrite strstr_eq, (prefix_line key "" rest).
  - rewrite strstr_eq, (prefix_line key (String x a) rest) by done.
    simpl in Ha. apply orb_false_iff in Ha as [_ Ha]. by apply IH.
Qed.

Lemma until_newline_line (v rest : string) :
  str_contains newline v = false → until_newline (v +:+ String newline rest) = v.
Proof.
  induction v as [|c v IH]; simpl.
  - done.
  - intros [Hc Hv]%orb_false_iff. apply bool_decide_eq_false in Hc.
    rewrite decide_False by done. by rewrite IH.
Qed.

Lemma prefix_nil (s : string) : String.prefix "" s = true.
Proof. by destruct s. Qed.

Ltac find_key :=
  repeat first [ rewrite strstr_skip_char by reflexivity
               | rewrite strstr_skip_line by (reflexivity || assumption)
               | rewrite strstr_here by (simpl; apply prefix_nil) ].

(** The five values of a buffer that holds the five lines, whatever
    follows them. *)
Lemma get_val_fields (id n1 n2 n3 n4 rest : string) :
  plain id → plain n1 → plain n2 → plain n3 → plain n4 →
  let buf := "id: " +:+ id +:+ String newline
             ("limit: " +:+ n1 +:+ String newline
             ("revocation: " +:+ n2 +:+ String newline
             ("snapshot: " +:+ n3 +:+ String newline
             ("format: " +:+ n4 +:+ String newline rest)))) in
  get_val buf "id" = Some id ∧ get_val buf "limit" = Some n1
  ∧ get_val buf "revocation" = Some n2 ∧ get_val buf "snapshot" = Some n3
  ∧ get_val buf "format" = Some n4.
Proof.
  intros [Hc0 Hl0] [Hc1 Hl1] [Hc2 Hl2] [Hc3 Hl3] [Hc4 Hl4] buf. subst buf.
  unfold get_val. rewrite ?append_cons, ?append_nil_l.
  repeat split; find_key; cbn [mbind option_bind str_drop String.length];
    by rewrite until_newline_line.
Qed.

Lemma store_metadata_text_append bs (rest : string) :
  store_metadata_text bs +:+ rest
  = "id: " +:+ bs_id bs +:+ String newline
    ("limit: " +:+ pretty (to_llong (limit_blocks bs)) +:+ String newline
    ("revocation: " +:+ pretty (int_of_revocation (revocation_policy bs)) +:+ String newline
    ("snapshot: " +:+ pretty (int_of_snapshot (snapshot_policy bs)) +:+ String newline
    ("format: " +:+ pretty (int_of_format (format bs)) +:+ String newline rest)))).
Proof.
  unfold store_metadata_text.
  generalize (pretty (to_llong (limit_blocks bs))) (pretty (int_of_revocation (revocation_policy bs)))
    (pretty (int_of_snapshot (snapshot_policy bs))) (pretty (int_of_format (format bs))).
  intros n1 n2 n3 n4.
  repeat first [ rewrite append_assoc | rewrite append_cons | rewrite append_nil_l ]. done.
Qed.

Lemma plain_pretty (z : Z) : plain (pretty z).
Proof. split; by apply str_contains_pretty_Z. Qed.

Lemma to_llong_range (z : Z) : - 2 ^ 63 ≤ to_llong z < 2 ^ 63.
Proof. unfold to_llong. pose proof (Z.mod_pos_bound (z + 2 ^ 63) (2 ^ 64)). lia. Qed.

(** X2.  [get_val] and [strtoll] read back from a buffer each field that
    [write_store_metadata] prints into the descriptor file, whatever bytes
    follow the text in the buffer: the id as it is, provided it holds
    neither a colon nor a newline, and the four numbers. *)
Theorem get_val_reads_store_metadata bs (rest : string) :
  plain (bs_id bs) →
  - 2 ^ 63 ≤ int_of_revocation (revocation_policy bs) < 2 ^ 63 →
  - 2 ^ 63 ≤ int_of_snapshot (snapshot_policy bs) < 2 ^ 63 →
  - 2 ^ 63 ≤ int_of_format (format bs) < 2 ^ 63 →
  let buf := store_metadata_text bs +:+ rest in
  get_val buf "id" = Some (bs_id bs)
  ∧ get_val buf "limit" ≫= strtoll = Some (to_llong (limit_blocks bs))
  ∧ get_val buf "revocation" ≫= strtoll = Some (int_of_revocation (revocation_policy bs))
  ∧ get_val buf "snapshot" ≫= strtoll = Some (int_of_snapshot (snapshot_policy bs))
  ∧ get_val buf "format" ≫= strtoll = Some (int_of_format (format bs)).
Proof.
  intros Hid Hr Hs Hf buf. subst buf. rewrite store_metadata_text_append.
  destruct (get_val_fields (bs_id bs) _ _ _ _ rest Hid
              (plain_pretty (to_llong (limit_blocks bs)))
              (plain_pretty (int_of_revocation (revocation_policy bs)))
              (plain_pretty (int_of_snapshot (snapshot_policy bs)))
              (plain_pretty (int_of_format (format bs))))
    as (-> & -> & -> & -> & ->).
  cbn [mbind option_bind]. rewrite !strtoll_pretty by (apply to_llong_range || done). done.
Qed.

(** *** Writing and reading the file *)

Lemma str_drop_nil (n : nat) : str_drop n "" = "".
Proof. by destruct n. Qed.

Lemma write_at_empty (buf : string) : write_at "" 0 buf = buf.
Proof.
  unfold write_at. simpl. rewrite str_drop_nil.
  by rewrite append_nil_l, append_nil_l, append_nil_r.
Qed.

Lemma cstr_id (s : string) : str_contains "000"%char s = false → c_string s.
Proof.
  unfold c_string. induction s as [|c s IH]; [done|]. simpl.
  intros [Hc Hs]%orb_false_iff. apply bool_decide_eq_false in Hc.
  rewrite decide_False by done. by rewrite IH.
Qed.

Lemma c_string_contains (s : string) : c_string s → str_contains "000"%char s = false.
Proof.
  unfold c_string. induction s as [|c s IH]; [done|]. simpl.
  destruct (decide (c = "000"%char)) as [->|Hc]; [done|].
  intros [= Hs]. rewrite bool_decide_eq_false_2 by done. by apply IH.
Qed.

Lemma str_contains_append (c : ascii) (a b : string) :
  str_contains c (a +:+ b) = str_contains c a || str_contains c b.
Proof. induction a as [|x a IH]; [done|]. rewrite append_cons. simpl. by rewrite IH, orb_assoc. Qed.

Lemma c_string_store_metadata_text bs : c_string (bs_id bs) → c_string (store_metadata_text bs).
Proof.
  intros Hid%c_string_contains. apply cstr_id. unfold store_metadata_text.
  repeat first [ rewrite str_contains_append | rewrite str_contains_pretty_Z by done
               | rewrite Hid | progress cbn [str_contains] ].
  done.
Qed.

Lemma nbytes_append (a b : string) : nbytes (a +:+ b) = nbytes a + nbytes b.
Proof. unfold nbytes. rewrite length_append. lia. Qed.

Lemma store_metadata_text_size bs : 30 ≤ nbytes (store_metadata_text bs).
Proof.
  assert (H : ∀ s, 0 ≤ nbytes s) by (intros s; unfold nbytes; lia).
  assert (Hn : ∀ s, nbytes (String newline s) = 1 + nbytes s)
    by (intros s; unfold nbytes; simpl; lia).
  unfold store_metadata_text. repeat first [ rewrite nbytes_append | rewrite Hn ].
  change (nbytes "id: ") with 4. change (nbytes "limit: ") with 7.
  change (nbytes "revocation: ") with 12. change (nbytes "snapshot: ") with 10.
  change (nbytes "format: ") with 8. change (nbytes "") with 0.
  pose proof (H (bs_id bs)). pose proof (H (pretty (to_llong (limit_blocks bs)))).
  pose proof (H (pretty (int_of_revocation (revocation_policy bs)))).
  pose proof (H (pretty (int_of_snapshot (snapshot_policy bs)))).
  pose proof (H (pretty (int_of_format (format bs)))). lia.
Qed.

(** A descriptor of a file that fits the buffer: the file is read from its
    start, whatever the offset was. *)
Lemma fd_to_buf_file fd (buf : string) size w (p : string) off (d : string) t :
  w_fdt w !! fd = Some (p, off) → w_fs w !! p = Some (File d t) → nbytes d ≤ size →
  fd_to_buf fd buf size w
  = Ret (set_fdt (<[fd := (p, nbytes d)]> (w_fdt w)) w) (nbytes d, d).
Proof.
  intros Hfd Hp Hsize. unfold fd_to_buf. rewrite bind_eq.
  unfold sys_lseek_set. rewrite bind_eq. simpl. rewrite Hfd. simpl.
  unfold sys_fstat. rewrite !bind_eq. simpl. rewrite lookup_insert_eq, Hp. simpl.
  unfold sys_read. rewrite !bind_eq. simpl.
  rewrite lookup_insert_eq, Hp. simpl.
  assert (Hd : str_take (Z.to_nat size) d = d).
  { apply str_take_all. unfold nbytes in Hsize. lia. }
  rewrite Hd, Z.eqb_refl. rewrite insert_insert_eq. done.
Qed.

Lemma with_metadata_id bs :
  with_metadata (bs_id bs) (limit_blocks bs) (revocation_policy bs) (snapshot_policy bs)
    (format bs) bs = bs.
Proof. by destruct bs. Qed.

Lemma wrap64_to_llong (z : Z) : 0 ≤ z < 2 ^ 64 → wrap64 (to_llong z) = z.
Proof.
  intros Hz. unfold wrap64, to_llong.
  rewrite Zminus_mod_idemp_l. replace (z + 2 ^ 63 - 2 ^ 63) with z by lia.
  by apply Z.mod_small.
Qed.

Lemma str_take_append_ge (n : nat) (s t : string) :
  (String.length s ≤ n)%nat →
  str_take n (s +:+ t) = s +:+ str_take (n - String.length s) t.
Proof.
  revert n. induction s as [|c s IH]; intros n Hle; simpl in *.
  - by rewrite Nat.sub_0_r.
  - destruct n as [|n]; [lia|]. simpl. rewrite IH by lia. done.
Qed.

Lemma cstr_append (s t : string) : c_string s → cstr (s +:+ t) = s +:+ cstr t.
Proof.
  unfold c_string. induction s as [|c s IH]; [done|]. simpl.
  destruct (decide (c = "000"%char)) as [->|Hc]; [done|].
  intros [= Hs]. by rewrite IH.
Qed.

(** [get_val] stays within a buffer that holds the five lines, whatever
    follows them. *)
Lemma reads_within_fields (id n1 n2 n3 n4 rest : string) :
  plain id → plain n1 → plain n2 → plain n3 → plain n4 →
  let buf := "id: " +:+ id +:+ String newline
             ("limit: " +:+ n1 +:+ String newline
             ("revocation: " +:+ n2 +:+ String newline
             ("snapshot: " +:+ n3 +:+ String newline
             ("format: " +:+ n4 +:+ String newline rest)))) in
  reads_within buf "id" = true ∧ reads_within buf "limit" = true
  ∧ reads_within buf "revocation" = true ∧ reads_within buf "snapshot" = true
  ∧ reads_within buf "format" = true.
Proof.
  intros [Hc0 Hl0] [Hc1 Hl1] [Hc2 Hl2] [Hc3 Hl3] [Hc4 Hl4] buf. subst buf.
  assert (Hnl : ∀ v r, str_contains newline (v +:+ String newline r) = true).
  { intros v r. rewrite str_contains_append. cbn [str_contains].
    rewrite (bool_decide_eq_true_2 (newline = newline)) by done.
    by rewrite orb_true_r. }
  unfold reads_within. rewrite ?append_cons, ?append_nil_l.
  repeat split; apply orb_true_iff; right; find_key;
    cbn [str_drop String.length]; apply Hnl.
Qed.

Lemma snprintf_fits (text : string) : nbytes text < 1024 → snprintf 1024 text = text.
Proof. intros Hlt. unfold snprintf. apply str_take_all. unfold nbytes in Hlt. lia. Qed.

(** What [read_store_metadata] makes of a descriptor file as
    [write_store_metadata] writes it. *)
Lemma read_store_metadata_text bs bs0 (p : string) off t w :
  numbered int_of_revocation revocation_of_int →
  numbered int_of_snapshot snapshot_of_int →
  numbered int_of_format format_of_int →
  c_string (bs_id bs) → plain (bs_id bs) →
  0 ≤ limit_blocks bs < 2 ^ 64 →
  nbytes (store_metadata_text bs) ≤ 1024 →
  w_fdt w !! bs_fd bs0 = Some (p, off) →
  w_fs w !! p = Some (File (store_metadata_text bs) t) →
  read_store_metadata bs0 w
  = Ret (set_fdt (<[bs_fd bs0 := (p, nbytes (store_metadata_text bs))]> (w_fdt w)) w)
      (0, with_metadata (bs_id bs) (limit_blocks bs) (revocation_policy bs)
            (snapshot_policy bs) (format bs) bs0).
Proof.
  intros Hr Hs Hf Hc Hid Hl Hsize Hfd Hp. unfold read_store_metadata.
  rewrite bind_eq, (fd_to_buf_file _ _ _ _ p off _ t) by done.
  cbn [fst snd]. pose proof (store_metadata_text_size bs) as H30.
  destruct (Z.eqb_spec (nbytes (store_metadata_text bs)) (-1)); [lia|].
  destruct (Z.ltb_spec (nbytes (store_metadata_text bs)) 30); [lia|].
  rewrite bind_eq. cbn [get_world]. cbv zeta.
  rewrite str_take_append_ge by (unfold nbytes in Hsize; lia).
  match goal with |- context [store_metadata_text bs +:+ ?T] => generalize T end.
  intros tail. rewrite (cstr_append _ tail (c_string_store_metadata_text bs Hc)).
  destruct (Hr (revocation_policy bs)) as [Hr1 Hr2].
  destruct (Hs (snapshot_policy bs)) as [Hs1 Hs2].
  destruct (Hf (format bs)) as [Hf1 Hf2].
  pose proof (to_llong_range (limit_blocks bs)) as Hll.
  assert (Hplain : ∀ z, plain (pretty z)) by apply plain_pretty.
  rewrite !store_metadata_text_append.
  destruct (reads_within_fields (bs_id bs) _ _ _ _ tail Hid
              (Hplain (to_llong (limit_blocks bs)))
              (Hplain (int_of_revocation (revocation_policy bs)))
              (Hplain (int_of_snapshot (snapshot_policy bs)))
              (Hplain (int_of_format (format bs))))
    as (-> & -> & -> & -> & ->).
  destruct (get_val_fields (bs_id bs) _ _ _ _ (cstr tail) Hid
              (Hplain (to_llong (limit_blocks bs)))
              (Hplain (int_of_revocation (revocation_policy bs)))
              (Hplain (int_of_snapshot (snapshot_policy bs)))
              (Hplain (int_of_format (format bs))))
    as (-> & -> & -> & -> & ->).
  rewrite !strtoll_pretty by lia.
  rewrite !to_int_id by lia. rewrite Hr2, Hs2, Hf2, wrap64_to_llong by done. done.
Qed.

(** X3.  The descriptor of a store survives the file: what
    [write_store_metadata] writes through a fresh descriptor,
    [read_store_metadata] reads back, through the same descriptor or
    through any other descriptor of the file, as the same id, limit and
    policies.  The id holds neither a colon nor a newline, the text and
    its NUL fit the buffer of 1024 bytes that [snprintf] fills, and the
    header numbers its enumerations by [int]s. *)
Theorem store_metadata_round_trip bs (p : string) w :
  numbered int_of_revocation revocation_of_int →
  numbered int_of_snapshot snapshot_of_int →
  numbered int_of_format format_of_int →
  c_string (bs_id bs) → plain (bs_id bs) →
  0 ≤ limit_blocks bs < 2 ^ 64 →
  nbytes (store_metadata_text bs) < 1024 →
  w_fdt w !! bs_fd bs = Some (p, 0) →
  is_file (w_fs w !! p) = true →
  ∃ w1, write_store_metadata bs w = Ret w1 0
    ∧ w_fs w1 = <[p := File (store_metadata_text bs) (w_time w)]> (w_fs w)
    ∧ (∃ w2, read_store_metadata bs w1 = Ret w2 (0, bs) ∧ w_fs w2 = w_fs w1)
    ∧ ∀ bs0 off w1', w_fs w1' = w_fs w1 → w_fdt w1' !! bs_fd bs0 = Some (p, off) →
        ∃ w2, read_store_metadata bs0 w1' = Ret w2
                (0, with_metadata (bs_id bs) (limit_blocks bs) (revocation_policy bs)
                      (snapshot_policy bs) (format bs) bs0)
              ∧ w_fs w2 = w_fs w1.
Proof.
  intros Hr Hs Hf Hc Hid Hl Hsize Hfd Hp.
  destruct (w_fs w !! p) as [[d t|]|] eqn:Hd; try done.
  pose proof (read_store_metadata_text bs) as Hread.
  specialize (λ bs0, Hread bs0 p). unfold write_store_metadata.
  rewrite snprintf_fits by done.
  assert (Hfits : nbytes (store_metadata_text bs) ≤ 1024) by lia.
  remember (store_metadata_text bs) as txt eqn:Htxt.
  rewrite bind_eq. unfold sys_ftruncate0. rewrite bind_eq. simpl. rewrite Hfd, Hd. simpl.
  unfold sys_write. rewrite !bind_eq. simpl. rewrite Hfd, lookup_insert_eq. simpl.
  rewrite write_at_empty, insert_insert_eq.
  unfold strlen. rewrite Z.eqb_refl.
  eexists. split; [done|]. simpl. split; [done|]. split.
  - erewrite (Hread bs); try done.
    + rewrite with_metadata_id. by eexists.
    + simpl. apply lookup_insert_eq.
    + simpl. apply lookup_insert_eq.
  - intros bs0 off w1' Hfs Hfd0.
    erewrite (Hread bs0 off); try done.
    + by eexists.
    + rewrite Hfs. apply lookup_insert_eq.
Qed.

(** ** The registry between calls *)

Lemma propagate_system_errno_eq default_errno w :
  propagate_system_errno default_errno w
  = Ret (set_blobstore_errno (error_of_errno default_errno (errno w)) w) tt.
Proof.
  unfold propagate_system_errno. rewrite bind_eq. cbn [get_world].
  destruct (errno w); rewrite bind_eq; reflexivity.
Qed.


(** *** A new descriptor is a fresh one *)

Lemma lowest_free_occupied (t : gmap Z (string * Z)) fuel from :
  is_Some (t !! lowest_free t from fuel) →
  ∀ k, from ≤ k ≤ from + Z.of_nat fuel → is_Some (t !! k).
Proof.
  revert from. induction fuel as [|fuel IH]; intros from; simpl.
  - intros H k Hk. by replace k with from by lia.
  - destruct (decide (is_Some (t !! from))) as [Hfrom|Hfrom]; [|done].
    intros H k Hk. destruct (decide (k = from)) as [->|Hne]; [done|].
    apply (IH (from + 1) H). lia.
Qed.

Lemma lowest_free_free (t : gmap Z (string * Z)) :
  t !! lowest_free t 0 (size t) = None.
Proof.
  apply eq_None_not_Some. intros H.
  pose proof (lowest_free_occupied t (size t) 0 H) as Hall.
  set (ks := Z.of_nat <$> seq 0 (S (size t))).
  assert (Hsub : (list_to_set ks : gset Z) ⊆ dom t).
  { intros k Hk. apply elem_of_list_to_set in Hk. apply elem_of_dom.
    apply list_elem_of_fmap in Hk as (n & -> & Hn). apply elem_of_seq in Hn.
    apply Hall. lia. }
  apply subseteq_size in Hsub. rewrite size_dom in Hsub.
  rewrite size_list_to_set in Hsub.
  - unfold ks in Hsub. rewrite length_fmap, length_seq in Hsub. lia.
  - unfold ks. apply NoDup_fmap; [apply _|]. apply NoDup_seq.
Qed.

(** [open]: it fails and changes [errno] alone, or it returns a descriptor
    that was not open. *)
Lemma sys_open_cases (path : string) o mode w :
  (∃ e, sys_open path o mode w = Ret (set_errno e w) (-1))
  ∨ (∃ w', sys_open path o mode w = Ret w' (lowest_free (w_fdt w) 0 (size (w_fdt w)))
         ∧ w_fdt w' = <[lowest_free (w_fdt w) 0 (size (w_fdt w)) := (path, 0)]> (w_fdt w)
         ∧ locks_list w' = locks_list w ∧ _blobstore_errno w' = _blobstore_errno w
         ∧ w_time w' = w_time w ∧ is_file (w_fs w' !! path) || is_dir (w_fs w' !! path) = true
         ∧ (has_flag o O_CREAT = false → w' = set_fdt (w_fdt w') w)).
Proof.
  unfold sys_open, fail_with, alloc_fd. rewrite bind_eq. simpl.
  destruct (w_fs w !! path) as [[d t|]|] eqn:Hp.
  - destruct (_ && _); [left; by eexists|]. right. eexists. split; [done|]. simpl.
    rewrite Hp. by repeat split.
  - destruct (_ && _); [left; by eexists|].
    destruct (_ || _) eqn:Hc; [left; by eexists|]. right. eexists. split; [done|]. simpl.
    rewrite Hp. by repeat split.
  - destruct (has_flag o O_CREAT) eqn:Hc; [|left; by eexists].
    destruct (parent_ok (w_fs w) path); [|left; by eexists].
    right. rewrite bind_eq. simpl. eexists. split; [done|]. simpl.
    rewrite lookup_insert_eq. by repeat split.
Qed.

(** *** The wait for the lock *)

Lemma set_time_same w : set_time (w_time w) w = w.
Proof. by destruct w. Qed.

Lemma lock_loop_S fuel i lt fd timeout_usec deadline acquired :
  lock_loop (E:=E) (S fuel) i lt fd timeout_usec deadline acquired
  = (w ← get_world;
     match locks_list w !! i with
     | None => fault
     | Some l =>
         let try := match lt with
                    | F_WRLCK => pthread_rwlock_trywrlock (l_lock l)
                    | F_RDLCK => pthread_rwlock_tryrdlock (l_lock l)
                    end in
         let continue (acquired : bool) : M E lock_result :=
           now ← time_usec;
           if negb (timeout_usec =? BLOBSTORE_NO_TIMEOUT) && (deadline <=? now) then
             err BLOBSTORE_ERROR_AGAIN;; mret (Failed acquired)
           else
             usleep BLOBSTORE_SLEEP_INTERVAL_MS;;
             lock_loop fuel i lt fd timeout_usec deadline acquired in
         match try with
         | Some k =>
             modify (set_locks (<[i:=set_lock k l]> (locks_list w)));;
             modify (set_errno E_OK);;
             rc ← sys_fcntl_setlk fd lt;
             if rc =? 0 then mret Locked
             else
               w' ← get_world;
               if decide (errno w' = EAGAIN) then continue true
               else propagate_system_errno BLOBSTORE_ERROR_UNKNOWN;; mret (Failed true)
         | None => continue acquired
         end
     end).
Proof. done. Qed.

(** While the read-write lock is busy the loop sleeps, and at the deadline
    it gives up: nothing but the clock and [_blobstore_errno] has changed. *)
Lemma lock_loop_busy fuel i lt fd timeout_usec deadline acquired w l :
  locks_list w !! i = Some l →
  match lt with
  | F_WRLCK => pthread_rwlock_trywrlock (l_lock l)
  | F_RDLCK => pthread_rwlock_tryrdlock (l_lock l)
  end = None →
  timeout_usec ≠ BLOBSTORE_NO_TIMEOUT →
  deadline - w_time w ≤ BLOBSTORE_SLEEP_INTERVAL_MS * Z.of_nat fuel →
  ∃ t', lock_loop (S fuel) i lt fd timeout_usec deadline acquired w
        = Ret (set_blobstore_errno BLOBSTORE_ERROR_AGAIN (set_time t' w)) (Failed acquired)
      ∧ w_time w ≤ t' ∧ deadline ≤ t'.
Proof.
  intros Hl Htry Hto. revert w Hl. induction fuel as [|fuel IH]; intros w Hl Hfuel.
  - exists (w_time w). rewrite lock_loop_S, bind_eq. simpl. rewrite Hl, Htry.
    rewrite bind_eq. simpl.
    destruct (Z.eqb_spec timeout_usec BLOBSTORE_NO_TIMEOUT); [done|]. simpl.
    unfold BLOBSTORE_SLEEP_INTERVAL_MS in Hfuel.
    destruct (Z.leb_spec deadline (w_time w)); [|lia].
    rewrite set_time_same. split; [done|]. lia.
  - rewrite lock_loop_S, bind_eq. cbn [get_world]. rewrite Hl. cbv beta iota zeta.
    rewrite Htry. rewrite bind_eq. cbn [time_usec].
    destruct (Z.eqb_spec timeout_usec BLOBSTORE_NO_TIMEOUT); [done|]. cbn [negb andb].
    destruct (Z.leb_spec deadline (w_time w)).
    + exists (w_time w). rewrite set_time_same. split; [done|]. lia.
    + rewrite bind_eq. unfold usleep, modify.
      destruct (IH (set_time (w_time w + BLOBSTORE_SLEEP_INTERVAL_MS) w)) as (t' & -> & Ht1 & Ht2).
      * done.
      * simpl. unfold BLOBSTORE_SLEEP_INTERVAL_MS in *. lia.
      * exists t'. split; [done|]. simpl in Ht1. unfold BLOBSTORE_SLEEP_INTERVAL_MS in Ht1. lia.
Qed.

Lemma lock_fuel_enough timeout_usec w :
  ∃ fuel, lock_fuel timeout_usec = S fuel
        ∧ (w_time w + timeout_usec) - w_time w ≤ BLOBSTORE_SLEEP_INTERVAL_MS * Z.of_nat fuel.
Proof.
  unfold lock_fuel, BLOBSTORE_SLEEP_INTERVAL_MS.
  exists (S (Z.to_nat (timeout_usec / 99))). split; [lia|].
  destruct (Z.le_gt_cases 0 timeout_usec) as [Hpos|Hneg]; [|lia].
  pose proof (Z.div_pos timeout_usec 99 Hpos). pose proof (Z.mod_pos_bound timeout_usec 99).
  pose proof (Z.div_mod timeout_usec 99). lia.
Qed.

(** *** The paths through [open_and_lock] *)

Lemma alter_insert_eq {A} (f : A → A) (xs : list A) (i : nat) (x : A) :
  alter f i (<[i:=x]> xs) = <[i:=f x]> xs.
Proof.
  revert i. induction xs as [|y xs IH]; intros [|i]; simpl; try done.
  f_equal. apply IH.
Qed.

Lemma set_refs_restore l : set_refs (l_refs l + 1 - 1) (set_refs (l_refs l + 1) l) = l.
Proof. destruct l. unfold set_refs. simpl. f_equal. lia. Qed.

Section open_and_lock_paths.
Context (path : string) (flags timeout_usec mode : Z) (lt : lock_type) (o : Z) (w : world E).
Context (i : nat) (is_new : bool) (ll : list blobstore_filelock) (l : blobstore_filelock).
Hypothesis Hmode : lock_mode flags = Some (lt, o).
Hypothesis Hsel :
  match find_lock path (locks_list w) with
  | Some j => (j, false, locks_list w)
  | None => (length (locks_list w), true, locks_list w ++ [new_filelock path lt])
  end = (i, is_new, ll).
Hypothesis Hl : ll !! i = Some l.
Hypothesis Hroom : l_next_fd l ≠ BLOBSTORE_MAX_CONCURRENT.
Hypothesis Htype : l_type l = lt.
Hypothesis Hrefs : if is_new then l = new_filelock path lt else 0 < l_refs l.

(** The registry while the call is under way: the entry is there and
    counts one reference more. *)
Let ll1 : list blobstore_filelock := <[i:=set_refs (l_refs l + 1) l]> ll.

Lemma open_and_lock_entry :
  open_and_lock path flags timeout_usec mode w
  = (fd ← sys_open path o mode;
     if fd =? -1 then
       propagate_system_errno BLOBSTORE_ERROR_UNKNOWN;;
       open_and_lock_error i is_new false fd
     else
       r ← lock_loop (lock_fuel timeout_usec) i lt fd timeout_usec
             (w_time w + timeout_usec) false;
       match r with
       | Locked =>
           modify (λ w, set_locks (alter (push_fd fd) i (locks_list w)) w);;
           mret fd
       | Failed acquired => open_and_lock_error i is_new acquired fd
       end) (set_locks ll1 w).
Proof.
  unfold open_and_lock. rewrite bind_eq. cbn [time_usec]. rewrite Hmode.
  rewrite bind_eq. cbn [get_world]. rewrite Hsel. rewrite bind_eq. cbn [modify].
  rewrite Hl. rewrite decide_False by done. rewrite decide_False by (by intros H; apply H).
  rewrite bind_eq. done.
Qed.

Lemma ll1_lookup : ll1 !! i = Some (set_refs (l_refs l + 1) l).
Proof. unfold ll1. apply list_lookup_insert_eq. by eapply lookup_lt_Some. Qed.

(** What the code after [error:] leaves: the registry as the call found it. *)
Lemma open_and_lock_error_restores w2 :
  locks_list w2 = ll1 →
  open_and_lock_error i is_new false (-1) w2 = Ret (set_locks (locks_list w) w2) (-1)
  ∧ ∀ fd x, 0 ≤ fd → w_fdt w2 !! fd = Some x →
      open_and_lock_error i is_new false fd w2
      = Ret (set_locks (locks_list w) (set_fdt (delete fd (w_fdt w2)) w2)) (-1).
Proof.
  intros H2.
  assert (Hback : (if is_new then delete i ll1 else <[i:=l]> ll1) = locks_list w
                  ∧ (is_new = true → l_next_fd l = 0%nat ∧ l_refs l = 0)).
  { unfold ll1. destruct (find_lock path (locks_list w)) as [j|].
    - injection Hsel as <- <- <-. rewrite list_insert_insert_eq. split; [|done].
      by apply list_insert_id.
    - injection Hsel as <- <- <-. rewrite Hrefs. split; [|done].
      rewrite insert_app_r_alt by lia. rewrite Nat.sub_diag. simpl.
      rewrite delete_middle. by rewrite app_nil_r. }
  destruct Hback as [Hback Hnew].
  assert (Hrun : ∀ w3, locks_list w3 = ll1 →
    (let l' := set_refs (l_refs (set_refs (l_refs l + 1) l) - 1) (set_refs (l_refs l + 1) l) in
     if l_refs l' =? 0 then
       if is_new then
         modify (λ w, set_locks (delete i (locks_list w)) w);;
         close_and_free_filelock l';; mret (-1)
       else fault
     else modify (λ w, set_locks (<[i:=l']> (locks_list w)) w);; mret (-1)) w3
    = Ret (set_locks (locks_list w) w3) (-1)).
  { intros w3 H3. cbv zeta.
    change (l_refs (set_refs (l_refs l + 1) l)) with (l_refs l + 1).
    rewrite set_refs_restore.
    destruct is_new.
    - destruct (Hnew eq_refl) as [Hn Hr]. rewrite Hr. simpl.
      rewrite !bind_eq. cbn [modify]. unfold close_and_free_filelock. rewrite Hn. simpl.
      by rewrite H3, Hback.
    - destruct (Z.eqb_spec (l_refs l) 0); [lia|].
      rewrite bind_eq. cbn [modify]. by rewrite H3, Hback. }
  split.
  - unfold open_and_lock_error. rewrite bind_eq. cbn [get_world].
    rewrite H2, ll1_lookup. change (0 <=? -1) with false. cbv beta iota zeta.
    rewrite bind_eq, ret_eq. by apply Hrun.
  - intros fd x Hfd Hx. unfold open_and_lock_error. rewrite bind_eq. cbn [get_world].
    rewrite H2, ll1_lookup. destruct (Z.leb_spec 0 fd); [|lia]. cbv beta iota zeta.
    rewrite !bind_eq, sys_close_eq, Hx, ret_eq. by apply Hrun.
Qed.

(** [open] fails: the error of the system is reported and nothing else is
    left of the call. *)
Lemma open_and_lock_open_fails e :
  sys_open path o mode (set_locks ll1 w) = Ret (set_errno e (set_locks ll1 w)) (-1) →
  open_and_lock path flags timeout_usec mode w
  = Ret (set_blobstore_errno (error_of_errno BLOBSTORE_ERROR_UNKNOWN e) (set_errno e w)) (-1).
Proof.
  intros Hopen. rewrite open_and_lock_entry, bind_eq, Hopen.
  change (-1 =? -1) with true. cbv beta iota.
  rewrite bind_eq, propagate_system_errno_eq.
  match goal with |- context [open_and_lock_error _ _ _ _ ?w2] =>
    destruct (open_and_lock_error_restores w2 eq_refl) as [-> _] end.
  by destruct w.
Qed.

(** The file is open but the read-write lock is busy. *)
Lemma open_and_lock_busy w2 :
  sys_open path o mode (set_locks ll1 w) = Ret w2 (lowest_free (w_fdt w) 0 (size (w_fdt w))) →
  w_fdt w2 = <[lowest_free (w_fdt w) 0 (size (w_fdt w)) := (path, 0)]> (w_fdt w) →
  locks_list w2 = ll1 → w_time w2 = w_time w →
  match lt with
  | F_WRLCK => pthread_rwlock_trywrlock (l_lock l)
  | F_RDLCK => pthread_rwlock_tryrdlock (l_lock l)
  end = None →
  timeout_usec ≠ BLOBSTORE_NO_TIMEOUT →
  ∃ t', open_and_lock path flags timeout_usec mode w
        = Ret (set_locks (locks_list w)
                 (set_fdt (w_fdt w)
                    (set_blobstore_errno BLOBSTORE_ERROR_AGAIN (set_time t' w2)))) (-1)
      ∧ w_time w + timeout_usec ≤ t'.
Proof.
  intros Hopen Hfdt Hll Htime Htry Hto. rewrite open_and_lock_entry, bind_eq, Hopen.
  pose proof (lowest_free_ge (w_fdt w) 0 (size (w_fdt w))) as Hge.
  destruct (Z.eqb_spec (lowest_free (w_fdt w) 0 (size (w_fdt w))) (-1)); [lia|].
  destruct (lock_fuel_enough timeout_usec w) as (fuel & -> & Hfuel).
  destruct (lock_loop_busy fuel i lt (lowest_free (w_fdt w) 0 (size (w_fdt w))) timeout_usec
              (w_time w + timeout_usec) false w2 (set_refs (l_refs l + 1) l))
    as (t' & Hloop & Ht1 & Ht2).
  - rewrite Hll. apply ll1_lookup.
  - done.
  - done.
  - by rewrite Htime.
  - rewrite bind_eq, Hloop.
    match goal with |- context [open_and_lock_error _ _ _ _ ?w3] =>
      destruct (open_and_lock_error_restores w3 Hll) as [_ Herr] end.
    rewrite (Herr _ (path, 0) Hge); [|simpl; rewrite Hfdt; apply lookup_insert_eq].
    exists t'. split; [|done]. simpl. rewrite Hfdt, delete_insert_id; [done|].
    apply lowest_free_free.
Qed.

(** The file is open and the read-write lock is free: the descriptor is
    entered in the table. *)
Lemma open_and_lock_free w2 k :
  sys_open path o mode (set_locks ll1 w) = Ret w2 (lowest_free (w_fdt w) 0 (size (w_fdt w))) →
  locks_list w2 = ll1 →
  match lt with
  | F_WRLCK => pthread_rwlock_trywrlock (l_lock l)
  | F_RDLCK => pthread_rwlock_tryrdlock (l_lock l)
  end = Some k →
  let fd := lowest_free (w_fdt w) 0 (size (w_fdt w)) in
  open_and_lock path flags timeout_usec mode w
  = Ret (set_locks (<[i:=push_fd fd (set_lock k (set_refs (l_refs l + 1) l))]> ll)
           (set_errno E_OK w2)) fd.
Proof.
  intros Hopen Hll Htry fd. rewrite open_and_lock_entry, bind_eq, Hopen.
  pose proof (lowest_free_ge (w_fdt w) 0 (size (w_fdt w))) as Hge. fold fd in Hge |- *.
  destruct (Z.eqb_spec fd (-1)); [lia|].
  destruct (lock_fuel_S timeout_usec) as [fuel ->].
  rewrite bind_eq.
  rewrite (lock_loop_free w2 fuel i lt fd timeout_usec _ false (set_refs (l_refs l + 1) l) k);
    [|rewrite Hll; apply ll1_lookup|done].
  rewrite bind_eq. cbn [modify]. rewrite ret_eq. f_equal.
  simpl. rewrite Hll. unfold ll1. rewrite list_insert_insert_eq.
  by rewrite alter_insert_eq.
Qed.

End open_and_lock_paths.

(** *** The invariant *)

Lemma table_fds_push fd l :
  (l_next_fd l < length (l_fd l))%nat → table_fds (push_fd fd l) = table_fds l ++ [fd].
Proof.
  intros Hlt. unfold table_fds. simpl.
  rewrite (take_S_r _ _ fd) by (by apply list_lookup_insert_eq).
  by rewrite take_insert_ge.
Qed.

Lemma helds_snoc fds sts fd :
  length fds = length sts → helds (fds ++ [fd]) (sts ++ [1]) = helds fds sts ++ [fd].
Proof.
  intros Hlen. unfold helds. rewrite zip_with_app by done. simpl.
  rewrite filter_app, fmap_app. f_equal.
Qed.

Lemma held_fds_push fd l :
  (l_next_fd l < length (l_fd l))%nat → (l_next_fd l < length (l_fd_status l))%nat →
  held_fds (push_fd fd l) = held_fds l ++ [fd].
Proof.
  intros H1 H2. unfold held_fds. rewrite table_fds_push by done. simpl.
  rewrite (take_S_r _ _ 1) by (by apply list_lookup_insert_eq).
  rewrite take_insert_ge by done. apply helds_snoc.
  unfold table_fds. rewrite !length_take. lia.
Qed.

Lemma wf_filelock_push fd k l :
  l_next_fd l ≠ BLOBSTORE_MAX_CONCURRENT →
  (l_next_fd l ≤ BLOBSTORE_MAX_CONCURRENT)%nat →
  length (l_fd l) = BLOBSTORE_MAX_CONCURRENT →
  length (l_fd_status l) = BLOBSTORE_MAX_CONCURRENT →
  l_refs l = Z.of_nat (length (held_fds l)) →
  wf_filelock (push_fd fd (set_lock k (set_refs (l_refs l + 1) l))).
Proof.
  intros Hne Hle Hl1 Hl2 Hrefs. unfold wf_filelock.
  rewrite held_fds_push by (simpl; lia). simpl. rewrite !length_insert.
  change (held_fds (set_lock k (set_refs (l_refs l + 1) l))) with (held_fds l).
  rewrite length_app. simpl. repeat split; lia.
Qed.

Lemma bind_insert_push ll i l l' fd :
  ll !! i = Some l → table_fds l' = table_fds l ++ [fd] →
  <[i:=l']> ll ≫= table_fds ≡ₚ fd :: (ll ≫= table_fds).
Proof.
  intros Hi Ht. destruct (list_elem_of_split_length _ _ _ Hi) as (l1 & l2 & -> & ->).
  rewrite insert_app_r_alt by lia. rewrite Nat.sub_diag. simpl.
  rewrite !bind_app, !bind_cons, Ht.
  generalize (l1 ≫= table_fds) (table_fds l) (l2 ≫= table_fds). intros A B C.
  rewrite <- (app_assoc B [fd] C). simpl. rewrite !(app_assoc A B).
  symmetry. apply Permutation_middle.
Qed.

(** A descriptor that was not open is entered in the table of an entry. *)
Lemma wf_registry_push w w' ll i l l' fd x :
  NoDup (l_path <$> ll) →
  (∀ j lj, ll !! j = Some lj → j ≠ i → wf_filelock lj) →
  NoDup (ll ≫= table_fds) →
  Forall (λ fd, 0 ≤ fd ∧ is_Some (w_fdt w !! fd)) (ll ≫= table_fds) →
  ll !! i = Some l → l_path l' = l_path l → wf_filelock l' →
  table_fds l' = table_fds l ++ [fd] →
  0 ≤ fd → w_fdt w !! fd = None →
  w_fdt w' = <[fd:=x]> (w_fdt w) → locks_list w' = <[i:=l']> ll →
  wf_registry w'.
Proof.
  intros Hpaths Hwf Hnd Hopen Hi Hp Hwfl Ht Hfd Hfree Hfdt Hll.
  unfold wf_registry. rewrite Hll, Hfdt. repeat split.
  - rewrite list_fmap_insert, Hp. rewrite list_insert_id; [done|].
    by rewrite list_lookup_fmap, Hi.
  - apply Forall_lookup. intros j lj Hj. destruct (decide (j = i)) as [->|Hne].
    + rewrite list_lookup_insert_eq in Hj by (by eapply lookup_lt_Some). by injection Hj as <-.
    + rewrite list_lookup_insert_ne in Hj by done. by eapply Hwf.
  - rewrite (bind_insert_push ll i l l' fd) by done. apply NoDup_cons. split; [|done].
    intros Hin. rewrite Forall_forall in Hopen. destruct (Hopen fd Hin) as [_ [y Hy]].
    congruence.
  - rewrite (bind_insert_push ll i l l' fd) by done. apply Forall_cons. split.
    + split; [done|]. rewrite lookup_insert_eq. by eexists.
    + eapply Forall_impl; [done|]. intros y [Hy1 [z Hy2]]. split; [done|].
      destruct (decide (y = fd)) as [->|Hne]; [congruence|].
      rewrite lookup_insert_ne by done. by eexists.
Qed.

Lemma wf_registry_same w w' :
  locks_list w' = locks_list w → w_fdt w' = w_fdt w → wf_registry w → wf_registry w'.
Proof. intros Hl Hf. unfold wf_registry. by rewrite Hl, Hf. Qed.

Lemma registry_ok_same w w' :
  locks_list w' = locks_list w → w_fdt w' = w_fdt w → registry_ok w → registry_ok w'.
Proof.
  intros Hl Hf [Hwf Hag]. split; [by eapply wf_registry_same|]. by rewrite Hl.
Qed.

Lemma try_lock_agrees lt l k :
  l_type l = lt →
  match lt with
  | F_WRLCK => pthread_rwlock_trywrlock (l_lock l)
  | F_RDLCK => pthread_rwlock_tryrdlock (l_lock l)
  end = Some k →
  ∀ fd r, lock_agrees (push_fd fd (set_lock k (set_refs r l))).
Proof.
  intros Ht Hk fd r. unfold lock_agrees. simpl. rewrite Ht. destruct lt.
  - unfold pthread_rwlock_tryrdlock in Hk. destruct (rw_writer (l_lock l)); [done|].
    by injection Hk as <-.
  - unfold pthread_rwlock_trywrlock in Hk. destruct (_ || _); [done|].
    by injection Hk as <-.
Qed.

Lemma error_of_errno_not_ok e : error_of_errno BLOBSTORE_ERROR_UNKNOWN e ≠ BLOBSTORE_ERROR_OK.
Proof. by destruct e. Qed.

Lemma descriptors_held_at w (path : string) i l :
  find_lock path (locks_list w) = Some i → locks_list w !! i = Some l →
  descriptors_held w path = held_fds l.
Proof. intros Hf Hl. unfold descriptors_held. by rewrite Hf, Hl. Qed.

Lemma open_and_lock_registry w (path : string) (flags timeout_usec mode : Z) :
  registry_ok w → timeout_usec ≠ BLOBSTORE_NO_TIMEOUT →
  ∃ w' fd, open_and_lock path flags timeout_usec mode w = Ret w' fd
    ∧ registry_ok w'
    ∧ (fd = -1 → locks_list w' = locks_list w ∧ w_fdt w' = w_fdt w
                 ∧ _blobstore_errno w' ≠ BLOBSTORE_ERROR_OK)
    ∧ (fd ≠ -1 → 0 ≤ fd ∧ w_fdt w !! fd = None
                 ∧ descriptors_held w' path = descriptors_held w path ++ [fd]).
Proof.
  intros Hok Hto. pose proof Hok as [Hwf Hag].
  destruct Hwf as (Hpaths & Hwfl & Hnd & Hopen).
  destruct (lock_mode flags) as [[lt o]|] eqn:Hmode.
  2: { exists (set_blobstore_errno BLOBSTORE_ERROR_INVAL w), (-1).
       unfold open_and_lock. rewrite bind_eq. cbn [time_usec]. rewrite Hmode.
       split; [done|]. split; [by apply (registry_ok_same w)|]. by split. }
  pose proof (lowest_free_ge (w_fdt w) 0 (size (w_fdt w))) as Hge.
  pose proof (lowest_free_free (w_fdt w)) as Hfree.
  destruct (find_lock path (locks_list w)) as [i|] eqn:Hfind.
  - (* an entry for the path exists *)
    destruct (find_lock_Some _ _ _ Hfind) as (l & Hl & Hpath).
    pose proof (Forall_lookup_1 _ _ _ _ Hwfl Hl) as Hwl.
    pose proof (Forall_lookup_1 _ _ _ _ Hag Hl) as Hal.
    destruct Hwl as (Hle & Hlen1 & Hlen2 & Hrefs & Hpos).
    destruct (decide (l_next_fd l = BLOBSTORE_MAX_CONCURRENT)) as [Hfull|Hroom].
    { eexists _, (-1). split; [by eapply open_and_lock_table_full|].
      split; [by apply (registry_ok_same w)|]. by split. }
    destruct (decide (l_type l = lt)) as [Htype|Htype].
    2: { exists (set_blobstore_errno BLOBSTORE_ERROR_INVAL w), (-1).
         unfold open_and_lock. rewrite bind_eq. cbn [time_usec]. rewrite Hmode.
         rewrite bind_eq. cbn [get_world]. rewrite Hfind. rewrite bind_eq. cbn [modify].
         rewrite Hl. rewrite decide_False by done. rewrite decide_True by done.
         rewrite set_locks_same. split; [done|].
         split; [by apply (registry_ok_same w)|]. by split. }
    assert (Hsel : match find_lock path (locks_list w) with
                   | Some j => (j, false, locks_list w)
                   | None => (length (locks_list w), true,
                              locks_list w ++ [new_filelock path lt])
                   end = (i, false, locks_list w)) by (by rewrite Hfind).
    destruct (sys_open_cases path o mode
                (set_locks (<[i:=set_refs (l_refs l + 1) l]> (locks_list w)) w))
      as [[e He]|(w2 & Ho & Hfdt & Hll & Herr & Htime & _)].
    { eexists _, (-1). split.
      - by apply (open_and_lock_open_fails path flags timeout_usec mode lt o w i false
                    (locks_list w) l).
      - split; [by apply (registry_ok_same w)|]. split; [|done]. intros _.
        split; [done|]. split; [done|]. apply error_of_errno_not_ok. }
    simpl in Ho, Hfdt, Hll, Htime. unfold lock_agrees in Hal. rewrite Htype in Hal.
    destruct lt.
    + (* a reader joins the readers *)
      assert (Htry : pthread_rwlock_tryrdlock (l_lock l)
                     = Some {| rw_readers := S (rw_readers (l_lock l)); rw_writer := false |}).
      { unfold pthread_rwlock_tryrdlock. by rewrite Hal. }
      eexists _, _. split.
      { by apply (open_and_lock_free path flags timeout_usec mode F_RDLCK o w i false
                    (locks_list w) l Hmode Hsel Hl Hroom Htype w2 _ Ho Hll Htry). }
      split.
      { split.
        - apply (wf_registry_push w _ (locks_list w) i l
                   (push_fd (lowest_free (w_fdt w) 0 (size (w_fdt w)))
                      (set_lock {| rw_readers := S (rw_readers (l_lock l)); rw_writer := false |}
                         (set_refs (l_refs l + 1) l)))
                   (lowest_free (w_fdt w) 0 (size (w_fdt w))) (path, 0));
            [done| |done|done|done|done| | |done|done|done|done].
          + intros j lj Hj _. by eapply Forall_lookup_1.
          + by apply wf_filelock_push.
          + rewrite table_fds_push; [done|]. simpl. lia.
        - simpl. apply Forall_insert; [done|]. by eapply try_lock_agrees. }
      split; [lia|]. intros _. split; [done|]. split; [done|].
      rewrite (descriptors_held_at w path i l) by done.
      rewrite (descriptors_held_at _ path i
                 (push_fd (lowest_free (w_fdt w) 0 (size (w_fdt w)))
                    (set_lock {| rw_readers := S (rw_readers (l_lock l)); rw_writer := false |}
                       (set_refs (l_refs l + 1) l)))).
      * rewrite held_fds_push by (simpl; lia). done.
      * simpl. by erewrite find_lock_insert.
      * simpl. apply list_lookup_insert_eq. by eapply lookup_lt_Some.
    + (* a writer finds the lock taken *)
      assert (Htry : pthread_rwlock_trywrlock (l_lock l) = None).
      { unfold pthread_rwlock_trywrlock. by rewrite Hal. }
      destruct (open_and_lock_busy path flags timeout_usec mode F_WRLCK o w i false
                  (locks_list w) l Hmode Hsel Hl Hroom Htype Hpos w2 Ho Hfdt Hll Htime Htry Hto)
        as (t' & -> & _).
      eexists _, (-1). split; [done|].
      split; [by apply (registry_ok_same w)|]. by split.
  - (* the path is new to the registry *)
    set (l := new_filelock path lt). set (i := length (locks_list w)).
    set (ll := locks_list w ++ [l]).
    assert (Hsel : match find_lock path (locks_list w) with
                   | Some j => (j, false, locks_list w)
                   | None => (length (locks_list w), true,
                              locks_list w ++ [new_filelock path lt])
                   end = (i, true, ll)) by (by rewrite Hfind).
    assert (Hl : ll !! i = Some l) by (by apply list_lookup_middle).
    assert (Hroom : l_next_fd l ≠ BLOBSTORE_MAX_CONCURRENT) by done.
    destruct (sys_open_cases path o mode (set_locks (<[i:=set_refs (l_refs l + 1) l]> ll) w))
      as [[e He]|(w2 & Ho & Hfdt & Hll & Herr & Htime & _)].
    { eexists _, (-1). split.
      - by apply (open_and_lock_open_fails path flags timeout_usec mode lt o w i true ll l).
      - split; [by apply (registry_ok_same w)|]. split; [|done]. intros _.
        split; [done|]. split; [done|]. apply error_of_errno_not_ok. }
    simpl in Ho, Hfdt, Hll, Htime.
    assert (∃ k, match lt with
                 | F_WRLCK => pthread_rwlock_trywrlock (l_lock l)
                 | F_RDLCK => pthread_rwlock_tryrdlock (l_lock l)
                 end = Some k) as [k Htry] by (destruct lt; by eexists).
    eexists _, _. split.
    { by apply (open_and_lock_free path flags timeout_usec mode lt o w i true ll l
                  Hmode Hsel Hl Hroom eq_refl w2 k Ho Hll Htry). }
    apply find_lock_None in Hfind.
    split.
    { split.
      - apply (wf_registry_push w _ ll i l
                 (push_fd (lowest_free (w_fdt w) 0 (size (w_fdt w)))
                    (set_lock k (set_refs (l_refs l + 1) l)))
                 (lowest_free (w_fdt w) 0 (size (w_fdt w))) (path, 0));
          [ | | | |done|done| | |done|done|done|done].
        + unfold ll. rewrite fmap_app. apply NoDup_app. split; [done|]. split.
          * intros x Hx [->|[]%elem_of_nil]%elem_of_cons. done.
          * apply NoDup_singleton.
        + intros j lj Hj Hne. unfold ll in Hj. apply lookup_app_Some in Hj as [Hj|[Hge' Hj]].
          * by eapply Forall_lookup_1.
          * apply list_lookup_singleton_Some in Hj as [Hj _]. unfold i in Hne. lia.
        + unfold ll. rewrite bind_app. simpl. by rewrite !app_nil_r.
        + unfold ll. rewrite bind_app. simpl. by rewrite !app_nil_r.
        + apply wf_filelock_push;
            [done|simpl; lia|apply length_replicate|apply length_replicate|done].
        + rewrite table_fds_push; [done|]. simpl. lia.
      - simpl. unfold ll, i. rewrite insert_app_r_alt by lia. rewrite Nat.sub_diag. simpl.
        apply Forall_app. split; [done|]. apply Forall_singleton.
        by eapply try_lock_agrees. }
    split; [lia|]. intros _. split; [done|]. split; [done|].
    unfold descriptors_held at 2.
    assert (Hnone : find_lock path (locks_list w) = None) by (by apply find_lock_None).
    rewrite Hnone. unfold descriptors_held. simpl.
    unfold ll, i. rewrite insert_app_r_alt by lia. rewrite Nat.sub_diag. simpl.
    rewrite find_lock_app_new by done. rewrite list_lookup_middle by done. simpl.
    rewrite held_fds_push by (simpl; lia). done.
Qed.

(** X4.  [open_and_lock] keeps the registry in order.  From a registry as
    the calls of one thread leave it, a call with a timeout returns; the
    registry is in order again; a call that fails (-1) has set
    [_blobstore_errno] and has left the registry and the table of open
    descriptors as they were; and a call that succeeds returns a descriptor
    that was not open, now the last of those held for the path. *)
Theorem open_and_lock_keeps_registry w (path : string) (flags timeout_usec mode : Z) :
  registry_ok w → timeout_usec ≠ BLOBSTORE_NO_TIMEOUT →
  ∃ w' fd, open_and_lock path flags timeout_usec mode w = Ret w' fd
    ∧ registry_ok w'
    ∧ (fd = -1 → locks_list w' = locks_list w ∧ w_fdt w' = w_fdt w
                 ∧ _blobstore_errno w' ≠ BLOBSTORE_ERROR_OK)
    ∧ (fd ≠ -1 → 0 ≤ fd ∧ w_fdt w !! fd = None
                 ∧ descriptors_held w' path = descriptors_held w path ++ [fd]).
Proof. apply open_and_lock_registry. Qed.

(** *** Closing *)

Lemma search_fd_FoundAt fd ll k j index :
  search_fd fd ll k = FoundAt j index →
  ∃ l, ll !! (j - k)%nat = Some l ∧ (k ≤ j)%nat ∧ table_fds l !! index = Some fd.
Proof.
  revert k. induction ll as [|l0 ll IH]; intros k; simpl; [done|].
  destruct (decide (l_next_fd l0 ≤ BLOBSTORE_MAX_CONCURRENT)%nat) as [Hb|]; [|done].
  destruct (list_find _ _) as [[idx x]|] eqn:Hfind.
  - intros [= <- <-]. apply list_find_Some in Hfind as (Hidx & -> & _).
    exists l0. rewrite Nat.sub_diag. by repeat split.
  - intros H. destruct (IH _ H) as (l & Hl & Hle & Ht). exists l.
    replace (j - k)%nat with (S (j - S k)) by lia. split; [done|]. split; [lia|done].
Qed.

Lemma search_fd_NotFound fd ll k :
  search_fd fd ll k = NotFound → fd ∉ ll ≫= table_fds.
Proof.
  revert k. induction ll as [|l0 ll IH]; intros k; [intros _; apply not_elem_of_nil|].
  cbn [search_fd].
  destruct (decide (l_next_fd l0 ≤ BLOBSTORE_MAX_CONCURRENT)%nat) as [Hb|]; [|done].
  destruct (list_find _ _) as [[idx x]|] eqn:Hfind; [done|].
  intros H. rewrite bind_cons, elem_of_app. intros [Hin|Hin].
  - apply list_find_None in Hfind. rewrite Forall_forall in Hfind. by apply (Hfind fd).
  - by apply (IH _ H).
Qed.

Lemma elem_of_descriptors_held w (path : string) x :
  NoDup (l_path <$> locks_list w) →
  x ∈ descriptors_held w path
  ↔ ∃ l, l ∈ locks_list w ∧ l_path l = path ∧ x ∈ held_fds l.
Proof.
  intros Hnd. unfold descriptors_held. split.
  - destruct (find_lock path (locks_list w)) as [i|] eqn:Hf; [|by intros ?%elem_of_nil].
    destruct (find_lock_Some _ _ _ Hf) as (l & Hl & Hp). rewrite Hl. simpl.
    intros Hx. exists l. split; [by eapply list_elem_of_lookup_2|done].
  - intros (l & Hl & Hp & Hx). apply list_elem_of_lookup in Hl as [i Hi].
    subst path. by rewrite (find_lock_lookup "" _ i l Hnd Hi), Hi.
Qed.

Lemma held_fds_table l x : x ∈ held_fds l → x ∈ table_fds l.
Proof. apply helds_elem_of. Qed.

Lemma close_and_unlock_registry w fd :
  registry_ok w →
  ((∃ path, fd ∈ descriptors_held w path) →
     ∃ w', close_and_unlock fd w = Ret w' 0 ∧ registry_ok w' ∧ w_fs w' = w_fs w
       ∧ (∀ path x, x ∈ descriptors_held w' path ↔ x ∈ descriptors_held w path ∧ x ≠ fd)
       ∧ close_and_unlock fd w' = Ret (set_blobstore_errno BLOBSTORE_ERROR_BADF w') (-1))
  ∧ ((∀ path, fd ∉ descriptors_held w path) →
     close_and_unlock fd w = Ret (set_blobstore_errno BLOBSTORE_ERROR_BADF w) (-1)).
Proof.
  assert (Hfail : ∀ w0, registry_ok w0 → (∀ path, fd ∉ descriptors_held w0 path) →
            close_and_unlock fd w0 = Ret (set_blobstore_errno BLOBSTORE_ERROR_BADF w0) (-1)).
  { intros w0 [(Hpaths & Hwfl & Hnd & Hopen) _] Hnot. unfold close_and_unlock.
    destruct (Z.ltb_spec fd 0); [done|]. rewrite bind_eq. cbn [get_world].
    destruct (search_fd fd (locks_list w0) 0) as [j index| |] eqn:Hs.
    - destruct (search_fd_FoundAt _ _ _ _ _ Hs) as (l & Hl & _ & Ht).
      rewrite Nat.sub_0_r in Hl. rewrite Hl.
      destruct (decide (default 0 (l_fd_status l !! index) = 1)) as [Hst|]; [|done].
      exfalso. apply (Hnot (l_path l)). apply elem_of_descriptors_held; [done|].
      exists l. split; [by eapply list_elem_of_lookup_2|]. split; [done|].
      destruct (l_fd_status l !! index) as [st|] eqn:Hi; simpl in Hst; [subst st|done].
      destruct (held_fds_clear l 0 index fd) as [_ Hheld]; [|done|done|done].
      destruct (list_elem_of_split_length _ _ _ Hl) as (l1 & l2 & Hll & _).
      rewrite Hll, bind_app, bind_cons in Hnd.
      apply NoDup_app in Hnd as (_ & _ & Hnd). by apply NoDup_app in Hnd as (Hnd & _).
    - done.
    - exfalso. apply (search_fd_bounded fd (locks_list w0) 0); [|done].
      eapply Forall_impl; [done|]. by intros l (Hle & _). }
  intros Hok. split; [|by apply Hfail].
  intros [path Hin]. pose proof Hok as [Hwf Hag]. pose proof Hwf as (Hpaths & Hwfl & Hnd & Hopen).
  destruct (descriptors_held_inv _ _ _ Hin) as (i & l & index & Hf & Hl & Ht & Hst).
  destruct (close_and_unlock_held w i l index fd Hwf Hl Ht Hst) as (w' & Hc & Hfs & Hwf' & Hll).
  assert (Hndl : NoDup (table_fds l)).
  { destruct (list_elem_of_split_length _ _ _ Hl) as (l1 & l2 & Hll2 & _).
    rewrite Hll2, bind_app, bind_cons in Hnd.
    apply NoDup_app in Hnd as (_ & _ & Hnd). by apply NoDup_app in Hnd as (Hnd & _). }
  destruct (held_fds_clear l (l_refs l - 1) index fd Hndl Ht Hst) as [Hheld Hfdin].
  assert (Hother : ∀ l0, l0 ∈ locks_list w → l0 ≠ l → fd ∉ table_fds l0).
  { intros l0 Hl0 Hne Hin0. apply list_elem_of_lookup in Hl0 as [j Hj].
    assert (Hij : j ≠ i) by (intros ->; congruence).
    destruct (list_elem_of_split_length _ _ _ Hl) as (l1 & l2 & Hll2 & Hi).
    rewrite Hll2, bind_app, bind_cons in Hnd.
    apply NoDup_app in Hnd as (_ & Hd1 & Hnd). apply NoDup_app in Hnd as (_ & Hd2 & _).
    rewrite Hll2 in Hj. apply lookup_app_Some in Hj as [Hj|[Hge Hj]].
    - apply (Hd1 fd).
      + apply list_elem_of_bind. exists l0. split; [done|]. by eapply list_elem_of_lookup_2.
      + apply elem_of_app. left. by eapply list_elem_of_lookup_2.
    - destruct (j - length l1)%nat as [|m] eqn:Hm; [lia|]. simpl in Hj.
      apply (Hd2 fd); [by eapply list_elem_of_lookup_2|].
      apply list_elem_of_bind. exists l0. split; [done|]. by eapply list_elem_of_lookup_2. }
  assert (Hag' : Forall lock_agrees (locks_list w')).
  { rewrite Hll. destruct (decide (l_refs l = 1)).
    - by apply Forall_delete.
    - apply Forall_insert; [done|]. by apply (Forall_lookup_1 _ _ _ _ Hag Hl). }
  assert (Hchar : ∀ path0 x,
            x ∈ descriptors_held w' path0 ↔ x ∈ descriptors_held w path0 ∧ x ≠ fd).
  { intros path0 x. destruct Hwf' as (Hpaths' & _).
    rewrite !elem_of_descriptors_held by done. rewrite Hll.
    destruct (list_elem_of_split_length _ _ _ Hl) as (l1 & l2 & Hll2 & Hi).
    assert (Hrefs : l_refs l = Z.of_nat (length (held_fds l)) ∧ NoDup (held_fds l)).
    { pose proof (Forall_lookup_1 _ _ _ _ Hwfl Hl) as (_ & _ & _ & Hr & _).
      split; [done|]. by apply helds_NoDup. }
    destruct Hrefs as [Hrefs Hndh].
    pose proof (length_filter_ne _ _ Hndh Hfdin) as Hlenf.
    destruct (decide (l_refs l = 1)) as [H1|H1].
    - (* the entry is gone *)
      rewrite Hll2, Hi, delete_middle. split.
      + intros (l0 & Hl0 & Hp & Hx). split.
        * exists l0. split; [|done]. apply elem_of_app in Hl0 as [?|?];
            apply elem_of_app; [by left|by right; right].
        * intros ->. apply (Hother l0).
          -- rewrite Hll2. apply elem_of_app in Hl0 as [?|?];
               apply elem_of_app; [by left|by right; right].
          -- intros ->. rewrite Hll2, fmap_app, fmap_cons in Hpaths.
             apply NoDup_app in Hpaths as (_ & Hd & Hp2). apply NoDup_cons in Hp2 as [Hn _].
             apply elem_of_app in Hl0 as [Hl0|Hl0].
             ++ apply (Hd (l_path l)); [by apply list_elem_of_fmap_2|left].
             ++ apply Hn. by apply list_elem_of_fmap_2.
          -- by apply held_fds_table.
      + intros [(l0 & Hl0 & Hp & Hx) Hne]. exists l0. split; [|done].
        apply elem_of_app in Hl0 as [?|[->|?]%elem_of_cons];
          [apply elem_of_app; by left| |apply elem_of_app; by right].
        exfalso. assert (Hlen : length (held_fds l) = 1%nat) by lia.
        destruct (held_fds l) as [|y [|z ys]]; simpl in Hlen; try lia.
        apply list_elem_of_singleton in Hfdin, Hx. congruence.
    - (* the entry stays, with the descriptor marked as closed *)
      rewrite Hll2, Hi. rewrite insert_app_r_alt by lia. rewrite Nat.sub_diag. simpl.
      split.
      + intros (l0 & Hl0 & Hp & Hx).
        apply elem_of_app in Hl0 as [Hl0|[->|Hl0]%elem_of_cons].
        * split; [exists l0; split; [apply elem_of_app; by left|done]|].
          intros ->. apply (Hother l0); [rewrite Hll2; apply elem_of_app; by left| |
            by apply held_fds_table].
          intros ->. rewrite Hll2, fmap_app, fmap_cons in Hpaths.
          apply NoDup_app in Hpaths as (_ & Hd & _).
          apply (Hd (l_path l)); [by apply list_elem_of_fmap_2|left].
        * rewrite Hheld in Hx. apply list_elem_of_filter in Hx as [Hne Hx].
          split; [|done]. exists l. split; [apply elem_of_app; right; left|done].
        * split; [exists l0; split; [apply elem_of_app; right; by right|done]|].
          intros ->. apply (Hother l0); [rewrite Hll2; apply elem_of_app; right; by right| |
            by apply held_fds_table].
          intros ->. rewrite Hll2, fmap_app, fmap_cons in Hpaths.
          apply NoDup_app in Hpaths as (_ & _ & Hp2). apply NoDup_cons in Hp2 as [Hn _].
          apply Hn. by apply list_elem_of_fmap_2.
      + intros [(l0 & Hl0 & Hp & Hx) Hne].
        apply elem_of_app in Hl0 as [Hl0|[->|Hl0]%elem_of_cons].
        * exists l0. split; [apply elem_of_app; by left|done].
        * eexists. split; [apply elem_of_app; right; left|]. split; [done|].
          rewrite Hheld. by apply list_elem_of_filter.
        * exists l0. split; [apply elem_of_app; right; by right|done]. }
  exists w'. split; [done|]. split; [done|]. split; [done|]. split; [done|].
  apply Hfail; [done|]. intros path0 Hx. apply Hchar in Hx as [_ Hx]. done.
Qed.

(** X5.  [close_and_unlock] releases the descriptors that are held and no
    others.  On a descriptor that [open_and_lock] returned and that has not
    been closed since it returns 0, keeps the registry in order and the
    files as they are, and the descriptor is held no more, while the others
    are; a second call on it fails.  On any other descriptor, a negative
    one too, it returns -1 and changes [_blobstore_errno] alone, to
    [BLOBSTORE_ERROR_BADF]. *)
Theorem close_and_unlock_releases w fd :
  registry_ok w →
  ((∃ path, fd ∈ descriptors_held w path) →
     ∃ w', close_and_unlock fd w = Ret w' 0 ∧ registry_ok w' ∧ w_fs w' = w_fs w
       ∧ (∀ path x, x ∈ descriptors_held w' path ↔ x ∈ descriptors_held w path ∧ x ≠ fd)
       ∧ close_and_unlock fd w' = Ret (set_blobstore_errno BLOBSTORE_ERROR_BADF w') (-1))
  ∧ ((∀ path, fd ∉ descriptors_held w path) →
     close_and_unlock fd w = Ret (set_blobstore_errno BLOBSTORE_ERROR_BADF w) (-1)).
Proof. apply close_and_unlock_registry. Qed.

(** ** Two calls on one path *)

(** [open] returns a descriptor: the path is a file, or a directory that
    was opened to be read. *)
Lemma sys_open_ok path o mode w w' fd :
  sys_open path o mode w = Ret w' fd → fd ≠ -1 →
  fd = lowest_free (w_fdt w) 0 (size (w_fdt w))
  ∧ w_fdt w' = <[fd := (path, 0)]> (w_fdt w)
  ∧ locks_list w' = locks_list w ∧ w_time w' = w_time w
  ∧ (is_file (w_fs w' !! path) = true
     ∨ is_dir (w_fs w' !! path) = true ∧ has_flag o O_RDWR || has_flag o O_CREAT = false).
Proof.
  unfold sys_open, fail_with, alloc_fd. rewrite bind_eq. simpl.
  destruct (w_fs w !! path) as [[d t|]|] eqn:Hp.
  - destruct (_ && _); [by intros [= <- <-]|]. intros [= <- <-] _. simpl. rewrite Hp.
    repeat split. by left.
  - destruct (_ && _); [by intros [= <- <-]|].
    destruct (_ || _) eqn:Hc; [by intros [= <- <-]|]. intros [= <- <-] _. simpl. rewrite Hp.
    repeat split. by right.
  - destruct (has_flag o O_CREAT) eqn:Hc; [|by intros [= <- <-]].
    destruct (parent_ok (w_fs w) path); [|by intros [= <- <-]].
    rewrite bind_eq. simpl. intros [= <- <-] _. simpl. rewrite lookup_insert_eq.
    repeat split. by left.
Qed.

(** [open] of what is there, not to create it. *)
Lemma sys_open_there path o mode w :
  is_file (w_fs w !! path) = true
  ∨ is_dir (w_fs w !! path) = true ∧ has_flag o O_RDWR || has_flag o O_CREAT = false →
  has_flag o O_CREAT && has_flag o O_EXCL = false →
  sys_open path o mode w
  = let fd := lowest_free (w_fdt w) 0 (size (w_fdt w)) in
    Ret (set_fdt (<[fd := (path, 0)]> (w_fdt w)) w) fd.
Proof.
  intros Hp Hx. unfold sys_open. rewrite bind_eq. simpl.
  destruct (w_fs w !! path) as [[d t|]|]; simpl in Hp.
  - by rewrite Hx.
  - destruct Hp as [|[_ ->]]; [done|]. by rewrite Hx.
  - by destruct Hp as [|[]].
Qed.

Lemma open_and_lock_type_mismatch w path flags timeout_usec mode lt o i l :
  lock_mode flags = Some (lt, o) →
  find_lock path (locks_list w) = Some i → locks_list w !! i = Some l →
  l_next_fd l ≠ BLOBSTORE_MAX_CONCURRENT → l_type l ≠ lt →
  open_and_lock path flags timeout_usec mode w
  = Ret (set_blobstore_errno BLOBSTORE_ERROR_INVAL w) (-1).
Proof.
  intros Hmode Hfind Hl Hroom Htype.
  unfold open_and_lock. rewrite bind_eq. cbn [time_usec]. rewrite Hmode.
  rewrite bind_eq. cbn [get_world]. rewrite Hfind. rewrite bind_eq. cbn [modify].
  rewrite Hl. rewrite decide_False by done. rewrite decide_True by done.
  by rewrite set_locks_same.
Qed.

(** The first descriptor of a path: what the call leaves. *)
Lemma open_and_lock_first w path flags timeout_usec mode lt o w1 fd :
  lock_mode flags = Some (lt, o) → find_lock path (locks_list w) = None →
  open_and_lock path flags timeout_usec mode w = Ret w1 fd → fd ≠ -1 →
  fd = lowest_free (w_fdt w) 0 (size (w_fdt w))
  ∧ locks_list w1
    = locks_list w ++ [push_fd fd (set_lock (taken lt) (set_refs 1 (new_filelock path lt)))]
  ∧ w_fdt w1 = <[fd := (path, 0)]> (w_fdt w) ∧ w_time w1 = w_time w
  ∧ (is_file (w_fs w1 !! path) = true
     ∨ is_dir (w_fs w1 !! path) = true ∧ has_flag o O_RDWR || has_flag o O_CREAT = false).
Proof.
  intros Hmode Hfind Hrun Hfd.
  set (l := new_filelock path lt). set (i := length (locks_list w)).
  set (ll := locks_list w ++ [l]).
  assert (Hsel : match find_lock path (locks_list w) with
                 | Some j => (j, false, locks_list w)
                 | None => (length (locks_list w), true,
                            locks_list w ++ [new_filelock path lt])
                 end = (i, true, ll)) by (by rewrite Hfind).
  assert (Hl : ll !! i = Some l) by (by apply list_lookup_middle).
  assert (Hroom : l_next_fd l ≠ BLOBSTORE_MAX_CONCURRENT) by done.
  destruct (sys_open_cases path o mode (set_locks (<[i:=set_refs (l_refs l + 1) l]> ll) w))
    as [[e He]|(w2 & Ho & Hfdt & Hll & Herr & Htime & _)].
  { rewrite (open_and_lock_open_fails path flags timeout_usec mode lt o w i true ll l
               Hmode Hsel Hl Hroom eq_refl eq_refl e He) in Hrun.
    by injection Hrun as _ <-. }
  simpl in Ho, Hfdt, Hll, Htime.
  assert (Htry : match lt with
                 | F_WRLCK => pthread_rwlock_trywrlock (l_lock l)
                 | F_RDLCK => pthread_rwlock_tryrdlock (l_lock l)
                 end = Some (taken lt)) by (by destruct lt).
  rewrite (open_and_lock_free path flags timeout_usec mode lt o w i true ll l
             Hmode Hsel Hl Hroom eq_refl w2 (taken lt) Ho Hll Htry) in Hrun.
  injection Hrun as <- <-.
  destruct (sys_open_ok _ _ _ _ _ _ Ho) as (_ & _ & _ & _ & Hfs);
    [pose proof (lowest_free_ge (w_fdt w) 0 (size (w_fdt w))); lia|].
  split; [done|]. split; [|done].
  simpl. unfold ll, i. rewrite insert_app_r_alt by lia. by rewrite Nat.sub_diag.
Qed.

Lemma lock_mode_cases flags lt o :
  lock_mode flags = Some (lt, o) →
  lt = F_RDLCK ∧ has_flag o O_RDWR || has_flag o O_CREAT = false
  ∨ lt = F_WRLCK ∧ has_flag o O_RDWR = true.
Proof.
  unfold lock_mode. destruct (has_flag flags BLOBSTORE_FLAG_RDONLY).
  { intros [= <- <-]. by left. }
  destruct (_ || _); [|done]. intros [= <- <-]. right. split; [done|].
  destruct (has_flag flags BLOBSTORE_FLAG_CREAT); [|done].
  by destruct (has_flag flags BLOBSTORE_FLAG_EXCL).
Qed.

Lemma registry_ok_unheld w path :
  registry_ok w → descriptors_held w path = [] → find_lock path (locks_list w) = None.
Proof.
  intros [(_ & Hwf & _) _] Hheld. unfold descriptors_held in Hheld.
  destruct (find_lock path (locks_list w)) as [i|] eqn:Hf; [|done]. exfalso.
  destruct (find_lock_Some _ _ _ Hf) as (l & Hl & _). rewrite Hl in Hheld. simpl in Hheld.
  destruct (Forall_lookup_1 _ _ _ _ Hwf Hl) as (_ & _ & _ & Hrefs & Hpos).
  rewrite Hheld in Hrefs. simpl in Hrefs. lia.
Qed.

(** X6.  Two calls of [open_and_lock] on one path.  After a first call that
    returned the only descriptor held for a path, a call for the other kind
    of lock fails at once with [BLOBSTORE_ERROR_INVAL]; a second call for
    reading after one for reading returns another descriptor, and both are
    held; a second call for writing after one for writing waits until its
    timeout is over and fails with [BLOBSTORE_ERROR_AGAIN].  The calls that
    fail change nothing but [_blobstore_errno] and the clock. *)
Theorem open_and_lock_twice w path (flags1 flags2 t1 t2 m1 m2 : Z) lt1 o1 lt2 o2 w1 fd1 :
  registry_ok w → descriptors_held w path = [] →
  lock_mode flags1 = Some (lt1, o1) → lock_mode flags2 = Some (lt2, o2) →
  open_and_lock path flags1 t1 m1 w = Ret w1 fd1 → fd1 ≠ -1 →
  has_flag o2 O_CREAT && has_flag o2 O_EXCL = false →
  t2 ≠ BLOBSTORE_NO_TIMEOUT →
  match lt1, lt2 with
  | F_RDLCK, F_RDLCK =>
      ∃ w2 fd2, open_and_lock path flags2 t2 m2 w1 = Ret w2 fd2
        ∧ fd2 ≠ -1 ∧ fd2 ≠ fd1 ∧ descriptors_held w2 path = [fd1; fd2]
  | F_WRLCK, F_WRLCK =>
      ∃ t', open_and_lock path flags2 t2 m2 w1
            = Ret (set_blobstore_errno BLOBSTORE_ERROR_AGAIN (set_time t' w1)) (-1)
          ∧ w_time w1 + t2 ≤ t'
  | _, _ =>
      open_and_lock path flags2 t2 m2 w1
      = Ret (set_blobstore_errno BLOBSTORE_ERROR_INVAL w1) (-1)
  end.
Proof.
  intros Hok Hheld Hm1 Hm2 Hrun Hfd1 Hex Hto.
  pose proof (registry_ok_unheld w path Hok Hheld) as Hfind.
  destruct (open_and_lock_first w path flags1 t1 m1 lt1 o1 w1 fd1 Hm1 Hfind Hrun Hfd1)
    as (Hfd & Hll & Hfdt & Htime & Hfs).
  set (l1 := push_fd fd1 (set_lock (taken lt1) (set_refs 1 (new_filelock path lt1)))) in Hll.
  set (i := length (locks_list w)).
  assert (Hfind1 : find_lock path (locks_list w1) = Some i).
  { rewrite Hll. by apply find_lock_app_new. }
  assert (Hl1 : locks_list w1 !! i = Some l1) by (rewrite Hll; by apply list_lookup_middle).
  assert (Hroom : l_next_fd l1 ≠ BLOBSTORE_MAX_CONCURRENT) by done.
  assert (Hmis : lt1 ≠ lt2 → open_and_lock path flags2 t2 m2 w1
                             = Ret (set_blobstore_errno BLOBSTORE_ERROR_INVAL w1) (-1)).
  { intros Hne. by eapply open_and_lock_type_mismatch. }
  assert (Hsel : match find_lock path (locks_list w1) with
                 | Some j => (j, false, locks_list w1)
                 | None => (length (locks_list w1), true,
                            locks_list w1 ++ [new_filelock path lt2])
                 end = (i, false, locks_list w1)) by (by rewrite Hfind1).
  assert (Hopen : ∀ ll', lt1 = lt2 →
            sys_open path o2 m2 (set_locks ll' w1)
            = let fd := lowest_free (w_fdt w1) 0 (size (w_fdt w1)) in
              Ret (set_fdt (<[fd := (path, 0)]> (w_fdt w1)) (set_locks ll' w1)) fd).
  { intros ll' <-. rewrite (sys_open_there path o2 m2 (set_locks ll' w1)); [done| |done].
    simpl. destruct Hfs as [Hfile|[Hdir Hrw]]; [by left|]. right. split; [done|].
    destruct (lock_mode_cases _ _ _ Hm1) as [[-> _]|[_ H1]]; [|by rewrite H1 in Hrw].
    by destruct (lock_mode_cases _ _ _ Hm2) as [[_ H3]|[H2 _]]. }
  destruct lt1, lt2; try (apply Hmis; done).
  - (* a second reader *)
    pose proof (Hopen (<[i:=set_refs (l_refs l1 + 1) l1]> (locks_list w1)) eq_refl) as Ho.
    cbv zeta in Ho.
    set (fd2 := lowest_free (w_fdt w1) 0 (size (w_fdt w1))) in *.
    eexists _, fd2. split.
    { by apply (open_and_lock_free path flags2 t2 m2 F_RDLCK o2 w1 i false (locks_list w1) l1
                  Hm2 Hsel Hl1 Hroom eq_refl _ _ Ho eq_refl eq_refl). }
    pose proof (lowest_free_ge (w_fdt w1) 0 (size (w_fdt w1))) as Hge.
    pose proof (lowest_free_free (w_fdt w1)) as Hfree. fold fd2 in Hge, Hfree.
    split; [lia|]. split.
    { intros ->. rewrite Hfdt, lookup_insert_eq in Hfree. done. }
    unfold descriptors_held. simpl.
    erewrite find_lock_insert by done. rewrite Hfind1.
    rewrite list_lookup_insert_eq by (by eapply lookup_lt_Some). simpl.
    rewrite held_fds_push by (simpl; lia).
    change [fd1; fd2] with ([fd1] ++ [fd2]). by f_equal.
  - (* a second writer *)
    pose proof (Hopen (<[i:=set_refs (l_refs l1 + 1) l1]> (locks_list w1)) eq_refl) as Ho.
    cbv zeta in Ho.
    destruct (open_and_lock_busy path flags2 t2 m2 F_WRLCK o2 w1 i false (locks_list w1) l1
                Hm2 Hsel Hl1 Hroom eq_refl) with (w2 := set_fdt
                  (<[lowest_free (w_fdt w1) 0 (size (w_fdt w1)):=(path, 0)]> (w_fdt w1))
                  (set_locks (<[i:=set_refs (l_refs l1 + 1) l1]> (locks_list w1)) w1))
      as (t' & -> & Ht'); try done.
    exists t'. split; [|done]. by destruct w1.
Qed.

(** ** What [close_and_unlock] closes *)

Lemma close_fds_table fds w :
  ∃ w', for_each (λ fd, sys_close fd;; mret tt) fds w = Ret w' tt
        ∧ locks_list w' = locks_list w ∧ w_fs w' = w_fs w
        ∧ (∀ x, w_fdt w' !! x = if decide (x ∈ fds) then None else w_fdt w !! x).
Proof.
  revert w. induction fds as [|y fds IH]; intros w.
  { exists w. repeat split. }
  rewrite for_each_cons, bind_eq, sys_close_eq.
  destruct (w_fdt w !! y) eqn:Hy; rewrite ret_eq.
  - destruct (IH (set_fdt (delete y (w_fdt w)) w)) as (w' & -> & Hl & Hf & Ht).
    exists w'. split; [done|]. split; [done|]. split; [done|].
    intros x. rewrite Ht. simpl. destruct (decide (x = y)) as [->|Hne].
    + rewrite (decide_True (P := y ∈ y :: fds)) by left.
      destruct (decide (y ∈ fds)); [done|]. apply lookup_delete_eq.
    + rewrite lookup_delete_ne by done.
      destruct (decide (x ∈ fds)) as [Hin|Hin].
      * rewrite decide_True; [done|by right].
      * rewrite decide_False; [done|]. by intros [?|?]%elem_of_cons.
  - destruct (IH (set_errno EBADF w)) as (w' & -> & Hl & Hf & Ht).
    exists w'. split; [done|]. split; [done|]. split; [done|].
    intros x. rewrite Ht. simpl. destruct (decide (x = y)) as [->|Hne].
    + rewrite (decide_True (P := y ∈ y :: fds)) by left.
      by destruct (decide (y ∈ fds)).
    + destruct (decide (x ∈ fds)) as [Hin|Hin].
      * rewrite decide_True; [done|by right].
      * rewrite decide_False; [done|]. by intros [?|?]%elem_of_cons.
Qed.

(** The call on a descriptor that is held: the last one held of its entry
    takes the entry and all the descriptors of its table with it, any
    other one is marked in the table and stays open. *)
Lemma close_and_unlock_run w j l index fd :
  wf_registry w → locks_list w !! j = Some l →
  table_fds l !! index = Some fd → l_fd_status l !! index = Some 1 →
  ∃ w', close_and_unlock fd w = Ret w' 0 ∧ w_fs w' = w_fs w
      ∧ if decide (l_refs l = 1) then
          locks_list w' = delete j (locks_list w)
          ∧ ∀ x, w_fdt w' !! x = if decide (x ∈ table_fds l) then None else w_fdt w !! x
        else w' = set_locks (<[j := set_refs (l_refs l - 1) (set_status index 0 l)]>
                               (locks_list w)) w.
Proof.
  intros (Hpaths & Hwf & Hnd & Hopen) Hj Hi Hs.
  assert (Hin : fd ∈ locks_list w ≫= table_fds).
  { apply list_elem_of_bind. exists l. split; by eapply list_elem_of_lookup_2. }
  assert (Hfd : 0 ≤ fd) by (rewrite Forall_forall in Hopen; by apply Hopen).
  unfold close_and_unlock. destruct (Z.ltb_spec fd 0); [lia|].
  rewrite bind_eq. simpl.
  rewrite (search_fd_found _ 0 j l index fd) by done. simpl. rewrite Hj.
  rewrite Hs. simpl.
  destruct (Z.eqb_spec (l_refs l - 1) 0) as [H0|H0];
    destruct (decide (l_refs l = 1)) as [H1|H1]; try lia.
  - destruct (close_fds_table (table_fds l) (set_locks (delete j (locks_list w)) w))
      as (w' & Hc & Hl' & Hf' & Ht').
    rewrite !bind_eq. simpl. unfold close_and_free_filelock. exists w'.
    change (take (l_next_fd (set_refs (l_refs l - 1) (set_status index 0 l)))
              (l_fd (set_refs (l_refs l - 1) (set_status index 0 l)))) with (table_fds l).
    rewrite bind_eq, Hc. by repeat split.
  - rewrite !bind_eq. simpl. by eexists.
Qed.

Lemma held_fds_single l fd :
  wf_filelock l → fd ∈ held_fds l → l_refs l = 1 ↔ held_fds l = [fd].
Proof.
  intros (_ & _ & _ & Hrefs & _) Hin. split.
  - intros H1. rewrite H1 in Hrefs.
    destruct (held_fds l) as [|y [|z ys]]; simpl in Hrefs; try lia.
    by apply list_elem_of_singleton in Hin as ->.
  - intros Heq. by rewrite Hrefs, Heq.
Qed.

Lemma descriptors_kept_at w path i l :
  find_lock path (locks_list w) = Some i → locks_list w !! i = Some l →
  descriptors_kept w path = table_fds l.
Proof. intros Hf Hl. unfold descriptors_kept. by rewrite Hf, Hl. Qed.

(** X7.  [close_and_unlock] closes late.  When the descriptor is not the
    last one held for its path, the call closes nothing: the descriptor
    stays open and stays in the table of the entry.  The call on the last
    one held removes the entry and closes every descriptor of its table,
    the ones released before as well. *)
Theorem close_and_unlock_closes_late w path fd :
  registry_ok w → fd ∈ descriptors_held w path →
  ∃ w', close_and_unlock fd w = Ret w' 0
    ∧ (descriptors_held w path ≠ [fd] →
         w_fdt w' = w_fdt w ∧ descriptors_kept w' path = descriptors_kept w path)
    ∧ (descriptors_held w path = [fd] →
         descriptors_kept w' path = []
         ∧ ∀ x, w_fdt w' !! x
                = if decide (x ∈ descriptors_kept w path) then None else w_fdt w !! x).
Proof.
  intros [Hwf _] Hin. pose proof Hwf as (Hpaths & Hwfl & _).
  destruct (descriptors_held_inv _ _ _ Hin) as (i & l & index & Hf & Hl & Ht & Hst).
  rewrite (descriptors_held_at w path i l Hf Hl) in Hin |- *.
  rewrite (descriptors_kept_at w path i l Hf Hl).
  pose proof (held_fds_single l fd (Forall_lookup_1 _ _ _ _ Hwfl Hl) Hin) as Hone.
  destruct (close_and_unlock_run w i l index fd Hwf Hl Ht Hst) as (w' & Hc & _ & Hres).
  exists w'. split; [done|]. destruct (decide (l_refs l = 1)) as [H1|H1].
  - split; [intros Hne; by apply Hone in H1|]. intros _. destruct Hres as [Hll Hfdt].
    split; [|done]. unfold descriptors_kept. rewrite Hll.
    by rewrite find_lock_delete.
  - split; [|intros Heq; by apply Hone in Heq]. intros _. subst w'. split; [done|].
    unfold descriptors_kept. simpl. erewrite find_lock_insert by done. rewrite Hf.
    by rewrite list_lookup_insert_eq by (by eapply lookup_lt_Some).
Qed.

(** ** A call and its inverse *)

Lemma registry_ok_first w w1 path lt fd {ent : string * Z} :
  registry_ok w → find_lock path (locks_list w) = None →
  0 ≤ fd → w_fdt w !! fd = None →
  locks_list w1
  = locks_list w ++ [push_fd fd (set_lock (taken lt) (set_refs 1 (new_filelock path lt)))] →
  w_fdt w1 = <[fd := ent]> (w_fdt w) →
  registry_ok w1.
Proof.
  intros [(Hpaths & Hwfl & Hnd & Hopen) Hag] Hfind Hfd Hfree Hll Hfdt.
  set (l := new_filelock path lt). set (i := length (locks_list w)).
  set (ll := locks_list w ++ [l]).
  assert (Hl : ll !! i = Some l) by (by apply list_lookup_middle).
  assert (Hins : <[i:=push_fd fd (set_lock (taken lt) (set_refs (l_refs l + 1) l))]> ll
                 = locks_list w1).
  { rewrite Hll. unfold ll, i. rewrite insert_app_r_alt by lia. by rewrite Nat.sub_diag. }
  apply find_lock_None in Hfind.
  split.
  - apply (wf_registry_push w _ ll i l
             (push_fd fd (set_lock (taken lt) (set_refs (l_refs l + 1) l))) fd ent);
      [ | | | |done|done| | |done|done|done|done].
    + unfold ll. rewrite fmap_app. apply NoDup_app. split; [done|]. split.
      * intros x Hx [->|[]%elem_of_nil]%elem_of_cons. done.
      * apply NoDup_singleton.
    + intros j lj Hj Hne. unfold ll in Hj. apply lookup_app_Some in Hj as [Hj|[Hge' Hj]].
      * by eapply Forall_lookup_1.
      * apply list_lookup_singleton_Some in Hj as [Hj _]. unfold i in Hne. lia.
    + unfold ll. rewrite bind_app. simpl. by rewrite !app_nil_r.
    + unfold ll. rewrite bind_app. simpl. by rewrite !app_nil_r.
    + apply wf_filelock_push;
        [done|simpl; lia|apply length_replicate|apply length_replicate|done].
    + rewrite table_fds_push; [done|]. simpl. lia.
  - rewrite Hll. apply Forall_app. split; [done|]. apply Forall_singleton.
    unfold lock_agrees. by destruct lt.
Qed.

Lemma open_and_lock_no_mode w path flags timeout_usec mode :
  lock_mode flags = None →
  open_and_lock path flags timeout_usec mode w
  = Ret (set_blobstore_errno BLOBSTORE_ERROR_INVAL w) (-1).
Proof. intros Hm. unfold open_and_lock. rewrite bind_eq. cbn [time_usec]. by rewrite Hm. Qed.

(** X8.  [close_and_unlock] undoes [open_and_lock].  When a path with no
    descriptor held is opened and the descriptor is closed again, the
    registry and the table of open descriptors are as they were before the
    two calls; the files are as the first call left them. *)
Theorem open_close_round_trip w path (flags timeout_usec mode : Z) w1 fd :
  registry_ok w → descriptors_held w path = [] →
  open_and_lock path flags timeout_usec mode w = Ret w1 fd → fd ≠ -1 →
  ∃ w2, close_and_unlock fd w1 = Ret w2 0
      ∧ locks_list w2 = locks_list w ∧ w_fdt w2 = w_fdt w ∧ w_fs w2 = w_fs w1.
Proof.
  intros Hok Hheld Hrun Hfd.
  pose proof (registry_ok_unheld w path Hok Hheld) as Hfind.
  destruct (lock_mode flags) as [[lt o]|] eqn:Hmode.
  2: { rewrite open_and_lock_no_mode in Hrun by done. by injection Hrun as _ <-. }
  destruct (open_and_lock_first w path flags timeout_usec mode lt o w1 fd Hmode Hfind Hrun Hfd)
    as (Hfd0 & Hll & Hfdt & _ & _).
  pose proof (lowest_free_ge (w_fdt w) 0 (size (w_fdt w))) as Hge.
  pose proof (lowest_free_free (w_fdt w)) as Hfree. rewrite <- Hfd0 in Hge, Hfree.
  destruct (registry_ok_first w w1 path lt fd Hok Hfind Hge Hfree Hll Hfdt) as [Hwf1 _].
  set (l1 := push_fd fd (set_lock (taken lt) (set_refs 1 (new_filelock path lt)))) in *.
  destruct (close_and_unlock_run w1 (length (locks_list w)) l1 0 fd Hwf1)
    as (w2 & Hc & Hfs & Hres); [rewrite Hll; by apply list_lookup_middle|done|done|].
  rewrite decide_True in Hres by done. destruct Hres as [Hll2 Hfdt2].
  exists w2. split; [done|]. split; [|split; [|done]].
  - rewrite Hll2, Hll, delete_middle. by rewrite app_nil_r.
  - apply map_eq. intros x. rewrite Hfdt2, Hfdt.
    change (table_fds l1) with [fd]. destruct (decide (x ∈ [fd])) as [Hx|Hx].
    + apply list_elem_of_singleton in Hx as ->. by rewrite Hfree.
    + rewrite lookup_insert_ne; [done|]. intros <-. apply Hx. left.
Qed.

(** ** The errors of [open] *)

Lemma lock_mode_open_flags flags lt o :
  lock_mode flags = Some (lt, o) →
  has_flag o O_CREAT
  = negb (has_flag flags BLOBSTORE_FLAG_RDONLY) && has_flag flags BLOBSTORE_FLAG_CREAT
  ∧ has_flag o O_EXCL
    = negb (has_flag flags BLOBSTORE_FLAG_RDONLY) && has_flag flags BLOBSTORE_FLAG_CREAT
      && has_flag flags BLOBSTORE_FLAG_EXCL.
Proof.
  unfold lock_mode. destruct (has_flag flags BLOBSTORE_FLAG_RDONLY).
  { by intros [= <- <-]. }
  destruct (_ || _); [|done]. intros [= <- <-].
  destruct (has_flag flags BLOBSTORE_FLAG_CREAT); [|done].
  by destruct (has_flag flags BLOBSTORE_FLAG_EXCL).
Qed.

(** X9.  The errors of [open] come back as errors of the store.  On a path
    with no descriptor held, a call that is not to create the file fails
    when the file is not there: with [BLOBSTORE_ERROR_NOENT], or, when the
    path leads through a regular file, which [open] reports as [ENOTDIR],
    with the default [BLOBSTORE_ERROR_UNKNOWN].  A call to create the file
    exclusively fails with [BLOBSTORE_ERROR_EXIST] when it is there.  The
    calls change nothing but the two error variables. *)
Theorem open_and_lock_open_errors w path (flags timeout_usec mode : Z) :
  registry_ok w → descriptors_held w path = [] → is_Some (lock_mode flags) →
  (w_fs w !! path = None →
   has_flag flags BLOBSTORE_FLAG_RDONLY || negb (has_flag flags BLOBSTORE_FLAG_CREAT) = true →
   open_and_lock path flags timeout_usec mode w
   = if under_file (w_fs w) (String.length path) path
     then Ret (set_blobstore_errno BLOBSTORE_ERROR_UNKNOWN (set_errno ENOTDIR w)) (-1)
     else Ret (set_blobstore_errno BLOBSTORE_ERROR_NOENT (set_errno ENOENT w)) (-1))
  ∧ (is_Some (w_fs w !! path) →
     negb (has_flag flags BLOBSTORE_FLAG_RDONLY) && has_flag flags BLOBSTORE_FLAG_CREAT
       && has_flag flags BLOBSTORE_FLAG_EXCL = true →
     open_and_lock path flags timeout_usec mode w
     = Ret (set_blobstore_errno BLOBSTORE_ERROR_EXIST (set_errno EEXIST w)) (-1)).
Proof.
  intros Hok Hheld [[lt o] Hmode].
  pose proof (registry_ok_unheld w path Hok Hheld) as Hfind.
  destruct (lock_mode_open_flags _ _ _ Hmode) as [Hcreat Hexcl].
  set (l := new_filelock path lt). set (i := length (locks_list w)).
  set (ll := locks_list w ++ [l]).
  assert (Hsel : match find_lock path (locks_list w) with
                 | Some j => (j, false, locks_list w)
                 | None => (length (locks_list w), true,
                            locks_list w ++ [new_filelock path lt])
                 end = (i, true, ll)) by (by rewrite Hfind).
  assert (Hl : ll !! i = Some l) by (by apply list_lookup_middle).
  assert (Hroom : l_next_fd l ≠ BLOBSTORE_MAX_CONCURRENT) by done.
  split.
  - intros Hp Hflags.
    rewrite (open_and_lock_open_fails path flags timeout_usec mode lt o w i true ll l
               Hmode Hsel Hl Hroom eq_refl eq_refl (lookup_errno (w_fs w) path)).
    { unfold lookup_errno. by destruct (under_file _ _ _). }
    unfold sys_open, fail_with. rewrite bind_eq. simpl. rewrite Hp.
    replace (has_flag o O_CREAT) with false; [done|].
    rewrite Hcreat. by destruct (has_flag flags BLOBSTORE_FLAG_RDONLY),
      (has_flag flags BLOBSTORE_FLAG_CREAT).
  - intros [nd Hp] Hflags.
    apply (open_and_lock_open_fails path flags timeout_usec mode lt o w i true ll l
             Hmode Hsel Hl Hroom eq_refl eq_refl EEXIST).
    unfold sys_open, fail_with. rewrite bind_eq. simpl. rewrite Hp.
    replace (has_flag o O_CREAT && has_flag o O_EXCL) with true; [by destruct nd|].
    rewrite Hcreat, Hexcl. by destruct (has_flag flags BLOBSTORE_FLAG_RDONLY),
      (has_flag flags BLOBSTORE_FLAG_CREAT), (has_flag flags BLOBSTORE_FLAG_EXCL).
Qed.

(** ** Reading a sidecar *)

Lemma errors_only_refl w : errors_only w w.
Proof. done. Qed.

Lemma errors_only_trans w1 w2 w3 : errors_only w1 w2 → errors_only w2 w3 → errors_only w1 w3.
Proof.
  intros (H1 & H2 & H3 & H4 & H5) (G1 & G2 & G3 & G4 & G5).
  repeat split; congruence.
Qed.

Lemma nbytes_str_take_lt (d : string) sz :
  0 ≤ sz → sz < nbytes d → nbytes (str_take (Z.to_nat sz) d) = sz.
Proof.
  intros H0 Hlt. unfold nbytes in *.
  assert (Hlen : ∀ n s, (n ≤ String.length s)%nat → String.length (str_take n s) = n).
  { induction n as [|n IH]; intros [|c s]; simpl; try lia. intros H. rewrite IH; lia. }
  rewrite Hlen; lia.
Qed.

(** The call returns what [sidecar_read] says and leaves no descriptor
    open. *)
Lemma read_sidecar_run path_t bs (bb_id : string) (str : string) sz w :
  format bs ≠ BLOBSTORE_FORMAT_ANY → path_t ≠ BLOCKBLOB_PATH_NONE → 0 ≤ sz →
  ∃ w', read_blockblob_metadata_path path_t bs bb_id str sz w
        = Ret w' (sidecar_read (w_fs w !! sidecar_path path_t bs bb_id) str sz)
      ∧ errors_only w w' ∧ _do_print_errors w' = _do_print_errors w
      ∧ w_time w' = w_time w
      ∧ ((sidecar_read (w_fs w !! sidecar_path path_t bs bb_id) str sz).1 = -1 →
         _blobstore_errno w'
         = match w_fs w !! sidecar_path path_t bs bb_id with
           | None => error_of_errno BLOBSTORE_ERROR_UNKNOWN
                       (lookup_errno (w_fs w) (sidecar_path path_t bs bb_id))
           | Some _ => BLOBSTORE_ERROR_NOENT
           end).
Proof.
  intros Hf Hk Hsize. unfold read_blockblob_metadata_path.
  rewrite bind_eq, metadata_path_valid by done.
  set (p := sidecar_path path_t bs bb_id). rewrite bind_eq.
  pose proof (lowest_free_ge (w_fdt w) 0 (size (w_fdt w))) as Hge.
  pose proof (lowest_free_free (w_fdt w)) as Hfree.
  destruct (w_fs w !! p) as [[d t|]|] eqn:Hp.
  - rewrite (sys_open_existing w p O_RDONLY 0 d t) by done. cbv beta iota zeta.
    set (fd := lowest_free (w_fdt w) 0 (size (w_fdt w))) in *.
    replace (fd =? -1) with false by (symmetry; apply Z.eqb_neq; lia). rewrite bind_eq. simpl.
    destruct (Z.leb_spec (nbytes d) sz) as [Hle|Hgt].
    + rewrite (fd_to_buf_file fd str sz _ p 0 d t);
        [|simpl; apply lookup_insert_eq|done|done].
      rewrite bind_eq, sys_close_eq. simpl. rewrite lookup_insert_eq.
      rewrite insert_insert_eq, delete_insert_id by done.
      destruct (Z.leb_spec 1 (nbytes d)) as [H1|H1].
      * destruct (Z.ltb_spec (nbytes d) 1); [lia|]. eexists. split; [done|].
        split; [by destruct w|]. split; [done|]. split; [done|]. simpl. lia.
      * destruct (Z.ltb_spec (nbytes d) 1); [|lia]. rewrite bind_eq.
        eexists. split; [done|]. by destruct w.
    + unfold fd_to_buf. rewrite bind_eq.
      unfold sys_lseek_set. rewrite bind_eq. simpl. rewrite lookup_insert_eq. simpl.
      unfold sys_fstat. rewrite !bind_eq. simpl. rewrite lookup_insert_eq, Hp. simpl.
      unfold sys_read. rewrite !bind_eq. simpl. rewrite lookup_insert_eq, Hp. simpl.
      rewrite nbytes_str_take_lt by lia.
      destruct (Z.eqb_spec sz (nbytes d)); [lia|]. rewrite !bind_eq. simpl.
      rewrite bind_eq, sys_close_eq. simpl. rewrite lookup_insert_eq. rewrite bind_eq. simpl.
      rewrite !insert_insert_eq, delete_insert_id by done.
      eexists. split; [done|]. by destruct w.
  - unfold sys_open. rewrite bind_eq. simpl. rewrite Hp. simpl.
    set (fd := lowest_free (w_fdt w) 0 (size (w_fdt w))) in *. unfold alloc_fd. fold fd.
    replace (fd =? -1) with false by (symmetry; apply Z.eqb_neq; lia). rewrite bind_eq.
    unfold fd_to_buf. rewrite bind_eq.
    unfold sys_lseek_set. rewrite bind_eq. simpl. rewrite lookup_insert_eq. simpl.
    unfold sys_fstat. rewrite !bind_eq. simpl. rewrite lookup_insert_eq, Hp. simpl.
    unfold sys_read. rewrite !bind_eq. simpl. rewrite lookup_insert_eq, Hp. simpl.
    rewrite bind_eq, sys_close_eq. simpl. rewrite lookup_insert_eq. rewrite bind_eq. simpl.
    rewrite !insert_insert_eq, delete_insert_id by done.
    eexists. split; [done|]. by destruct w.
  - unfold sys_open. rewrite bind_eq. simpl. rewrite Hp. simpl.
    rewrite bind_eq, propagate_system_errno_eq. eexists. split; [done|]. by destruct w.
Qed.

(** ** What [open_and_lock] and [close_and_unlock] leave alone *)

Lemma sys_open_frame path o mode w w' fd :
  sys_open path o mode w = Ret w' fd →
  w_ext w' = w_ext w ∧ w_calls w' = w_calls w ∧ _do_print_errors w' = _do_print_errors w
  ∧ (has_flag o O_CREAT = false → w_fs w' = w_fs w).
Proof.
  unfold sys_open, fail_with, alloc_fd. rewrite bind_eq. simpl.
  destruct (w_fs w !! path) as [[d t|]|] eqn:Hp.
  - destruct (_ && _); by intros [= <- <-].
  - destruct (_ && _); [by intros [= <- <-]|]. destruct (_ || _); by intros [= <- <-].
  - destruct (has_flag o O_CREAT) eqn:Hc; [|by intros [= <- <-]].
    destruct (parent_ok (w_fs w) path); [|by intros [= <- <-]].
    rewrite bind_eq. simpl. by intros [= <- <-].
Qed.

(** The call changes the registry, the table of descriptors, the clock and
    the error variables, and it creates the file if it is asked to.  A call
    for writing that is not to create the file returns a descriptor exactly
    when the path is a file and no descriptor is held for it. *)
Lemma open_and_lock_shape w path (flags timeout_usec mode : Z) w' fd :
  registry_ok w → timeout_usec ≠ BLOBSTORE_NO_TIMEOUT →
  open_and_lock path flags timeout_usec mode w = Ret w' fd →
  w_ext w' = w_ext w ∧ w_calls w' = w_calls w ∧ _do_print_errors w' = _do_print_errors w
  ∧ (∀ lt o, lock_mode flags = Some (lt, o) → has_flag o O_CREAT = false →
       w_fs w' = w_fs w)
  ∧ (∀ o, lock_mode flags = Some (F_WRLCK, o) → has_flag o O_CREAT = false →
       fd ≠ -1 ↔ find_lock path (locks_list w) = None ∧ is_file (w_fs w !! path) = true).
Proof.
  intros Hok Hto Hrun. pose proof Hok as [Hwf Hag].
  destruct Hwf as (Hpaths & Hwfl & Hnd & Hopen).
  destruct (lock_mode flags) as [[lt o]|] eqn:Hmode.
  2: { rewrite open_and_lock_no_mode in Hrun by done. by injection Hrun as <- <-. }
  pose proof (lowest_free_ge (w_fdt w) 0 (size (w_fdt w))) as Hge.
  destruct (find_lock path (locks_list w)) as [i|] eqn:Hfind.
  - destruct (find_lock_Some _ _ _ Hfind) as (l & Hl & Hpath).
    pose proof (Forall_lookup_1 _ _ _ _ Hwfl Hl) as Hwl.
    pose proof (Forall_lookup_1 _ _ _ _ Hag Hl) as Hal.
    destruct Hwl as (Hle & Hlen1 & Hlen2 & Hrefs & Hpos).
    destruct (decide (l_next_fd l = BLOBSTORE_MAX_CONCURRENT)) as [Hfull|Hroom].
    { rewrite (open_and_lock_table_full w path flags timeout_usec mode i l) in Hrun by done.
      injection Hrun as <- <-. repeat split; try done. by intros []. }
    destruct (decide (l_type l = lt)) as [Htype|Htype].
    2: { rewrite (open_and_lock_type_mismatch w path flags timeout_usec mode lt o i l)
           in Hrun by done.
         injection Hrun as <- <-. repeat split; try done. by intros []. }
    assert (Hsel : match find_lock path (locks_list w) with
                   | Some j => (j, false, locks_list w)
                   | None => (length (locks_list w), true,
                              locks_list w ++ [new_filelock path lt])
                   end = (i, false, locks_list w)) by (by rewrite Hfind).
    destruct (sys_open_cases path o mode
                (set_locks (<[i:=set_refs (l_refs l + 1) l]> (locks_list w)) w))
      as [[e He]|(w2 & Ho & Hfdt & Hll & Herr & Htime & _)].
    { rewrite (open_and_lock_open_fails path flags timeout_usec mode lt o w i false
                 (locks_list w) l Hmode Hsel Hl Hroom Htype Hpos e He) in Hrun.
      injection Hrun as <- <-. repeat split; try done. by intros []. }
    destruct (sys_open_frame _ _ _ _ _ _ Ho) as (Hext & Hcalls & Hprint & Hfs).
    simpl in Ho, Hfdt, Hll, Htime, Hext, Hcalls, Hprint, Hfs.
    unfold lock_agrees in Hal. rewrite Htype in Hal.
    destruct lt.
    + assert (Htry : pthread_rwlock_tryrdlock (l_lock l)
                     = Some {| rw_readers := S (rw_readers (l_lock l)); rw_writer := false |}).
      { unfold pthread_rwlock_tryrdlock. by rewrite Hal. }
      rewrite (open_and_lock_free path flags timeout_usec mode F_RDLCK o w i false
                 (locks_list w) l Hmode Hsel Hl Hroom Htype w2 _ Ho Hll Htry) in Hrun.
      injection Hrun as <- <-. split; [done|]. split; [done|]. split; [done|].
      split; [by intros ? ? [= <- <-]|]. by intros ? [=].
    + assert (Htry : pthread_rwlock_trywrlock (l_lock l) = None).
      { unfold pthread_rwlock_trywrlock. by rewrite Hal. }
      destruct (open_and_lock_busy path flags timeout_usec mode F_WRLCK o w i false
                  (locks_list w) l Hmode Hsel Hl Hroom Htype Hpos w2 Ho Hfdt Hll Htime Htry Hto)
        as (t' & Hbusy & _).
      rewrite Hbusy in Hrun. injection Hrun as <- <-.
      split; [done|]. split; [done|]. split; [done|].
      split; [by intros ? ? [= <- <-]|]. intros ? _ _. split; [done|by intros []].
  - set (l := new_filelock path lt). set (i := length (locks_list w)).
    set (ll := locks_list w ++ [l]).
    assert (Hsel : match find_lock path (locks_list w) with
                   | Some j => (j, false, locks_list w)
                   | None => (length (locks_list w), true,
                              locks_list w ++ [new_filelock path lt])
                   end = (i, true, ll)) by (by rewrite Hfind).
    assert (Hl : ll !! i = Some l) by (by apply list_lookup_middle).
    assert (Hroom : l_next_fd l ≠ BLOBSTORE_MAX_CONCURRENT) by done.
    destruct (sys_open path o mode (set_locks (<[i:=set_refs (l_refs l + 1) l]> ll) w))
      as [w2 fd2| |] eqn:Ho.
    2, 3: (rewrite (open_and_lock_entry path flags timeout_usec mode lt o w i true ll l
                      Hmode Hsel Hl Hroom eq_refl), bind_eq in Hrun;
           fold l i ll in Hrun; by rewrite Ho in Hrun).
    destruct (sys_open_frame _ _ _ _ _ _ Ho) as (Hext & Hcalls & Hprint & Hfs).
    simpl in Hext, Hcalls, Hprint, Hfs.
    destruct (sys_open_cases path o mode (set_locks (<[i:=set_refs (l_refs l + 1) l]> ll) w))
      as [[e He]|(w3 & Ho3 & Hfdt & Hll & Herr & Htime & _)].
    { rewrite (open_and_lock_open_fails path flags timeout_usec mode lt o w i true ll l
                 Hmode Hsel Hl Hroom eq_refl eq_refl e He) in Hrun.
      injection Hrun as <- <-. split; [done|]. split; [done|]. split; [done|].
      split; [done|]. intros o0 [= -> <-] Hc. split; [done|]. intros [_ Hfile]. exfalso.
      unfold sys_open in He. rewrite bind_eq in He. simpl in He.
      destruct (w_fs w !! path) as [[d t|]|]; [|done..].
      rewrite Hc in He. simpl in He. unfold alloc_fd in He. injection He as _ He. lia. }
    rewrite Ho in Ho3. injection Ho3 as <- ->.
    simpl in Hfdt, Hll, Htime.
    assert (∃ k, match lt with
                 | F_WRLCK => pthread_rwlock_trywrlock (l_lock l)
                 | F_RDLCK => pthread_rwlock_tryrdlock (l_lock l)
                 end = Some k) as [k Htry] by (destruct lt; by eexists).
    rewrite (open_and_lock_free path flags timeout_usec mode lt o w i true ll l
               Hmode Hsel Hl Hroom eq_refl w2 k Ho Hll Htry) in Hrun.
    injection Hrun as <- <-. split; [done|]. split; [done|]. split; [done|].
    split; [by intros ? ? [= <- <-]|]. intros o0 [= -> <-] Hc.
    split; [|intros _; lia]. intros _. split; [done|].
    destruct (sys_open_ok _ _ _ _ _ _ Ho) as (_ & _ & _ & _ & [Hfile|[_ Hrw]]); [lia| |].
    + simpl in Hfile. by rewrite <- Hfs.
    + destruct (lock_mode_cases _ _ _ Hmode) as [[? _]|[_ H1]]; [done|]. by rewrite H1 in Hrw.
Qed.

Lemma close_fds_ext fds w w' :
  for_each (λ fd, sys_close fd;; mret tt) fds w = Ret w' tt →
  w_ext w' = w_ext w ∧ w_calls w' = w_calls w ∧ _do_print_errors w' = _do_print_errors w.
Proof.
  revert w. induction fds as [|y fds IH]; intros w; [by intros [= <-]|].
  rewrite for_each_cons, bind_eq, sys_close_eq.
  destruct (w_fdt w !! y); rewrite ret_eq; intros H; by apply IH in H.
Qed.

Lemma close_and_unlock_ext fd w w' rc :
  close_and_unlock fd w = Ret w' rc →
  w_fs w' = w_fs w ∧ w_ext w' = w_ext w ∧ w_calls w' = w_calls w
  ∧ _do_print_errors w' = _do_print_errors w.
Proof.
  unfold close_and_unlock. destruct (fd <? 0); [by intros [= <- <-]|].
  rewrite bind_eq. simpl.
  destruct (search_fd fd (locks_list w) 0) as [j index| |]; [|by intros [= <- <-]|done].
  destruct (locks_list w !! j) as [l|]; [|done].
  destruct (decide _); [|by intros [= <- <-]]. simpl.
  destruct (l_refs l - 1 =? 0).
  - rewrite !bind_eq. simpl. unfold close_and_free_filelock.
    destruct (close_fds_frame (take (l_next_fd (set_refs (l_refs l - 1) (set_status index 0 l)))
                (l_fd (set_refs (l_refs l - 1) (set_status index 0 l))))
                (set_locks (delete j (locks_list w)) w)) as (w1 & Hc & _ & Hfs & _).
    rewrite bind_eq, Hc. intros [= <- <-]. apply close_fds_ext in Hc. by destruct Hc as (? & ? & ?).
  - rewrite !bind_eq. simpl. by intros [= <- <-].
Qed.

(** A file that is not held is opened and closed again: nothing is left of
    the two calls but the clock and the error variables. *)
Lemma open_then_close w path (flags timeout_usec mode : Z) lt o :
  registry_ok w → timeout_usec ≠ BLOBSTORE_NO_TIMEOUT →
  lock_mode flags = Some (lt, o) → has_flag o O_CREAT = false →
  find_lock path (locks_list w) = None →
  ∀ w1 fd, open_and_lock path flags timeout_usec mode w = Ret w1 fd → fd ≠ -1 →
  ∃ w2, close_and_unlock fd w1 = Ret w2 0 ∧ errors_only w w2
      ∧ _do_print_errors w2 = _do_print_errors w.
Proof.
  intros Hok Hto Hmode Hc Hfind w1 fd Hrun Hfd.
  destruct (open_and_lock_shape w path flags timeout_usec mode w1 fd Hok Hto Hrun)
    as (Hext & Hcalls & Hprint & Hfs & _).
  specialize (Hfs lt o Hmode Hc).
  destruct (open_and_lock_first w path flags timeout_usec mode lt o w1 fd Hmode Hfind Hrun Hfd)
    as (Hfd0 & Hll & Hfdt & _ & _).
  pose proof (lowest_free_ge (w_fdt w) 0 (size (w_fdt w))) as Hge.
  pose proof (lowest_free_free (w_fdt w)) as Hfree. rewrite <- Hfd0 in Hge, Hfree.
  destruct (registry_ok_first w w1 path lt fd Hok Hfind Hge Hfree Hll Hfdt) as [Hwf1 _].
  set (l1 := push_fd fd (set_lock (taken lt) (set_refs 1 (new_filelock path lt)))) in *.
  destruct (close_and_unlock_run w1 (length (locks_list w)) l1 0 fd Hwf1)
    as (w2 & Hclose & Hfs2 & Hres); [rewrite Hll; by apply list_lookup_middle|done|done|].
  rewrite decide_True in Hres by done. destruct Hres as [Hll2 Hfdt2].
  destruct (close_and_unlock_ext _ _ _ _ Hclose) as (_ & Hext2 & Hcalls2 & Hprint2).
  exists w2. split; [done|]. split; [|congruence].
  repeat split; try congruence.
  - apply map_eq. intros x. rewrite Hfdt2, Hfdt.
    change (table_fds l1) with [fd]. destruct (decide (x ∈ [fd])) as [Hx|Hx].
    + apply list_elem_of_singleton in Hx as ->. by rewrite Hfree.
    + rewrite lookup_insert_ne; [done|]. intros <-. apply Hx. left.
  - rewrite Hll2, Hll, delete_middle. by rewrite app_nil_r.
Qed.

(** ** The use of a blob *)

Lemma sidecar_read_fst o (s1 s2 : string) sz : (sidecar_read o s1 sz).1 = (sidecar_read o s2 sz).1.
Proof.
  unfold sidecar_read. destruct o as [[d t|]|]; [|done..].
  destruct (_ <=? _); [|done]. by destruct (_ <=? _).
Qed.

Lemma sidecar_read_readable w path_t bs (bb_id : string) (str : string) :
  0 < (sidecar_read (w_fs w !! sidecar_path path_t bs bb_id) str PATH_MAX).1
  ↔ readable w path_t bs bb_id.
Proof.
  unfold readable, sidecar_read.
  destruct (w_fs w !! sidecar_path path_t bs bb_id) as [[d t|]|]; simpl.
  - destruct (Z.leb_spec (nbytes d) PATH_MAX); [destruct (Z.leb_spec 1 (nbytes d))|]; simpl.
    + split; [intros _; by exists d, t|]. intros _. lia.
    + split; [lia|]. intros (d' & t' & [= <- <-] & ?). lia.
    + split; [lia|]. intros (d' & t' & [= <- <-] & ?). lia.
  - split; [lia|]. by intros (d' & t' & [=] & ?).
  - split; [lia|]. by intros (d' & t' & [=] & ?).
Qed.

Lemma errors_only_registry_ok w w' : errors_only w w' → registry_ok w → registry_ok w'.
Proof. intros (_ & Hfdt & Hll & _). by apply registry_ok_same. Qed.

Lemma check_in_use_run w bs (bb_id : string) (timeout_usec : Z) :
  registry_ok w → format bs ≠ BLOBSTORE_FORMAT_ANY → timeout_usec ≠ BLOBSTORE_NO_TIMEOUT →
  lock_mode BLOBSTORE_FLAG_RDWR = Some (F_WRLCK, Z.lor 0 O_RDWR) →
  ∃ w', check_in_use bs bb_id timeout_usec w = Ret w' (in_use_of w bs bb_id)
      ∧ errors_only w w' ∧ _do_print_errors w' = true.
Proof.
  intros Hok Hf Hto Hmode. unfold check_in_use.
  rewrite bind_eq, metadata_path_valid by done. cbv beta iota zeta.
  set (blocks := sidecar_path BLOCKBLOB_PATH_BLOCKS bs bb_id).
  rewrite bind_eq. unfold _err_off at 1. cbn [modify]. cbv beta iota zeta.
  set (w0 := set_print false w).
  assert (Hok0 : registry_ok w0) by (by apply (registry_ok_same w)).
  destruct (open_and_lock_registry w0 blocks BLOBSTORE_FLAG_RDWR timeout_usec timeout_usec
              Hok0 Hto) as (w1 & fd & Hrun & Hok1 & Hfail & _).
  destruct (open_and_lock_shape w0 blocks BLOBSTORE_FLAG_RDWR timeout_usec timeout_usec
              w1 fd Hok0 Hto Hrun) as (Hext & Hcalls & Hprint & Hfs & Hiff).
  specialize (Hfs _ _ Hmode eq_refl). specialize (Hiff _ Hmode eq_refl).
  rewrite bind_eq, Hrun. cbv beta iota zeta.
  assert (∃ wa, (if fd =? -1 then mret (Z.lor 0 BLOCKBLOB_STATUS_OPENED)
                 else close_and_unlock fd;; mret 0) w1
                = Ret wa (if bool_decide (descriptors_held w blocks = [])
                             && is_file (w_fs w !! blocks)
                          then 0 else Z.lor 0 BLOCKBLOB_STATUS_OPENED)
              ∧ errors_only w wa) as (wa & Hwa & Hea).
  { destruct (Z.eqb_spec fd (-1)) as [Hfd|Hfd].
    - exists w1. destruct (Hfail Hfd) as (Hll & Hfdt & _). split.
      + replace (bool_decide (descriptors_held w blocks = []) && is_file (w_fs w !! blocks))
          with false; [done|].
        symmetry. apply not_true_is_false. intros [Hheld Hfile]%andb_true_iff.
        apply bool_decide_eq_true in Hheld. apply Hiff; [|done].
        split; [|done]. by apply (registry_ok_unheld w0).
      + by repeat split.
    - apply Hiff in Hfd as Hst. destruct Hst as [Hfind Hfile].
      destruct (open_then_close w0 blocks BLOBSTORE_FLAG_RDWR timeout_usec timeout_usec
                  F_WRLCK (Z.lor 0 O_RDWR) Hok0 Hto Hmode eq_refl Hfind w1 fd Hrun Hfd)
        as (w2 & Hclose & He2 & _).
      exists w2. rewrite bind_eq, Hclose. split; [|done].
      replace (bool_decide (descriptors_held w blocks = []) && is_file (w_fs w !! blocks))
        with true; [done|].
      symmetry. apply andb_true_iff. split; [|done]. apply bool_decide_eq_true.
      unfold descriptors_held. simpl in Hfind. by rewrite Hfind. }
  rewrite bind_eq, Hwa. cbv beta iota zeta.
  destruct (read_sidecar_run BLOCKBLOB_PATH_REFS bs bb_id blocks PATH_MAX wa)
    as (wb & Hrb & Heb & _); [done|done|done|].
  rewrite bind_eq, Hrb. cbv beta iota zeta.
  destruct (read_sidecar_run BLOCKBLOB_PATH_DEPS bs bb_id blocks PATH_MAX wb)
    as (wc & Hrc & Hec & _); [done|done|done|].
  rewrite bind_eq, Hrc. cbv beta iota zeta.
  rewrite bind_eq. unfold _err_on. cbn [modify]. rewrite ret_eq.
  exists (set_print true wc). split.
  - f_equal. unfold in_use_of. fold blocks.
    destruct Hea as (Hfa & _), Heb as (Hfb & _).
    rewrite Hfa, Hfb, Hfa.
    rewrite (sidecar_read_fst _ blocks ""). rewrite (sidecar_read_fst _ blocks "" PATH_MAX).
    done.
  - split; [|done].
    apply (errors_only_trans w wc); [|done].
    by apply (errors_only_trans w wb); [apply (errors_only_trans w wa)|].
Qed.

(** The bits of an answer of [check_in_use], when the three flags are
    bits of their own. *)
Lemma in_use_bits (o m b : bool) :
  Z.land BLOCKBLOB_STATUS_OPENED BLOCKBLOB_STATUS_MAPPED = 0 →
  Z.land BLOCKBLOB_STATUS_OPENED BLOCKBLOB_STATUS_BACKED = 0 →
  Z.land BLOCKBLOB_STATUS_MAPPED BLOCKBLOB_STATUS_BACKED = 0 →
  BLOCKBLOB_STATUS_OPENED ≠ 0 → BLOCKBLOB_STATUS_MAPPED ≠ 0 → BLOCKBLOB_STATUS_BACKED ≠ 0 →
  let u := if o then Z.lor 0 BLOCKBLOB_STATUS_OPENED else 0 in
  let u := if m then Z.lor u BLOCKBLOB_STATUS_MAPPED else u in
  let u := if b then Z.lor u BLOCKBLOB_STATUS_BACKED else u in
  (Z.land u BLOCKBLOB_STATUS_OPENED ≠ 0 ↔ o = true)
  ∧ (Z.land u BLOCKBLOB_STATUS_MAPPED ≠ 0 ↔ m = true)
  ∧ (Z.land u BLOCKBLOB_STATUS_BACKED ≠ 0 ↔ b = true).
Proof.
  intros Hom Hob Hmb Ho Hm Hb.
  assert (Hmo : Z.land BLOCKBLOB_STATUS_MAPPED BLOCKBLOB_STATUS_OPENED = 0)
    by (by rewrite Z.land_comm).
  assert (Hbo : Z.land BLOCKBLOB_STATUS_BACKED BLOCKBLOB_STATUS_OPENED = 0)
    by (by rewrite Z.land_comm).
  assert (Hbm : Z.land BLOCKBLOB_STATUS_BACKED BLOCKBLOB_STATUS_MAPPED = 0)
    by (by rewrite Z.land_comm).
  destruct o, m, b; cbv zeta;
    rewrite ?Z.land_lor_distr_l, ?Z.land_diag, ?Z.land_0_l, ?Hom, ?Hob, ?Hmb, ?Hmo, ?Hbo, ?Hbm,
      ?Z.lor_0_l, ?Z.lor_0_r;
    repeat split; try done.
Qed.

(** X10.  [check_in_use] reads the use of a blob off the state.  When the
    three status flags are bits of their own, the answer has
    [BLOCKBLOB_STATUS_OPENED] when this process holds a descriptor of the
    blocks file, and also when there is no such file;
    [BLOCKBLOB_STATUS_MAPPED] when the refs file has between one and
    [PATH_MAX] bytes; and [BLOCKBLOB_STATUS_BACKED] when the deps file has.
    The call leaves the files, the registry and the open descriptors as
    they were. *)
Theorem check_in_use_reads_state w bs (bb_id : string) (timeout_usec : Z) :
  registry_ok w → format bs ≠ BLOBSTORE_FORMAT_ANY → timeout_usec ≠ BLOBSTORE_NO_TIMEOUT →
  lock_mode BLOBSTORE_FLAG_RDWR = Some (F_WRLCK, Z.lor 0 O_RDWR) →
  Z.land BLOCKBLOB_STATUS_OPENED BLOCKBLOB_STATUS_MAPPED = 0 →
  Z.land BLOCKBLOB_STATUS_OPENED BLOCKBLOB_STATUS_BACKED = 0 →
  Z.land BLOCKBLOB_STATUS_MAPPED BLOCKBLOB_STATUS_BACKED = 0 →
  BLOCKBLOB_STATUS_OPENED ≠ 0 → BLOCKBLOB_STATUS_MAPPED ≠ 0 → BLOCKBLOB_STATUS_BACKED ≠ 0 →
  ∃ w' u, check_in_use bs bb_id timeout_usec w = Ret w' u ∧ errors_only w w'
    ∧ (Z.land u BLOCKBLOB_STATUS_OPENED ≠ 0
       ↔ descriptors_held w (sidecar_path BLOCKBLOB_PATH_BLOCKS bs bb_id) ≠ []
         ∨ is_file (w_fs w !! sidecar_path BLOCKBLOB_PATH_BLOCKS bs bb_id) = false)
    ∧ (Z.land u BLOCKBLOB_STATUS_MAPPED ≠ 0 ↔ readable w BLOCKBLOB_PATH_REFS bs bb_id)
    ∧ (Z.land u BLOCKBLOB_STATUS_BACKED ≠ 0 ↔ readable w BLOCKBLOB_PATH_DEPS bs bb_id).
Proof.
  intros Hok Hf Hto Hmode Hom Hob Hmb Ho Hm Hb.
  destruct (check_in_use_run w bs bb_id timeout_usec Hok Hf Hto Hmode) as (w' & Hrun & He & _).
  exists w', (in_use_of w bs bb_id). split; [done|]. split; [done|].
  unfold in_use_of.
  set (blocks := sidecar_path BLOCKBLOB_PATH_BLOCKS bs bb_id).
  set (c1 := bool_decide (descriptors_held w blocks = []) && is_file (w_fs w !! blocks)).
  set (c2 := 0 <? (sidecar_read (w_fs w !! sidecar_path BLOCKBLOB_PATH_REFS bs bb_id)
                     "" PATH_MAX).1).
  set (c3 := 0 <? (sidecar_read (w_fs w !! sidecar_path BLOCKBLOB_PATH_DEPS bs bb_id)
                     "" PATH_MAX).1).
  destruct (in_use_bits (negb c1) c2 c3 Hom Hob Hmb Ho Hm Hb) as (H1 & H2 & H3).
  cbv zeta in H1, H2, H3 |- *.
  replace (if c1 then 0 else Z.lor 0 BLOCKBLOB_STATUS_OPENED)
    with (if negb c1 then Z.lor 0 BLOCKBLOB_STATUS_OPENED else 0) by (by destruct c1).
  rewrite H1, H2, H3. split; [|split].
  - unfold c1. rewrite negb_true_iff, andb_false_iff, bool_decide_eq_false. done.
  - unfold c2. rewrite Z.ltb_lt. apply sidecar_read_readable.
  - unfold c3. rewrite Z.ltb_lt. apply sidecar_read_readable.
Qed.

(** ** A string in a sidecar *)

(** X11.  A string written to a sidecar is read back.  When
    [write_blockblob_metadata_path] has returned 0,
    [read_blockblob_metadata_path] returns the length of the string and the
    string, provided the string is not empty and fits the buffer; an empty
    string and one longer than the buffer are not read back: the call
    returns -1 with [BLOBSTORE_ERROR_NOENT].  The read leaves no descriptor
    open. *)
Theorem write_then_read_sidecar w w' path_t bs (bb_id : string) (str buf : string) sz :
  format bs ≠ BLOBSTORE_FORMAT_ANY → path_t ≠ BLOCKBLOB_PATH_NONE → 0 ≤ sz →
  c_string str →
  write_blockblob_metadata_path path_t bs bb_id str w = Ret w' 0 →
  ∃ w'' r, read_blockblob_metadata_path path_t bs bb_id buf sz w' = Ret w'' r
    ∧ errors_only w' w''
    ∧ (1 ≤ nbytes str ≤ sz → r = (nbytes str, str))
    ∧ (nbytes str = 0 ∨ sz < nbytes str →
         r.1 = -1 ∧ _blobstore_errno w'' = BLOBSTORE_ERROR_NOENT).
Proof.
  intros Hf Hk Hsz _ Hw. unfold write_blockblob_metadata_path in Hw.
  rewrite bind_eq, metadata_path_valid in Hw by done. cbv beta iota zeta in Hw.
  rewrite bind_eq in Hw.
  destruct (stdio_write (sidecar_path path_t bs bb_id) str w) as [w1 [|]| |] eqn:Hst;
    [|rewrite bind_eq, propagate_system_errno_eq in Hw; by injection Hw|done..].
  injection Hw as <-. apply stdio_write_ok in Hst as [t Ht].
  destruct (read_sidecar_run path_t bs bb_id buf sz w1 Hf Hk Hsz)
    as (w2 & Hr & He & _ & _ & Herr).
  rewrite Ht in Hr. exists w2, (sidecar_read (Some (File str t)) buf sz).
  split; [done|]. split; [done|]. unfold sidecar_read. split.
  - intros [H1 H2]. destruct (Z.leb_spec (nbytes str) sz); [|lia].
    by destruct (Z.leb_spec 1 (nbytes str)); [|lia].
  - intros Hbad. split.
    + destruct (Z.leb_spec (nbytes str) sz); [|done].
      destruct (Z.leb_spec 1 (nbytes str)); [lia|done].
    + rewrite Herr; [by rewrite Ht|]. rewrite Ht. unfold sidecar_read.
      destruct (Z.leb_spec (nbytes str) sz); [|done].
      destruct (Z.leb_spec 1 (nbytes str)); [lia|done].
Qed.

(** ** Closing and deleting a blob in use *)

Lemma call_ext_eq {A} (f : E → E * A) c w :
  call_ext f c w = Ret (set_ext (f (w_ext w)).1 c w) (f (w_ext w)).2.
Proof. done. Qed.

(** [loop_remove] may call [diskutil_unloop] once and then remove the
    loopback file; it leaves the rest as it is. *)
Lemma loop_remove_run bs (bb_id : string) w :
  format bs ≠ BLOBSTORE_FORMAT_ANY →
  ∃ w' rc, loop_remove bs bb_id w = Ret w' rc
    ∧ locks_list w' = locks_list w ∧ w_fdt w' = w_fdt w
    ∧ (∀ p, p ≠ sidecar_path BLOCKBLOB_PATH_LOOPBACK bs bb_id → w_fs w' !! p = w_fs w !! p)
    ∧ (w_calls w' = w_calls w ∨ ∃ dev, w_calls w' = w_calls w ++ [CallUnloop dev]).
Proof.
  intros Hf. unfold loop_remove. rewrite bind_eq. unfold _err_off at 1. cbn [modify].
  cbv beta iota zeta.
  destruct (read_sidecar_run BLOCKBLOB_PATH_LOOPBACK bs bb_id "" PATH_MAX (set_print false w))
    as (w1 & Hr & (Hfs & Hfdt & Hll & Hext & Hcalls) & _); [done|done|done|].
  simpl in Hfs, Hfdt, Hll, Hext, Hcalls.
  rewrite bind_eq, Hr. cbv beta iota zeta. rewrite bind_eq. unfold _err_on. cbn [modify].
  cbv beta iota zeta.
  destruct (0 <? strlen _).
  2: { eexists _, _. split; [done|]. simpl. split; [done|]. split; [done|].
       split; [by intros p _; rewrite Hfs|by left]. }
  rewrite bind_eq, call_ext_eq. destruct (ext_unloop _ _) as [e' [|]]; cbn [fst snd].
  - rewrite bind_eq, metadata_path_valid by done. cbv beta iota zeta.
    rewrite bind_eq, sys_unlink_eq. cbn [w_fs set_ext set_print].
    destruct (w_fs w1 !! sidecar_path BLOCKBLOB_PATH_LOOPBACK bs bb_id) as [[d t|]|] eqn:Hp;
      rewrite ret_eq; eexists _, _; (split; [done|]); simpl;
      (split; [done|]); (split; [done|]); (split; [|right; eexists; by rewrite Hcalls]).
    + intros p Hne. by rewrite lookup_delete_ne, Hfs.
    + intros p Hne. by rewrite Hfs.
    + intros p Hne. by rewrite Hfs.
  - rewrite bind_eq. eexists _, _. split; [done|]. simpl.
    split; [done|]. split; [done|]. split; [by intros p _; rewrite Hfs|].
    right. eexists. by rewrite Hcalls.
Qed.

Lemma descriptors_held_same w w' path :
  locks_list w' = locks_list w → descriptors_held w' path = descriptors_held w path.
Proof. intros H. unfold descriptors_held. by rewrite H. Qed.

Lemma in_use_of_dm w bs (bb_id : string) :
  Z.land BLOCKBLOB_STATUS_OPENED BLOCKBLOB_STATUS_MAPPED = 0 →
  Z.land BLOCKBLOB_STATUS_OPENED BLOCKBLOB_STATUS_BACKED = 0 →
  Z.land BLOCKBLOB_STATUS_MAPPED BLOCKBLOB_STATUS_BACKED = 0 →
  BLOCKBLOB_STATUS_OPENED ≠ 0 → BLOCKBLOB_STATUS_MAPPED ≠ 0 → BLOCKBLOB_STATUS_BACKED ≠ 0 →
  (Z.land (in_use_of w bs bb_id) BLOCKBLOB_STATUS_MAPPED ≠ 0
   ↔ readable w BLOCKBLOB_PATH_REFS bs bb_id)
  ∧ (Z.land (in_use_of w bs bb_id) BLOCKBLOB_STATUS_BACKED ≠ 0
     ↔ readable w BLOCKBLOB_PATH_DEPS bs bb_id).
Proof.
  intros Hom Hob Hmb Ho Hm Hb. unfold in_use_of.
  set (blocks := sidecar_path BLOCKBLOB_PATH_BLOCKS bs bb_id).
  set (c1 := bool_decide (descriptors_held w blocks = []) && is_file (w_fs w !! blocks)).
  set (c2 := 0 <? (sidecar_read (w_fs w !! sidecar_path BLOCKBLOB_PATH_REFS bs bb_id)
                     "" PATH_MAX).1).
  set (c3 := 0 <? (sidecar_read (w_fs w !! sidecar_path BLOCKBLOB_PATH_DEPS bs bb_id)
                     "" PATH_MAX).1).
  destruct (in_use_bits (negb c1) c2 c3 Hom Hob Hmb Ho Hm Hb) as (_ & H2 & H3).
  cbv zeta in H2, H3 |- *.
  replace (if c1 then 0 else Z.lor 0 BLOCKBLOB_STATUS_OPENED)
    with (if negb c1 then Z.lor 0 BLOCKBLOB_STATUS_OPENED else 0) by (by destruct c1).
  rewrite H2, H3. split.
  - unfold c2. rewrite Z.ltb_lt. apply sidecar_read_readable.
  - unfold c3. rewrite Z.ltb_lt. apply sidecar_read_readable.
Qed.

(** X12.  [blockblob_close] gives up the descriptor of the blob, whatever
    else happens, and never detaches the loopback device of a blob that the
    device mapper uses.  The call returns with the registry in order and
    the descriptor of the handle held no more, the others as before; no
    file but the loopback file of the blob is touched; and when the refs
    file or the deps file of the blob can be read, no file is touched and
    no helper program is run. *)
Theorem blockblob_close_releases w bb :
  registry_ok w → format (store bb) ≠ BLOBSTORE_FORMAT_ANY →
  lock_mode BLOBSTORE_FLAG_RDWR = Some (F_WRLCK, Z.lor 0 O_RDWR) →
  Z.land BLOCKBLOB_STATUS_OPENED BLOCKBLOB_STATUS_MAPPED = 0 →
  Z.land BLOCKBLOB_STATUS_OPENED BLOCKBLOB_STATUS_BACKED = 0 →
  Z.land BLOCKBLOB_STATUS_MAPPED BLOCKBLOB_STATUS_BACKED = 0 →
  BLOCKBLOB_STATUS_OPENED ≠ 0 → BLOCKBLOB_STATUS_MAPPED ≠ 0 → BLOCKBLOB_STATUS_BACKED ≠ 0 →
  ∃ w' rc, blockblob_close (Some bb) w = Ret w' rc ∧ registry_ok w'
    ∧ (∀ path x, x ∈ descriptors_held w' path ↔ x ∈ descriptors_held w path ∧ x ≠ bb_fd bb)
    ∧ (∀ p, p ≠ sidecar_path BLOCKBLOB_PATH_LOOPBACK (store bb) (bb_id bb) →
         w_fs w' !! p = w_fs w !! p)
    ∧ (readable w BLOCKBLOB_PATH_REFS (store bb) (bb_id bb)
       ∨ readable w BLOCKBLOB_PATH_DEPS (store bb) (bb_id bb) →
       w_fs w' = w_fs w ∧ w_calls w' = w_calls w).
Proof.
  intros Hok Hf Hmode Hom Hob Hmb Ho Hm Hb. unfold blockblob_close.
  destruct (check_in_use_run w (store bb) (bb_id bb) 0 Hok Hf) as (w1 & Hrun & He1 & _);
    [done|done|].
  rewrite bind_eq, Hrun. cbv beta iota zeta.
  destruct (in_use_of_dm w (store bb) (bb_id bb) Hom Hob Hmb Ho Hm Hb) as [Hmapped Hbacked].
  set (u := in_use_of w (store bb) (bb_id bb)) in *.
  assert (Hdm : Z.land u (Z.lor BLOCKBLOB_STATUS_MAPPED BLOCKBLOB_STATUS_BACKED) = 0
                ↔ ¬ (readable w BLOCKBLOB_PATH_REFS (store bb) (bb_id bb)
                     ∨ readable w BLOCKBLOB_PATH_DEPS (store bb) (bb_id bb))).
  { rewrite Z.land_lor_distr_r, Z.lor_eq_0_iff, <- Hmapped, <- Hbacked.
    split; [by intros [H1 H2] [H|H]|]. intros Hn.
    split; [destruct (decide (Z.land u BLOCKBLOB_STATUS_MAPPED = 0))
           |destruct (decide (Z.land u BLOCKBLOB_STATUS_BACKED = 0))];
      try done; exfalso; apply Hn; [by left|by right]. }
  destruct He1 as (Hfs1 & Hfdt1 & Hll1 & Hext1 & Hcalls1).
  assert (∃ w2 ret,
            (if Z.land u (Z.lor BLOCKBLOB_STATUS_MAPPED BLOCKBLOB_STATUS_BACKED) =? 0
             then loop_remove (store bb) (bb_id bb) else mret 0) w1 = Ret w2 ret
            ∧ locks_list w2 = locks_list w ∧ w_fdt w2 = w_fdt w
            ∧ (∀ p, p ≠ sidecar_path BLOCKBLOB_PATH_LOOPBACK (store bb) (bb_id bb) →
                 w_fs w2 !! p = w_fs w !! p)
            ∧ (readable w BLOCKBLOB_PATH_REFS (store bb) (bb_id bb)
               ∨ readable w BLOCKBLOB_PATH_DEPS (store bb) (bb_id bb) →
               w_fs w2 = w_fs w ∧ w_calls w2 = w_calls w))
    as (w2 & ret & Hstep & Hll2 & Hfdt2 & Hfs2 & Hquiet).
  { destruct (Z.eqb_spec (Z.land u (Z.lor BLOCKBLOB_STATUS_MAPPED BLOCKBLOB_STATUS_BACKED)) 0)
      as [H0|H0].
    - destruct (loop_remove_run (store bb) (bb_id bb) w1 Hf)
        as (w2 & ret & Hlr & Hll2 & Hfdt2 & Hfs2 & _).
      exists w2, ret. split; [done|]. split; [congruence|]. split; [congruence|].
      split; [intros p Hp; by rewrite Hfs2, Hfs1|]. intros Hr. by apply Hdm in H0.
    - exists w1, 0. split; [done|]. split; [done|]. split; [done|].
      split; [intros p _; by rewrite Hfs1|]. done. }
  rewrite bind_eq, Hstep. cbv beta iota zeta.
  assert (Hok2 : registry_ok w2) by (by apply (registry_ok_same w)).
  destruct (close_and_unlock_registry w2 (bb_fd bb) Hok2) as [Hheld Hnot].
  assert (Hsame : ∀ path, descriptors_held w2 path = descriptors_held w path)
    by (intros path; by apply descriptors_held_same).
  destruct (decide (Exists (λ l, bb_fd bb ∈ held_fds l) (locks_list w))) as [Hex|Hex].
  - apply Exists_exists in Hex as (l & Hl & Hin).
    destruct Hheld as (w3 & Hclose & Hok3 & Hfs3 & Hchar & _).
    { exists (l_path l). rewrite Hsame. destruct Hok as [(Hpaths & _) _].
      apply elem_of_descriptors_held; [done|]. by exists l. }
    destruct (close_and_unlock_ext _ _ _ _ Hclose) as (_ & _ & Hcalls3 & _).
    rewrite bind_eq, Hclose, ret_eq. exists w3, (Z.lor ret 0).
    split; [done|]. split; [done|]. split; [|split].
    + intros path x. by rewrite Hchar, Hsame.
    + intros p Hp. by rewrite Hfs3, Hfs2.
    + intros Hr. destruct (Hquiet Hr) as [Hq1 Hq2]. split; congruence.
  - rewrite bind_eq, Hnot, ret_eq.
    2: { intros path Hin. apply Hex. rewrite Hsame in Hin.
         destruct Hok as [(Hpaths & _) _].
         apply elem_of_descriptors_held in Hin as (l & Hl & _ & Hin); [|done].
         apply Exists_exists. by exists l. }
    exists (set_blobstore_errno BLOBSTORE_ERROR_BADF w2), (Z.lor ret (-1)).
    split; [done|]. split; [by apply (registry_ok_same w2)|]. split; [|split].
    + intros path x.
      rewrite (descriptors_held_same w2 (set_blobstore_errno BLOBSTORE_ERROR_BADF w2)) by done.
      rewrite Hsame. split; [|by intros []]. intros Hin. split; [done|]. intros ->.
      apply Hex. destruct Hok as [(Hpaths & _) _].
      apply elem_of_descriptors_held in Hin as (l & Hl & _ & Hin); [|done].
      apply Exists_exists. by exists l.
    + done.
    + done.
Qed.

Lemma close_fds_errno fds w w' :
  for_each (λ fd, sys_close fd;; mret tt) fds w = Ret w' tt →
  _blobstore_errno w' = _blobstore_errno w.
Proof.
  revert w. induction fds as [|y fds IH]; intros w; [by intros [= <-]|].
  rewrite for_each_cons, bind_eq, sys_close_eq.
  destruct (w_fdt w !! y); rewrite ret_eq; intros H; by apply IH in H.
Qed.

Lemma close_and_unlock_ok_errno fd w w' :
  close_and_unlock fd w = Ret w' 0 → _blobstore_errno w' = _blobstore_errno w.
Proof.
  unfold close_and_unlock. destruct (fd <? 0); [by intros [= <-]|].
  rewrite bind_eq. simpl.
  destruct (search_fd fd (locks_list w) 0) as [j index| |]; [|by intros [= <-]|done].
  destruct (locks_list w !! j) as [l|]; [|done].
  destruct (decide _); [|by intros [= <-]]. simpl.
  destruct (l_refs l - 1 =? 0).
  - rewrite !bind_eq. simpl. unfold close_and_free_filelock.
    destruct (close_fds_frame (take (l_next_fd (set_refs (l_refs l - 1) (set_status index 0 l)))
                (l_fd (set_refs (l_refs l - 1) (set_status index 0 l))))
                (set_locks (delete j (locks_list w)) w)) as (w1 & Hc & _).
    rewrite bind_eq, Hc. intros [= <-]. by apply close_fds_errno in Hc.
  - rewrite !bind_eq. simpl. by intros [= <-].
Qed.

(** The descriptor that a call returned for a path with none held is
    closed later on, the registry and the descriptors being as that call
    left them: they are again as they were before it. *)
Lemma close_after_open w path (flags timeout_usec mode : Z) lt o w1 fd w3 :
  registry_ok w → lock_mode flags = Some (lt, o) → find_lock path (locks_list w) = None →
  open_and_lock path flags timeout_usec mode w = Ret w1 fd → fd ≠ -1 →
  locks_list w3 = locks_list w1 → w_fdt w3 = w_fdt w1 →
  ∃ w4, close_and_unlock fd w3 = Ret w4 0
      ∧ locks_list w4 = locks_list w ∧ w_fdt w4 = w_fdt w ∧ w_fs w4 = w_fs w3
      ∧ w_ext w4 = w_ext w3 ∧ w_calls w4 = w_calls w3
      ∧ _blobstore_errno w4 = _blobstore_errno w3.
Proof.
  intros Hok Hmode Hfind Hrun Hfd Hll3 Hfdt3.
  destruct (open_and_lock_first w path flags timeout_usec mode lt o w1 fd Hmode Hfind Hrun Hfd)
    as (Hfd0 & Hll & Hfdt & _ & _).
  pose proof (lowest_free_ge (w_fdt w) 0 (size (w_fdt w))) as Hge.
  pose proof (lowest_free_free (w_fdt w)) as Hfree. rewrite <- Hfd0 in Hge, Hfree.
  rewrite <- Hll3 in Hll. rewrite <- Hfdt3 in Hfdt.
  destruct (registry_ok_first w w3 path lt fd Hok Hfind Hge Hfree Hll Hfdt) as [Hwf3 _].
  set (l1 := push_fd fd (set_lock (taken lt) (set_refs 1 (new_filelock path lt)))) in *.
  destruct (close_and_unlock_run w3 (length (locks_list w)) l1 0 fd Hwf3)
    as (w4 & Hclose & Hfs4 & Hres); [rewrite Hll; by apply list_lookup_middle|done|done|].
  rewrite decide_True in Hres by done. destruct Hres as [Hll4 Hfdt4].
  destruct (close_and_unlock_ext _ _ _ _ Hclose) as (_ & Hext4 & Hcalls4 & _).
  exists w4. split; [done|]. split; [|split; [|split; [done|split; [done|split; [done|]]]]].
  - rewrite Hll4, Hll, delete_middle. by rewrite app_nil_r.
  - apply map_eq. intros x. rewrite Hfdt4, Hfdt.
    change (table_fds l1) with [fd]. destruct (decide (x ∈ [fd])) as [Hx|Hx].
    + apply list_elem_of_singleton in Hx as ->. by rewrite Hfree.
    + rewrite lookup_insert_ne; [done|]. intros <-. apply Hx. left.
  - by apply close_and_unlock_ok_errno in Hclose.
Qed.

Lemma mapped_bit_stays (u : Z) :
  Z.land BLOCKBLOB_STATUS_OPENED BLOCKBLOB_STATUS_MAPPED = 0 →
  Z.land BLOCKBLOB_STATUS_MAPPED BLOCKBLOB_STATUS_BACKED = 0 →
  Z.land u BLOCKBLOB_STATUS_MAPPED ≠ 0 →
  Z.land u (Z.lnot (Z.lor BLOCKBLOB_STATUS_OPENED BLOCKBLOB_STATUS_BACKED)) ≠ 0.
Proof.
  intros Hom Hmb Hm H0. apply Hm. apply Z.bits_inj'. intros n Hn.
  rewrite Z.land_spec, Z.bits_0.
  assert (H1 : Z.testbit BLOCKBLOB_STATUS_OPENED n && Z.testbit BLOCKBLOB_STATUS_MAPPED n = false)
    by (by rewrite <- Z.land_spec, Hom, Z.bits_0).
  assert (H2 : Z.testbit BLOCKBLOB_STATUS_MAPPED n && Z.testbit BLOCKBLOB_STATUS_BACKED n = false)
    by (by rewrite <- Z.land_spec, Hmb, Z.bits_0).
  assert (H3 : Z.testbit u n && negb (Z.testbit BLOCKBLOB_STATUS_OPENED n
                                       || Z.testbit BLOCKBLOB_STATUS_BACKED n) = false)
    by (by rewrite <- Z.lor_spec, <- Z.lnot_spec, <- Z.land_spec, H0, Z.bits_0).
  by destruct (Z.testbit u n), (Z.testbit BLOCKBLOB_STATUS_OPENED n),
    (Z.testbit BLOCKBLOB_STATUS_MAPPED n), (Z.testbit BLOCKBLOB_STATUS_BACKED n).
Qed.

(** X13.  [blockblob_delete] refuses a blob that others are mapped to.
    When the refs file of the blob can be read, the call returns -1 with an
    error set, [BLOBSTORE_ERROR_AGAIN] if the store could be locked; it
    deletes nothing, runs no helper program, and leaves the registry and
    the open descriptors as they were: the lock on the store is given
    back. *)
Theorem blockblob_delete_refuses_mapped w bb (timeout_usec : Z) :
  registry_ok w → format (store bb) ≠ BLOBSTORE_FORMAT_ANY →
  timeout_usec ≠ BLOBSTORE_NO_TIMEOUT →
  lock_mode BLOBSTORE_FLAG_RDWR = Some (F_WRLCK, Z.lor 0 O_RDWR) →
  Z.land BLOCKBLOB_STATUS_OPENED BLOCKBLOB_STATUS_MAPPED = 0 →
  Z.land BLOCKBLOB_STATUS_OPENED BLOCKBLOB_STATUS_BACKED = 0 →
  Z.land BLOCKBLOB_STATUS_MAPPED BLOCKBLOB_STATUS_BACKED = 0 →
  BLOCKBLOB_STATUS_OPENED ≠ 0 → BLOCKBLOB_STATUS_MAPPED ≠ 0 → BLOCKBLOB_STATUS_BACKED ≠ 0 →
  readable w BLOCKBLOB_PATH_REFS (store bb) (bb_id bb) →
  ∃ w', blockblob_delete (Some bb) timeout_usec w = Ret w' (-1)
      ∧ errors_only w w' ∧ _blobstore_errno w' ≠ BLOBSTORE_ERROR_OK
      ∧ (descriptors_held w (meta_path_of (store bb)) = [] →
         is_file (w_fs w !! meta_path_of (store bb)) = true →
         _blobstore_errno w' = BLOBSTORE_ERROR_AGAIN).
Proof.
  intros Hok Hf Hto Hmode Hom Hob Hmb Ho Hm Hb Hrefs.
  unfold blockblob_delete, blobstore_lock.
  set (bs := store bb) in *. set (meta := meta_path_of bs).
  destruct (open_and_lock_registry w meta BLOBSTORE_FLAG_RDWR timeout_usec 0 Hok Hto)
    as (w1 & fd & Hrun & Hok1 & Hfail & _).
  destruct (open_and_lock_shape w meta BLOBSTORE_FLAG_RDWR timeout_usec 0 w1 fd Hok Hto Hrun)
    as (Hext & Hcalls & _ & Hfs & Hiff).
  specialize (Hfs _ _ Hmode eq_refl). specialize (Hiff _ Hmode eq_refl).
  rewrite !bind_eq, Hrun. cbv beta iota zeta.
  destruct (Z.eqb_spec fd (-1)) as [Hfd|Hfd].
  - rewrite ret_eq. cbn [snd]. rewrite Hfd. change (-1 =? -1) with true. cbv beta iota.
    rewrite ret_eq. destruct (Hfail Hfd) as (Hll & Hfdt & Herr).
    exists w1. split; [done|]. split; [by repeat split|]. split; [done|].
    intros Hheld Hfile. exfalso. apply Hiff; [|done]. split; [|done].
    by apply registry_ok_unheld.
  - rewrite ret_eq. cbn [fst snd].
    replace (fd =? -1) with false by (symmetry; by apply Z.eqb_neq). cbv beta iota.
    apply Hiff in Hfd as Hst. destruct Hst as [Hfind Hfile].
    destruct (check_in_use_run w1 (with_bs_fd fd bs) (bb_id bb) timeout_usec Hok1)
      as (w2 & Hcheck & He2 & _); [done|done|done|].
    rewrite bind_eq, Hcheck. cbv beta iota zeta.
    assert (Hbit : Z.land (in_use_of w1 (with_bs_fd fd bs) (bb_id bb))
                     (Z.lnot (Z.lor BLOCKBLOB_STATUS_OPENED BLOCKBLOB_STATUS_BACKED)) ≠ 0).
    { apply mapped_bit_stays; [done|done|].
      apply (in_use_of_dm w1 (with_bs_fd fd bs) (bb_id bb) Hom Hob Hmb Ho Hm Hb).
      destruct Hrefs as (d & t & Hd & Hn). exists d, t. split; [|done].
      rewrite Hfs. exact Hd. }
    replace (Z.land _ _ =? 0) with false by (symmetry; by apply Z.eqb_neq).
    cbn [negb]. cbv beta iota.
    rewrite bind_eq. unfold err at 1. cbn [modify].
    unfold bb_delete_unlock. rewrite bind_eq. cbn [get_world]. cbv beta iota zeta.
    unfold blobstore_unlock. rewrite !bind_eq. cbn [bs_fd with_bs_fd].
    destruct He2 as (Hfs2 & Hfdt2 & Hll2 & Hext2 & Hcalls2).
    destruct (close_after_open w meta BLOBSTORE_FLAG_RDWR timeout_usec 0 F_WRLCK (Z.lor 0 O_RDWR)
                w1 fd (set_blobstore_errno BLOBSTORE_ERROR_AGAIN w2) Hok Hmode Hfind Hrun Hfd)
      as (w4 & Hclose & Hll4 & Hfdt4 & Hfs4 & Hext4 & Hcalls4 & Herr4); [done|done|].
    rewrite Hclose, ret_eq. cbn [snd]. change (0 =? -1) with false. cbv beta iota.
    rewrite bind_eq, ret_eq. cbn [_blobstore_errno set_blobstore_errno].
    rewrite decide_False by done. rewrite bind_eq. cbn [modify]. rewrite ret_eq.
    eexists. split; [done|]. simpl in *. split; [|done].
    unfold errors_only. simpl. repeat split; congruence.
Qed.

(** ** The entries of a list sidecar *)

Lemma str_contains_cstr (c : ascii) (s : string) :
  str_contains c s = false → str_contains c (cstr s) = false.
Proof.
  induction s as [|x s IH]; [done|]. simpl.
  intros [Hx Hs]%orb_false_iff. destruct (decide (x = "000"%char)); [done|].
  simpl. by rewrite Hx, IH.
Qed.

Lemma cstr_cstr (s : string) : cstr (cstr s) = cstr s.
Proof.
  induction s as [|x s IH]; [done|]. simpl.
  destruct (decide (x = "000"%char)) as [|Hx]; [done|]. simpl.
  by rewrite decide_False, IH.
Qed.

(** The lines that are read hold no newline and no NUL. *)
Lemma read_lines_plain (s : string) (line : option string) :
  str_contains newline (default "" line) = false →
  Forall (λ e, c_string e ∧ str_contains newline e = false) (read_lines s line).
Proof.
  revert line. induction s as [|c s IH]; intros line Hline; simpl.
  - destruct line as [l|]; [|constructor]. apply Forall_singleton.
    split; [apply cstr_cstr|by apply str_contains_cstr].
  - destruct (decide (c = newline)) as [->|Hc].
    + apply Forall_cons. split; [|by apply IH].
      split; [apply cstr_cstr|by apply str_contains_cstr].
    + apply IH. simpl. rewrite str_contains_append, Hline. simpl.
      by rewrite bool_decide_eq_false_2.
Qed.

Lemma read_array_run path_t bs (bb_id : string) w :
  format bs ≠ BLOBSTORE_FORMAT_ANY → path_t ≠ BLOCKBLOB_PATH_NONE →
  is_dir (w_fs w !! sidecar_path path_t bs bb_id) = false →
  read_array_blockblob_metadata_path path_t bs bb_id w
  = Ret w (0, match w_fs w !! sidecar_path path_t bs bb_id with
              | Some (File d _) => read_lines d None
              | _ => []
              end).
Proof.
  intros Hf Hk Hd. unfold read_array_blockblob_metadata_path.
  rewrite bind_eq, metadata_path_valid by done. cbv beta iota zeta.
  rewrite bind_eq. cbn [get_world].
  by destruct (w_fs w !! sidecar_path path_t bs bb_id) as [[d t|]|].
Qed.

Lemma write_array_run path_t bs (bb_id : string) (array : list string) w w' rc :
  format bs ≠ BLOBSTORE_FORMAT_ANY → path_t ≠ BLOCKBLOB_PATH_NONE →
  write_array_blockblob_metadata_path path_t bs bb_id array w = Ret w' rc → rc ≠ -1 →
  ∃ t, w_fs w' !! sidecar_path path_t bs bb_id = Some (File (array_text array) t).
Proof.
  intros Hf Hk. unfold write_array_blockblob_metadata_path.
  rewrite bind_eq, metadata_path_valid by done. cbv beta iota zeta. rewrite bind_eq.
  destruct (stdio_write _ _ w) as [w1 [|]| |] eqn:Hst;
    [|rewrite bind_eq, propagate_system_errno_eq; by intros [= <- <-]|done..].
  intros [= <- <-] _. by apply stdio_write_ok in Hst.
Qed.

(** The entry at [j] is overwritten by the last one and the array is cut
    by one. *)
Lemma swap_remove_perm (entries : list string) (j : nat) (entry : string) :
  entries !! j = Some entry →
  let n := pred (length entries) in
  entry :: take n (if negb (bool_decide (n = 0%nat)) && negb (bool_decide (j = n))
                   then <[j := default "" (entries !! n)]> entries else entries)
  ≡ₚ entries.
Proof.
  intros Hj n. destruct (list_elem_of_split_length _ _ _ Hj) as (l1 & l2 & -> & ->).
  destruct l2 as [|x l2 _] using rev_ind.
  - assert (Hn : n = length l1) by (unfold n; rewrite length_app; simpl; lia).
    rewrite Hn. rewrite (bool_decide_eq_true_2 (length l1 = length l1)) by done.
    rewrite andb_false_r. rewrite take_app_length. apply Permutation_cons_append.
  - assert (Hn : n = length (l1 ++ x :: l2)).
    { unfold n. rewrite !length_app. simpl. rewrite !length_app. simpl. lia. }
    rewrite (bool_decide_eq_false_2 (n = 0%nat))
      by (rewrite Hn, length_app; simpl; lia).
    rewrite (bool_decide_eq_false_2 (length l1 = n))
      by (rewrite Hn, length_app; simpl; lia).
    cbn [negb andb].
    assert (Hlast : (l1 ++ entry :: l2 ++ [x]) !! n = Some x).
    { replace (l1 ++ entry :: l2 ++ [x]) with ((l1 ++ entry :: l2) ++ [x])
        by (by rewrite <- app_assoc).
      rewrite lookup_app_r by (rewrite Hn, !length_app; simpl; lia).
      replace (n - length (l1 ++ entry :: l2))%nat with 0%nat
        by (rewrite Hn, !length_app; simpl; lia).
      done. }
    rewrite Hlast. cbn [default].
    rewrite insert_app_r_alt by lia. rewrite Nat.sub_diag. simpl.
    replace (l1 ++ x :: l2 ++ [x]) with ((l1 ++ x :: l2) ++ [x]) by (by rewrite <- app_assoc).
    rewrite Hn, take_app_length.
    rewrite <- (Permutation_middle l1 (l2 ++ [x]) entry).
    apply Permutation_skip. rewrite <- (Permutation_middle l1 l2 x).
    rewrite app_assoc. apply Permutation_cons_append.
Qed.

(** The same, line by line: the lines before the entry stay, the last line
    stands where the entry stood, and the lines between the two follow. *)
Lemma swap_remove_exact (l1 l2 : list string) (entry : string) :
  let entries := l1 ++ entry :: l2 in
  let n := pred (length entries) in
  take n (if negb (bool_decide (n = 0%nat)) && negb (bool_decide (length l1 = n))
          then <[length l1 := default "" (entries !! n)]> entries else entries)
  = l1 ++ match last l2 with
          | Some x => x :: take (pred (length l2)) l2
          | None => []
          end.
Proof.
  intros entries n. unfold entries in *. clear entries.
  destruct l2 as [|x l2 _] using rev_ind.
  - assert (Hn : n = length l1) by (unfold n; rewrite length_app; simpl; lia).
    rewrite Hn. rewrite (bool_decide_eq_true_2 (length l1 = length l1)) by done.
    rewrite andb_false_r. rewrite take_app_length. simpl. by rewrite app_nil_r.
  - assert (Hn : n = length (l1 ++ x :: l2)).
    { unfold n. rewrite !length_app. simpl. rewrite !length_app. simpl. lia. }
    rewrite (bool_decide_eq_false_2 (n = 0%nat))
      by (rewrite Hn, length_app; simpl; lia).
    rewrite (bool_decide_eq_false_2 (length l1 = n))
      by (rewrite Hn, length_app; simpl; lia).
    cbn [negb andb].
    assert (Hlast : (l1 ++ entry :: l2 ++ [x]) !! n = Some x).
    { replace (l1 ++ entry :: l2 ++ [x]) with ((l1 ++ entry :: l2) ++ [x])
        by (by rewrite <- app_assoc).
      rewrite lookup_app_r by (rewrite Hn, !length_app; simpl; lia).
      replace (n - length (l1 ++ entry :: l2))%nat with 0%nat
        by (rewrite Hn, !length_app; simpl; lia).
      done. }
    rewrite Hlast. cbn [default].
    rewrite insert_app_r_alt by lia. rewrite Nat.sub_diag. simpl.
    replace (l1 ++ x :: l2 ++ [x]) with ((l1 ++ x :: l2) ++ [x]) by (by rewrite <- app_assoc).
    rewrite Hn, take_app_length. rewrite last_snoc.
    rewrite length_app. simpl. replace (pred (length l2 + 1)) with (length l2) by lia.
    by rewrite take_app_length.
Qed.

(** X14.  [update_entry_blockblob_metadata_path] keeps a list sidecar as a
    set of lines.  When the call returns 0 for an entry without a newline:
    adding an entry that is there changes nothing and adding a new one puts
    it at the end; removing an entry that is not there changes nothing and
    removing one that is takes its first occurrence out, the last line
    moving into its place and the other lines staying where they are.  A
    file without repeated lines stays one, with the entry in it after
    adding and not in it after removing. *)
Theorem update_entry_adds_and_removes w w' path_t bs (bb_id : string) (entry : string)
    (removing : bool) :
  format bs ≠ BLOBSTORE_FORMAT_ANY → path_t ≠ BLOCKBLOB_PATH_NONE →
  c_string entry → str_contains newline entry = false →
  update_entry_blockblob_metadata_path path_t bs bb_id entry removing w = Ret w' 0 →
  ∃ entries entries',
    read_array_blockblob_metadata_path path_t bs bb_id w = Ret w (0, entries)
    ∧ read_array_blockblob_metadata_path path_t bs bb_id w' = Ret w' (0, entries')
    ∧ (if removing then
         (entry ∉ entries → entries' = entries)
         ∧ (∀ before after : list string,
              entries = before ++ entry :: after → entry ∉ before →
              entries' = before ++ match last after with
                                   | Some x => x :: take (pred (length after)) after
                                   | None => []
                                   end)
       else entries' = if decide (entry ∈ entries) then entries else entries ++ [entry])
    ∧ (NoDup entries → NoDup entries' ∧ (entry ∈ entries' ↔ removing = false)).
Proof.
  intros Hf Hk Hc Hn Hrun. unfold update_entry_blockblob_metadata_path in Hrun.
  rewrite bind_eq in Hrun.
  destruct (is_dir (w_fs w !! sidecar_path path_t bs bb_id)) eqn:Hdir.
  { unfold read_array_blockblob_metadata_path in Hrun.
    rewrite bind_eq, metadata_path_valid in Hrun by done. cbv beta iota zeta in Hrun.
    rewrite bind_eq in Hrun. cbn [get_world] in Hrun.
    by destruct (w_fs w !! sidecar_path path_t bs bb_id) as [[d t|]|]. }
  rewrite read_array_run in Hrun by done. cbv beta iota zeta in Hrun. cbn [fst snd] in Hrun.
  change (0 =? -1) with false in Hrun. cbv beta iota in Hrun.
  set (entries := match w_fs w !! sidecar_path path_t bs bb_id with
                  | Some (File d _) => read_lines d None
                  | _ => []
                  end) in *.
  assert (Hplain : Forall (λ e, c_string e ∧ str_contains newline e = false) entries).
  { unfold entries. destruct (w_fs w !! sidecar_path path_t bs bb_id) as [[d t|]|];
      [by apply read_lines_plain|constructor..]. }
  exists entries.
  assert (Hwritten : ∀ array w1 rc,
            write_array_blockblob_metadata_path path_t bs bb_id array w = Ret w1 rc →
            rc ≠ -1 →
            Forall (λ e, c_string e ∧ str_contains newline e = false) array →
            read_array_blockblob_metadata_path path_t bs bb_id w1 = Ret w1 (0, array)).
  { intros array w1 rc Hw Hrc Harr.
    destruct (write_array_run path_t bs bb_id array w w1 rc Hf Hk Hw Hrc) as [t Ht].
    rewrite read_array_run by (try done; by rewrite Ht). rewrite Ht.
    by rewrite read_lines_array_text. }
  destruct (list_find (λ e, e = entry) entries) as [[j x]|] eqn:Hfind; cbn [fmap option_fmap option_map fst] in Hrun.
  - apply list_find_Some in Hfind as (Hj & -> & Hfirst).
    assert (Hin : entry ∈ entries) by (by eapply list_elem_of_lookup_2).
    destruct removing.
    + rewrite bind_eq in Hrun.
      destruct (write_array_blockblob_metadata_path _ _ _ _ w) as [w1 rc| |] eqn:Hw; [|done..].
      destruct (Z.eqb_spec rc (-1)) as [|Hrc]; [by injection Hrun|]. injection Hrun as <-.
      pose proof (swap_remove_perm entries j entry Hj) as Hperm. cbv zeta in Hperm.
      eexists. split; [by apply read_array_run|]. split.
      { apply (Hwritten _ _ _ Hw Hrc). apply Forall_take.
        destruct (_ && _); [|done]. apply Forall_insert; [done|].
        destruct (entries !! pred (length entries)) as [lst|] eqn:Hlst; simpl.
        - by apply (Forall_lookup_1 _ _ _ _ Hplain Hlst).
        - done. }
      split.
      { split; [done|]. intros before after Heq Hbefore.
        assert (j = length before) as ->.
        { destruct (Nat.lt_trichotomy j (length before)) as [Hlt|[Heq'|Hgt]]; [|done|].
          - exfalso. apply Hbefore. rewrite Heq, lookup_app_l in Hj by done.
            by eapply list_elem_of_lookup_2.
          - exfalso. apply (Hfirst (length before) entry); [|done|done].
            rewrite Heq. by apply list_lookup_middle. }
        pose proof (swap_remove_exact before after entry) as Hex. cbv zeta in Hex.
        by rewrite <- Heq in Hex. }
      intros Hnd. rewrite <- Hperm in Hnd. apply NoDup_cons in Hnd as [Hnot Hnd].
      split; [done|]. by split.
    + injection Hrun as <-. exists entries. split; [by apply read_array_run|].
      split; [by apply read_array_run|]. split; [by rewrite decide_True|].
      intros Hnd. split; [done|]. by split.
  - apply list_find_None in Hfind.
    assert (Hnot : entry ∉ entries).
    { intros Hin. rewrite Forall_forall in Hfind. by apply (Hfind entry). }
    destruct removing.
    + injection Hrun as <-. exists entries. split; [by apply read_array_run|].
      split; [by apply read_array_run|]. split.
      { split; [done|]. intros before after Heq _. exfalso. apply Hnot. rewrite Heq.
        apply elem_of_app. right. left. }
      intros Hnd. split; [done|]. by split.
    + rewrite bind_eq in Hrun.
      destruct (write_array_blockblob_metadata_path _ _ _ _ w) as [w1 rc| |] eqn:Hw; [|done..].
      destruct (Z.eqb_spec rc (-1)) as [|Hrc]; [by injection Hrun|]. injection Hrun as <-.
      exists (entries ++ [entry]). split; [by apply read_array_run|]. split.
      { apply (Hwritten _ _ _ Hw Hrc). apply Forall_app. split; [done|].
        by apply Forall_singleton. }
      split; [by rewrite decide_False|].
      intros Hnd. split.
      * apply NoDup_app. split; [done|]. split; [|apply NoDup_singleton].
        by intros y Hy ->%list_elem_of_singleton.
      * split; [done|]. intros _. apply elem_of_app. right. left.
Qed.

(** ** Removing device-mapper devices *)

Lemma dev_names_removable_elem (names : list string) (x : string) :
  x ∈ dev_names_removable names ↔ x ∈ names.
Proof.
  induction names as [|name names IH]; [done|]. simpl.
  rewrite elem_of_app, IH, elem_of_cons. destruct (bool_decide_reflect (name ∈ names)) as [Hin|Hin].
  - split; [intros [?|[]%elem_of_nil]; by right|]. intros [->|?]; by left.
  - rewrite list_elem_of_singleton. tauto.
Qed.

Lemma dev_names_removable_NoDup (names : list string) : NoDup (dev_names_removable names).
Proof.
  induction names as [|name names IH]; [constructor|]. simpl.
  apply NoDup_app. split; [done|]. destruct (bool_decide_reflect (name ∈ names)) as [Hin|Hin].
  - split; [by intros ? ? ?%elem_of_nil|constructor].
  - split; [|apply NoDup_singleton].
    intros x Hx Hx2. apply list_elem_of_singleton in Hx2. subst x.
    rewrite dev_names_removable_elem in Hx. done.
Qed.

Lemma dev_names_removable_head (names : list string) :
  head (dev_names_removable names) = last names.
Proof.
  induction names as [|name names IH]; [done|]. simpl.
  destruct names as [|name' names]; [done|].
  destruct (dev_names_removable (name' :: names)) as [|y ys] eqn:Hrem.
  - exfalso. assert (Hin : name' ∈ dev_names_removable (name' :: names))
      by (apply dev_names_removable_elem; left).
    rewrite Hrem in Hin. by apply elem_of_nil in Hin.
  - simpl in IH |- *. done.
Qed.

(** The names are gone through from the last one back, and a name that is
    listed more than once counts where it is listed last. *)
Lemma dev_names_removable_reverse (names : list string) :
  dev_names_removable names = reverse (remove_dups names).
Proof.
  induction names as [|name names IH]; [done|]. simpl. rewrite IH.
  destruct (decide_rel elem_of name names) as [Hin|Hin].
  - rewrite bool_decide_eq_true_2 by done. by rewrite app_nil_r.
  - rewrite bool_decide_eq_false_2 by done. by rewrite reverse_cons.
Qed.

Lemma dm_removals_length (e : E) (names : list string) :
  length (dm_removals e names).1.2 = length names.
Proof.
  revert e. induction names as [|name names IH]; intros e; [done|]. cbn [dm_removals].
  destruct (ext_dm_remove e name) as [e1 [|]]; cbn [fst snd length]; by rewrite IH.
Qed.

(** The loop of [dm_delete_devices] does what [dm_removals] says. *)
Lemma dm_remove_loop_run (names : list string) (ret : Z) w :
  ∃ w', dm_remove_loop names ret w
        = Ret w' (if (dm_removals (w_ext w) names).2 then -1 else ret)
    ∧ w_ext w' = (dm_removals (w_ext w) names).1.1
    ∧ w_calls w' = w_calls w ++ dm_remove_calls names (dm_removals (w_ext w) names).1.2
    ∧ _blobstore_errno w'
      = (if (dm_removals (w_ext w) names).2 then BLOBSTORE_ERROR_UNKNOWN
         else _blobstore_errno w)
    ∧ _do_print_errors w' = _do_print_errors w
    ∧ w_fs w' = w_fs w ∧ locks_list w' = locks_list w ∧ w_fdt w' = w_fdt w.
Proof.
  revert ret w. induction names as [|name names IH]; intros ret w.
  { exists w. unfold dm_remove_calls. simpl. rewrite app_nil_r. by repeat split. }
  cbn [dm_remove_loop dm_removals]. rewrite bind_eq, call_ext_eq.
  destruct (ext_dm_remove (w_ext w) name) as [e1 [|]]; cbn [fst snd].
  - destruct (IH ret (set_ext e1 (CallDmRemove name) w))
      as (w' & -> & Hext & Hcalls & Herr & Hprint & Hfs & Hll & Hfdt).
    exists w'. simpl in *. split; [done|]. split; [done|]. split; [|done].
    rewrite Hcalls. unfold dm_remove_calls. simpl. by rewrite <- app_assoc.
  - rewrite bind_eq. unfold usleep. cbn [modify]. rewrite bind_eq, call_ext_eq.
    cbn [w_ext set_time set_ext].
    destruct (ext_dm_remove e1 name) as [e2 [|]]; cbn [fst snd negb orb].
    + match goal with |- context [dm_remove_loop names ret ?w1] =>
        destruct (IH ret w1)
          as (w' & -> & Hext & Hcalls & Herr & Hprint & Hfs & Hll & Hfdt) end.
      exists w'. simpl in *. split; [done|]. split; [done|]. split; [|done].
      rewrite Hcalls. unfold dm_remove_calls. simpl. by rewrite <- !app_assoc.
    + rewrite bind_eq. unfold err. cbn [modify].
      match goal with |- context [dm_remove_loop names (-1) ?w1] =>
        destruct (IH (-1) w1)
          as (w' & -> & Hext & Hcalls & Herr & Hprint & Hfs & Hll & Hfdt) end.
      exists w'. simpl in *. split; [by destruct (dm_removals e2 names).2|].
      split; [done|]. split.
      { rewrite Hcalls. unfold dm_remove_calls. simpl. by rewrite <- !app_assoc. }
      split; [by destruct (dm_removals e2 names).2|]. done.
Qed.

Lemma dm_delete_devices_run (dev_names : list string) w :
  ∃ w', dm_delete_devices dev_names w
        = Ret w' (if (dm_removals (w_ext w) (reverse (remove_dups dev_names))).2
                  then -1 else 0)
    ∧ w_ext w' = (dm_removals (w_ext w) (reverse (remove_dups dev_names))).1.1
    ∧ w_calls w'
      = w_calls w ++ dm_remove_calls (reverse (remove_dups dev_names))
                       (dm_removals (w_ext w) (reverse (remove_dups dev_names))).1.2
    ∧ _blobstore_errno w'
      = (if (dm_removals (w_ext w) (reverse (remove_dups dev_names))).2
         then BLOBSTORE_ERROR_UNKNOWN else _blobstore_errno w)
    ∧ _do_print_errors w' = _do_print_errors w
    ∧ w_fs w' = w_fs w ∧ locks_list w' = locks_list w ∧ w_fdt w' = w_fdt w.
Proof.
  unfold dm_delete_devices.
  destruct (bool_decide_reflect (length dev_names < 1)%nat) as [Hlen|Hlen].
  - destruct dev_names; [|simpl in Hlen; lia]. exists w. unfold dm_remove_calls. simpl.
    rewrite app_nil_r. by repeat split.
  - rewrite dev_names_removable_reverse. apply dm_remove_loop_run.
Qed.

(** X15.  [dm_delete_devices] goes through the names from the last one
    back, a name that is listed more than once where it is listed last.
    It runs [dmsetup remove] on a name once and, when that fails, once
    more, and it goes on to the next name whether the second try fails or
    not.  It returns -1 with [BLOBSTORE_ERROR_UNKNOWN] when the second try
    of some name failed, and else 0 with the error as it was.  It runs no
    other helper, and files, registry and descriptors are left alone. *)
Theorem dm_delete_devices_each_once (dev_names : list string) w (e' : E)
    (tries : list nat) (failed : bool) :
  dm_removals (w_ext w) (reverse (remove_dups dev_names)) = (e', tries, failed) →
  ∃ w', dm_delete_devices dev_names w = Ret w' (if failed then -1 else 0)
    ∧ w_ext w' = e'
    ∧ w_calls w' = w_calls w ++ dm_remove_calls (reverse (remove_dups dev_names)) tries
    ∧ length tries = length (remove_dups dev_names)
    ∧ _blobstore_errno w' = (if failed then BLOBSTORE_ERROR_UNKNOWN else _blobstore_errno w)
    ∧ w_fs w' = w_fs w ∧ locks_list w' = locks_list w ∧ w_fdt w' = w_fdt w.
Proof.
  intros Hr.
  destruct (dm_delete_devices_run dev_names w)
    as (w' & Hrun & Hext & Hcalls & Herr & _ & Hfs & Hll & Hfdt).
  pose proof (dm_removals_length (w_ext w) (reverse (remove_dups dev_names))) as Hlen.
  rewrite Hr in Hrun, Hext, Hcalls, Herr, Hlen. cbn [fst snd] in *.
  rewrite length_reverse in Hlen.
  exists w'. by repeat split.
Qed.

(** ** Maps that are not run *)

Lemma error_of_errno_noent_not_ok e : error_of_errno BLOBSTORE_ERROR_NOENT e ≠ BLOBSTORE_ERROR_OK.
Proof. by destruct e. Qed.

Lemma sys_stat_quiet (p : string) w :
  ∃ w' r, sys_stat p w = Ret w' r ∧ same_disk w w'
        ∧ (r ≠ None → w' = w).
Proof.
  unfold sys_stat. rewrite bind_eq. simpl.
  destruct (w_fs w !! p) as [[]|]; [by eexists _, _..|].
  destruct (ext_stat (w_ext w) p) as [[]|]; by eexists _, _.
Qed.

Lemma sys_fstat_quiet fd w :
  ∃ w' r, sys_fstat fd w = Ret w' r ∧ same_disk w w' ∧ (r ≠ None → w' = w).
Proof.
  unfold sys_fstat. rewrite bind_eq. simpl.
  destruct (w_fdt w !! fd) as [[p ?]|]; [|by eexists _, _].
  destruct (w_fs w !! p) as [[]|]; by eexists _, _.
Qed.

(** On a store without device-mapper snapshots the verification of a map
    with an entry that is not a copy fails, and it has done nothing but
    look at files. *)
Lemma clone_verify_needs_dm bb (map : list blockmap) zero_dev w :
  snapshot_policy (store bb) ≠ BLOBSTORE_SNAPSHOT_DM →
  Exists (λ m, relation_type m ≠ BLOBSTORE_COPY) map →
  ∃ w', clone_verify bb map zero_dev w = Ret w' None ∧ same_disk w w'
      ∧ _blobstore_errno w' ≠ BLOBSTORE_ERROR_OK.
Proof.
  intros Hpol Hex. revert w. induction map as [|m map IH]; intros w.
  { by apply Exists_nil in Hex. }
  simpl. rewrite (bool_decide_eq_false_2 (snapshot_policy (store bb) = BLOBSTORE_SNAPSHOT_DM))
    by done.
  destruct (bool_decide_reflect (relation_type m = BLOBSTORE_COPY)) as [Hm|Hm]; simpl.
  2: { by eexists. }
  apply Exists_cons in Hex as [Hex|Hex]; [done|]. specialize (IH Hex).
  destruct (source m) as [[path|]|[sbb|]|].
  - rewrite bind_eq. destruct (sys_stat_quiet path w) as (w1 & [sb|] & -> & [Hs1 Hs2] & _).
    + destruct (S_ISBLK sb).
      * destruct (IH w1) as (w' & -> & [? ?] & He). eexists. split; [done|].
        split; [split; congruence|done].
      * by eexists.
    + rewrite bind_eq, propagate_system_errno_eq. eexists. split; [done|]. split; [done|].
      apply error_of_errno_noent_not_ok.
  - by eexists.
  - destruct (bb_fd sbb =? -1); [by eexists|].
    rewrite bind_eq. destruct (sys_fstat_quiet (bb_fd sbb) w) as (w1 & [sb|] & -> & [Hs1 Hs2] & _).
    2: { rewrite bind_eq, propagate_system_errno_eq. eexists. split; [done|]. split; [done|].
         apply error_of_errno_noent_not_ok. }
    destruct (st_size_of sb / 512 <? size_blocks sbb); [by eexists|].
    rewrite bind_eq.
    destruct (sys_stat_quiet (device_path sbb) w1) as (w2 & [sb2|] & -> & [Hs3 Hs4] & _).
    2: { rewrite bind_eq, propagate_system_errno_eq. eexists. split; [done|].
         split; [split; simpl; congruence|]. apply error_of_errno_noent_not_ok. }
    destruct (negb (S_ISBLK sb2)); [eexists; split; [done|]; split; [split; simpl; congruence|done]|].
    destruct (size_blocks sbb <? wrap64 (first_block_src m + len_blocks m));
      [eexists; split; [done|]; split; [split; simpl; congruence|done]|].
    destruct (size_blocks bb <? wrap64 (first_block_dst m + len_blocks m));
      [eexists; split; [done|]; split; [split; simpl; congruence|done]|].
    destruct (bool_decide (relation_type m = BLOBSTORE_SNAPSHOT) && _);
      [eexists; split; [done|]; split; [split; simpl; congruence|done]|].
    destruct (IH w2) as (w' & -> & [? ?] & He). eexists. split; [done|].
    split; [split; congruence|done].
  - by eexists.
  - apply IH.
Qed.

(** X16.  [blockblob_clone] rejects a map that it cannot run before it
    does anything.  Without a map, with an empty one or with one of more
    than [MAX_BLOCKMAP_SIZE] entries the call returns -1 with
    [BLOBSTORE_ERROR_INVAL] and changes nothing else.  On a store whose
    snapshot policy is not [BLOBSTORE_SNAPSHOT_DM], a map with an entry
    that is not a copy is refused: the call returns -1 with an error set,
    no helper program is run and no file is changed. *)
Theorem blockblob_clone_rejects w bb :
  blockblob_clone (Some bb) None w
  = Ret (set_blobstore_errno BLOBSTORE_ERROR_INVAL w) (Some bb, -1)
  ∧ (∀ map, length map = 0%nat ∨ MAX_BLOCKMAP_SIZE < Z.of_nat (length map) →
       blockblob_clone (Some bb) (Some map) w
       = Ret (set_blobstore_errno BLOBSTORE_ERROR_INVAL w) (Some bb, -1))
  ∧ (∀ map, snapshot_policy (store bb) ≠ BLOBSTORE_SNAPSHOT_DM →
       Exists (λ m, relation_type m ≠ BLOBSTORE_COPY) map →
       ∃ w', blockblob_clone (Some bb) (Some map) w = Ret w' (Some bb, -1)
           ∧ same_disk w w' ∧ _blobstore_errno w' ≠ BLOBSTORE_ERROR_OK).
Proof.
  split; [done|]. split.
  - intros map Hlen. unfold blockblob_clone.
    destruct (Z.ltb_spec (Z.of_nat (length map)) 1);
      destruct (Z.ltb_spec MAX_BLOCKMAP_SIZE (Z.of_nat (length map))); try done; lia.
  - intros map Hpol Hex. unfold blockblob_clone.
    destruct (_ || _); [by eexists|].
    rewrite bind_eq.
    destruct (clone_verify_needs_dm bb map None w Hpol Hex) as (w' & -> & Hs & He).
    by exists w'.
Qed.

(** ** Opening a store *)

Lemma sys_open_set_locks path o mode ll w :
  sys_open path o mode (set_locks ll w)
  = match sys_open path o mode w with
    | Ret w' fd => Ret (set_locks ll w') fd
    | Hang => Hang
    | Fault => Fault
    end.
Proof.
  unfold sys_open, fail_with, alloc_fd. rewrite !bind_eq. simpl.
  destruct (w_fs w !! path) as [[d t|]|].
  - by destruct (_ && _).
  - destruct (_ && _); [done|]. by destruct (_ || _).
  - destruct (has_flag o O_CREAT); [|done]. destruct (parent_ok (w_fs w) path); [|done].
    by rewrite !bind_eq.
Qed.

(** The first descriptor of a path: what the call leaves, when [open]
    returns a descriptor. *)
Lemma open_and_lock_new_run w path (flags timeout_usec mode : Z) lt o w2 fd :
  find_lock path (locks_list w) = None → lock_mode flags = Some (lt, o) →
  sys_open path o mode w = Ret w2 fd → fd ≠ -1 →
  open_and_lock path flags timeout_usec mode w
  = Ret (set_locks (locks_list w
                    ++ [push_fd fd (set_lock (taken lt) (set_refs 1 (new_filelock path lt)))])
           (set_errno E_OK w2)) fd.
Proof.
  intros Hfind Hmode Hopen Hfd.
  destruct (sys_open_ok _ _ _ _ _ _ Hopen Hfd) as (Hfd0 & _ & Hll & _).
  set (l := new_filelock path lt). set (i := length (locks_list w)).
  set (ll := locks_list w ++ [l]).
  assert (Hsel : match find_lock path (locks_list w) with
                 | Some j => (j, false, locks_list w)
                 | None => (length (locks_list w), true,
                            locks_list w ++ [new_filelock path lt])
                 end = (i, true, ll)) by (by rewrite Hfind).
  assert (Hl : ll !! i = Some l) by (by apply list_lookup_middle).
  assert (Hroom : l_next_fd l ≠ BLOBSTORE_MAX_CONCURRENT) by done.
  assert (Htry : match lt with
                 | F_WRLCK => pthread_rwlock_trywrlock (l_lock l)
                 | F_RDLCK => pthread_rwlock_tryrdlock (l_lock l)
                 end = Some (taken lt)) by (by destruct lt).
  rewrite (open_and_lock_free path flags timeout_usec mode lt o w i true ll l
             Hmode Hsel Hl Hroom eq_refl
             (set_locks (<[i:=set_refs (l_refs l + 1) l]> ll) w2) (taken lt)).
  - rewrite <- Hfd0. f_equal. unfold ll, i. rewrite insert_app_r_alt by lia.
    rewrite Nat.sub_diag. by destruct w2.
  - rewrite sys_open_set_locks, Hopen. by rewrite Hfd0.
  - done.
  - done.
Qed.

(** The only descriptor of an entry is closed: the entry is gone and the
    descriptor is closed. *)
Lemma close_single w w3 path lt fd (ent : string * Z) :
  registry_ok w → find_lock path (locks_list w) = None →
  0 ≤ fd → w_fdt w !! fd = None →
  locks_list w3
  = locks_list w ++ [push_fd fd (set_lock (taken lt) (set_refs 1 (new_filelock path lt)))] →
  w_fdt w3 = <[fd := ent]> (w_fdt w) →
  ∃ w4, close_and_unlock fd w3 = Ret w4 0
      ∧ locks_list w4 = locks_list w ∧ w_fdt w4 = w_fdt w ∧ w_fs w4 = w_fs w3
      ∧ w_ext w4 = w_ext w3 ∧ w_calls w4 = w_calls w3
      ∧ _blobstore_errno w4 = _blobstore_errno w3.
Proof.
  intros Hok Hfind Hge Hfree Hll Hfdt.
  destruct (registry_ok_first w w3 path lt fd Hok Hfind Hge Hfree Hll Hfdt) as [Hwf3 _].
  set (l1 := push_fd fd (set_lock (taken lt) (set_refs 1 (new_filelock path lt)))) in *.
  destruct (close_and_unlock_run w3 (length (locks_list w)) l1 0 fd Hwf3)
    as (w4 & Hclose & Hfs4 & Hres); [rewrite Hll; by apply list_lookup_middle|done|done|].
  rewrite decide_True in Hres by done. destruct Hres as [Hll4 Hfdt4].
  destruct (close_and_unlock_ext _ _ _ _ Hclose) as (_ & Hext4 & Hcalls4 & _).
  exists w4. split; [done|]. split; [|split; [|split; [done|split; [done|split; [done|]]]]].
  - rewrite Hll4, Hll, delete_middle. by rewrite app_nil_r.
  - apply map_eq. intros y. rewrite Hfdt4, Hfdt.
    change (table_fds l1) with [fd]. destruct (decide (y ∈ [fd])) as [Hy|Hy].
    + apply list_elem_of_singleton in Hy as ->. by rewrite Hfree.
    + rewrite lookup_insert_ne; [done|]. intros <-. apply Hy. left.
  - by apply close_and_unlock_ok_errno in Hclose.
Qed.

Lemma write_store_metadata_run bs (p : string) w :
  nbytes (store_metadata_text bs) < 1024 →
  w_fdt w !! bs_fd bs = Some (p, 0) → is_file (w_fs w !! p) = true →
  write_store_metadata bs w
  = Ret (set_fdt (<[bs_fd bs := (p, nbytes (store_metadata_text bs))]> (w_fdt w))
           (set_fs (<[p := File (store_metadata_text bs) (w_time w)]> (w_fs w)) w)) 0.
Proof.
  intros Hfits Hfd Hp. destruct (w_fs w !! p) as [[d t|]|] eqn:Hd; try done.
  unfold write_store_metadata. rewrite snprintf_fits by done.
  remember (store_metadata_text bs) as txt eqn:Htxt.
  rewrite bind_eq. unfold sys_ftruncate0. rewrite bind_eq. simpl. rewrite Hfd, Hd. simpl.
  unfold sys_write. rewrite !bind_eq. simpl. rewrite Hfd, lookup_insert_eq. simpl.
  rewrite write_at_empty, insert_insert_eq.
  unfold strlen. rewrite Z.eqb_refl. done.
Qed.

Lemma meta_dirname (path : string) : dirname (path +:+ "/" +:+ BLOBSTORE_METADATA_FILE) = path.
Proof.
  unfold dirname, BLOBSTORE_METADATA_FILE. rewrite append_cons, append_nil_l.
  by rewrite dirname_aux_app_slash.
Qed.

Lemma blobstore_init_run w :
  (ext_init (w_ext w)).2 = 0 →
  ∃ w', blobstore_init w = Ret w' 0
      ∧ w_fs w' = w_fs w ∧ w_fdt w' = w_fdt w ∧ locks_list w' = locks_list w
      ∧ w_calls w' = w_calls w ∧ w_time w' = w_time w ∧ w_ext w' = (ext_init (w_ext w)).1.
Proof.
  intros Hinit. unfold blobstore_init. rewrite bind_eq. cbn [get_world]. cbv beta iota zeta.
  rewrite bind_eq. cbn [modify]. rewrite Hinit. change (0 =? 0) with true. cbv beta iota.
  by eexists.
Qed.

Lemma gen_id_run w :
  ∃ w', gen_id w = Ret w' (ext_gen_id (w_ext w)).2
      ∧ w_fs w' = w_fs w ∧ w_fdt w' = w_fdt w ∧ locks_list w' = locks_list w
      ∧ w_calls w' = w_calls w ∧ w_time w' = w_time w
      ∧ _blobstore_errno w' = _blobstore_errno w.
Proof. unfold gen_id. rewrite bind_eq. cbn [get_world]. by eexists. Qed.

Lemma store_metadata_text_fields bs bs' :
  bs_id bs = bs_id bs' → limit_blocks bs = limit_blocks bs' →
  revocation_policy bs = revocation_policy bs' → snapshot_policy bs = snapshot_policy bs' →
  format bs = format bs' → store_metadata_text bs = store_metadata_text bs'.
Proof. unfold store_metadata_text. by intros -> -> -> -> ->. Qed.

(** A path with no descriptor held is opened to be read. *)
Lemma open_and_lock_reads w path (timeout_usec mode : Z) :
  lock_mode BLOBSTORE_FLAG_RDONLY = Some (F_RDLCK, Z.lor 0 O_RDONLY) →
  find_lock path (locks_list w) = None → is_file (w_fs w !! path) = true →
  let fd := lowest_free (w_fdt w) 0 (size (w_fdt w)) in
  open_and_lock path BLOBSTORE_FLAG_RDONLY timeout_usec mode w
  = Ret (set_locks (locks_list w
                    ++ [push_fd fd (set_lock (taken F_RDLCK)
                                      (set_refs 1 (new_filelock path F_RDLCK)))])
           (set_errno E_OK (set_fdt (<[fd := (path, 0)]> (w_fdt w)) w))) fd.
Proof.
  intros Hmode Hfind Hfile fd.
  destruct (w_fs w !! path) as [[d t|]|] eqn:Hp; try done.
  apply (open_and_lock_new_run w path BLOBSTORE_FLAG_RDONLY timeout_usec mode F_RDLCK
           (Z.lor 0 O_RDONLY)); [done|done| |].
  - by rewrite (sys_open_existing w path _ mode d t).
  - pose proof (lowest_free_ge (w_fdt w) 0 (size (w_fdt w))). fold fd in H. lia.
Qed.

Lemma blobstore_open_run (path : string) (limit : Z) fmt revocation snapshot w bs_s
    (creating : bool) :
  lock_mode (Z.lor BLOBSTORE_FLAG_CREAT BLOBSTORE_FLAG_EXCL)
  = Some (F_WRLCK, Z.lor (Z.lor (Z.lor 0 O_RDWR) O_CREAT) O_EXCL) →
  lock_mode BLOBSTORE_FLAG_RDONLY = Some (F_RDLCK, Z.lor 0 O_RDONLY) →
  numbered int_of_revocation revocation_of_int →
  numbered int_of_snapshot snapshot_of_int →
  numbered int_of_format format_of_int →
  (ext_init (w_ext w)).2 = 0 →
  registry_ok w →
  descriptors_held w (path +:+ "/" +:+ BLOBSTORE_METADATA_FILE) = [] →
  (if creating then
     w_fs w !! (path +:+ "/" +:+ BLOBSTORE_METADATA_FILE) = None
     ∧ is_dir (w_fs w !! path) = true
     ∧ bs_s = new_store (ext_gen_id (ext_init (w_ext w)).1).2 path limit fmt revocation snapshot
   else
     ∃ t, w_fs w !! (path +:+ "/" +:+ BLOBSTORE_METADATA_FILE)
          = Some (File (store_metadata_text bs_s) t)
        ∧ bs_path bs_s = path ∧ bs_fd bs_s = -1) →
  c_string (bs_id bs_s) → plain (bs_id bs_s) →
  0 ≤ limit_blocks bs_s < 2 ^ 64 → nbytes (store_metadata_text bs_s) ≤ 1024 →
  (creating = true → nbytes (store_metadata_text bs_s) < 1024) →
  ∃ w', blobstore_open path limit fmt revocation snapshot w
        = Ret w' (if agrees limit fmt revocation snapshot bs_s then Some bs_s else None)
      ∧ locks_list w' = locks_list w ∧ w_fdt w' = w_fdt w ∧ w_calls w' = w_calls w
      ∧ w_fs w' = (if creating then
                     <[path +:+ "/" +:+ BLOBSTORE_METADATA_FILE
                       := File (store_metadata_text bs_s) (w_time w)]> (w_fs w)
                   else w_fs w)
      ∧ (agrees limit fmt revocation snapshot bs_s = false →
         _blobstore_errno w' = BLOBSTORE_ERROR_INVAL).
Proof.
  intros Hce Hro Hnr Hns Hnf Hinit Hok Hheld Hcase Hc Hplain Hlimit Hsize Hcut.
  pose proof (registry_ok_unheld w _ Hok Hheld) as Hfind.
  set (meta := path +:+ "/" +:+ BLOBSTORE_METADATA_FILE) in *.
  pose proof (lowest_free_ge (w_fdt w) 0 (size (w_fdt w))) as Hge.
  pose proof (lowest_free_free (w_fdt w)) as Hfree.
  set (fd0 := lowest_free (w_fdt w) 0 (size (w_fdt w))) in *.
  unfold blobstore_open.
  destruct (blobstore_init_run w Hinit) as (wa & Hia & Hfsa & Hfdta & Hlla & Hcallsa & Htimea & Hexta).
  rewrite bind_eq, Hia. change (negb (0 =? 0)) with false. cbv beta iota zeta.
  fold meta.
  rewrite bind_eq. cbn [modify]. rewrite bind_eq. unfold _err_off at 1. cbn [modify].
  set (wb := set_print false (set_blobstore_errno BLOBSTORE_ERROR_OK wa)).
  set (bs_init := {| bs_id := ""; bs_path := path; limit_blocks := 0;
                     revocation_policy := revocation_of_int 0;
                     snapshot_policy := snapshot_of_int 0;
                     format := format_of_int 0; bs_fd := 0 |}).
  assert (Hmeta : meta_path_of bs_init = meta) by done.
  rewrite Hmeta.
  assert (Hfindb : find_lock meta (locks_list wb) = None) by (simpl; by rewrite Hlla).
  match goal with
  | |- ∃ w', (_ ≫= (λ fd, _ ≫= (λ _, _ ≫= ?T))) _ = _ ∧ _ => set (rest := T)
  end.
  assert (Hrest : ∀ wj bsj t',
             locks_list wj = locks_list w → w_fdt wj = w_fdt w → w_calls wj = w_calls w →
             w_fs wj !! meta = Some (File (store_metadata_text bs_s) t') →
             _blobstore_errno wj = BLOBSTORE_ERROR_OK
             ∨ _blobstore_errno wj = BLOBSTORE_ERROR_EXIST →
             bs_path bsj = path → bs_path bs_s = path → bs_fd bs_s = -1 →
             ∃ w', rest bsj wj
                   = Ret w' (if agrees limit fmt revocation snapshot bs_s
                             then Some bs_s else None)
                 ∧ locks_list w' = locks_list w ∧ w_fdt w' = w_fdt w
                 ∧ w_calls w' = w_calls w ∧ w_fs w' = w_fs wj
                 ∧ (agrees limit fmt revocation snapshot bs_s = false →
                    _blobstore_errno w' = BLOBSTORE_ERROR_INVAL)).
  { intros wj bsj t' Hllj Hfdtj Hcallsj Hfsj Herrj Hpathj Hpaths Hfds. subst rest.
    cbv beta.
    rewrite bind_eq. cbn [get_world]. cbv beta iota zeta.
    assert (Hcond : negb (bool_decide (_blobstore_errno wj = BLOBSTORE_ERROR_OK))
                    && negb (bool_decide (_blobstore_errno wj = BLOBSTORE_ERROR_EXIST))
                    && negb (bool_decide (_blobstore_errno wj = BLOBSTORE_ERROR_AGAIN)) = false)
      by (by destruct Herrj as [-> | ->]).
    rewrite Hcond. cbv beta iota.
    rewrite bind_eq, open_and_lock_reads; [|done|by rewrite Hllj|by rewrite Hfsj].
    cbv beta iota zeta. rewrite Hfdtj, Hllj. fold fd0.
    replace (fd0 =? -1) with false by (symmetry; apply Z.eqb_neq; lia).
    cbv beta iota.
    rewrite bind_eq.
    rewrite (read_store_metadata_text bs_s (with_bs_fd fd0 bsj) meta 0 t');
      [|done|done|done|done|done|done|done|simpl; apply lookup_insert_eq|done].
    cbv beta iota zeta. cbn [fst snd]. change (negb (0 =? 0)) with false. cbv beta iota.
    cbn [limit_blocks snapshot_policy format revocation_policy bs_fd with_metadata with_bs_fd].
    match goal with |- ∃ w', _ ?W = _ ∧ _ => set (wr := W) end.
    assert (Hllr : locks_list wr
                   = locks_list w ++ [push_fd fd0 (set_lock (taken F_RDLCK)
                                        (set_refs 1 (new_filelock meta F_RDLCK)))]) by done.
    assert (Hfdtr : w_fdt wr = <[fd0 := (meta, nbytes (store_metadata_text bs_s))]> (w_fdt w))
      by (subst wr; simpl; by rewrite insert_insert_eq).
    assert (Hfsr : w_fs wr = w_fs wj) by done.
    assert (Hcallsr : w_calls wr = w_calls wj) by done.
    clearbody wr.
    assert (Hfail : agrees limit fmt revocation snapshot bs_s = false →
                    ∃ w', (err BLOBSTORE_ERROR_INVAL
                           ≫= λ _ : (), close_and_unlock fd0 ≫= λ _ : Z, mret None) wr
                          = Ret w' (if agrees limit fmt revocation snapshot bs_s
                                    then Some bs_s else None)
                        ∧ locks_list w' = locks_list w ∧ w_fdt w' = w_fdt w
                        ∧ w_calls w' = w_calls w ∧ w_fs w' = w_fs wj
                        ∧ (agrees limit fmt revocation snapshot bs_s = false →
                           _blobstore_errno w' = BLOBSTORE_ERROR_INVAL)).
    { intros Hno. rewrite Hno.
      destruct (close_single w (set_blobstore_errno BLOBSTORE_ERROR_INVAL wr) meta F_RDLCK fd0 _
                  Hok Hfind Hge Hfree Hllr Hfdtr)
        as (w4 & Hclose & Hll4 & Hfdt4 & Hfs4 & _ & Hcalls4 & Herr4).
      exists w4. unfold err. rewrite bind_eq. cbn [modify]. rewrite bind_eq, Hclose.
      cbv beta iota. rewrite ret_eq.
      repeat split; [done|done|simpl in *; congruence|simpl in *; congruence|done]. }
    unfold agrees in *.
    destruct ((limit =? 0) || (limit =? limit_blocks bs_s)) eqn:H1.
    2: { apply orb_false_iff in H1 as [-> ->]. by apply Hfail. }
    replace (negb (limit =? 0) && negb (limit =? limit_blocks bs_s)) with false
      by (by destruct (limit =? 0), (limit =? limit_blocks bs_s)).
    cbv beta iota.
    destruct (bool_decide (snapshot = BLOBSTORE_SNAPSHOT_ANY)
              || bool_decide (snapshot = snapshot_policy bs_s)) eqn:H2.
    2: { apply orb_false_iff in H2 as [-> ->]. by apply Hfail. }
    replace (negb (bool_decide (snapshot = BLOBSTORE_SNAPSHOT_ANY))
             && negb (bool_decide (snapshot = snapshot_policy bs_s))) with false
      by (by destruct (bool_decide (snapshot = BLOBSTORE_SNAPSHOT_ANY)),
                      (bool_decide (snapshot = snapshot_policy bs_s))).
    cbv beta iota.
    destruct (bool_decide (fmt = BLOBSTORE_FORMAT_ANY)
              || bool_decide (fmt = format bs_s)) eqn:H3.
    2: { apply orb_false_iff in H3 as [-> ->]. by apply Hfail. }
    replace (negb (bool_decide (fmt = BLOBSTORE_FORMAT_ANY))
             && negb (bool_decide (fmt = format bs_s))) with false
      by (by destruct (bool_decide (fmt = BLOBSTORE_FORMAT_ANY)),
                      (bool_decide (fmt = format bs_s))).
    cbv beta iota.
    destruct (bool_decide (revocation = BLOBSTORE_REVOCATION_ANY)
              || bool_decide (revocation = revocation_policy bs_s)) eqn:H4.
    2: { apply orb_false_iff in H4 as [-> ->]. by apply Hfail. }
    replace (negb (bool_decide (revocation = BLOBSTORE_REVOCATION_ANY))
             && negb (bool_decide (revocation = revocation_policy bs_s))) with false
      by (by destruct (bool_decide (revocation = BLOBSTORE_REVOCATION_ANY)),
                      (bool_decide (revocation = revocation_policy bs_s))).
    cbv beta iota. clear Hfail.
    destruct (close_single w wr meta F_RDLCK fd0 _ Hok Hfind Hge Hfree Hllr Hfdtr)
      as (w4 & Hclose & Hll4 & Hfdt4 & Hfs4 & _ & Hcalls4 & Herr4).
    exists w4. rewrite bind_eq, Hclose. cbv beta iota. rewrite ret_eq.
    cbn [andb].
    split; [|repeat split; [done|done|congruence|congruence|done]].
    do 2 f_equal. destruct bs_s, bsj. simpl in *. by subst. }
  clearbody rest.
  destruct creating.
  - destruct Hcase as (Hnone & Hdir & Hbs).
    set (o := Z.lor (Z.lor (Z.lor 0 O_RDWR) O_CREAT) O_EXCL) in *.
    set (wc := set_fdt (<[fd0 := (meta, 0)]> (w_fdt wb))
                 (set_fs (<[meta := File "" (w_time wb)]> (w_fs wb)) wb)).
    assert (Hsys : sys_open meta o 384 wb = Ret wc fd0).
    { unfold sys_open. rewrite bind_eq. cbn [get_world]. cbv beta iota zeta.
      replace (w_fs wb !! meta) with (@None node) by (simpl; by rewrite Hfsa).
      change (has_flag o O_CREAT) with true. cbv beta iota.
      replace (parent_ok (w_fs wb) meta) with true.
      2: { unfold parent_ok. subst meta. rewrite meta_dirname. simpl. rewrite Hfsa, Hdir.
           by rewrite orb_true_r. }
      rewrite bind_eq. cbn [modify]. unfold alloc_fd, wc, fd0. simpl. by rewrite Hfdta. }
    rewrite bind_eq.
    rewrite (open_and_lock_new_run wb meta _ 0 384 F_WRLCK o wc fd0 Hfindb Hce Hsys) by lia.
    cbv beta iota zeta. rewrite bind_eq. unfold _err_on at 1. cbn [modify].
    replace (fd0 =? -1) with false by (symmetry; apply Z.eqb_neq; lia).
    cbv beta iota.
    rewrite bind_eq, bind_eq. unfold gen_id at 1. rewrite bind_eq. cbn [get_world].
    cbv beta iota zeta. rewrite bind_eq. cbn [modify]. rewrite ret_eq. rewrite bind_eq.
    match goal with
    | |- ∃ w', match match write_store_metadata ?B ?W with _ => _ end with _ => _ end = _ ∧ _ =>
        set (bs1 := B); set (wg := W)
    end.
    assert (Htext : store_metadata_text bs1 = store_metadata_text bs_s).
    { apply store_metadata_text_fields; rewrite Hbs; try done. simpl. by rewrite Hexta. }
    rewrite (write_store_metadata_run bs1 meta wg);
      [|rewrite Htext; by apply Hcut|simpl; apply lookup_insert_eq
       |simpl; by rewrite lookup_insert_eq].
    cbv beta iota. rewrite bind_eq.
    match goal with
    | |- ∃ w', match match close_and_unlock _ ?W with _ => _ end with _ => _ end = _ ∧ _ =>
        set (w3 := W)
    end.
    destruct (close_single w w3 meta F_WRLCK fd0 (meta, nbytes (store_metadata_text bs1))
                Hok Hfind Hge Hfree)
      as (w4 & Hclose & Hll4 & Hfdt4 & Hfs4 & _ & Hcalls4 & Herr4).
    { simpl. by rewrite Hlla. }
    { simpl. by rewrite insert_insert_eq, Hfdta. }
    change (bs_fd bs1) with fd0. rewrite Hclose. cbv beta iota. rewrite ret_eq.
    destruct (Hrest w4 bs1 (w_time w))
      as (w' & Hrun & Hll' & Hfdt' & Hcalls' & Hfs' & Herr');
      [done|done|by rewrite Hcalls4| |left; by rewrite Herr4|done|by rewrite Hbs|by rewrite Hbs|].
    { rewrite Hfs4. simpl. by rewrite lookup_insert_eq, Htext, Htimea. }
    exists w'. split; [done|]. repeat split; [done|done|done| |done].
    rewrite Hfs', Hfs4. simpl. by rewrite insert_insert_eq, Htext, Htimea, Hfsa.
  - destruct Hcase as (t & Hfile & Hpath & Hfd).
    assert (Hopen1 : open_and_lock meta (Z.lor BLOBSTORE_FLAG_CREAT BLOBSTORE_FLAG_EXCL) 0 384 wb
                     = Ret (set_blobstore_errno BLOBSTORE_ERROR_EXIST (set_errno EEXIST wb)) (-1)).
    { apply (open_and_lock_open_fails meta _ 0 384 F_WRLCK
               (Z.lor (Z.lor (Z.lor 0 O_RDWR) O_CREAT) O_EXCL) wb (length (locks_list wb)) true
               (locks_list wb ++ [new_filelock meta F_WRLCK]) (new_filelock meta F_WRLCK));
        [done|by rewrite Hfindb|by apply list_lookup_middle|done|done|done|].
      rewrite sys_open_set_locks. unfold sys_open. rewrite bind_eq. simpl.
      by rewrite Hfsa, Hfile. }
    rewrite bind_eq, Hopen1. cbv beta iota zeta.
    rewrite bind_eq. unfold _err_on at 1. cbn [modify].
    change (-1 =? -1) with true. cbv beta iota. rewrite bind_eq, ret_eq.
    destruct (Hrest (set_print true (set_blobstore_errno BLOBSTORE_ERROR_EXIST
                                       (set_errno EEXIST wb)))
                (with_bs_fd (-1) bs_init) t)
      as (w' & Hrun & Hll' & Hfdt' & Hcalls' & Hfs' & Herr');
      [done|done|done|simpl; by rewrite Hfsa|by right|done|done|done|].
    exists w'. split; [done|]. repeat split; [done|done|done| |done].
    by rewrite Hfs'.
Qed.

Lemma agrees_new_store (id path : string) limit fmt revocation snapshot :
  agrees limit fmt revocation snapshot (new_store id path limit fmt revocation snapshot) = true.
Proof.
  unfold agrees, new_store. cbn [limit_blocks snapshot_policy format revocation_policy].
  rewrite Z.eqb_refl, orb_true_r.
  assert (Hany : ∀ (A : Type) `{EqDecision A} (x any dflt : A),
             bool_decide (x = any) || bool_decide (x = if decide (x = any) then dflt else x)
             = true).
  { intros A ? x any dflt. destruct (decide (x = any)).
    - by rewrite bool_decide_eq_true_2.
    - by rewrite (bool_decide_eq_true_2 (x = x)), orb_true_r. }
  by rewrite !Hany.
Qed.

(** ** [BLOBSTORE_FLAG_EXCL] without [BLOBSTORE_FLAG_CREAT] *)

(** C9, as amended.  When [BLOBSTORE_FLAG_CREAT] is not among the flags,
    [BLOBSTORE_FLAG_EXCL] has no effect on [open_and_lock]: the call is the
    call without that flag, in every world.  What that call is, the other
    flags say.  With neither [BLOBSTORE_FLAG_RDONLY] nor
    [BLOBSTORE_FLAG_RDWR] it fails with [BLOBSTORE_ERROR_INVAL] and does
    nothing else.  With [BLOBSTORE_FLAG_RDONLY] it is a read-locked open,
    and without it and with [BLOBSTORE_FLAG_RDWR] a write-locked one: of a
    file that is there, on a path that has no entry in the registry, it
    returns a descriptor that was not open, now open on the file, and it
    leaves an entry for the path with the lock taken in that kind and this
    one descriptor; the file is as it was.  The bits of the flags are taken
    to be disjoint. *)
Theorem open_and_lock_excl_without_creat
    (path : string) (flags timeout_usec mode : Z) w :
  Z.land BLOBSTORE_FLAG_EXCL BLOBSTORE_FLAG_RDONLY = 0 →
  Z.land BLOBSTORE_FLAG_EXCL BLOBSTORE_FLAG_RDWR = 0 →
  Z.land BLOBSTORE_FLAG_EXCL BLOBSTORE_FLAG_CREAT = 0 →
  has_flag flags BLOBSTORE_FLAG_EXCL = true →
  has_flag flags BLOBSTORE_FLAG_CREAT = false →
  open_and_lock path flags timeout_usec mode w
    = open_and_lock path (Z.land flags (Z.lnot BLOBSTORE_FLAG_EXCL)) timeout_usec mode w
  ∧ (has_flag flags BLOBSTORE_FLAG_RDONLY = false →
     has_flag flags BLOBSTORE_FLAG_RDWR = false →
     open_and_lock path flags timeout_usec mode w
     = Ret (set_blobstore_errno BLOBSTORE_ERROR_INVAL w) (-1))
  ∧ (has_flag flags BLOBSTORE_FLAG_RDONLY || has_flag flags BLOBSTORE_FLAG_RDWR = true →
     ∀ (d : string) (t : Z),
       w_fs w !! path = Some (File d t) → find_lock path (locks_list w) = None →
       ∃ fd, 0 ≤ fd ∧ w_fdt w !! fd = None
           ∧ open_and_lock path flags timeout_usec mode w
             = Ret (set_locks
                      (locks_list w
                       ++ [push_fd fd
                             (set_lock
                                (taken (if has_flag flags BLOBSTORE_FLAG_RDONLY
                                        then F_RDLCK else F_WRLCK))
                                (set_refs 1
                                   (new_filelock path
                                      (if has_flag flags BLOBSTORE_FLAG_RDONLY
                                       then F_RDLCK else F_WRLCK))))])
                      (set_errno E_OK (set_fdt (<[fd := (path, 0)]> (w_fdt w)) w))) fd).
Proof.
  intros Hro Hrw Hcr _ Hc. split; [|split].
  - unfold open_and_lock.
    rewrite !lock_mode_without_creat; [|by rewrite has_flag_clear|done].
    by rewrite !has_flag_clear.
  - intros Hr Hw. apply open_and_lock_no_mode.
    rewrite lock_mode_without_creat by done. by rewrite Hr, Hw.
  - intros Hany d t Hfile Hfind.
    pose proof (lowest_free_ge (w_fdt w) 0 (size (w_fdt w))) as Hge.
    pose proof (lowest_free_free (w_fdt w)) as Hfree.
    set (fd := lowest_free (w_fdt w) 0 (size (w_fdt w))) in *.
    exists fd. split; [done|]. split; [done|].
    pose proof (lock_mode_without_creat flags Hc) as Hmode.
    destruct (has_flag flags BLOBSTORE_FLAG_RDONLY).
    + apply (open_and_lock_new_run w path flags timeout_usec mode F_RDLCK O_RDONLY);
        [done|done| |lia].
      by rewrite (sys_open_existing w path _ mode d t).
    + simpl in Hany. rewrite Hany in Hmode.
      apply (open_and_lock_new_run w path flags timeout_usec mode F_WRLCK O_RDWR);
        [done|done| |lia].
      by rewrite (sys_open_existing w path _ mode d t).
Qed.

(** X17.  [blobstore_open] on a directory without a descriptor file makes
    the store: it writes the descriptor file with the identifier from
    [gen_id], the limit asked for and the policies asked for (the defaults
    where the caller said [_ANY]), reads it back and returns the handle of
    that store with no descriptor in it.  The descriptor and the lock taken
    on the way are given back. *)
Theorem blobstore_open_creates (path id : string) (limit : Z) fmt revocation snapshot w :
  lock_mode (Z.lor BLOBSTORE_FLAG_CREAT BLOBSTORE_FLAG_EXCL)
  = Some (F_WRLCK, Z.lor (Z.lor (Z.lor 0 O_RDWR) O_CREAT) O_EXCL) →
  lock_mode BLOBSTORE_FLAG_RDONLY = Some (F_RDLCK, Z.lor 0 O_RDONLY) →
  numbered int_of_revocation revocation_of_int →
  numbered int_of_snapshot snapshot_of_int →
  numbered int_of_format format_of_int →
  (ext_init (w_ext w)).2 = 0 →
  (ext_gen_id (ext_init (w_ext w)).1).2 = id →
  registry_ok w →
  descriptors_held w (path +:+ "/" +:+ BLOBSTORE_METADATA_FILE) = [] →
  w_fs w !! (path +:+ "/" +:+ BLOBSTORE_METADATA_FILE) = None →
  is_dir (w_fs w !! path) = true →
  c_string id → plain id → 0 ≤ limit < 2 ^ 64 →
  nbytes (store_metadata_text (new_store id path limit fmt revocation snapshot)) < 1024 →
  ∃ w', blobstore_open path limit fmt revocation snapshot w
        = Ret w' (Some (new_store id path limit fmt revocation snapshot))
      ∧ w_fs w'
        = <[path +:+ "/" +:+ BLOBSTORE_METADATA_FILE
            := File (store_metadata_text (new_store id path limit fmt revocation snapshot))
                 (w_time w)]> (w_fs w)
      ∧ locks_list w' = locks_list w ∧ w_fdt w' = w_fdt w.
Proof.
  intros Hce Hro Hnr Hns Hnf Hinit Hid Hok Hheld Hnone Hdir Hc Hplain Hlimit Hsize.
  destruct (blobstore_open_run path limit fmt revocation snapshot w
              (new_store id path limit fmt revocation snapshot) true)
    as (w' & Hrun & Hll & Hfdt & _ & Hfs & _); try done.
  - by rewrite Hid.
  - lia.
  - rewrite agrees_new_store in Hrun. by exists w'.
Qed.

(** X18.  [blobstore_open] on a directory whose descriptor file describes
    a store returns the handle of that store when the request agrees with
    it: a limit of 0 or the limit of the store, and each policy either
    [_ANY] or the one of the store.  Otherwise it returns no handle and
    sets [BLOBSTORE_ERROR_INVAL].  In both cases the files are as they
    were, and the descriptor and the lock taken on the way are given
    back. *)
Theorem blobstore_open_existing (path : string) (limit : Z) fmt revocation snapshot w bs
    (t : Z) :
  lock_mode (Z.lor BLOBSTORE_FLAG_CREAT BLOBSTORE_FLAG_EXCL)
  = Some (F_WRLCK, Z.lor (Z.lor (Z.lor 0 O_RDWR) O_CREAT) O_EXCL) →
  lock_mode BLOBSTORE_FLAG_RDONLY = Some (F_RDLCK, Z.lor 0 O_RDONLY) →
  numbered int_of_revocation revocation_of_int →
  numbered int_of_snapshot snapshot_of_int →
  numbered int_of_format format_of_int →
  (ext_init (w_ext w)).2 = 0 →
  registry_ok w →
  descriptors_held w (path +:+ "/" +:+ BLOBSTORE_METADATA_FILE) = [] →
  w_fs w !! (path +:+ "/" +:+ BLOBSTORE_METADATA_FILE)
  = Some (File (store_metadata_text bs) t) →
  bs_path bs = path → bs_fd bs = -1 →
  c_string (bs_id bs) → plain (bs_id bs) → 0 ≤ limit_blocks bs < 2 ^ 64 →
  nbytes (store_metadata_text bs) ≤ 1024 →
  ∃ w', blobstore_open path limit fmt revocation snapshot w
        = Ret w' (if agrees limit fmt revocation snapshot bs then Some bs else None)
      ∧ w_fs w' = w_fs w ∧ locks_list w' = locks_list w ∧ w_fdt w' = w_fdt w
      ∧ (agrees limit fmt revocation snapshot bs = false →
         _blobstore_errno w' = BLOBSTORE_ERROR_INVAL).
Proof.
  intros Hce Hro Hnr Hns Hnf Hinit Hok Hheld Hfile Hpath Hfd Hc Hplain Hlimit Hsize.
  destruct (blobstore_open_run path limit fmt revocation snapshot w bs false)
    as (w' & Hrun & Hll & Hfdt & _ & Hfs & Herr); try done.
  - by exists t.
  - by exists w'.
Qed.

(** ** Making the directories of a path *)

Lemma only_new_dirs_refl (fs : gmap string node) : only_new_dirs fs fs.
Proof. intros p. by left. Qed.

Lemma only_new_dirs_trans (fs1 fs2 fs3 : gmap string node) :
  only_new_dirs fs1 fs2 → only_new_dirs fs2 fs3 → only_new_dirs fs1 fs3.
Proof.
  intros H12 H23 p. destruct (H12 p) as [H|[H1 H2]], (H23 p) as [H'|[H1' H2']].
  - left. congruence.
  - right. split; congruence.
  - right. split; congruence.
  - congruence.
Qed.

Lemma stat_ok_mono w w' (p : string) :
  only_new_dirs (w_fs w) (w_fs w') → w_ext w' = w_ext w → stat_ok w p → stat_ok w' p.
Proof.
  intros Hfs Hext [[n Hn]|Hx].
  - left. destruct (Hfs p) as [H|[H _]]; [rewrite H, Hn; by eexists|congruence].
  - right. by rewrite Hext.
Qed.

Lemma sys_stat_cases (p : string) w :
  (∃ sb, sys_stat p w = Ret w (Some sb) ∧ stat_ok w p)
  ∨ (sys_stat p w = Ret (set_errno (lookup_errno (w_fs w) p) w) None
     ∧ w_fs w !! p = None ∧ ext_stat (w_ext w) p = None).
Proof.
  unfold sys_stat, stat_ok. rewrite bind_eq. simpl.
  destruct (w_fs w !! p) as [[d t|]|] eqn:Hp.
  - left. eexists. split; [done|]. left. by eexists.
  - left. eexists. split; [done|]. left. by eexists.
  - destruct (ext_stat (w_ext w) p) as [[]|] eqn:Hx.
    + left. eexists. split; [done|]. right. by eexists.
    + left. eexists. split; [done|]. right. by eexists.
    + by right.
Qed.

(** The loop of [ensure_directories_exist] over the bytes [idxs]. *)
Lemma ensure_loop_run idxs (path : string) (is_file_path : bool) (mode ret : Z) w :
  ret = 0 ∨ ret = 1 →
  ∃ w' r, ensure_loop idxs path is_file_path mode ret w = Ret w' r
        ∧ (r = -1 ∨ r = ret ∨ r = 1)
        ∧ only_new_dirs (w_fs w) (w_fs w')
        ∧ w_fdt w' = w_fdt w ∧ locks_list w' = locks_list w ∧ w_ext w' = w_ext w
        ∧ w_calls w' = w_calls w ∧ _blobstore_errno w' = _blobstore_errno w
        ∧ (r = 0 → w_fs w' = w_fs w)
        ∧ (ret = 0 → r = 1 → ∃ p, w_fs w !! p = None ∧ w_fs w' !! p = Some Dir)
        ∧ (r ≠ -1 → ∀ i p, i ∈ idxs → try_dir_at path is_file_path i = Some p → stat_ok w' p).
Proof.
  revert ret w. induction idxs as [|i idxs IH]; intros ret w Hret.
  { exists w, ret. simpl. rewrite ret_eq.
    repeat split; try done; [by right; left|apply only_new_dirs_refl|lia|].
    intros _ i p Hi. by apply elem_of_nil in Hi. }
  cbn [ensure_loop]. cbv zeta. fold (try_dir_at path is_file_path i).
  destruct (try_dir_at path is_file_path i) as [p0|] eqn:Htry.
  2: { destruct (IH ret w Hret)
         as (w' & r & Hrun & Hr & Hfs & Hfdt & Hll & Hext & Hcalls & Herr & H0 & H1 & Hdirs).
       exists w', r. repeat split; try done.
       intros Hne j p Hj Hp. apply elem_of_cons in Hj as [->|Hj]; [congruence|by eapply Hdirs]. }
  rewrite bind_eq.
  destruct (sys_stat_cases p0 w) as [(sb & -> & Hst)|(-> & Hnone & Hx)]; cbv beta iota.
  - destruct (IH ret w Hret)
      as (w' & r & Hrun & Hr & Hfs & Hfdt & Hll & Hext & Hcalls & Herr & H0 & H1 & Hdirs).
    exists w', r. repeat split; try done.
    intros Hne j p Hj Hp. apply elem_of_cons in Hj as [->|Hj]; [|by eapply Hdirs].
    assert (p = p0) as -> by congruence. by eapply stat_ok_mono.
  - rewrite bind_eq. unfold sys_mkdir. rewrite bind_eq. cbn [get_world]. cbv beta iota zeta.
    replace (w_fs (set_errno (lookup_errno (w_fs w) p0) w) !! p0) with (@None node) by done.
    destruct (parent_ok (w_fs (set_errno (lookup_errno (w_fs w) p0) w)) p0) eqn:Hpar.
    + rewrite bind_eq. cbn [modify]. rewrite ret_eq. change (0 =? -1) with false.
      cbv beta iota.
      set (w1 := set_fs (<[p0 := Dir]> (w_fs (set_errno (lookup_errno (w_fs w) p0) w))) (set_errno (lookup_errno (w_fs w) p0) w)).
      assert (Hfs1 : only_new_dirs (w_fs w) (w_fs w1)).
      { intros p. simpl. destruct (decide (p = p0)) as [->|Hp].
        - right. by rewrite lookup_insert_eq.
        - left. by rewrite lookup_insert_ne. }
      destruct (IH 1 w1 (or_intror eq_refl))
        as (w' & r & Hrun & Hr & Hfs & Hfdt & Hll & Hext & Hcalls & Herr & H0 & H1 & Hdirs).
      exists w', r. rewrite Hrun.
      repeat split; try done.
      * destruct Hr as [Hr|[Hr|Hr]]; by auto.
      * by eapply only_new_dirs_trans.
      * intros ->. destruct Hr as [Hr|[Hr|Hr]]; done.
      * intros _ _. exists p0. split; [done|].
        destruct (Hfs p0) as [H|[H _]]; simpl in H; rewrite lookup_insert_eq in H; by simplify_eq.
      * intros Hne j p Hj Hp. apply elem_of_cons in Hj as [->|Hj]; [|by eapply Hdirs].
        assert (p = p0) as -> by congruence.
        apply (stat_ok_mono w1); [done|done|]. left. simpl. rewrite lookup_insert_eq.
        by eexists.
    + unfold fail_with. rewrite !bind_eq. cbn [modify]. rewrite !ret_eq.
      change (-1 =? -1) with true. cbv beta iota. rewrite ret_eq.
      eexists _, _. split; [done|]. repeat split; try done; try (by left); try lia.
Qed.

(** Once the directories are there the loop finds them all and does
    nothing. *)
Lemma ensure_loop_again idxs (path : string) (is_file_path : bool) (mode ret : Z) w :
  (∀ i p, i ∈ idxs → try_dir_at path is_file_path i = Some p → stat_ok w p) →
  ensure_loop idxs path is_file_path mode ret w = Ret w ret.
Proof.
  induction idxs as [|i idxs IH]; intros Hdirs; [done|].
  cbn [ensure_loop]. cbv zeta. fold (try_dir_at path is_file_path i).
  assert (Hrest : ensure_loop idxs path is_file_path mode ret w = Ret w ret).
  { apply IH. intros j p Hj. apply Hdirs. by right. }
  destruct (try_dir_at path is_file_path i) as [p0|] eqn:Htry; [|done].
  rewrite bind_eq.
  destruct (sys_stat_cases p0 w) as [(sb & -> & Hst)|(_ & Hnone & Hx)]; [done|].
  destruct (Hdirs i p0) as [[n Hn]|[b Hb]]; [by left|done|congruence|congruence].
Qed.

(** X19.  [ensure_directories_exist] returns -1, 0 or 1, and -1 on the
    empty path.  It changes the file tree only by adding directories:
    what was there stays as it was.  When it returns 0 the file tree is
    as before, when it returns 1 there is a directory that was not there
    before, and when it does not return -1 [stat] finds every directory
    of the path: the part before each slash but a leading one and, for a
    path that names a directory and does not end in a slash, the path
    itself. *)
Theorem ensure_directories_exist_makes (path : string) (is_file_path : bool) (mode : Z) w :
  ∃ w' r, ensure_directories_exist path is_file_path mode w = Ret w' r
        ∧ (r = -1 ∨ r = 0 ∨ r = 1)
        ∧ (path = "" → r = -1)
        ∧ only_new_dirs (w_fs w) (w_fs w')
        ∧ w_fdt w' = w_fdt w ∧ locks_list w' = locks_list w
        ∧ (r = 0 → w_fs w' = w_fs w)
        ∧ (r = 1 → ∃ p, w_fs w !! p = None ∧ w_fs w' !! p = Some Dir)
        ∧ (r ≠ -1 → ∀ i p, (i < String.length path)%nat →
                      try_dir_at path is_file_path i = Some p → stat_ok w' p).
Proof.
  unfold ensure_directories_exist. cbv zeta.
  destruct (bool_decide_reflect (0 < String.length path)%nat) as [Hlen|Hlen].
  - destruct (ensure_loop_run (seq 0 (String.length path)) path is_file_path mode 0 w)
      as (w' & r & Hrun & Hr & Hfs & Hfdt & Hll & Hext & Hcalls & Herr & H0 & H1 & Hdirs);
      [by left|].
    exists w', r. repeat split; try done.
    + intros ->. simpl in Hlen. lia.
    + by apply H1.
    + intros Hne i p Hi. apply Hdirs; [done|]. apply elem_of_seq. lia.
  - exists w, (-1). rewrite ret_eq. repeat split; try done; try (by left).
Qed.

(** X20.  [ensure_directories_exist] need not be called twice: after a
    call that did not return -1, the same call returns 0 and changes
    nothing at all. *)
Theorem ensure_directories_exist_twice (path : string) (is_file_path : bool) (mode : Z) w :
  ∃ w' r, ensure_directories_exist path is_file_path mode w = Ret w' r
        ∧ (r ≠ -1 → ensure_directories_exist path is_file_path mode w' = Ret w' 0).
Proof.
  unfold ensure_directories_exist. cbv zeta.
  destruct (bool_decide_reflect (0 < String.length path)%nat) as [Hlen|Hlen].
  - destruct (ensure_loop_run (seq 0 (String.length path)) path is_file_path mode 0 w)
      as (w' & r & Hrun & _ & _ & _ & _ & _ & _ & _ & _ & _ & Hdirs); [by left|].
    exists w', r. split; [done|]. intros Hne. apply ensure_loop_again. by apply Hdirs.
  - by exists w, (-1).
Qed.

(** ** Creating device-mapper devices *)

Lemma dm_create_loop_run (all : list string) (i : nat) (devs : list (string * string)) w :
  ∃ w', dm_create_loop all i devs w
        = Ret w' (if (dm_creations (w_ext w) devs).2 is Some _ then -1 else 0)
    ∧ w_fs w' = w_fs w ∧ locks_list w' = locks_list w ∧ w_fdt w' = w_fdt w
    ∧ match (dm_creations (w_ext w) devs).2 with
      | None =>
          w_ext w' = (dm_creations (w_ext w) devs).1
          ∧ w_calls w' = w_calls w ++ ((λ nt, CallDmCreate nt.1 nt.2) <$> devs)
          ∧ _blobstore_errno w' = _blobstore_errno w
          ∧ _do_print_errors w' = _do_print_errors w
      | Some k =>
          (k < length devs)%nat
          ∧ w_ext w'
            = (dm_removals (dm_creations (w_ext w) devs).1
                 (reverse (remove_dups (take (S (i + k)) all)))).1.1
          ∧ w_calls w'
            = w_calls w ++ ((λ nt, CallDmCreate nt.1 nt.2) <$> take (S k) devs)
              ++ dm_remove_calls (reverse (remove_dups (take (S (i + k)) all)))
                   (dm_removals (dm_creations (w_ext w) devs).1
                      (reverse (remove_dups (take (S (i + k)) all)))).1.2
          ∧ _blobstore_errno w' = BLOBSTORE_ERROR_UNKNOWN
          ∧ _do_print_errors w' = true
      end.
Proof.
  revert i w. induction devs as [|[name table] devs IH]; intros i w.
  { exists w. simpl. rewrite ret_eq, app_nil_r. by repeat split. }
  cbn [dm_create_loop dm_creations]. rewrite bind_eq, call_ext_eq.
  destruct (ext_dm_create (w_ext w) name table) as [e1 [|]]; cbn [fst snd].
  - destruct (IH (S i) (set_ext e1 (CallDmCreate name table) w))
      as (w' & -> & Hfs & Hll & Hfdt & Hcase).
    cbn [w_ext set_ext] in *.
    exists w'. destruct (dm_creations e1 devs) as [e2 [k|]]; cbn [fst snd fmap option_fmap
      option_map] in *.
    + split; [done|]. split; [done|]. split; [done|]. split; [done|].
      destruct Hcase as (Hk & Hext & Hcalls & Herr & Hprint).
      replace (i + S k)%nat with (S i + k)%nat by lia.
      split; [simpl; lia|]. split; [done|]. split; [|done].
      rewrite Hcalls. simpl. by rewrite <- !app_assoc.
    + split; [done|]. split; [done|]. split; [done|]. split; [done|].
      destruct Hcase as (Hext & Hcalls & Herr & Hprint).
      split; [done|]. split; [|done]. rewrite Hcalls. simpl. by rewrite <- app_assoc.
  - rewrite bind_eq. unfold err at 1. cbn [modify]. rewrite bind_eq. unfold _err_off at 1.
    cbn [modify]. rewrite bind_eq. rewrite Nat.add_0_r.
    match goal with |- context [dm_delete_devices ?l ?w1] =>
      set (names := l); set (w2 := w1) end.
    destruct (dm_delete_devices_run names w2)
      as (w3 & -> & Hext & Hcalls & Herr & Hprint & Hfs & Hll & Hfdt).
    cbv beta iota. rewrite bind_eq. unfold _err_on at 1. cbn [modify]. rewrite ret_eq.
    eexists. split; [done|]. simpl.
    split; [by rewrite Hfs|]. split; [by rewrite Hll|]. split; [by rewrite Hfdt|].
    split; [lia|]. split; [by rewrite Hext|]. split.
    { rewrite Hcalls. simpl. by rewrite <- app_assoc. }
    split; [|done]. rewrite Herr. by destruct (dm_removals _ _).2.
Qed.

(** X21.  [dm_create_devices] runs [dmsetup create] on the devices in
    order and stops at the first one that cannot be made.  When all are
    made it returns 0 and has run nothing else; the error is as it was.
    When the device at index [k] is the first that cannot be made, it
    returns -1 with [BLOBSTORE_ERROR_UNKNOWN] after the devices up to and
    including that one are removed as [dm_delete_devices] removes them,
    from the last one back, a second try for a name where the first
    fails; the printing of errors is on again.  Files, registry and
    descriptors are left alone. *)
Theorem dm_create_devices_all_or_none (dev_names dm_tables : list string) w (e1 : E)
    (failed_at : option nat) :
  dm_creations (w_ext w) (zip dev_names dm_tables) = (e1, failed_at) →
  ∃ w', dm_create_devices dev_names dm_tables w
        = Ret w' (if failed_at is Some _ then -1 else 0)
    ∧ w_fs w' = w_fs w ∧ locks_list w' = locks_list w ∧ w_fdt w' = w_fdt w
    ∧ match failed_at with
      | None =>
          w_ext w' = e1
          ∧ w_calls w'
            = w_calls w ++ ((λ nt, CallDmCreate nt.1 nt.2) <$> zip dev_names dm_tables)
          ∧ _blobstore_errno w' = _blobstore_errno w
      | Some k =>
          (k < length (zip dev_names dm_tables))%nat
          ∧ w_ext w' = (dm_removals e1 (reverse (remove_dups (take (S k) dev_names)))).1.1
          ∧ w_calls w'
            = w_calls w
              ++ ((λ nt, CallDmCreate nt.1 nt.2) <$> take (S k) (zip dev_names dm_tables))
              ++ dm_remove_calls (reverse (remove_dups (take (S k) dev_names)))
                   (dm_removals e1 (reverse (remove_dups (take (S k) dev_names)))).1.2
          ∧ _blobstore_errno w' = BLOBSTORE_ERROR_UNKNOWN
          ∧ _do_print_errors w' = true
      end.
Proof.
  intros Hc.
  destruct (dm_create_loop_run dev_names 0 (zip dev_names dm_tables) w)
    as (w' & Hrun & Hfs & Hll & Hfdt & Hcase).
  rewrite Hc in Hrun, Hcase. cbn [fst snd] in *.
  exists w'. split; [done|]. split; [done|]. split; [done|]. split; [done|].
  destruct failed_at as [k|]; [done|]. by destruct Hcase as (? & ? & ? & _).
Qed.

(** ** A descriptor file that cannot be read *)

Lemma fd_to_buf_big fd (buf : string) size w (p : string) off (d : string) t :
  w_fdt w !! fd = Some (p, off) → w_fs w !! p = Some (File d t) → 0 ≤ size < nbytes d →
  fd_to_buf fd buf size w
  = Ret (set_blobstore_errno BLOBSTORE_ERROR_NOENT
           (set_fdt (<[fd := (p, size)]> (w_fdt w)) w))
      (-1, str_take (Z.to_nat size) d).
Proof.
  intros Hfd Hp Hsize. unfold fd_to_buf. rewrite bind_eq.
  unfold sys_lseek_set. rewrite bind_eq. simpl. rewrite Hfd. simpl.
  unfold sys_fstat. rewrite !bind_eq. simpl. rewrite lookup_insert_eq, Hp. simpl.
  unfold sys_read. rewrite !bind_eq. simpl.
  rewrite lookup_insert_eq, Hp. simpl.
  rewrite nbytes_str_take_lt by lia.
  destruct (Z.eqb_spec size (nbytes d)); [lia|].
  rewrite bind_eq. unfold err. simpl. by rewrite insert_insert_eq.
Qed.

(** The size of the file is tested before anything is looked for in the
    buffer. *)
Lemma read_store_metadata_bad bs0 (p : string) off (d : string) t w :
  w_fdt w !! bs_fd bs0 = Some (p, off) → w_fs w !! p = Some (File d t) →
  nbytes d < 30 ∨ 1024 < nbytes d →
  ∃ w', read_store_metadata bs0 w = Ret w' (-1, bs0)
      ∧ (∃ ent, w_fdt w' = <[bs_fd bs0 := ent]> (w_fdt w))
      ∧ w_fs w' = w_fs w ∧ locks_list w' = locks_list w ∧ w_calls w' = w_calls w
      ∧ _blobstore_errno w' = BLOBSTORE_ERROR_NOENT.
Proof.
  intros Hfd Hp Hbad. unfold read_store_metadata. rewrite bind_eq.
  assert (H0 : 0 ≤ nbytes d) by (unfold nbytes; lia).
  destruct (Z.lt_ge_cases 1024 (nbytes d)) as [Hbig|Hfit].
  { rewrite (fd_to_buf_big _ _ _ _ p off d t) by (done || lia).
    cbn [fst snd]. change (-1 =? -1) with true. cbv beta iota. rewrite ret_eq.
    eexists. split; [done|]. split; [by eexists|]. done. }
  rewrite (fd_to_buf_file _ _ _ _ p off d t) by done. cbn [fst snd].
  destruct (Z.eqb_spec (nbytes d) (-1)); [lia|].
  destruct (Z.ltb_spec (nbytes d) 30) as [Hsmall|Hlarge]; [|lia].
  rewrite bind_eq. unfold err. cbn [modify]. rewrite ret_eq.
  eexists. split; [done|]. split; [by eexists|]. done.
Qed.

(** X22.  [blobstore_open] on a directory whose descriptor file has not
    the size of one, fewer than 30 or more than 1024 bytes, returns no
    handle and sets [BLOBSTORE_ERROR_NOENT]; it leaves the files as they
    are and gives back the descriptor and the lock that it took. *)
Theorem blobstore_open_bad_descriptor (path : string) (limit : Z) fmt revocation snapshot w
    (d : string) (t : Z) :
  lock_mode (Z.lor BLOBSTORE_FLAG_CREAT BLOBSTORE_FLAG_EXCL)
  = Some (F_WRLCK, Z.lor (Z.lor (Z.lor 0 O_RDWR) O_CREAT) O_EXCL) →
  lock_mode BLOBSTORE_FLAG_RDONLY = Some (F_RDLCK, Z.lor 0 O_RDONLY) →
  (ext_init (w_ext w)).2 = 0 →
  registry_ok w →
  descriptors_held w (path +:+ "/" +:+ BLOBSTORE_METADATA_FILE) = [] →
  w_fs w !! (path +:+ "/" +:+ BLOBSTORE_METADATA_FILE) = Some (File d t) →
  nbytes d < 30 ∨ 1024 < nbytes d →
  ∃ w', blobstore_open path limit fmt revocation snapshot w = Ret w' None
      ∧ w_fs w' = w_fs w ∧ locks_list w' = locks_list w ∧ w_fdt w' = w_fdt w
      ∧ _blobstore_errno w' = BLOBSTORE_ERROR_NOENT.
Proof.
  intros Hce Hro Hinit Hok Hheld Hfile Hbad.
  pose proof (registry_ok_unheld w _ Hok Hheld) as Hfind.
  set (meta := path +:+ "/" +:+ BLOBSTORE_METADATA_FILE) in *.
  pose proof (lowest_free_ge (w_fdt w) 0 (size (w_fdt w))) as Hge.
  pose proof (lowest_free_free (w_fdt w)) as Hfree.
  set (fd0 := lowest_free (w_fdt w) 0 (size (w_fdt w))) in *.
  unfold blobstore_open.
  destruct (blobstore_init_run w Hinit)
    as (wa & Hia & Hfsa & Hfdta & Hlla & Hcallsa & Htimea & Hexta).
  rewrite bind_eq, Hia. change (negb (0 =? 0)) with false. cbv beta iota zeta.
  fold meta.
  rewrite bind_eq. cbn [modify]. rewrite bind_eq. unfold _err_off at 1. cbn [modify].
  set (wb := set_print false (set_blobstore_errno BLOBSTORE_ERROR_OK wa)).
  set (bs_init := {| bs_id := ""; bs_path := path; limit_blocks := 0;
                     revocation_policy := revocation_of_int 0;
                     snapshot_policy := snapshot_of_int 0;
                     format := format_of_int 0; bs_fd := 0 |}).
  assert (Hmeta : meta_path_of bs_init = meta) by done.
  rewrite Hmeta.
  assert (Hfindb : find_lock meta (locks_list wb) = None) by (simpl; by rewrite Hlla).
  assert (Hopen1 : open_and_lock meta (Z.lor BLOBSTORE_FLAG_CREAT BLOBSTORE_FLAG_EXCL) 0 384 wb
                   = Ret (set_blobstore_errno BLOBSTORE_ERROR_EXIST (set_errno EEXIST wb)) (-1)).
  { apply (open_and_lock_open_fails meta _ 0 384 F_WRLCK
             (Z.lor (Z.lor (Z.lor 0 O_RDWR) O_CREAT) O_EXCL) wb (length (locks_list wb)) true
             (locks_list wb ++ [new_filelock meta F_WRLCK]) (new_filelock meta F_WRLCK));
      [done|by rewrite Hfindb|by apply list_lookup_middle|done|done|done|].
    rewrite sys_open_set_locks. unfold sys_open. rewrite bind_eq. simpl.
    by rewrite Hfsa, Hfile. }
  rewrite bind_eq, Hopen1. cbv beta iota zeta.
  rewrite bind_eq. unfold _err_on at 1. cbn [modify].
  change (-1 =? -1) with true. cbv beta iota. rewrite bind_eq, ret_eq.
  set (wj := set_print true (set_blobstore_errno BLOBSTORE_ERROR_EXIST (set_errno EEXIST wb))).
  assert (Hllj : locks_list wj = locks_list w) by done.
  assert (Hfdtj : w_fdt wj = w_fdt w) by done.
  assert (Hfsj : w_fs wj = w_fs w) by done.
  assert (Herrj : _blobstore_errno wj = BLOBSTORE_ERROR_EXIST) by done.
  clearbody wj.
  rewrite bind_eq. cbn [get_world]. cbv beta iota zeta. rewrite Herrj.
  rewrite (bool_decide_eq_true_2 (BLOBSTORE_ERROR_EXIST = BLOBSTORE_ERROR_EXIST)) by done.
  rewrite andb_false_r. cbn [andb]. cbv beta iota.
  rewrite bind_eq, open_and_lock_reads;
    [|done|by rewrite Hllj|by rewrite Hfsj, Hfile].
  cbv beta iota zeta. rewrite Hfdtj, Hllj. fold fd0.
  replace (fd0 =? -1) with false by (symmetry; apply Z.eqb_neq; lia).
  cbv beta iota. rewrite bind_eq.
  match goal with |- context [read_store_metadata ?B ?W] => set (bsk := B); set (wk := W) end.
  destruct (read_store_metadata_bad bsk meta 0 d t wk)
    as (wr & -> & (ent & Hfdtr) & Hfsr & Hllr & Hcallsr & Herrr);
    [simpl; apply lookup_insert_eq|simpl; by rewrite Hfsj|done|].
  cbv beta iota. cbn [fst snd]. change (negb (-1 =? 0)) with true. cbv beta iota.
  destruct (close_single w wr meta F_RDLCK fd0 ent Hok Hfind Hge Hfree)
    as (w4 & Hclose & Hll4 & Hfdt4 & Hfs4 & _ & Hcalls4 & Herr4).
  { by rewrite Hllr. }
  { rewrite Hfdtr. simpl. by rewrite insert_insert_eq. }
  exists w4. change (bs_fd bsk) with fd0. rewrite bind_eq, Hclose. cbv beta iota.
  rewrite ret_eq. split; [done|]. split; [by rewrite Hfs4, Hfsr|]. split; [done|].
  split; [done|]. by rewrite Herr4, Herrr.
Qed.

(** X23.  A store that [blobstore_open] has made is found by the next
    call: with the same arguments, or with any that agree with the store
    (a limit of 0, [_ANY] for a policy), the second call returns the same
    handle as the first and leaves the files as the first call left
    them. *)
Theorem blobstore_open_again (path id : string) (limit limit2 : Z) fmt fmt2 revocation
    revocation2 snapshot snapshot2 w :
  lock_mode (Z.lor BLOBSTORE_FLAG_CREAT BLOBSTORE_FLAG_EXCL)
  = Some (F_WRLCK, Z.lor (Z.lor (Z.lor 0 O_RDWR) O_CREAT) O_EXCL) →
  lock_mode BLOBSTORE_FLAG_RDONLY = Some (F_RDLCK, Z.lor 0 O_RDONLY) →
  numbered int_of_revocation revocation_of_int →
  numbered int_of_snapshot snapshot_of_int →
  numbered int_of_format format_of_int →
  (∀ e : E, (ext_init e).2 = 0) →
  (ext_gen_id (ext_init (w_ext w)).1).2 = id →
  registry_ok w →
  descriptors_held w (path +:+ "/" +:+ BLOBSTORE_METADATA_FILE) = [] →
  w_fs w !! (path +:+ "/" +:+ BLOBSTORE_METADATA_FILE) = None →
  is_dir (w_fs w !! path) = true →
  c_string id → plain id → 0 ≤ limit < 2 ^ 64 →
  nbytes (store_metadata_text (new_store id path limit fmt revocation snapshot)) < 1024 →
  agrees limit2 fmt2 revocation2 snapshot2 (new_store id path limit fmt revocation snapshot)
  = true →
  ∃ w1 w2,
    blobstore_open path limit fmt revocation snapshot w
    = Ret w1 (Some (new_store id path limit fmt revocation snapshot))
    ∧ blobstore_open path limit2 fmt2 revocation2 snapshot2 w1
      = Ret w2 (Some (new_store id path limit fmt revocation snapshot))
    ∧ w_fs w2 = w_fs w1 ∧ locks_list w2 = locks_list w ∧ w_fdt w2 = w_fdt w.
Proof.
  intros Hce Hro Hnr Hns Hnf Hinit Hid Hok Hheld Hnone Hdir Hc Hplain Hlimit Hsize Hagrees.
  set (bs := new_store id path limit fmt revocation snapshot) in *.
  destruct (blobstore_open_run path limit fmt revocation snapshot w bs true)
    as (w1 & Hrun1 & Hll1 & Hfdt1 & _ & Hfs1 & _); try done.
  { by rewrite Hid. }
  { lia. }
  unfold bs in Hrun1 at 1. rewrite agrees_new_store in Hrun1. fold bs in Hrun1.
  destruct (blobstore_open_run path limit2 fmt2 revocation2 snapshot2 w1 bs false)
    as (w2 & Hrun2 & Hll2 & Hfdt2 & _ & Hfs2 & _); try done.
  { by eapply registry_ok_same. }
  { by rewrite (descriptors_held_same w w1). }
  { exists (w_time w). rewrite Hfs1, lookup_insert_eq. done. }
  { lia. }
  rewrite Hagrees in Hrun2.
  exists w1, w2. repeat split; try done; congruence.
Qed.

End Proofs.


(** ** The sample [qsort] keeps the contract *)

Lemma sample_insert_perm stable cmp x (l : list blockblob) :
  sample_insert stable cmp x l ≡ₚ x :: l.
Proof.
  induction l as [|y l IH]; simpl; [done|].
  destruct (if stable then _ else _); [done|]. rewrite IH. apply Permutation_swap.
Qed.

Lemma sample_qsort_perm stable cmp (l : list blockblob) : sample_qsort stable cmp l ≡ₚ l.
Proof.
  induction l as [|x l IH]; [done|]. unfold sample_qsort in *. simpl.
  by rewrite sample_insert_perm, IH.
Qed.

Lemma consistent_on_subseteq cmp (l1 l2 : list blockblob) :
  l1 ⊆ l2 → consistent_on cmp l2 → consistent_on cmp l1.
Proof. intros Hsub [Htot Htrans]. split; eauto 10. Qed.

Lemma sample_insert_sorted stable cmp x (l : list blockblob) :
  consistent_on cmp (x :: l) →
  StronglySorted (λ a b, cmp a b ≤ 0) l →
  StronglySorted (λ a b, cmp a b ≤ 0) (sample_insert stable cmp x l).
Proof.
  intros Hc Hs. induction Hs as [|y l Hs IH Hall]; simpl.
  { repeat constructor. }
  destruct Hc as [Htot Htrans].
  assert (Hx : x ∈ x :: y :: l) by by left.
  assert (Hy : y ∈ x :: y :: l) by (right; by left).
  rewrite Forall_forall in Hall.
  destruct (if stable then _ else _) eqn:Hxy.
  - assert (Hle : cmp x y ≤ 0) by (destruct stable; lia).
    constructor; [by constructor; [|apply Forall_forall]|].
    constructor; [done|]. apply Forall_forall. intros z Hz.
    apply (Htrans x y z); [done|done|by do 2 right|done|by apply Hall].
  - assert (Hge : 0 ≤ cmp x y) by (destruct stable; lia).
    constructor.
    + apply IH. apply (consistent_on_subseteq _ _ (x :: y :: l)); [|done].
      intros z [->|Hz]%elem_of_cons; [by left|by do 2 right].
    + apply Forall_forall. intros z Hz. rewrite sample_insert_perm in Hz.
      apply elem_of_cons in Hz as [->|Hz]; [|by apply Hall].
      by apply (Htot x y Hx Hy).
Qed.

Lemma sample_qsort_contract stable : qsort_contract (sample_qsort stable).
Proof.
  intros cmp l. split; [apply sample_qsort_perm|].
  induction l as [|x l IH]; intros Hc; [constructor|].
  unfold sample_qsort in *. simpl. apply sample_insert_sorted.
  - eapply consistent_on_subseteq; [|done].
    intros z Hz. apply elem_of_cons in Hz as [->|Hz]; [by left|].
    right. by rewrite <- (sample_qsort_perm stable cmp l).
  - apply IH. eapply consistent_on_subseteq; [|done]. intros z Hz. by right.
Qed.

(** * The properties at the samples *)

Section witnesses.
#[local] Existing Instance sample_header.
#[local] Existing Instance sample_ext.

Ltac differ := let H := fresh in intros H; vm_compute in H; discriminate H.

(** C9 on [_EXCL | _RDWR]: the call is the one with [_RDWR] alone, and it
    opens the file of the sample with a write lock. *)
Lemma open_and_lock_excl_without_creat_witness :
  open_and_lock "/tmp/f3" 9 0 0 sample_file_world
  = open_and_lock "/tmp/f3" 1 0 0 sample_file_world
  ∧ ∃ fd, 0 ≤ fd
        ∧ open_and_lock "/tmp/f3" 9 0 0 sample_file_world
          = Ret (set_locks
                   [push_fd fd (set_lock (taken F_WRLCK)
                                  (set_refs 1 (new_filelock "/tmp/f3" F_WRLCK)))]
                   (set_errno E_OK (set_fdt {[ fd := ("/tmp/f3", 0) ]} sample_file_world)))
              fd.
Proof.
  destruct (open_and_lock_excl_without_creat "/tmp/f3" 9 0 0 sample_file_world)
    as (H1 & _ & H3); [reflexivity..|].
  split; [exact H1|].
  destruct (H3 eq_refl "" 0 eq_refl eq_refl) as (fd & Hfd & _ & Hrun).
  exists fd. split; [exact Hfd|exact Hrun].
Defined.

(** The claim C9 as it was written fails on [_EXCL] alone, which is an
    error, and on [_EXCL | _RDONLY], which takes a read lock. *)
Lemma excl_alone_is_invalid :
  has_flag 8 BLOBSTORE_FLAG_EXCL = true ∧ has_flag 8 BLOBSTORE_FLAG_CREAT = false
  ∧ open_and_lock "/tmp/f3" 8 0 0 sample_file_world
    = Ret (set_blobstore_errno BLOBSTORE_ERROR_INVAL sample_file_world) (-1)
  ∧ has_flag 10 BLOBSTORE_FLAG_EXCL = true ∧ has_flag 10 BLOBSTORE_FLAG_CREAT = false
  ∧ lock_mode 10 = Some (F_RDLCK, O_RDONLY).
Proof. repeat split. Qed.

(** C5 on four calls, one for each test. *)
Lemma blockblob_open_preconditions_witness :
  let w := sample_store_world in
  blockblob_open sample_store (Some "B1") 10 16 None 0 w
  = Ret (set_blobstore_errno BLOBSTORE_ERROR_INVAL w) None
  ∧ blockblob_open sample_store None 10 0 None 0 w
    = Ret (set_blobstore_errno BLOBSTORE_ERROR_INVAL w) None
  ∧ blockblob_open sample_store (Some "B1") 0 4 None 0 w
    = Ret (set_blobstore_errno BLOBSTORE_ERROR_INVAL w) None
  ∧ blockblob_open sample_store (Some "B1") 31 4 None 0 w
    = Ret (set_blobstore_errno BLOBSTORE_ERROR_NOSPC w) None.
Proof.
  intros w. split; [|split; [|split]].
  - destruct (blockblob_open_preconditions w sample_store (Some "B1") 10 16 None 0)
      as (H & _). apply H. intros Hz. vm_compute in Hz. discriminate Hz.
  - destruct (blockblob_open_preconditions w sample_store None 10 0 None 0)
      as (_ & H & _). apply H; reflexivity.
  - destruct (blockblob_open_preconditions w sample_store (Some "B1") 0 4 None 0)
      as (_ & _ & H & _). apply H; reflexivity.
  - destruct (blockblob_open_preconditions w sample_store (Some "B1") 31 4 None 0)
      as (_ & _ & _ & H). apply H; [reflexivity|vm_compute; discriminate|reflexivity|reflexivity].
Defined.

(** C1, as amended, on the file that is open 99 times: one more open
    fails, and so it does after the descriptors 0 to 97 are closed, in
    descending order, and descriptor 98 alone is held. *)
Lemma lock_table_capacity_witness :
  wf_registry sample_full_world
  ∧ length (descriptors_held sample_full_world "/tmp/f3") = BLOBSTORE_MAX_CONCURRENT
  ∧ open_and_lock "/tmp/f3" 2 0 0 sample_full_world
    = Ret (set_blobstore_errno BLOBSTORE_ERROR_MFILE sample_full_world) (-1)
  ∧ ∃ w', close_all (reverse (Z.of_nat <$> seq 0 98)) sample_full_world = Ret w' tt
        ∧ length (descriptors_held w' "/tmp/f3") = 1%nat
        ∧ open_and_lock "/tmp/f3" 2 0 0 w'
          = Ret (set_blobstore_errno BLOBSTORE_ERROR_MFILE w') (-1).
Proof.
  assert (Hwf : wf_registry sample_full_world)
    by (apply (bool_decide_unpack _); vm_compute; exact I).
  assert (Hlen : length (descriptors_held sample_full_world "/tmp/f3")
                 = BLOBSTORE_MAX_CONCURRENT) by (vm_compute; reflexivity).
  split; [exact Hwf|]. split; [exact Hlen|].
  destruct (lock_table_capacity sample_full_world "/tmp/f3" 2 0 0 Hwf Hlen) as (H & Hsome & _);
    [vm_compute; eexists; reflexivity|].
  split; [exact H|].
  destruct (Hsome (reverse (Z.of_nat <$> seq 0 98))) as (w' & Hc & Hl & Ho).
  - apply (bool_decide_unpack _). vm_compute. exact I.
  - apply (bool_decide_unpack _). vm_compute. exact I.
  - vm_compute. lia.
  - exists w'. split; [exact Hc|]. split; [|exact Ho].
    assert (Hl98 : length (reverse (Z.of_nat <$> seq 0 98)) = 98%nat) by reflexivity.
    rewrite Hl98 in Hl. unfold BLOBSTORE_MAX_CONCURRENT in Hl. lia.
Defined.

(** Against C1 as first stated: with 99 descriptors of the file held,
    closing one of them, the first, does not make room for another. *)
Lemma lock_table_slot_not_reused :
  let w := sample_full_world in
  let w' := world_after (close_and_unlock 0 w) w in
  length (descriptors_held w "/tmp/f3") = BLOBSTORE_MAX_CONCURRENT
  ∧ 0 ∈ descriptors_held w "/tmp/f3"
  ∧ close_and_unlock 0 w = Ret w' 0
  ∧ open_and_lock "/tmp/f3" 2 0 0 w'
    = Ret (set_blobstore_errno BLOBSTORE_ERROR_MFILE w') (-1).
Proof.
  intros w w'. split; [vm_compute; reflexivity|].
  split; [apply (bool_decide_unpack _); vm_compute; exact I|].
  split; vm_compute; reflexivity.
Qed.

(** C2 does not hold of the code: a map that copies 20 blocks from a
    device to a destination of 10 blocks is accepted, and the copy is made. *)
Lemma clone_device_source_unchecked :
  let r := blockblob_clone (Some sample_dst) (Some sample_map) sample_clone_world in
  Forall (λ m, size_blocks sample_dst < first_block_dst m + len_blocks m) sample_map
  ∧ snd <$> value_of r = Some 0
  ∧ w_calls (world_after r sample_clone_world)
    = [CallDd (Some "/dev/sdb") "/dev/loop0" 20 0 0]
  ∧ _blobstore_errno (world_after r sample_clone_world) = BLOBSTORE_ERROR_OK.
Proof.
  intros r. split; [by repeat constructor|]. split; [|split]; vm_compute; reflexivity.
Qed.

(** C8 on the map that copies from a device. *)
Lemma clone_copies_only_witness :
  ∃ w' r,
    blockblob_clone (Some sample_dst) (Some sample_map) sample_clone_world
    = Ret w' (Some sample_dst, r)
    ∧ w_fs w' = w_fs sample_clone_world
    ∧ ∃ calls, w_calls w' = w_calls sample_clone_world ++ calls
               ∧ Forall is_copy_call calls.
Proof.
  apply (clone_copies_only sample_clone_world sample_dst sample_map).
  repeat constructor.
Defined.

(** C7, as amended, on two entries. *)
Lemma write_then_read_array_witness :
  let w := sample_clone_world in
  let w' := world_after (write_array_blockblob_metadata_path BLOCKBLOB_PATH_DEPS
                           sample_store "b" ["/s a"; "/s c"] w) w in
  read_array_blockblob_metadata_path BLOCKBLOB_PATH_DEPS sample_store "b" w'
  = Ret w' (0, ["/s a"; "/s c"]).
Proof.
  intros w w'.
  apply (write_then_read_array w w' BLOCKBLOB_PATH_DEPS sample_store "b" ["/s a"; "/s c"]).
  - repeat constructor.
  - vm_compute. reflexivity.
Defined.

(** Against C7 as first stated: an entry with a newline in it is written,
    and two entries are read back. *)
Lemma array_entry_with_newline :
  let entry := "a" +:+ String newline "b" in
  let w := sample_clone_world in
  let w' := world_after (write_array_blockblob_metadata_path BLOCKBLOB_PATH_DEPS
                           sample_store "b" [entry] w) w in
  c_string entry
  ∧ write_array_blockblob_metadata_path BLOCKBLOB_PATH_DEPS sample_store "b" [entry] w
    = Ret w' 0
  ∧ read_array_blockblob_metadata_path BLOCKBLOB_PATH_DEPS sample_store "b" w'
    = Ret w' (0, ["a"; "b"]).
Proof. intros entry w w'. split; [|split]; vm_compute; reflexivity. Qed.

(** C3, as amended, on two blobs last modified at times 5 and 0, of 10
    blocks each, with 10 blocks needed: the older one is examined, counted
    and purged, and the newer one is not come to. *)
Lemma purge_blockblobs_lru_order_witness :
  ∃ w' examined rest,
    purge_blockblobs_lru_log sample_store [sample_young; sample_old] 10 sample_purge_world
    = Ret w' (10, [(sample_old, 10)])
    ∧ purge_blockblobs_lru sample_store [sample_young; sample_old] 10 sample_purge_world
      = Ret w' 10
    ∧ StronglySorted (λ a b, last_modified a ≤ last_modified b)
        (ext_qsort compare_bbs [sample_young; sample_old])
    ∧ ext_qsort compare_bbs [sample_young; sample_old] = examined ++ rest
    ∧ last examined = Some sample_old
    ∧ purge_counted sample_store sample_purge_world [] sample_old
    ∧ purge_removed sample_store sample_purge_world w' [] sample_old.
Proof.
  destruct (purge_blockblobs_lru_order sample_store [sample_young; sample_old] 10
              sample_purge_world)
    as (w' & reported & H1 & H2 & _ & _ & _ & _ & H7 & _ & _ & _
        & (examined & rest & He & _ & _ & _ & Hlast & _) & Hcnt & _).
  - apply (sample_qsort_contract true).
  - discriminate.
  - lia.
  - repeat constructor; vm_compute; discriminate.
  - vm_compute. reflexivity.
  - assert (Hv : value_of (purge_blockblobs_lru_log sample_store [sample_young; sample_old] 10
                             sample_purge_world)
                 = Some (10, [(sample_old, 10)])) by (vm_compute; reflexivity).
    rewrite H1 in Hv. injection Hv as _ Hr. subst reported.
    exists w', examined, rest. split; [exact H1|]. split; [exact H2|].
    split; [apply H7; repeat constructor; vm_compute; discriminate|].
    split; [exact He|]. split; [apply Hlast; vm_compute; discriminate|].
    exact (Hcnt [] sample_old [] eq_refl).
Defined.

(** The cast in [compare_bbs]: the difference of the time stamps 0 and
    2^31 + 1 does not fit an [int], so of these two purgeable blobs the one
    modified later is purged and the older one stays. *)
Lemma purge_takes_the_newer_blob :
  let r := purge_blockblobs_lru_log sample_store [sample_old; sample_new] 10
             sample_purge_world in
  purgeable sample_old ∧ purgeable sample_new
  ∧ last_modified sample_old < last_modified sample_new
  ∧ value_of r = Some (10, [(sample_new, 10)])
  ∧ is_file (w_fs (world_after r sample_purge_world) !! "/s/old.blocks") = true
  ∧ is_file (w_fs (world_after r sample_purge_world) !! "/s/new.blocks") = false.
Proof.
  intros r. split; [reflexivity|]. split; [reflexivity|]. split; [reflexivity|].
  split; [|split]; vm_compute; reflexivity.
Qed.

(** C4 on the blob that was just created. *)
Lemma blockblob_delete_removes_files_witness :
  let w := sample_created_world in
  let w' := world_after (blockblob_delete (Some sample_created_blob) 3000 w) w in
  blockblob_delete (Some sample_created_blob) 3000 w = Ret w' 0
  ∧ (∀ k, k ∈ blockblob_paths → w_fs w' !! sidecar_path k sample_store "B1" = None)
  ∧ ∀ d, ancestor d "/s/B1" → is_dir (w_fs w' !! d) = true → dir_empty (w_fs w') d = false.
Proof.
  intros w w'.
  assert (Hwf : wf_fs (w_fs w)) by (apply (bool_decide_unpack _); vm_compute; exact I).
  assert (Hdel : blockblob_delete (Some sample_created_blob) 3000 w = Ret w' 0)
    by (vm_compute; reflexivity).
  destruct (blockblob_delete_removes_files w w' sample_created_blob 3000 Hwf Hdel)
    as [Hfiles Hdirs].
  split; [exact Hdel|]. split; [|exact Hdirs].
  intros k Hk. apply (Hfiles k Hk).
  revert k Hk. apply Forall_forall. repeat constructor.
Defined.


(** X1 on the dm file of the blob "B1". *)
Lemma typeof_inverts_set_path_witness :
  ∃ p, set_blockblob_metadata_path BLOCKBLOB_PATH_DM sample_store "B1" sample_store_world
       = Ret sample_store_world (0, Some p)
     ∧ typeof_blockblob_metadata_path sample_store p sample_store_world
       = Ret sample_store_world (2, "B1").
Proof.
  destruct (typeof_inverts_set_path sample_store BLOCKBLOB_PATH_DM "B1" sample_store_world)
    as (p & H1 & H2); [done|done|].
  exists p. split; [exact H1|]. rewrite H2. reflexivity.
Defined.

(** X2 on the sample store, with a second line for the limit after the text. *)
Lemma get_val_reads_store_metadata_witness :
  let buf := store_metadata_text sample_store +:+ "limit: 7" in
  get_val buf "id" = Some "store" ∧ get_val buf "limit" ≫= strtoll = Some 30.
Proof.
  destruct (get_val_reads_store_metadata sample_store "limit: 7") as (H1 & H2 & _).
  - split; reflexivity.
  - simpl. lia.
  - simpl. lia.
  - simpl. lia.
  - split; [exact H1|]. rewrite H2. reflexivity.
Defined.

(** X3 on the descriptor file of the sample store. *)
Lemma store_metadata_round_trip_witness :
  ∃ w1, write_store_metadata (with_bs_fd 3 sample_store) sample_meta_world = Ret w1 0
    ∧ ∃ w2, read_store_metadata (with_bs_fd 3 sample_store) w1
            = Ret w2 (0, with_bs_fd 3 sample_store).
Proof.
  destruct (store_metadata_round_trip (with_bs_fd 3 sample_store) "/s/.blobstore"
              sample_meta_world) as (w1 & H1 & _ & (w2 & H2 & _) & _).
  - intros []; split; (simpl; lia) || reflexivity.
  - intros []; split; (simpl; lia) || reflexivity.
  - intros []; split; (simpl; lia) || reflexivity.
  - reflexivity.
  - split; reflexivity.
  - simpl. lia.
  - vm_compute. reflexivity.
  - vm_compute. reflexivity.
  - vm_compute. reflexivity.
  - exists w1. split; [exact H1|]. exists w2. exact H2.
Defined.

Lemma open_and_lock_keeps_registry_witness :
  ∃ w' fd, open_and_lock "/tmp/f3" 2 0 0 sample_file_world = Ret w' fd ∧ registry_ok w'.
Proof.
  destruct (open_and_lock_keeps_registry sample_file_world "/tmp/f3" 2 0 0)
    as (w' & fd & H & Hok & _).
  - apply (bool_decide_unpack _). vm_compute. exact I.
  - unfold BLOBSTORE_NO_TIMEOUT. lia.
  - exists w', fd. split; [exact H|exact Hok].
Defined.

Lemma close_and_unlock_releases_witness :
  ∃ w', close_and_unlock 0 (open_many 1 "/tmp/f3" 2 sample_file_world) = Ret w' 0
      ∧ registry_ok w'.
Proof.
  destruct (close_and_unlock_releases (open_many 1 "/tmp/f3" 2 sample_file_world) 0)
    as [Hheld _].
  - apply (bool_decide_unpack _). vm_compute. exact I.
  - destruct Hheld as (w' & H & Hok & _).
    + exists "/tmp/f3". vm_compute. left.
    + exists w'. split; [exact H|exact Hok].
Defined.

Lemma open_and_lock_twice_witness :
  ∃ t', open_and_lock "/tmp/f3" 1 500 0 (open_many 1 "/tmp/f3" 1 sample_file_world)
        = Ret (set_blobstore_errno BLOBSTORE_ERROR_AGAIN
                 (set_time t' (open_many 1 "/tmp/f3" 1 sample_file_world))) (-1)
      ∧ 500 ≤ t'.
Proof.
  destruct (open_and_lock_twice sample_file_world "/tmp/f3" 1 1 0 500 0 0 F_WRLCK 2 F_WRLCK 2
              (open_many 1 "/tmp/f3" 1 sample_file_world) 0) as (t' & H & Ht).
  - apply (bool_decide_unpack _). vm_compute. exact I.
  - reflexivity.
  - reflexivity.
  - reflexivity.
  - vm_compute. reflexivity.
  - lia.
  - reflexivity.
  - unfold BLOBSTORE_NO_TIMEOUT. lia.
  - exists t'. split; [exact H|exact Ht].
Defined.

Lemma close_and_unlock_closes_late_witness :
  ∃ w', close_and_unlock 0 (open_many 2 "/tmp/f3" 2 sample_file_world) = Ret w' 0
      ∧ w_fdt w' = w_fdt (open_many 2 "/tmp/f3" 2 sample_file_world).
Proof.
  destruct (close_and_unlock_closes_late (open_many 2 "/tmp/f3" 2 sample_file_world)
              "/tmp/f3" 0) as (w' & H & Hopen & _).
  - apply (bool_decide_unpack _). vm_compute. exact I.
  - vm_compute. left.
  - exists w'. split; [exact H|]. apply Hopen. vm_compute. discriminate.
Defined.

Lemma open_close_round_trip_witness :
  ∃ w2, close_and_unlock 0 (open_many 1 "/tmp/f3" 2 sample_file_world) = Ret w2 0
      ∧ locks_list w2 = [] ∧ w_fdt w2 = ∅.
Proof.
  destruct (open_close_round_trip sample_file_world "/tmp/f3" 2 0 0
              (open_many 1 "/tmp/f3" 2 sample_file_world) 0) as (w2 & H & Hl & Hf & _).
  - apply (bool_decide_unpack _). vm_compute. exact I.
  - reflexivity.
  - vm_compute. reflexivity.
  - lia.
  - exists w2. split; [exact H|]. split; [exact Hl|exact Hf].
Defined.

(** X9 on a file that is not there, and on a path below the file of the
    sample. *)
Lemma open_and_lock_open_errors_witness :
  open_and_lock "/tmp/none" 2 0 0 sample_file_world
  = Ret (set_blobstore_errno BLOBSTORE_ERROR_NOENT (set_errno ENOENT sample_file_world)) (-1)
  ∧ open_and_lock "/tmp/f3/x" 2 0 0 sample_file_world
    = Ret (set_blobstore_errno BLOBSTORE_ERROR_UNKNOWN (set_errno ENOTDIR sample_file_world))
        (-1).
Proof.
  split.
  - destruct (open_and_lock_open_errors sample_file_world "/tmp/none" 2 0 0) as [H _].
    + apply (bool_decide_unpack _). vm_compute. exact I.
    + reflexivity.
    + eexists. reflexivity.
    + apply H; reflexivity.
  - destruct (open_and_lock_open_errors sample_file_world "/tmp/f3/x" 2 0 0) as [H _].
    + apply (bool_decide_unpack _). vm_compute. exact I.
    + reflexivity.
    + eexists. reflexivity.
    + apply H; reflexivity.
Defined.

Lemma check_in_use_reads_state_witness :
  ∃ w' u, check_in_use sample_store "B1" 0 sample_store_world = Ret w' u
        ∧ errors_only sample_store_world w'.
Proof.
  destruct (check_in_use_reads_state sample_store_world sample_store "B1" 0)
    as (w' & u & H & He & _).
  - apply (bool_decide_unpack _). vm_compute. exact I.
  - discriminate.
  - unfold BLOBSTORE_NO_TIMEOUT. lia.
  - reflexivity.
  - reflexivity.
  - reflexivity.
  - reflexivity.
  - discriminate.
  - discriminate.
  - discriminate.
  - exists w', u. split; [exact H|exact He].
Defined.

Lemma write_then_read_sidecar_witness :
  ∃ w'', read_blockblob_metadata_path BLOCKBLOB_PATH_SIG sample_store "B1" "" 4096
           (world_after (write_blockblob_metadata_path BLOCKBLOB_PATH_SIG sample_store "B1"
                           "sig" sample_store_world) sample_store_world)
         = Ret w'' (3, "sig").
Proof.
  destruct (write_then_read_sidecar sample_store_world
              (world_after (write_blockblob_metadata_path BLOCKBLOB_PATH_SIG sample_store "B1"
                              "sig" sample_store_world) sample_store_world)
              BLOCKBLOB_PATH_SIG sample_store "B1" "sig" "" 4096)
    as (w'' & r & H & _ & Hr & _).
  - discriminate.
  - discriminate.
  - lia.
  - reflexivity.
  - vm_compute. reflexivity.
  - exists w''. rewrite H. f_equal. apply Hr. vm_compute. split; discriminate.
Defined.

Lemma blockblob_close_releases_witness :
  ∃ w' rc, blockblob_close (Some sample_created_blob) sample_created_world = Ret w' rc
         ∧ registry_ok w'.
Proof.
  destruct (blockblob_close_releases sample_created_world sample_created_blob)
    as (w' & rc & H & Hok & _).
  - apply (bool_decide_unpack _). vm_compute. exact I.
  - vm_compute. discriminate.
  - reflexivity.
  - reflexivity.
  - reflexivity.
  - reflexivity.
  - discriminate.
  - discriminate.
  - discriminate.
  - exists w', rc. split; [exact H|exact Hok].
Defined.

Lemma blockblob_delete_refuses_mapped_witness :
  ∃ w', blockblob_delete (Some (sample_blob "B1" 1 0 "" 3)) 0 sample_mapped_world = Ret w' (-1)
      ∧ _blobstore_errno w' = BLOBSTORE_ERROR_AGAIN.
Proof.
  destruct (blockblob_delete_refuses_mapped sample_mapped_world (sample_blob "B1" 1 0 "" 3) 0)
    as (w' & H & _ & _ & Herr).
  - apply (bool_decide_unpack _). vm_compute. exact I.
  - discriminate.
  - unfold BLOBSTORE_NO_TIMEOUT. lia.
  - reflexivity.
  - reflexivity.
  - reflexivity.
  - reflexivity.
  - discriminate.
  - discriminate.
  - discriminate.
  - exists "/s B2", 0. split; [reflexivity|]. vm_compute. split; discriminate.
  - exists w'. split; [exact H|]. apply Herr; reflexivity.
Defined.

(** X14 on the removal of the first of three lines, where the last line
    takes its place, and on a line that is added. *)
Lemma update_entry_adds_and_removes_witness :
  (∃ w', update_entry_blockblob_metadata_path BLOCKBLOB_PATH_REFS sample_store "B1" "/s B2"
           true sample_refs_world = Ret w' 0
       ∧ read_array_blockblob_metadata_path BLOCKBLOB_PATH_REFS sample_store "B1" w'
         = Ret w' (0, ["/s B4"; "/s B3"]))
  ∧ (∃ w', update_entry_blockblob_metadata_path BLOCKBLOB_PATH_REFS sample_store "B1" "/s B3"
             false sample_mapped_world = Ret w' 0
         ∧ read_array_blockblob_metadata_path BLOCKBLOB_PATH_REFS sample_store "B1" w'
           = Ret w' (0, ["/s B2"; "/s B3"])).
Proof.
  split.
  - exists (world_after (update_entry_blockblob_metadata_path BLOCKBLOB_PATH_REFS sample_store
                           "B1" "/s B2" true sample_refs_world) sample_refs_world).
    assert (Hrun : update_entry_blockblob_metadata_path BLOCKBLOB_PATH_REFS sample_store "B1"
                     "/s B2" true sample_refs_world
                   = Ret (world_after (update_entry_blockblob_metadata_path
                                         BLOCKBLOB_PATH_REFS sample_store "B1" "/s B2" true
                                         sample_refs_world)
                            sample_refs_world) 0).
    { vm_compute. reflexivity. }
    split; [exact Hrun|].
    destruct (update_entry_adds_and_removes _ _ BLOCKBLOB_PATH_REFS sample_store "B1" "/s B2"
                true ltac:(discriminate) ltac:(discriminate) eq_refl eq_refl Hrun)
      as (entries & entries' & H1 & H2 & [_ H3] & _).
    rewrite H2. f_equal. f_equal.
    assert (He : entries = [] ++ "/s B2" :: ["/s B3"; "/s B4"]).
    { assert (Hr : read_array_blockblob_metadata_path BLOCKBLOB_PATH_REFS sample_store "B1"
                     sample_refs_world
                   = Ret sample_refs_world (0, ["/s B2"; "/s B3"; "/s B4"])).
      { vm_compute. reflexivity. }
      rewrite Hr in H1. injection H1 as <-. reflexivity. }
    rewrite (H3 [] ["/s B3"; "/s B4"] He); [reflexivity|].
    intros Hin. inversion Hin.
  - exists (world_after (update_entry_blockblob_metadata_path BLOCKBLOB_PATH_REFS sample_store
                           "B1" "/s B3" false sample_mapped_world) sample_mapped_world).
    assert (Hrun : update_entry_blockblob_metadata_path BLOCKBLOB_PATH_REFS sample_store "B1"
                     "/s B3" false sample_mapped_world
                   = Ret (world_after (update_entry_blockblob_metadata_path
                                         BLOCKBLOB_PATH_REFS sample_store "B1" "/s B3" false
                                         sample_mapped_world)
                            sample_mapped_world) 0).
    { vm_compute. reflexivity. }
    split; [exact Hrun|].
    destruct (update_entry_adds_and_removes _ _ BLOCKBLOB_PATH_REFS sample_store "B1" "/s B3"
                false ltac:(discriminate) ltac:(discriminate) eq_refl eq_refl Hrun)
      as (entries & entries' & H1 & H2 & H3 & _).
    rewrite H2. f_equal. f_equal. rewrite H3.
    assert (He : entries = ["/s B2"]).
    { assert (Hr : read_array_blockblob_metadata_path BLOCKBLOB_PATH_REFS sample_store "B1"
                     sample_mapped_world = Ret sample_mapped_world (0, ["/s B2"])).
      { vm_compute. reflexivity. }
      rewrite Hr in H1. injection H1 as <-. reflexivity. }
    rewrite He. reflexivity.
Defined.

Lemma blockblob_clone_rejects_witness :
  ∃ w', blockblob_clone
          (Some (with_store (with_metadata "store" 30 BLOBSTORE_REVOCATION_NONE
                               BLOBSTORE_SNAPSHOT_NONE BLOBSTORE_FORMAT_FILES sample_store)
                   sample_dst))
          (Some [ {| relation_type := BLOBSTORE_MAP; source := BLOBSTORE_ZERO;
                     first_block_src := 0; first_block_dst := 0; len_blocks := 10 |} ])
          sample_clone_world
        = Ret w' (Some (with_store (with_metadata "store" 30 BLOBSTORE_REVOCATION_NONE
                               BLOBSTORE_SNAPSHOT_NONE BLOBSTORE_FORMAT_FILES sample_store)
                   sample_dst), -1)
      ∧ same_disk sample_clone_world w'.
Proof.
  destruct (blockblob_clone_rejects sample_clone_world
              (with_store (with_metadata "store" 30 BLOBSTORE_REVOCATION_NONE
                             BLOBSTORE_SNAPSHOT_NONE BLOBSTORE_FORMAT_FILES sample_store)
                 sample_dst)) as (_ & _ & H).
  destruct (H [ {| relation_type := BLOBSTORE_MAP; source := BLOBSTORE_ZERO;
                   first_block_src := 0; first_block_dst := 0; len_blocks := 10 |} ])
    as (w' & Hrun & Hs & _).
  - discriminate.
  - apply Exists_cons_hd. discriminate.
  - exists w'. split; [exact Hrun|exact Hs].
Defined.

(** X17 on an empty directory: the store gets the defaults. *)
Lemma blobstore_open_creates_witness :
  ∃ w', blobstore_open "/s" 30 BLOBSTORE_FORMAT_ANY BLOBSTORE_REVOCATION_ANY
          BLOBSTORE_SNAPSHOT_ANY sample_bare_world
        = Ret w' (Some (with_metadata "0000002a0000002a0000002a" 30 BLOBSTORE_REVOCATION_NONE
                          BLOBSTORE_SNAPSHOT_DM BLOBSTORE_FORMAT_FILES sample_store)).
Proof.
  destruct (blobstore_open_creates "/s" "0000002a0000002a0000002a" 30 BLOBSTORE_FORMAT_ANY
              BLOBSTORE_REVOCATION_ANY BLOBSTORE_SNAPSHOT_ANY sample_bare_world)
    as (w' & H & _).
  - reflexivity.
  - reflexivity.
  - intros []; split; (simpl; lia) || reflexivity.
  - intros []; split; (simpl; lia) || reflexivity.
  - intros []; split; (simpl; lia) || reflexivity.
  - reflexivity.
  - reflexivity.
  - apply (bool_decide_unpack _). vm_compute. exact I.
  - reflexivity.
  - reflexivity.
  - reflexivity.
  - reflexivity.
  - split; reflexivity.
  - lia.
  - vm_compute. reflexivity.
  - exists w'. exact H.
Defined.

(** X18 on the sample store: a request for another limit is refused. *)
Lemma blobstore_open_existing_witness :
  ∃ w', blobstore_open "/s" 31 BLOBSTORE_FORMAT_ANY BLOBSTORE_REVOCATION_ANY
          BLOBSTORE_SNAPSHOT_ANY sample_kept_world = Ret w' None
      ∧ _blobstore_errno w' = BLOBSTORE_ERROR_INVAL.
Proof.
  destruct (blobstore_open_existing "/s" 31 BLOBSTORE_FORMAT_ANY BLOBSTORE_REVOCATION_ANY
              BLOBSTORE_SNAPSHOT_ANY sample_kept_world sample_store 0)
    as (w' & H & _ & _ & _ & He).
  - reflexivity.
  - reflexivity.
  - intros []; split; (simpl; lia) || reflexivity.
  - intros []; split; (simpl; lia) || reflexivity.
  - intros []; split; (simpl; lia) || reflexivity.
  - reflexivity.
  - apply (bool_decide_unpack _). vm_compute. exact I.
  - reflexivity.
  - reflexivity.
  - reflexivity.
  - reflexivity.
  - reflexivity.
  - split; reflexivity.
  - simpl. lia.
  - vm_compute. discriminate.
  - exists w'. split; [exact H|]. apply He. reflexivity.
Defined.

(** X19 and X20 on a directory two levels below the sample directory. *)
Lemma ensure_directories_exist_makes_witness :
  ∃ w', ensure_directories_exist "/s/a/b" false 448 sample_bare_world = Ret w' 1
      ∧ stat_ok w' "/s/a" ∧ stat_ok w' "/s/a/b".
Proof.
  destruct (ensure_directories_exist_makes "/s/a/b" false 448 sample_bare_world)
    as (w' & r & H & _ & _ & _ & _ & _ & _ & _ & Hdirs).
  assert (Hr : r = 1).
  { pose proof H as H'. vm_compute in H'. inversion H'. reflexivity. }
  subst r. exists w'. split; [exact H|]. split.
  - apply (Hdirs ltac:(lia) 4%nat); [simpl; lia|reflexivity].
  - apply (Hdirs ltac:(lia) 5%nat); [simpl; lia|reflexivity].
Defined.

Lemma ensure_directories_exist_twice_witness :
  ∃ w', ensure_directories_exist "/s/a/b" false 448 sample_bare_world = Ret w' 1
      ∧ ensure_directories_exist "/s/a/b" false 448 w' = Ret w' 0.
Proof.
  destruct (ensure_directories_exist_twice "/s/a/b" false 448 sample_bare_world)
    as (w' & r & H & Hagain).
  assert (Hr : r = 1).
  { pose proof H as H'. vm_compute in H'. inversion H'. reflexivity. }
  subst r. exists w'. split; [exact H|]. apply Hagain. lia.
Defined.

(** X15 where the device "a" is there and "b" is not: "a" is listed
    twice and removed at the first try, "b" is tried twice. *)
Lemma dm_delete_devices_each_once_witness :
  ∃ w', dm_delete_devices ["a"; "b"; "a"] (sample_world ∅ [DM_PATH +:+ "a"]) = Ret w' (-1)
      ∧ w_calls w' = [CallDmRemove "a"; CallDmRemove "b"; CallDmRemove "b"]
      ∧ _blobstore_errno w' = BLOBSTORE_ERROR_UNKNOWN.
Proof.
  destruct (dm_delete_devices_each_once ["a"; "b"; "a"] (sample_world ∅ [DM_PATH +:+ "a"])
              [] [1; 2]%nat true) as (w' & H & _ & Hcalls & _ & Herr & _).
  - reflexivity.
  - exists w'. split; [exact H|]. split; [exact Hcalls|exact Herr].
Defined.

(** X21 on a name that is listed twice: the second device cannot be made,
    and the first is removed. *)
Lemma dm_create_devices_all_or_none_witness :
  ∃ w', dm_create_devices ["a"; "a"] ["0 1 zero"; "0 2 zero"] sample_bare_world = Ret w' (-1)
      ∧ w_calls w' = [CallDmCreate "a" "0 1 zero"; CallDmCreate "a" "0 2 zero";
                      CallDmRemove "a"]
      ∧ _blobstore_errno w' = BLOBSTORE_ERROR_UNKNOWN.
Proof.
  destruct (dm_create_devices_all_or_none ["a"; "a"] ["0 1 zero"; "0 2 zero"]
              sample_bare_world [DM_PATH +:+ "a"] (Some 1%nat))
    as (w' & H & _ & _ & _ & _ & _ & Hcalls & Herr & _).
  - reflexivity.
  - exists w'. split; [exact H|]. split; [exact Hcalls|exact Herr].
Defined.

(** X22 on the one-byte descriptor file of the sample store. *)
Lemma blobstore_open_bad_descriptor_witness :
  ∃ w', blobstore_open "/s" 0 BLOBSTORE_FORMAT_ANY BLOBSTORE_REVOCATION_ANY
          BLOBSTORE_SNAPSHOT_ANY sample_store_world = Ret w' None
      ∧ _blobstore_errno w' = BLOBSTORE_ERROR_NOENT.
Proof.
  destruct (blobstore_open_bad_descriptor "/s" 0 BLOBSTORE_FORMAT_ANY
              BLOBSTORE_REVOCATION_ANY BLOBSTORE_SNAPSHOT_ANY sample_store_world "x" 0)
    as (w' & H & _ & _ & _ & He).
  - reflexivity.
  - reflexivity.
  - reflexivity.
  - apply (bool_decide_unpack _). vm_compute. exact I.
  - reflexivity.
  - reflexivity.
  - left. reflexivity.
  - exists w'. split; [exact H|]. exact He.
Defined.

(** X23 on an empty directory: the store is made with a limit of 30 and
    then opened with no limit given. *)
Lemma blobstore_open_again_witness :
  ∃ w1 w2,
    blobstore_open "/s" 30 BLOBSTORE_FORMAT_ANY BLOBSTORE_REVOCATION_ANY
      BLOBSTORE_SNAPSHOT_ANY sample_bare_world
    = Ret w1 (Some (with_metadata "0000002a0000002a0000002a" 30 BLOBSTORE_REVOCATION_NONE
                      BLOBSTORE_SNAPSHOT_DM BLOBSTORE_FORMAT_FILES sample_store))
    ∧ blobstore_open "/s" 0 BLOBSTORE_FORMAT_FILES BLOBSTORE_REVOCATION_ANY
        BLOBSTORE_SNAPSHOT_DM w1
      = Ret w2 (Some (with_metadata "0000002a0000002a0000002a" 30 BLOBSTORE_REVOCATION_NONE
                        BLOBSTORE_SNAPSHOT_DM BLOBSTORE_FORMAT_FILES sample_store)).
Proof.
  destruct (blobstore_open_again "/s" "0000002a0000002a0000002a" 30 0 BLOBSTORE_FORMAT_ANY
              BLOBSTORE_FORMAT_FILES BLOBSTORE_REVOCATION_ANY BLOBSTORE_REVOCATION_ANY
              BLOBSTORE_SNAPSHOT_ANY BLOBSTORE_SNAPSHOT_DM sample_bare_world)
    as (w1 & w2 & H1 & H2 & _).
  - reflexivity.
  - reflexivity.
  - intros []; split; (simpl; lia) || reflexivity.
  - intros []; split; (simpl; lia) || reflexivity.
  - intros []; split; (simpl; lia) || reflexivity.
  - intros e. reflexivity.
  - reflexivity.
  - apply (bool_decide_unpack _). vm_compute. exact I.
  - reflexivity.
  - reflexivity.
  - reflexivity.
  - reflexivity.
  - split; reflexivity.
  - lia.
  - vm_compute. reflexivity.
  - reflexivity.
  - exists w1, w2. split; [exact H1|exact H2].
Defined.

End witnesses.

(** ** Blobs with the same time stamp

    Against C3 as first stated, which has ties taken in the order of the
    list.  A [qsort] that keeps its contract is free in the order of the
    elements that compare equal: with the one that reverses them, of two
    purgeable blobs modified at the same time the second of the list is
    purged and the first one stays. *)

Section ties.
#[local] Existing Instance sample_header.
#[local] Existing Instance reversing_ext.

Lemma purge_order_among_ties :
  let r := purge_blockblobs_lru_log sample_store [sample_old; sample_twin] 10
             sample_purge_world in
  qsort_contract ext_qsort
  ∧ purgeable sample_old ∧ purgeable sample_twin
  ∧ last_modified sample_old = last_modified sample_twin
  ∧ value_of r = Some (10, [(sample_twin, 10)])
  ∧ is_file (w_fs (world_after r sample_purge_world) !! "/s/old.blocks") = true
  ∧ is_file (w_fs (world_after r sample_purge_world) !! "/s/new.blocks") = false.
Proof.
  intros r. split; [apply (sample_qsort_contract false)|].
  split; [reflexivity|]. split; [reflexivity|]. split; [reflexivity|].
  split; [|split]; vm_compute; reflexivity.
Qed.

End ties.
